(** * AETRON wallet extension: key vault, connection manager, signing
      pipeline and dApp approval broker

    A shallow embedding of the background services of the extension:

    - [Encoding]: the platform's [TextEncoder] / [TextDecoder] (UTF-8), as
      the crypto module calls them;
    - [Crypto]: [src/shared/wallet/crypto.ts] ([deriveKey], [encrypt],
      [decrypt]) over the Web Crypto primitives;
    - [WalletService]: [background/walletService.ts];
    - [ConnectionManager]: [background/connectionManager.ts];
    - [DappHandler]: [background/dappHandler.ts].

    Bytes ([Uint8Array] elements) are [Byte.byte]; JavaScript strings that
    reach the text encoder are lists of UTF-16 code units; identifiers and
    error messages are Rocq strings. *)

From Stdlib Require Import ZArith NArith List Lia Bool Strings.Byte.
From stdpp Require Import base option list gmap strings.

Open Scope Z_scope.

(** ** JavaScript values shared by all modules *)

#[global] Instance byte_eq_dec : EqDecision byte := Byte.byte_eq_dec.

(** A thrown JavaScript value: [new Error(message)] has name ["Error"], the
    platform's DOMExceptions and built-in errors carry their own name. *)
Record exn := Exn { exn_name : string; exn_message : string }.

#[global] Instance exn_eq_dec : EqDecision exn.
Proof. solve_decision. Defined.

Definition Error (message : string) : exn := Exn "Error" message.
Definition OperationError : exn := Exn "OperationError" "".
Definition TypeError : exn := Exn "TypeError" "".
Definition InvalidCharacterError : exn := Exn "InvalidCharacterError" "".
Definition RangeError (message : string) : exn := Exn "RangeError" message.

(** The completion of a call: a returned value or a thrown one. *)
Inductive completion (A : Type) : Type :=
| Return (a : A)
| Throw (e : exn).
Arguments Return {A} a.
Arguments Throw {A} e.

Definition bindC {A B} (c : completion A) (k : A -> completion B) : completion B :=
  match c with
  | Return a => k a
  | Throw e => Throw e
  end.

(** [try { body } catch (e) { handler(e) }] *)
Definition tryCatch {A} (body : completion A) (handler : exn -> completion A) : completion A :=
  match body with
  | Return a => Return a
  | Throw e => handler e
  end.

Definition Z_of_byte (b : byte) : Z := Z.of_N (Byte.to_N b).

Definition byte_of_Z (z : Z) : byte :=
  match Byte.of_N (Z.to_N (z mod 256)) with
  | Some b => b
  | None => x00
  end.

(** A JavaScript string as the text encoder sees it: UTF-16 code units. *)
Definition jsstring := list Z.

(** ** TextEncoder / TextDecoder *)

Module Encoding.

Definition isLead (u : Z) : bool := (0xD800 <=? u) && (u <=? 0xDBFF).
Definition isTrail (u : Z) : bool := (0xDC00 <=? u) && (u <=? 0xDFFF).
Definition isCodeUnit (u : Z) : bool := (0 <=? u) && (u <? 0x10000).

(** Conversion of a string to scalar values: a surrogate pair is one code
    point, an unpaired surrogate becomes U+FFFD. *)
Fixpoint toScalars (s : jsstring) : list Z :=
  match s with
  | [] => []
  | u :: rest =>
      if isLead u then
        match rest with
        | v :: rest' =>
            if isTrail v
            then (0x10000 + (u - 0xD800) * 0x400 + (v - 0xDC00)) :: toScalars rest'
            else 0xFFFD :: toScalars rest
        | [] => [0xFFFD]
        end
      else if isTrail u then 0xFFFD :: toScalars rest
      else u :: toScalars rest
  end.

(** The UTF-8 encoder's bytes for one scalar value. *)
Definition utf8Bytes (c : Z) : list Z :=
  if c <? 0x80 then [c]
  else if c <? 0x800 then [0xC0 + c / 0x40; 0x80 + c mod 0x40]
  else if c <? 0x10000 then
    [0xE0 + c / 0x1000; 0x80 + (c / 0x40) mod 0x40; 0x80 + c mod 0x40]
  else
    [0xF0 + c / 0x40000; 0x80 + (c / 0x1000) mod 0x40;
     0x80 + (c / 0x40) mod 0x40; 0x80 + c mod 0x40].

Definition utf8EncodeZ (s : jsstring) : list Z :=
  concat (map utf8Bytes (toScalars s)).

(** [new TextEncoder().encode(s)] *)
Definition encode (s : jsstring) : list byte := map byte_of_Z (utf8EncodeZ s).

(** The UTF-8 decoder's state. *)
Record decoder := Decoder {
  code_point : Z;
  bytes_seen : Z;
  bytes_needed : Z;
  lower_boundary : Z;
  upper_boundary : Z
}.

Definition decoder0 : decoder := Decoder 0 0 0 0x80 0xBF.

(** A byte read when no sequence is open: the emitted code points and the
    next state. *)
Definition leadByte (b : Z) : list Z * decoder :=
  if b <=? 0x7F then ([b], decoder0)
  else if (0xC2 <=? b) && (b <=? 0xDF) then
    ([], Decoder (Z.land b 0x1F) 0 1 0x80 0xBF)
  else if (0xE0 <=? b) && (b <=? 0xEF) then
    ([], Decoder (Z.land b 0xF) 0 2
           (if b =? 0xE0 then 0xA0 else 0x80)
           (if b =? 0xED then 0x9F else 0xBF))
  else if (0xF0 <=? b) && (b <=? 0xF4) then
    ([], Decoder (Z.land b 0x7) 0 3
           (if b =? 0xF0 then 0x90 else 0x80)
           (if b =? 0xF4 then 0x8F else 0xBF))
  else ([0xFFFD], decoder0).

(** The decoder with error mode "replacement": a byte outside the expected
    range ends the open sequence with U+FFFD and is read again as a lead
    byte; an open sequence at the end of input gives U+FFFD. *)
Fixpoint utf8DecodeFrom (st : decoder) (bs : list Z) : list Z :=
  match bs with
  | [] => if bytes_needed st =? 0 then [] else [0xFFFD]
  | b :: rest =>
      if bytes_needed st =? 0 then
        let '(out, st') := leadByte b in out ++ utf8DecodeFrom st' rest
      else if (lower_boundary st <=? b) && (b <=? upper_boundary st) then
        let cp := Z.lor (Z.shiftl (code_point st) 6) (Z.land b 0x3F) in
        if bytes_seen st + 1 =? bytes_needed st
        then cp :: utf8DecodeFrom decoder0 rest
        else utf8DecodeFrom
               (Decoder cp (bytes_seen st + 1) (bytes_needed st) 0x80 0xBF) rest
      else
        let '(out, st') := leadByte b in
        0xFFFD :: out ++ utf8DecodeFrom st' rest
  end.

(** A leading byte order mark is consumed (the decoder's [ignoreBOM] is
    false by default). *)
Definition stripBOM (bs : list Z) : list Z :=
  match bs with
  | 0xEF :: 0xBB :: 0xBF :: rest => rest
  | _ => bs
  end.

Definition utf16Units (c : Z) : list Z :=
  if c <? 0x10000 then [c]
  else [0xD800 + (c - 0x10000) / 0x400; 0xDC00 + (c - 0x10000) mod 0x400].

Definition utf8DecodeZ (bs : list Z) : jsstring :=
  concat (map utf16Units (utf8DecodeFrom decoder0 (stripBOM bs))).

(** [new TextDecoder().decode(bytes)] *)
Definition decode (bs : list byte) : jsstring := utf8DecodeZ (map Z_of_byte bs).

(** [s.isWellFormed()]: every code unit is 16 bits wide and no surrogate is
    unpaired. *)
Fixpoint isWellFormed (s : jsstring) : bool :=
  match s with
  | [] => true
  | u :: rest =>
      isCodeUnit u &&
      (if isLead u then
         match rest with
         | v :: rest' => isTrail v && isWellFormed rest'
         | [] => false
         end
       else negb (isTrail u) && isWellFormed rest)
  end.

Definition startsWithBOM (s : jsstring) : bool :=
  match s with
  | u :: _ => u =? 0xFEFF
  | [] => false
  end.

(** Unicode scalar values, and the values a byte can take. *)
Definition scalar (c : Z) : Prop := 0 <= c < 0xD800 \/ 0xE000 <= c < 0x110000.

Definition isByteZ (z : Z) : Prop := 0 <= z < 256.

End Encoding.


(** ** shared/wallet/crypto.ts *)

Module Crypto.

(** The Web platform primitives the module calls.  [sha256] is the digest
    behind ['PBKDF2'] with [hash: 'SHA-256']; [aesGcmEncrypt key iv data] and
    [aesGcmDecrypt key iv data] are [crypto.subtle.encrypt] / [decrypt] with
    [{ name: 'AES-GCM', iv }] ([None]: the ciphertext does not authenticate,
    the platform throws an OperationError); [btoa] and [atob] work on binary
    strings and throw an InvalidCharacterError outside their domain. *)
Class WebCrypto := {
  sha256 : list byte -> list byte;
  aesGcmEncrypt : list byte -> list byte -> list byte -> list byte;
  aesGcmDecrypt : list byte -> list byte -> list byte -> option (list byte);
  btoa : jsstring -> completion jsstring;
  atob : jsstring -> completion jsstring
}.

(** What the platform guarantees of them on every input. *)
Class WebCryptoSpec (W : WebCrypto) : Prop := {
  sha256_length : forall m, length (sha256 m) = 32%nat;
  aesGcm_decrypt_encrypt : forall key iv data,
    aesGcmDecrypt key iv (aesGcmEncrypt key iv data) = Some data;
  atob_btoa : forall binary, Forall (fun u => 0 <= u < 256) binary ->
    exists base64, btoa binary = Return base64 /\ atob base64 = Return binary
}.

(** [crypto.getRandomValues]: the entropy source is a tape of bytes, read
    from its head. *)
Definition entropy := nat -> byte.

Definition getRandomValues (n : nat) (tape : entropy) : list byte * entropy :=
  (map tape (seq 0 n), fun i => tape (n + i)%nat).

Definition PBKDF2_ITERATIONS : Z := 900000.
Definition SALT_BYTES : nat := 32.
Definition IV_BYTES : nat := 12.

Record kdfParams := KdfParams {
  iterations : option Z;
  hash : option string
}.

(** The encrypted package, as stored with a wallet or hotkey. The fields
    [algorithm], [kdf] and [kdfParams] are optional for [decrypt]. *)
Record package := Package {
  ciphertext : jsstring;
  iv : jsstring;
  salt : jsstring;
  algorithm : option string;
  kdf : option string;
  kdfParameters : option kdfParams
}.

Section WithWebCrypto.
Context {W : WebCrypto}.

(** [uint8ArrayToBase64]: the loop appends [String.fromCharCode(bytes[i])]. *)
Definition uint8ArrayToBase64 (bytes : list byte) : completion jsstring :=
  let binary := fold_left (fun binary b => binary ++ [Z_of_byte b]) bytes [] in
  btoa binary.

(** [base64ToUint8Array]: the loop stores [binaryString.charCodeAt(i)]. *)
Definition base64ToUint8Array (base64 : jsstring) : completion (list byte) :=
  bindC (atob base64) (fun binaryString => Return (map byte_of_Z binaryString)).

Definition xorByte (a b : byte) : byte :=
  byte_of_Z (Z.lxor (Z_of_byte a) (Z_of_byte b)).

(** HMAC (RFC 2104) over [sha256], block size 64: a key longer than a block
    is hashed, and the key is then padded with zeros to the block size. *)
Definition hmacBlockKey (key : list byte) : list byte :=
  let k := if (64 <? length key)%nat then sha256 key else key in
  k ++ replicate (64 - length k) x00.

Definition hmac (key message : list byte) : list byte :=
  let k0 := hmacBlockKey key in
  sha256 (map (xorByte x5c) k0 ++ sha256 (map (xorByte x36) k0 ++ message)).

Definition int32be (i : Z) : list byte :=
  [byte_of_Z (i / 0x1000000); byte_of_Z (i / 0x10000); byte_of_Z (i / 0x100); byte_of_Z i].

(** PBKDF2 (RFC 8018), block [i]: the exclusive-or of the [c] iterates of
    the pseudo-random function keyed with the password. *)
Definition pbkdf2Block (password salt : list byte) (c : N) (i : Z) : list byte :=
  let u1 := hmac password (salt ++ int32be i) in
  snd (N.iter (c - 1)
         (fun ut : list byte * list byte =>
            let u := hmac password (fst ut) in (u, zip_with xorByte (snd ut) u))
         (u1, u1)).

(** [deriveKey]: a 256-bit AES-GCM key, one PBKDF2 block of the 32-byte
    digest.  The platform reads [iterations] as an [EnforceRange] unsigned
    long: a count below 0 or above 2^32 - 1 is a TypeError.  A zero count is
    an OperationError. *)
Definition deriveKey (password : jsstring) (salt : list byte) (iterations : Z)
  : completion (list byte) :=
  let passwordBytes := Encoding.encode password in
  if (iterations <? 0) || (4294967295 <? iterations) then Throw TypeError
  else if iterations =? 0 then Throw OperationError
  else Return (take 32 (pbkdf2Block passwordBytes salt (Z.to_N iterations) 1)).

Definition encrypt (data password : jsstring) (tape : entropy)
  : completion package * entropy :=
  let dataBytes := Encoding.encode data in
  let '(salt, tape) := getRandomValues SALT_BYTES tape in
  let '(iv, tape) := getRandomValues IV_BYTES tape in
  (bindC (deriveKey password salt PBKDF2_ITERATIONS) (fun key =>
   let encryptedBytes := aesGcmEncrypt key iv dataBytes in
   bindC (uint8ArrayToBase64 encryptedBytes) (fun ciphertext64 =>
   bindC (uint8ArrayToBase64 iv) (fun iv64 =>
   bindC (uint8ArrayToBase64 salt) (fun salt64 =>
   Return {| ciphertext := ciphertext64;
             iv := iv64;
             salt := salt64;
             algorithm := Some "aes-256-gcm"%string;
             kdf := Some "pbkdf2"%string;
             kdfParameters :=
               Some (KdfParams (Some PBKDF2_ITERATIONS) (Some "SHA-256"%string)) |})))),
   tape).

(** [encryptedData.kdfParams?.iterations || PBKDF2_ITERATIONS] *)
Definition iterationsOf (encryptedData : package) : Z :=
  match kdfParameters encryptedData with
  | Some (KdfParams (Some n) _) => if n =? 0 then PBKDF2_ITERATIONS else n
  | _ => PBKDF2_ITERATIONS
  end.

Definition decrypt (encryptedData : package) (password : jsstring) : completion jsstring :=
  bindC (base64ToUint8Array (ciphertext encryptedData)) (fun ciphertext =>
  bindC (base64ToUint8Array (iv encryptedData)) (fun iv =>
  bindC (base64ToUint8Array (salt encryptedData)) (fun salt =>
  let iterations := iterationsOf encryptedData in
  bindC (deriveKey password salt iterations) (fun key =>
  match aesGcmDecrypt key iv ciphertext with
  | Some decryptedBuffer => Return (Encoding.decode decryptedBuffer)
  | None => Throw OperationError
  end)))).

End WithWebCrypto.

End Crypto.


(** ** background/walletService.ts *)

Module WalletService.

Import Crypto.

(** The keyring of the chain library ([@polkadot/keyring]) and the two
    helpers [hexToU8a] and [JSON.parse]: each may throw.  [keystorePair json
    password] stands for [addFromJson], [decodePkcs8] and [addPair] on a
    parsed keystore. *)
Class Keyring := {
  KeyringPair : Type;
  Json : Type;
  addFromUri : jsstring -> completion KeyringPair;
  addFromSeed : list byte -> completion KeyringPair;
  hexToU8a : jsstring -> completion (list byte);
  JSON_parse : jsstring -> completion Json;
  keystorePair : Json -> jsstring -> completion KeyringPair
}.

Inductive WalletType := hd | privateKey | keystore | multisig | watch | dev.

#[global] Instance WalletType_eq_dec : EqDecision WalletType.
Proof. solve_decision. Defined.

Module EncryptedWallet.
Record t := Make {
  id : string;
  version : Z;
  type : WalletType;
  name : string;
  address : string;
  encrypted : package;
  derivationPath : option jsstring;
  keystorePassword : option package;
  createdAt : Z;
  updatedAt : Z
}.
End EncryptedWallet.

Module WalletStoreSettings.
Record t := Make {
  autoLockTimeout : Z;
  requirePasswordOnSend : bool;
  showTestNetworks : bool;
  customNodeUrl : option string;
  language : string;
  selectedNetworkId : option string
}.
End WalletStoreSettings.

Module WalletStore.
Record t := Make {
  version : Z;
  wallets : list EncryptedWallet.t;
  activeWalletId : option string;
  settings : WalletStoreSettings.t
}.
End WalletStore.

Module EncryptedHotkey.
Record t := Make {
  id : string;
  name : string;
  address : string;
  coldkeyId : string;
  encrypted : package;
  registeredNeuronets : list Z;
  createdAt : Z;
  backedUp : bool
}.
End EncryptedHotkey.

Module UnlockAttempt.
Record t := Make { count : Z; lastAttempt : Z }.
End UnlockAttempt.

Module LockState.
Record t := Make { isLocked : bool; lastUnlockedAt : option Z }.
End LockState.

Definition DEFAULT_SETTINGS : WalletStoreSettings.t :=
  WalletStoreSettings.Make 15 true true None "en" None.

Definition DEFAULT_WALLET_STORE : WalletStore.t :=
  WalletStore.Make 1 [] None DEFAULT_SETTINGS.

Section WithPlatform.
Context {W : WebCrypto} {K : Keyring}.

(** The private fields of the service. [lockTimeout] holds the time at
    which the pending auto-lock timer fires. *)
Record service := Service {
  unlockedWallets : gmap string KeyringPair;
  unlockedHotkeys : gmap string KeyringPair;
  unlockAttempts : gmap string UnlockAttempt.t;
  lockTimeout : option Z;
  isInitialized : bool
}.

(** The keys of [chrome.storage.local] the service reads and writes. *)
Record storage := Storage {
  aetron_wallet_store : option WalletStore.t;
  aetron_hotkey_store : option (list EncryptedHotkey.t);
  aetron_lock_state : option LockState.t
}.

(** Everything a call can read or change: the service object, the
    persisted storage, the clock behind [Date.now()], the entropy source,
    and a log of the calls made to [decrypt] (kept to tell which operations
    attempt a decryption; nothing reads it). *)
Record world := World {
  this : service;
  local : storage;
  now : Z;
  random : entropy;
  decryptions : list (package * jsstring)
}.

(** An asynchronous method: it changes the world and returns or throws.
    Changes made before a throw stay. *)
Definition M (A : Type) : Type := world -> completion A * world.

Definition ret {A} (a : A) : M A := fun w => (Return a, w).
Definition throw {A} (e : exn) : M A := fun w => (Throw e, w).

Definition bind {A B} (m : M A) (k : A -> M B) : M B := fun w =>
  match m w with
  | (Return a, w') => k a w'
  | (Throw e, w') => (Throw e, w')
  end.

Definition tryCatchM {A} (body : M A) (handler : exn -> M A) : M A := fun w =>
  match body w with
  | (Return a, w') => (Return a, w')
  | (Throw e, w') => handler e w'
  end.

Notation "'let*' x ':=' m 'in' k" := (bind m (fun x => k))
  (at level 10, x name, m at level 100, k at level 200).
Notation "'do' m 'in' k" := (bind m (fun _ => k))
  (at level 10, m at level 100, k at level 200).

Definition getThis : M service := fun w => (Return (this w), w).
Definition setThis (f : service -> service) : M unit := fun w =>
  (Return tt, World (f (this w)) (local w) (now w) (random w) (decryptions w)).
Definition getLocal : M storage := fun w => (Return (local w), w).
Definition setLocal (f : storage -> storage) : M unit := fun w =>
  (Return tt, World (this w) (f (local w)) (now w) (random w) (decryptions w)).

(** [Date.now()] *)
Definition Date_now : M Z := fun w => (Return (now w), w).

(** [await decrypt(package, password)] *)
Definition decryptM (encryptedData : package) (password : jsstring) : M jsstring := fun w =>
  (decrypt encryptedData password,
   World (this w) (local w) (now w) (random w)
         (decryptions w ++ [(encryptedData, password)])).

(** [await encrypt(data, password)] *)
Definition encryptM (data password : jsstring) : M package := fun w =>
  let '(result, tape) := encrypt data password (random w) in
  (result, World (this w) (local w) (now w) tape (decryptions w)).

(** lib/storage.ts *)
(** [store || DEFAULT_WALLET_STORE] *)
Definition walletStoreIn (s : storage) : WalletStore.t :=
  default DEFAULT_WALLET_STORE (aetron_wallet_store s).

(** [store || []] *)
Definition hotkeyStoreIn (s : storage) : list EncryptedHotkey.t :=
  default [] (aetron_hotkey_store s).

Definition getWalletStore : M WalletStore.t :=
  let* s := getLocal in
  ret (walletStoreIn s).

Definition saveWalletStore (store : WalletStore.t) : M unit :=
  setLocal (fun s => Storage (Some store) (aetron_hotkey_store s) (aetron_lock_state s)).

Definition getHotkeyStore : M (list EncryptedHotkey.t) :=
  let* s := getLocal in
  ret (hotkeyStoreIn s).

Definition saveHotkeyStore (hotkeys : list EncryptedHotkey.t) : M unit :=
  setLocal (fun s => Storage (aetron_wallet_store s) (Some hotkeys) (aetron_lock_state s)).

Definition saveLockState (state : LockState.t) : M unit :=
  setLocal (fun s => Storage (aetron_wallet_store s) (aetron_hotkey_store s) (Some state)).

Definition initialize : M unit :=
  setThis (fun t => Service (unlockedWallets t) (unlockedHotkeys t) (unlockAttempts t)
                      (lockTimeout t) true).

(** [setTimeout(handler, timeout)]: the platform takes the timeout as a
    [long], that is modulo 2^32 into the range from -2^31 to 2^31 - 1, and a
    negative one as 0. *)
Definition timerDelay (timeout : Z) : Z :=
  Z.max 0 ((timeout + 2147483648) mod 4294967296 - 2147483648).

(** [resetLockTimeout(minutes)]: the pending timer is cleared; a positive
    timeout arms a new one, with the delay [minutes * 60 * 1000] as
    [setTimeout] takes it. *)
Definition resetLockTimeout (minutes : Z) : M unit :=
  let* t := Date_now in
  setThis (fun s => Service (unlockedWallets s) (unlockedHotkeys s) (unlockAttempts s)
                      (if 0 <? minutes then Some (t + timerDelay (minutes * 60 * 1000))
                       else None)
                      (isInitialized s)).

Definition setUnlockAttempts (f : gmap string UnlockAttempt.t -> gmap string UnlockAttempt.t)
  : M unit :=
  setThis (fun s => Service (unlockedWallets s) (unlockedHotkeys s) (f (unlockAttempts s))
                      (lockTimeout s) (isInitialized s)).

Definition setUnlockedWallets (f : gmap string KeyringPair -> gmap string KeyringPair)
  : M unit :=
  setThis (fun s => Service (f (unlockedWallets s)) (unlockedHotkeys s) (unlockAttempts s)
                      (lockTimeout s) (isInitialized s)).

Definition findWallet (walletId : string) (store : WalletStore.t) : option EncryptedWallet.t :=
  List.find (fun w => String.eqb (EncryptedWallet.id w) walletId) (WalletStore.wallets store).

(** The [switch (wallet.type)] of [unlockWallet], after the secret was
    decrypted. *)
Definition pairOf (wallet : EncryptedWallet.t) (decrypted password : jsstring)
  : M KeyringPair :=
  match EncryptedWallet.type wallet with
  | hd => fun w =>
      (addFromUri (decrypted ++ default [] (EncryptedWallet.derivationPath wallet)), w)
  | privateKey => fun w =>
      (bindC (hexToU8a decrypted) (fun bytes => addFromSeed (take 32 bytes)), w)
  | keystore =>
      let* keystoreJson := (fun w => (JSON_parse decrypted, w)) in
      match EncryptedWallet.keystorePassword wallet with
      | None => throw (Error "Keystore password not found")
      | Some stored =>
          let* keystorePass := decryptM stored password in
          fun w => (keystorePair keystoreJson keystorePass, w)
      end
  | _ => throw (Error "Unknown wallet type")
  end.

Definition unlockWallet (walletId : string) (password : jsstring) : M bool :=
  do initialize in
  let* s := getThis in
  (* Rate limiting *)
  let stored := unlockAttempts s !! walletId in
  let attempts := default (UnlockAttempt.Make 0 0) stored in
  let* now := Date_now in
  (* Reset after 15 minutes; [attempts] is the object held by the map, when
     the map holds one *)
  let* attempts :=
    if 15 * 60 * 1000 <? now - UnlockAttempt.lastAttempt attempts then
      let attempts := UnlockAttempt.Make 0 (UnlockAttempt.lastAttempt attempts) in
      do (match stored with
          | Some _ => setUnlockAttempts (insert walletId attempts)
          | None => ret tt
          end) in
      ret attempts
    else ret attempts in
  if 5 <=? UnlockAttempt.count attempts then
    throw (Error "Too many failed attempts. Please wait 15 minutes.")
  else
    let* store := getWalletStore in
    match findWallet walletId store with
    | None => throw (Error "Wallet not found")
    | Some wallet =>
        match EncryptedWallet.type wallet with
        | watch | multisig => ret true
        | _ =>
            tryCatchM
              (let* decrypted := decryptM (EncryptedWallet.encrypted wallet) password in
               let* pair := pairOf wallet decrypted password in
               do setUnlockedWallets (insert walletId pair) in
               do setUnlockAttempts (delete walletId) in
               do resetLockTimeout
                    (WalletStoreSettings.autoLockTimeout (WalletStore.settings store)) in
               let* t := Date_now in
               do saveLockState (LockState.Make false (Some t)) in
               ret true)
              (fun err =>
                 do setUnlockAttempts
                      (insert walletId
                         (UnlockAttempt.Make (UnlockAttempt.count attempts + 1) now)) in
                 ret false)
        end
    end.

Definition lock : M unit :=
  do setThis (fun s => Service ∅ ∅ (unlockAttempts s) None (isInitialized s)) in
  saveLockState (LockState.Make true None).

Definition isUnlocked (walletId : string) (s : service) : bool :=
  bool_decide (is_Some (unlockedWallets s !! walletId)).

Definition getKeypair (walletId : string) (s : service) : option KeyringPair :=
  unlockedWallets s !! walletId.

Definition deleteWallet (walletId : string) : M unit :=
  let* store := getWalletStore in
  let wallets := List.filter (fun w => negb (String.eqb (EncryptedWallet.id w) walletId))
                   (WalletStore.wallets store) in
  do setUnlockedWallets (delete walletId) in
  let activeWalletId :=
    if bool_decide (WalletStore.activeWalletId store = Some walletId) then
      match wallets with
      | first :: _ =>
          if String.eqb (EncryptedWallet.id first) "" then None
          else Some (EncryptedWallet.id first)
      | [] => None
      end
    else WalletStore.activeWalletId store in
  do saveWalletStore
       (WalletStore.Make (WalletStore.version store) wallets activeWalletId
          (WalletStore.settings store)) in
  (* Delete associated hotkeys *)
  let* hotkeys := getHotkeyStore in
  let filtered := List.filter
                    (fun h => negb (String.eqb (EncryptedHotkey.coldkeyId h) walletId))
                    hotkeys in
  saveHotkeyStore filtered.

(** [wallet] in [changePassword] is the first element of [store.wallets]
    with the id: assigning its fields changes that element of the store. *)
Fixpoint updateFirst {A} (p : A -> bool) (f : A -> A) (l : list A) : list A :=
  match l with
  | [] => []
  | x :: rest => if p x then f x :: rest else x :: updateFirst p f rest
  end.

(** [wallet.encrypted = encrypted; wallet.updatedAt = t] *)
Definition withSecret (wallet : EncryptedWallet.t) (encrypted : package) (t : Z)
  : EncryptedWallet.t :=
  EncryptedWallet.Make (EncryptedWallet.id wallet) (EncryptedWallet.version wallet)
    (EncryptedWallet.type wallet) (EncryptedWallet.name wallet)
    (EncryptedWallet.address wallet) encrypted (EncryptedWallet.derivationPath wallet)
    (EncryptedWallet.keystorePassword wallet) (EncryptedWallet.createdAt wallet) t.

(** [hotkey.encrypted = encrypted] *)
Definition withEncrypted (hotkey : EncryptedHotkey.t) (encrypted : package)
  : EncryptedHotkey.t :=
  EncryptedHotkey.Make (EncryptedHotkey.id hotkey) (EncryptedHotkey.name hotkey)
    (EncryptedHotkey.address hotkey) (EncryptedHotkey.coldkeyId hotkey) encrypted
    (EncryptedHotkey.registeredNeuronets hotkey) (EncryptedHotkey.createdAt hotkey)
    (EncryptedHotkey.backedUp hotkey).

(** The loop over the hotkeys in [changePassword]. *)
Fixpoint reencryptHotkeys (walletId : string) (currentPassword newPassword : jsstring)
    (hotkeys : list EncryptedHotkey.t) : M (list EncryptedHotkey.t) :=
  match hotkeys with
  | [] => ret []
  | hotkey :: rest =>
      let* hotkey :=
        if String.eqb (EncryptedHotkey.coldkeyId hotkey) walletId then
          tryCatchM
            (let* hotkeyMnemonic := decryptM (EncryptedHotkey.encrypted hotkey) currentPassword in
             let* encrypted := encryptM hotkeyMnemonic newPassword in
             ret (withEncrypted hotkey encrypted))
            (fun _ => (* Hotkey might use different password, skip *) ret hotkey)
        else ret hotkey in
      let* rest := reencryptHotkeys walletId currentPassword newPassword rest in
      ret (hotkey :: rest)
  end.

Definition changePassword (walletId : string) (currentPassword newPassword : jsstring)
  : M unit :=
  let* store := getWalletStore in
  match findWallet walletId store with
  | None => throw (Error "Wallet not found")
  | Some wallet =>
      match EncryptedWallet.type wallet with
      | watch | multisig => throw (Error "Cannot change password for this wallet type")
      | _ =>
          (* Decrypt with current password *)
          let* decrypted :=
            tryCatchM (decryptM (EncryptedWallet.encrypted wallet) currentPassword)
              (fun _ => throw (Error "Current password is incorrect")) in
          (* Re-encrypt with new password *)
          let* encrypted := encryptM decrypted newPassword in
          let* t := Date_now in
          let store :=
            WalletStore.Make (WalletStore.version store)
              (updateFirst (fun w => String.eqb (EncryptedWallet.id w) walletId)
                 (fun w => withSecret w encrypted t)
                 (WalletStore.wallets store))
              (WalletStore.activeWalletId store) (WalletStore.settings store) in
          do saveWalletStore store in
          (* Re-encrypt associated hotkeys *)
          let* hotkeys := getHotkeyStore in
          let* hotkeys := reencryptHotkeys walletId currentPassword newPassword hotkeys in
          saveHotkeyStore hotkeys
      end
  end.

(** *** Worlds and scenarios used to state the properties *)

Definition tooMany : exn := Error "Too many failed attempts. Please wait 15 minutes.".

(** The world after [await this.initialize()]. *)
Definition initialized (w : world) : world :=
  World (Service (unlockedWallets (this w)) (unlockedHotkeys (this w))
           (unlockAttempts (this w)) (lockTimeout (this w)) true)
        (local w) (now w) (random w) (decryptions w).

(** The same world at clock reading [t]. *)
Definition atTime (t : Z) (w : world) : world :=
  World (this w) (local w) t (random w) (decryptions w).

(** Unlock attempts made one after the other, each at its clock reading. *)
Fixpoint unlockAttemptsAt (walletId : string) (attempts : list (Z * jsstring)) (w : world)
  : list (completion bool) * world :=
  match attempts with
  | [] => ([], w)
  | (t, password) :: rest =>
      let '(result, w1) := unlockWallet walletId password (atTime t w) in
      let '(results, w2) := unlockAttemptsAt walletId rest w1 in
      (result :: results, w2)
  end.

(** What [pairOf] returns and which decryptions it makes, whatever the
    world. *)
Definition pairResult (wallet : EncryptedWallet.t) (decrypted password : jsstring)
  : completion KeyringPair * list (package * jsstring) :=
  match EncryptedWallet.type wallet with
  | hd => (addFromUri (decrypted ++ default [] (EncryptedWallet.derivationPath wallet)), [])
  | privateKey => (bindC (hexToU8a decrypted) (fun bytes => addFromSeed (take 32 bytes)), [])
  | keystore =>
      match JSON_parse decrypted with
      | Throw e => (Throw e, [])
      | Return keystoreJson =>
          match EncryptedWallet.keystorePassword wallet with
          | None => (Throw (Error "Keystore password not found"), [])
          | Some stored =>
              (bindC (decrypt stored password) (keystorePair keystoreJson),
               [(stored, password)])
          end
      end
  | _ => (Throw (Error "Unknown wallet type"), [])
  end.

(** The attempts on record for an id, as [unlockWallet] reads them: none
    on record, or on record for more than 15 minutes, counts as zero. *)
Definition failuresOnRecord (w : world) (walletId : string) : Z :=
  match unlockAttempts (this w) !! walletId with
  | Some a => if 15 * 60 * 1000 <? now w - UnlockAttempt.lastAttempt a then 0
              else UnlockAttempt.count a
  | None => 0
  end.

(** The map of attempts after the rate-limit check: an expired record has
    its count set to zero in place. *)
Definition attemptsAfterCheck (w : world) (walletId : string)
  : gmap string UnlockAttempt.t :=
  match unlockAttempts (this w) !! walletId with
  | Some a =>
      if 15 * 60 * 1000 <? now w - UnlockAttempt.lastAttempt a
      then <[walletId := UnlockAttempt.Make 0 (UnlockAttempt.lastAttempt a)]>
             (unlockAttempts (this w))
      else unlockAttempts (this w)
  | None => unlockAttempts (this w)
  end.

(** [k] failures on record for the id, the last at [tl]. *)
Definition recorded (w : world) (walletId : string) (k : nat) (tl : Z) : Prop :=
  match k with
  | O => unlockAttempts (this w) !! walletId = None
  | S _ => unlockAttempts (this w) !! walletId = Some (UnlockAttempt.Make (Z.of_nat k) tl)
  end.

(** What the loop of [changePassword] does to one hotkey: a hotkey of the
    wallet whose secret opens under the current password is sealed again
    under the new one, any other hotkey is left as it is. *)
Definition reencrypted (walletId : string) (currentPassword newPassword : jsstring)
    (hotkey hotkey' : EncryptedHotkey.t) : Prop :=
  if String.eqb (EncryptedHotkey.coldkeyId hotkey) walletId then
    match decrypt (EncryptedHotkey.encrypted hotkey) currentPassword with
    | Return mnemonic =>
        exists tape pkg,
          fst (encrypt mnemonic newPassword tape) = Return pkg /\
          decrypt pkg newPassword = Return (Encoding.decode (Encoding.encode mnemonic)) /\
          hotkey' = withEncrypted hotkey pkg
    | Throw _ => hotkey' = hotkey
    end
  else hotkey' = hotkey.

(** A wallet that holds a secret: [unlockWallet] decrypts it. *)
Definition holdsSecret (wallet : EncryptedWallet.t) : bool :=
  match EncryptedWallet.type wallet with
  | watch | multisig => false
  | _ => true
  end.

End WithPlatform.

Arguments service {K}.
Arguments world {K}.
Arguments M {K} A.

End WalletService.

(** ** background/connectionManager.ts *)

Module ConnectionManager.

Definition CONNECTION_TIMEOUT : Z := 10000.

(** Sr25519 signature type prefix for MultiSignature format *)
Definition SR25519_TYPE_PREFIX : byte := x01.

(** [target.set(source, offset)] on a [Uint8Array]: a RangeError when the
    source does not fit. *)
Definition typedArraySet (target source : list byte) (offset : nat)
  : completion (list byte) :=
  if (length target <? length source + offset)%nat
  then Throw (RangeError "offset is out of bounds")
  else Return (take offset target ++ source ++ drop (offset + length source) target).

Definition wrapSignature (rawSignature : list byte) : completion (list byte) :=
  let multiSignature := replicate 65 x00 in
  let multiSignature := <[0%nat := SR25519_TYPE_PREFIX]> multiSignature in
  typedArraySet multiSignature rawSignature 1.

(** *** The link to the node *)

Record NetworkConfig := Network { id : string; name : string; url : string }.

(** [NETWORKS[networkId]] for the ids of the table's own entries and for
    ids that are no property of the object at all.  (An id that names a
    member of [Object.prototype], such as ["constructor"], reads that member
    instead; these ids are not modelled.) *)
Definition NETWORKS (networkId : string) : option NetworkConfig :=
  if String.eqb networkId "mainnet"
  then Some (Network "mainnet" "Mainnet" "wss://entrypoint-mainnet.aetron.ai:443")
  else if String.eqb networkId "test"
  then Some (Network "test" "Test Network" "wss://entrypoint-test.aetron.ai:443")
  else if String.eqb networkId "local"
  then Some (Network "local" "Local Node" "ws://127.0.0.1:9944")
  else None.

(** The [ApiPromise] handle: [isConnected] follows the link. *)
Record Api := MakeApi { isConnected : bool }.

(** The fields of the manager, the [network] variable of a [connect] call
    that is waiting for its handshake ([inflight]), and two observations:
    the arguments [onConnectionChange] was called with and the delays of the
    reconnect timers set, oldest first. *)
Record manager := Manager {
  api : option Api;
  provider : bool;
  currentNetwork : option NetworkConfig;
  isConnecting : bool;
  reconnectAttempts : Z;
  maxReconnectAttempts : Z;
  inflight : option NetworkConfig;
  notified : list bool;
  scheduled : list Z
}.

Definition initial : manager := Manager None false None false 0 5 None [] [].

Definition handleDisconnect (st : manager) : manager :=
  let notified := notified st ++ [false] in
  if (reconnectAttempts st <? maxReconnectAttempts st) && bool_decide (is_Some (currentNetwork st))
  then
    let reconnectAttempts := reconnectAttempts st + 1 in
    let delay := Z.min (2000 * reconnectAttempts) 30000 in
    Manager (api st) (provider st) (currentNetwork st) (isConnecting st) reconnectAttempts
      (maxReconnectAttempts st) (inflight st) notified (scheduled st ++ [delay])
  else
    Manager (api st) (provider st) (currentNetwork st) (isConnecting st)
      (reconnectAttempts st) (maxReconnectAttempts st) (inflight st) notified (scheduled st).

Definition disconnectInternal (st : manager) : manager :=
  Manager None false (currentNetwork st) (isConnecting st) (reconnectAttempts st)
    (maxReconnectAttempts st) (inflight st) (notified st) (scheduled st).

Definition disconnect (st : manager) : manager :=
  let st := disconnectInternal st in
  Manager (api st) (provider st) None (isConnecting st) 0 (maxReconnectAttempts st)
    (inflight st) (notified st) (scheduled st).

Definition apiIsConnected (st : manager) : bool :=
  match api st with
  | Some a => isConnected a
  | None => false
  end.

(** [connect] up to the point where it waits for the handshake: [None]
    when the call goes on to the handshake. *)
Definition connectBegin (networkId : string) (customUrl : option string) (st : manager)
  : option (completion bool) * manager :=
  if isConnecting st then (Some (Return false), st)
  else
    let network :=
      match customUrl with
      | Some url =>
          if (String.eqb networkId "custom" || String.prefix "custom_" networkId)
             && negb (String.eqb url "")
          then Some (Network networkId "Custom Node" url)
          else NETWORKS networkId
      | None => NETWORKS networkId
      end in
    match network with
    | None => (Some (Throw (Error ("Unknown network: " +:+ networkId))), st)
    | Some network =>
        if apiIsConnected st
           && bool_decide (id <$> currentNetwork st = Some networkId)
        then (Some (Return true), st)
        else
          let st := disconnectInternal st in
          (None,
           Manager (api st) (provider st) (currentNetwork st) true (reconnectAttempts st)
             (maxReconnectAttempts st) (Some network) (notified st) (scheduled st))
    end.

(** The rest of [connect], once the handshake has succeeded ([true]) or
    failed or timed out ([false]). *)
Definition connectEnd (ready : bool) (st : manager) : completion bool * manager :=
  match inflight st with
  | None => (Return false, st)
  | Some network =>
      if ready then
        (Return true,
         Manager (Some (MakeApi true)) true (Some network) false 0 (maxReconnectAttempts st)
           None (notified st ++ [true]) (scheduled st))
      else
        let st := disconnectInternal st in
        let st := Manager (api st) (provider st) (Some network) false
                    (reconnectAttempts st) (maxReconnectAttempts st) None
                    (notified st) (scheduled st) in
        (Return false, handleDisconnect st)
  end.

(** What happens to the manager. *)
Inductive event :=
| ConnectCalled (networkId : string) (customUrl : option string)
| HandshakeDone (ready : bool)
| TimerFired
| LinkLost
| StaleLinkLost
| DisconnectCalled.

Definition step (st : manager) (e : event) : manager :=
  match e with
  | ConnectCalled networkId customUrl => snd (connectBegin networkId customUrl st)
  | HandshakeDone ready => snd (connectEnd ready st)
  | TimerFired =>
      (* try { await this.connect(this.currentNetwork!.id) } catch { } *)
      match currentNetwork st with
      | Some network => snd (connectBegin (id network) None st)
      | None => st
      end
  | LinkLost =>
      handleDisconnect
        (Manager (match api st with Some _ => Some (MakeApi false) | None => None end)
           (provider st) (currentNetwork st) (isConnecting st) (reconnectAttempts st)
           (maxReconnectAttempts st) (inflight st) (notified st) (scheduled st))
  | StaleLinkLost => handleDisconnect st
  | DisconnectCalled => disconnect st
  end.

Definition run (events : list event) (st : manager) : manager := fold_left step events st.

(** An event that is neither a successful handshake nor [disconnect()]. *)
Definition keepsCounting (e : event) : bool :=
  match e with
  | HandshakeDone true | DisconnectCalled => false
  | _ => true
  end.

(** The delay before reconnect attempt number [attempt]. *)
Definition backoff (attempt : Z) : Z := Z.min (2000 * attempt) 30000.

(** The delays recorded between two states of the manager. *)
Definition newDelays (before after : manager) : list Z :=
  drop (length (scheduled before)) (scheduled after).

(** What an event that keeps counting does: the counter stays or grows by
    one, and grows exactly when a delay is recorded, the delay of the new
    count. *)
Definition counted (st st' : manager) : Prop :=
  maxReconnectAttempts st' = maxReconnectAttempts st /\
  ((reconnectAttempts st' = reconnectAttempts st /\ scheduled st' = scheduled st) \/
   (reconnectAttempts st < maxReconnectAttempts st /\
    reconnectAttempts st' = reconnectAttempts st + 1 /\
    scheduled st' = scheduled st ++ [backoff (reconnectAttempts st + 1)])).

(** *** The signing pipeline *)

(** A promise: settled with a value or a thrown error, or never settled. *)
Inductive outcome (A : Type) : Type :=
| Settled (c : completion A)
| Pending.
Arguments Settled {A} c.
Arguments Pending {A}.

Record TxResult := Result {
  success : bool;
  hash : option string;
  error : option string
}.

Record Signer := MakeSigner {
  address : string;
  sign : list byte -> completion (list byte)
}.

Record Decoded := MakeDecoded { section : string; errorName : string; docs : list string }.

Record DispatchError := MakeDispatchError {
  isModule : bool;
  asModule : completion Decoded;
  toString : string
}.

Record Status := MakeStatus {
  isInBlock : bool;
  isFinalized : bool;
  dispatchError : option DispatchError
}.

(** What [tx.send(callback)] does: its promise rejects, or the callback is
    called with the status updates in turn. *)
Inductive sending :=
| Rejects (e : exn)
| Updates (statuses : list Status).

(** The chain library as the pipeline uses it on a connected [api]; every
    call may throw.  The optional members are the extrinsics probed with
    [?.]. [asModule] above is [registry.findMetaError(dispatchError.asModule)]. *)
Class Chain := {
  Tx : Type;
  Payload : Type;
  transferKeepAlive : string -> Z -> completion Tx;
  aetensor_addStake : option (string -> Z -> Z -> completion Tx);
  aetensor_add_stake : option (string -> Z -> Z -> completion Tx);
  subtensor_addStake : option (string -> Z -> Z -> completion Tx);
  aetensor_removeStake : option (string -> Z -> Z -> completion Tx);
  aetensor_remove_stake : option (string -> Z -> Z -> completion Tx);
  subtensor_removeStake : option (string -> Z -> Z -> completion Tx);
  aetensor_moveStake : option (string -> string -> Z -> Z -> completion Tx);
  aetensor_move_stake : option (string -> string -> Z -> Z -> completion Tx);
  subtensor_moveStake : option (string -> string -> Z -> Z -> completion Tx);
  aetensor_addStakeLimit : option (string -> Z -> Z -> Z -> bool -> completion Tx);
  subtensor_addStakeLimit : option (string -> Z -> Z -> Z -> bool -> completion Tx);
  accountNextIndex : string -> completion Z;
  createSignerPayload : Tx -> Z -> completion Payload;
  toRaw : Payload -> completion (list byte);
  addSignature : Tx -> string -> list byte -> Payload -> completion Tx;
  send : Tx -> sending;
  sendAndForget : Tx -> completion string;
  txHash : Tx -> string
}.

Section WithChain.
Context {C : Chain}.

Fixpoint joinWith (separator : string) (parts : list string) : string :=
  match parts with
  | [] => ""
  | [part] => part
  | part :: rest => part +:+ separator +:+ joinWith separator rest
  end.

(** The callback of [submitAndWaitForBlock] over the status updates: the
    first update in a block (or finalized) that the callback handles
    without throwing resolves the promise. *)
Fixpoint awaitInclusion (st : manager) (tx : Tx) (statuses : list Status) : outcome TxResult :=
  match statuses with
  | [] => Pending
  | status :: rest =>
      if isInBlock status || isFinalized status then
        match dispatchError status with
        | Some dispatchError =>
            if isModule dispatchError && bool_decide (is_Some (api st)) then
              match asModule dispatchError with
              | Return decoded =>
                  Settled (Return (Result false None
                    (Some (section decoded +:+ "." +:+ errorName decoded +:+ ": "
                             +:+ joinWith " " (docs decoded)))))
              | Throw _ => awaitInclusion st tx rest
              end
            else Settled (Return (Result false None (Some (toString dispatchError))))
        | None => Settled (Return (Result true (Some (txHash tx)) None))
        end
      else awaitInclusion st tx rest
  end.

Definition submitAndWaitForBlock (st : manager) (tx : Tx) : outcome TxResult :=
  match send tx with
  | Rejects error => Settled (Return (Result false None (Some (exn_message error))))
  | Updates statuses => awaitInclusion st tx statuses
  end.

(** Nonce, signing payload, signature: the transaction ready to submit. *)
Definition signed (signer : Signer) (tx : Tx) : completion Tx :=
  bindC (accountNextIndex (address signer)) (fun nonce =>
  bindC (createSignerPayload tx nonce) (fun signPayload =>
  bindC (toRaw signPayload) (fun data =>
  bindC (sign signer data) (fun rawSignature =>
  bindC (wrapSignature rawSignature) (fun multiSignature =>
  addSignature tx (address signer) multiSignature signPayload))))).

(** [try { ...; return await this.submitAndWaitForBlock(tx) }
     catch (error) { return { success: false, error: error.message } }] *)
Definition submitOrReport (st : manager) (prepared : completion Tx) : outcome TxResult :=
  match prepared with
  | Return tx => submitAndWaitForBlock st tx
  | Throw error => Settled (Return (Result false None (Some (exn_message error))))
  end.

(** [a?.(args) || b?.(args) || c?.(args)], then [if (!tx) throw]. *)
Fixpoint firstAvailable (candidates : list (option (completion Tx))) (missing : string)
  : completion Tx :=
  match candidates with
  | [] => Throw (Error missing)
  | Some call :: _ => call
  | None :: rest => firstAvailable rest missing
  end.

Definition transfer (st : manager) (signer : Signer) (to : string) (amount : Z)
  : outcome TxResult :=
  match api st with
  | None => Settled (Throw (Error "Not connected"))
  | Some _ =>
      submitOrReport st (bindC (transferKeepAlive to amount) (signed signer))
  end.

Definition addStake (st : manager) (signer : Signer) (hotkey : string) (netuid amount : Z)
  : outcome TxResult :=
  match api st with
  | None => Settled (Throw (Error "Not connected"))
  | Some _ =>
      submitOrReport st
        (bindC (firstAvailable
                  [ (fun f => f hotkey netuid amount) <$> aetensor_addStake;
                    (fun f => f hotkey netuid amount) <$> aetensor_add_stake;
                    (fun f => f hotkey netuid amount) <$> subtensor_addStake ]
                  "Staking not available on this network")
               (signed signer))
  end.

Definition removeStake (st : manager) (signer : Signer) (hotkey : string) (netuid amount : Z)
  : outcome TxResult :=
  match api st with
  | None => Settled (Throw (Error "Not connected"))
  | Some _ =>
      submitOrReport st
        (bindC (firstAvailable
                  [ (fun f => f hotkey netuid amount) <$> aetensor_removeStake;
                    (fun f => f hotkey netuid amount) <$> aetensor_remove_stake;
                    (fun f => f hotkey netuid amount) <$> subtensor_removeStake ]
                  "Unstaking not available on this network")
               (signed signer))
  end.

Definition moveStake (st : manager) (signer : Signer) (srcHotkey destHotkey : string)
    (netuid amount : Z) : outcome TxResult :=
  match api st with
  | None => Settled (Throw (Error "Not connected"))
  | Some _ =>
      submitOrReport st
        (bindC (firstAvailable
                  [ (fun f => f srcHotkey destHotkey netuid amount) <$> aetensor_moveStake;
                    (fun f => f srcHotkey destHotkey netuid amount) <$> aetensor_move_stake;
                    (fun f => f srcHotkey destHotkey netuid amount) <$> subtensor_moveStake ]
                  "Move stake not available on this network")
               (signed signer))
  end.

(** [addStakeLimit] falls back to [addStake] when the chain has no such
    extrinsic; otherwise it submits without waiting for inclusion. *)
Definition addStakeLimit (st : manager) (signer : Signer) (hotkey : string)
    (netuid amount limitPrice : Z) (allowPartial : bool) : outcome TxResult :=
  match api st with
  | None => Settled (Throw (Error "Not connected"))
  | Some _ =>
      match aetensor_addStakeLimit, subtensor_addStakeLimit with
      | None, None => addStake st signer hotkey netuid amount
      | Some f, _ | None, Some f =>
          Settled (tryCatch
            (bindC (f hotkey netuid amount limitPrice allowPartial) (fun tx =>
             bindC (signed signer tx) (fun tx =>
             bindC (sendAndForget tx) (fun hash =>
             Return (Result true (Some hash) None)))))
            (fun error => Return (Result false None (Some (exn_message error)))))
      end
  end.

(** A promise that does not reject: it is pending or holds a result. *)
Definition structured (o : outcome TxResult) : Prop :=
  o = Pending \/ exists r, o = Settled (Return r).

Definition notConnected (o : outcome TxResult) : Prop :=
  o = Settled (Throw (Error "Not connected")).

End WithChain.

End ConnectionManager.

(** ** background/dappHandler.ts *)

Module DappHandler.

Section WithValues.
(** The values a dApp request carries and an approval resolves with. *)
Context {Value : Type}.

Record PendingApproval := Approval {
  id : Z;
  origin : string;
  method : string;
  params : option Value
}.

(** The handler's fields, the approval timers that are set (the time each
    fires at and the approval id its callback holds), the clock, and one
    observation: how the promise of each approval was settled, in order. *)
Record handler := Handler {
  pendingApprovals : gmap Z PendingApproval;
  nextApprovalId : Z;
  timers : list (Z * Z);
  now : Z;
  settled : list (Z * completion (option Value))
}.

Definition initial : handler := Handler ∅ 1 [] 0 [].

Definition APPROVAL_TIMEOUT : Z := 5 * 60 * 1000.

(** [requestApproval] after [openApprovalPopup] has returned ([popup] is
    its completion): the approval is registered under a fresh id and its
    timer is set.  The returned promise is the one settled under that id. *)
Definition requestApproval (origin method : string) (params : option Value)
    (popup : completion unit) (st : handler) : completion Z * handler :=
  match popup with
  | Throw e => (Throw e, st)
  | Return _ =>
      let id := nextApprovalId st in
      (Return id,
       Handler (<[id := Approval id origin method params]> (pendingApprovals st))
         (nextApprovalId st + 1)
         (timers st ++ [(now st + APPROVAL_TIMEOUT, id)])
         (now st) (settled st))
  end.

(** The callback of the timer set by [requestApproval]. *)
Definition approvalTimeout (id : Z) (st : handler) : handler :=
  match pendingApprovals st !! id with
  | Some pending =>
      Handler (delete id (pendingApprovals st)) (nextApprovalId st) (timers st) (now st)
        (settled st ++ [(id, Throw (Error "Request timeout"))])
  | None => st
  end.

Definition resolveApproval (approvalId : Z) (approved : bool) (result : option Value)
    (st : handler) : handler :=
  match pendingApprovals st !! approvalId with
  | None => st
  | Some pending =>
      Handler (delete approvalId (pendingApprovals st)) (nextApprovalId st) (timers st)
        (now st)
        (settled st ++
           [(approvalId, if approved then Return result else Throw (Error "User rejected"))])
  end.

(** Timers fire in the order they were set, each once its time has come. *)
Fixpoint fireDue (t : Z) (pending : list (Z * Z)) (st : handler) : list (Z * Z) * handler :=
  match pending with
  | [] => ([], st)
  | (due, id) :: rest =>
      if due <=? t then fireDue t rest (approvalTimeout id st)
      else
        let '(kept, st) := fireDue t rest st in
        ((due, id) :: kept, st)
  end.

(** The clock reaches [t]. *)
Definition advanceTo (t : Z) (st : handler) : handler :=
  let '(kept, st) := fireDue t (timers st) st in
  Handler (pendingApprovals st) (nextApprovalId st) kept t (settled st).

(** What happens to the handler. *)
Inductive event :=
| Requested (origin method : string) (params : option Value) (popup : completion unit)
| Resolved (approvalId : Z) (approved : bool) (result : option Value)
| ClockReached (t : Z).

Definition step (st : handler) (e : event) : handler :=
  match e with
  | Requested origin method params popup =>
      snd (requestApproval origin method params popup st)
  | Resolved approvalId approved result => resolveApproval approvalId approved result st
  | ClockReached t => advanceTo t st
  end.

Definition run (events : list event) (st : handler) : handler := fold_left step events st.

(** Every pending approval has its timer set. *)
Definition timed (st : handler) : Prop :=
  forall id pending, pendingApprovals st !! id = Some pending ->
    exists due, In (due, id) (timers st).

End WithValues.

Arguments PendingApproval Value : clear implicits.
Arguments handler Value : clear implicits.
Arguments event Value : clear implicits.

End DappHandler.

(** ** A small executable platform

    An instance of [WebCrypto] on which every definition of the development
    evaluates: the concrete inputs of the examples below run on it.  Its
    cipher stores key and nonce in front of the data and checks them back;
    its digest keeps a 32-byte window of the message. *)

Module Toy.

Definition marker : list byte := replicate 32 x01.

Definition sha256 (m : list byte) : list byte :=
  if decide (length m = 100%nat) then marker
  else if decide (drop 64 m = marker) then take 32 (m ++ replicate 32 x00)
  else replicate 32 x00.

Definition aesGcmEncrypt (key iv data : list byte) : list byte :=
  key ++ iv ++ data.

Definition aesGcmDecrypt (key iv data : list byte) : option (list byte) :=
  if decide (take (length (key ++ iv)) data = key ++ iv)
  then Some (drop (length (key ++ iv)) data)
  else None.

Definition isBinary (s : jsstring) : bool :=
  forallb (fun u => (0 <=? u) && (u <? 256)) s.

Definition btoa (s : jsstring) : completion jsstring :=
  if isBinary s then Return s else Throw InvalidCharacterError.

Definition atob (s : jsstring) : completion jsstring :=
  if isBinary s then Return s else Throw InvalidCharacterError.

#[export] Instance platform : Crypto.WebCrypto := {|
  Crypto.sha256 := sha256;
  Crypto.aesGcmEncrypt := aesGcmEncrypt;
  Crypto.aesGcmDecrypt := aesGcmDecrypt;
  Crypto.btoa := btoa;
  Crypto.atob := atob
|}.

(** A keyring whose pairs are the secrets themselves. *)
#[export] Instance keyring : WalletService.Keyring := {|
  WalletService.KeyringPair := jsstring;
  WalletService.Json := jsstring;
  WalletService.addFromUri := fun uri => Return uri;
  WalletService.addFromSeed := fun seed => Return (map Z_of_byte seed);
  WalletService.hexToU8a := fun hex => Return (map byte_of_Z hex);
  WalletService.JSON_parse := fun text => Return text;
  WalletService.keystorePair := fun json password => Return json
|}.

(** A chain that includes every transaction in the first block it
    reports; it has [addStake] only. *)
#[export] Instance chain : ConnectionManager.Chain := {|
  ConnectionManager.Tx := list byte;
  ConnectionManager.Payload := list byte;
  ConnectionManager.transferKeepAlive := fun to amount => Return [];
  ConnectionManager.aetensor_addStake := Some (fun hotkey netuid amount => Return []);
  ConnectionManager.aetensor_add_stake := None;
  ConnectionManager.subtensor_addStake := None;
  ConnectionManager.aetensor_removeStake := None;
  ConnectionManager.aetensor_remove_stake := None;
  ConnectionManager.subtensor_removeStake := None;
  ConnectionManager.aetensor_moveStake := None;
  ConnectionManager.aetensor_move_stake := None;
  ConnectionManager.subtensor_moveStake := None;
  ConnectionManager.aetensor_addStakeLimit := None;
  ConnectionManager.subtensor_addStakeLimit := None;
  ConnectionManager.accountNextIndex := fun address => Return 0;
  ConnectionManager.createSignerPayload := fun tx nonce => Return [byte_of_Z nonce];
  ConnectionManager.toRaw := fun payload => Return payload;
  ConnectionManager.addSignature := fun tx address signature payload => Return signature;
  ConnectionManager.send := fun tx =>
    ConnectionManager.Updates
      [ConnectionManager.MakeStatus false false None;
       ConnectionManager.MakeStatus true false None];
  ConnectionManager.sendAndForget := fun tx => Return "0x00"%string;
  ConnectionManager.txHash := fun tx => "0x00"%string
|}.

(** A signer whose signature is 64 copies of the payload's length. *)
Definition signer : ConnectionManager.Signer :=
  ConnectionManager.MakeSigner "5Signer"
    (fun data => Return (replicate 64 (byte_of_Z (Z.of_nat (length data))))).

Definition connected : ConnectionManager.manager :=
  ConnectionManager.Manager (Some (ConnectionManager.MakeApi true)) true
    (ConnectionManager.NETWORKS "test") false 0 5 None [true] [].

(** An entropy tape: byte [i] is [i mod 256]. *)
Definition tape : Crypto.entropy := fun i => byte_of_Z (Z.of_nat i).


(** A package sealed with one PBKDF2 iteration ([kdfParams.iterations] is
    1), small enough to evaluate. *)
Definition sealed (data password : jsstring) : Crypto.package :=
  let salt := replicate 32 x00 in
  let iv := replicate 12 x00 in
  match Crypto.deriveKey password salt 1 with
  | Return key =>
      Crypto.Package
        (map Z_of_byte (aesGcmEncrypt key iv (Encoding.encode data)))
        (map Z_of_byte iv) (map Z_of_byte salt)
        (Some "aes-256-gcm"%string) (Some "pbkdf2"%string)
        (Some (Crypto.KdfParams (Some 1) (Some "SHA-256"%string)))
  | Throw _ => Crypto.Package [] [] [] None None None
  end.

Definition wallet (id : string) (type : WalletService.WalletType) (secret password : jsstring)
  : WalletService.EncryptedWallet.t :=
  WalletService.EncryptedWallet.Make id 1 type id id (sealed secret password) None None 0 0.

Definition hotkey (id coldkeyId : string) (secret password : jsstring)
  : WalletService.EncryptedHotkey.t :=
  WalletService.EncryptedHotkey.Make id id id coldkeyId (sealed secret password) [] 0 false.

(** A world with the given wallets and hotkeys in storage, nothing
    unlocked, no failure on record, the clock at [t]. *)
Definition worldWith (wallets : list WalletService.EncryptedWallet.t)
    (hotkeys : list WalletService.EncryptedHotkey.t) (t : Z) : WalletService.world :=
  WalletService.World
    (WalletService.Service ∅ ∅ ∅ None false)
    (WalletService.Storage
       (Some (WalletService.WalletStore.Make 1 wallets None WalletService.DEFAULT_SETTINGS))
       (Some hotkeys) None)
    t tape [].

End Toy.


(** ** background/walletService.ts: the other methods of the service *)

Module WalletOps.

Import Crypto WalletService.

(** The rest of what the service calls in the chain library and the
    platform: the address of a pair and its [sign], [mnemonicGenerate] and
    [mnemonicValidate], [crypto.randomUUID()] and [isHex].  The two
    generators read the entropy source.  For a parsed keystore,
    [keystoreFields] is the test
    [jsonData.encoded && jsonData.encoding && jsonData.address] (reading a
    property of [null] throws), [decodeKeystore] is [addFromJson] on a fresh
    keyring followed by [decodePkcs8], and [addPair] adds the decoded pair to
    the service's keyring. *)
Class Vault {K : Keyring} := {
  pairAddress : KeyringPair -> string;
  pairSign : KeyringPair -> list byte -> completion (list byte);
  mnemonicGenerate : nat -> entropy -> jsstring * entropy;
  mnemonicValidate : jsstring -> bool;
  randomUUID : entropy -> string * entropy;
  isHex : jsstring -> bool;
  keystoreFields : Json -> completion bool;
  decodeKeystore : Json -> jsstring -> completion KeyringPair;
  addPair : KeyringPair -> completion KeyringPair
}.

Definition WALLET_STORE_VERSION : Z := 1.
Definition DEFAULT_DERIVATION_PATH : jsstring := [].

Module WalletAccount.
Record t := Make {
  id : string;
  name : string;
  address : string;
  type : WalletType;
  derivationPath : option jsstring;
  createdAt : Z;
  updatedAt : Z
}.
End WalletAccount.

Module Hotkey.
Record t := Make {
  id : string;
  name : string;
  address : string;
  coldkeyId : string;
  registeredNeuronets : list Z;
  createdAt : Z;
  backedUp : bool
}.
End Hotkey.

Module CreatedHotkey.
Record t := Make { hotkey : Hotkey.t; mnemonic : jsstring }.
End CreatedHotkey.

(** [Partial<WalletStoreSettings>]: [None] is a property that is absent. *)
Module PartialSettings.
Record t := Make {
  autoLockTimeout : option Z;
  requirePasswordOnSend : option bool;
  showTestNetworks : option bool;
  customNodeUrl : option string;
  language : option string;
  selectedNetworkId : option string
}.
End PartialSettings.

(** [u8aToHex]: two lower-case digits a byte behind the prefix. *)
Definition hexDigit (n : Z) : Ascii.ascii :=
  Ascii.ascii_of_N (Z.to_N (if n <? 10 then 48 + n else 87 + n)).

Fixpoint hexDigits (bytes : list byte) : string :=
  match bytes with
  | [] => ""
  | b :: rest =>
      String (hexDigit (Z_of_byte b / 16))
        (String (hexDigit (Z_of_byte b mod 16)) (hexDigits rest))
  end.

Definition u8aToHex (bytes : list byte) : string := "0x" +:+ hexDigits bytes.

Section WithVault.
Context {W : WebCrypto} {K : Keyring} {V : Vault}.

Notation "'let*' x ':=' m 'in' k" := (bind m (fun x => k))
  (at level 10, x name, m at level 100, k at level 200).
Notation "'do' m 'in' k" := (bind m (fun _ => k))
  (at level 10, m at level 100, k at level 200).

(** A call that may throw and touches nothing. *)
Definition liftC {A} (c : completion A) : M A := fun w => (c, w).

(** A value drawn from the entropy source. *)
Definition drawM {A} (f : entropy -> A * entropy) : M A := fun w =>
  let '(a, tape) := f (random w) in
  (Return a, World (this w) (local w) (now w) tape (decryptions w)).

Definition setUnlockedHotkeys (f : gmap string KeyringPair -> gmap string KeyringPair)
  : M unit :=
  setThis (fun s => Service (unlockedWallets s) (f (unlockedHotkeys s)) (unlockAttempts s)
                      (lockTimeout s) (isInitialized s)).

Definition account (w : EncryptedWallet.t) : WalletAccount.t :=
  WalletAccount.Make (EncryptedWallet.id w) (EncryptedWallet.name w)
    (EncryptedWallet.address w) (EncryptedWallet.type w)
    (EncryptedWallet.derivationPath w) (EncryptedWallet.createdAt w)
    (EncryptedWallet.updatedAt w).

Definition getWallets : M (list WalletAccount.t) :=
  let* store := getWalletStore in
  ret (map account (WalletStore.wallets store)).

Definition getActiveWallet : M (option WalletAccount.t) :=
  let* store := getWalletStore in
  match WalletStore.activeWalletId store with
  | None => ret None
  | Some activeWalletId =>
      if String.eqb activeWalletId "" then ret None
      else
        match findWallet activeWalletId store with
        | None => ret None
        | Some wallet => ret (Some (account wallet))
        end
  end.

Definition setActiveWallet (walletId : string) : M unit :=
  let* store := getWalletStore in
  match findWallet walletId store with
  | Some _ =>
      saveWalletStore
        (WalletStore.Make (WalletStore.version store) (WalletStore.wallets store)
           (Some walletId) (WalletStore.settings store))
  | None => ret tt
  end.

(** [private createDefaultHotkey]: whatever it throws is logged and
    dropped. *)
Definition createDefaultHotkey (coldkeyId : string) (password : jsstring) : M unit :=
  tryCatchM
    (let* mnemonic := drawM (mnemonicGenerate 12) in
     let* pair := liftC (addFromUri mnemonic) in
     let* id := drawM randomUUID in
     let* encrypted := encryptM mnemonic password in
     let* createdAt := Date_now in
     let encryptedHotkey :=
       EncryptedHotkey.Make id "default" (pairAddress pair) coldkeyId encrypted []
         createdAt false in
     let* hotkeys := getHotkeyStore in
     do saveHotkeyStore (hotkeys ++ [encryptedHotkey]) in
     setUnlockedHotkeys (insert id pair))
    (fun error => ret tt).

(** The end of [createWallet] and of the three imports:
    [store.wallets.push(wallet)], the wallet becomes the active one and stays
    unlocked, and its default hotkey is created. *)
Definition keepWallet (store : WalletStore.t) (wallet : EncryptedWallet.t)
    (pair : KeyringPair) (password : jsstring) : M unit :=
  do saveWalletStore
       (WalletStore.Make (WalletStore.version store)
          (WalletStore.wallets store ++ [wallet]) (Some (EncryptedWallet.id wallet))
          (WalletStore.settings store)) in
  (* Keep wallet unlocked *)
  do setUnlockedWallets (insert (EncryptedWallet.id wallet) pair) in
  do resetLockTimeout (WalletStoreSettings.autoLockTimeout (WalletStore.settings store)) in
  (* Create default hotkey *)
  createDefaultHotkey (EncryptedWallet.id wallet) password.

(** [store.wallets.find((w) => w.address === pair.address)] *)
Definition findAddress (address : string) (store : WalletStore.t)
  : option EncryptedWallet.t :=
  List.find (fun w => String.eqb (EncryptedWallet.address w) address)
    (WalletStore.wallets store).

Definition alreadyExists (existingWallet : EncryptedWallet.t) : exn :=
  Error ("Wallet with this address already exists: "
           +:+ EncryptedWallet.name existingWallet).

(** What [createWallet], [importFromMnemonic] and [importFromPrivateKey]
    share from the duplicate check on. *)
Definition addWallet (id : string) (type : WalletType) (name : string) (pair : KeyringPair)
    (encrypted : package) (derivationPath : option jsstring) (password : jsstring)
  : M WalletAccount.t :=
  let* store := getWalletStore in
  (* Check for duplicate address *)
  match findAddress (pairAddress pair) store with
  | Some existingWallet => throw (alreadyExists existingWallet)
  | None =>
      let* createdAt := Date_now in
      let* updatedAt := Date_now in
      let wallet :=
        EncryptedWallet.Make id WALLET_STORE_VERSION type name (pairAddress pair) encrypted
          derivationPath None createdAt updatedAt in
      do keepWallet store wallet pair password in
      ret (WalletAccount.Make id name (pairAddress pair) type derivationPath
             createdAt updatedAt)
  end.

Definition createWallet (name : string) (password : jsstring) (mnemonic : option jsstring)
  : M (WalletAccount.t * jsstring) :=
  do initialize in
  let* seedPhrase :=
    match mnemonic with
    | Some (u :: rest) => ret (u :: rest)
    | _ => drawM (mnemonicGenerate 24)
    end in
  if negb (mnemonicValidate seedPhrase) then throw (Error "Invalid mnemonic phrase")
  else
    let path := DEFAULT_DERIVATION_PATH in
    let* pair := liftC (addFromUri (seedPhrase ++ path)) in
    let* id := drawM randomUUID in
    let* encrypted := encryptM seedPhrase password in
    let* wallet := addWallet id hd name pair encrypted (Some path) password in
    ret (wallet, seedPhrase).

Definition importFromMnemonic (name : string) (mnemonic password : jsstring)
  : M WalletAccount.t :=
  do initialize in
  if negb (mnemonicValidate mnemonic) then throw (Error "Invalid mnemonic phrase")
  else
    let path := DEFAULT_DERIVATION_PATH in
    let* pair := liftC (addFromUri (mnemonic ++ path)) in
    let* id := drawM randomUUID in
    let* encrypted := encryptM mnemonic password in
    addWallet id hd name pair encrypted (Some path) password.

Definition importFromPrivateKey (name : string) (privateKey password : jsstring)
  : M WalletAccount.t :=
  do initialize in
  let* keyBytes :=
    liftC (if isHex privateKey then hexToU8a privateKey
           else hexToU8a ([48; 120] ++ privateKey)) in
  if negb (length keyBytes =? 32)%nat && negb (length keyBytes =? 64)%nat
  then throw (Error "Invalid private key length. Expected 32 or 64 bytes.")
  else
    let* pair := liftC (addFromSeed (take 32 keyBytes)) in
    let* id := drawM randomUUID in
    let* encrypted := encryptM privateKey password in
    addWallet id WalletService.privateKey name pair encrypted None password.

Definition importFromKeystore (name : string)
    (keystoreJson keystorePassword newPassword : jsstring) : M WalletAccount.t :=
  do initialize in
  let* jsonData :=
    tryCatchM (liftC (JSON_parse keystoreJson))
      (fun _ => throw (Error "Invalid JSON keystore file")) in
  (* Validate keystore format (Polkadot format) *)
  let* complete := liftC (keystoreFields jsonData) in
  if negb complete
  then throw (Error "Invalid keystore format. Expected Polkadot JSON keystore.")
  else
    let* pair :=
      tryCatchM (liftC (decodeKeystore jsonData keystorePassword))
        (fun _ => throw (Error "Failed to decrypt keystore. Check your password.")) in
    (* Now we have the unlocked keypair, add it to our keyring *)
    let* addedPair := liftC (addPair pair) in
    let* id := drawM randomUUID in
    let* store := getWalletStore in
    match findAddress (pairAddress addedPair) store with
    | Some existingWallet => throw (alreadyExists existingWallet)
    | None =>
        (* Store the original keystore JSON re-encrypted for later export *)
        let* keystoreEncrypted := encryptM keystoreJson newPassword in
        let* storedPassword := encryptM keystorePassword newPassword in
        let* createdAt := Date_now in
        let* updatedAt := Date_now in
        let wallet :=
          EncryptedWallet.Make id WALLET_STORE_VERSION keystore name
            (pairAddress addedPair) keystoreEncrypted None (Some storedPassword)
            createdAt updatedAt in
        do keepWallet store wallet addedPair newPassword in
        ret (WalletAccount.Make id name (pairAddress addedPair) keystore None
               createdAt updatedAt)
    end.

Definition hasUnlockedWallets (s : service) : bool :=
  (0 <? size (unlockedWallets s))%nat.

Definition signMessage (walletId : string) (message : jsstring) : M string :=
  let* s := getThis in
  match getKeypair walletId s with
  | None => throw (Error "Wallet is locked")
  | Some keypair =>
      let messageBytes := Encoding.encode message in
      let* signature := liftC (pairSign keypair messageBytes) in
      ret (u8aToHex signature)
  end.

Definition signTransaction (walletId : string) (payloadHex : jsstring) : M string :=
  let* s := getThis in
  match getKeypair walletId s with
  | None => throw (Error "Wallet is locked")
  | Some keypair =>
      let* payload := liftC (hexToU8a payloadHex) in
      let* signature := liftC (pairSign keypair payload) in
      ret (u8aToHex signature)
  end.

Definition clearAllWallets : M unit :=
  (* Clear all unlocked state *)
  do setThis (fun s => Service ∅ ∅ ∅ None (isInitialized s)) in
  (* Clear wallet store *)
  let* store := getWalletStore in
  do saveWalletStore
       (WalletStore.Make (WalletStore.version store) [] None (WalletStore.settings store)) in
  (* Clear all hotkeys *)
  do saveHotkeyStore [] in
  (* Reset lock state *)
  saveLockState (LockState.Make true None).

(** [wallet.name = newName; wallet.updatedAt = t] *)
Definition renamed (wallet : EncryptedWallet.t) (newName : string) (t : Z)
  : EncryptedWallet.t :=
  EncryptedWallet.Make (EncryptedWallet.id wallet) (EncryptedWallet.version wallet)
    (EncryptedWallet.type wallet) newName (EncryptedWallet.address wallet)
    (EncryptedWallet.encrypted wallet) (EncryptedWallet.derivationPath wallet)
    (EncryptedWallet.keystorePassword wallet) (EncryptedWallet.createdAt wallet) t.

Definition renameWallet (walletId newName : string) : M unit :=
  let* store := getWalletStore in
  match findWallet walletId store with
  | Some _ =>
      let* t := Date_now in
      saveWalletStore
        (WalletStore.Make (WalletStore.version store)
           (updateFirst (fun w => String.eqb (EncryptedWallet.id w) walletId)
              (fun w => renamed w newName t) (WalletStore.wallets store))
           (WalletStore.activeWalletId store) (WalletStore.settings store))
  | None => ret tt
  end.

Definition exportMnemonic (walletId : string) (password : jsstring) : M jsstring :=
  let* store := getWalletStore in
  match findWallet walletId store with
  | None => throw (Error "Wallet not found")
  | Some wallet =>
      if bool_decide (EncryptedWallet.type wallet = hd)
      then decryptM (EncryptedWallet.encrypted wallet) password
      else throw (Error "Only HD wallets have mnemonic")
  end.

(** *** Hotkeys *)

Definition findHotkey (hotkeyId : string) (hotkeys : list EncryptedHotkey.t)
  : option EncryptedHotkey.t :=
  List.find (fun h => String.eqb (EncryptedHotkey.id h) hotkeyId) hotkeys.

Definition publicHotkey (h : EncryptedHotkey.t) : Hotkey.t :=
  Hotkey.Make (EncryptedHotkey.id h) (EncryptedHotkey.name h) (EncryptedHotkey.address h)
    (EncryptedHotkey.coldkeyId h) (EncryptedHotkey.registeredNeuronets h)
    (EncryptedHotkey.createdAt h) (EncryptedHotkey.backedUp h).

(** [createHotkey] and [importHotkey] from the password check on;
    [backedUp] is what tells them apart. *)
Definition addHotkey (name : string) (mnemonic : jsstring) (coldkeyId : string)
    (password : jsstring) (backedUp : bool) : M CreatedHotkey.t :=
  let* pair := liftC (addFromUri mnemonic) in
  let* id := drawM randomUUID in
  let* encrypted := encryptM mnemonic password in
  let* createdAt := Date_now in
  let encryptedHotkey :=
    EncryptedHotkey.Make id name (pairAddress pair) coldkeyId encrypted [] createdAt
      backedUp in
  let* hotkeys := getHotkeyStore in
  do saveHotkeyStore (hotkeys ++ [encryptedHotkey]) in
  do setUnlockedHotkeys (insert id pair) in
  ret (CreatedHotkey.Make
         (Hotkey.Make id name (pairAddress pair) coldkeyId [] createdAt backedUp)
         mnemonic).

(** Verify password by attempting to decrypt coldkey *)
Definition verifyColdkey (coldkey : EncryptedWallet.t) (password : jsstring) : M unit :=
  tryCatchM (do decryptM (EncryptedWallet.encrypted coldkey) password in ret tt)
    (fun _ => throw (Error "Invalid password")).

Definition createHotkey (name coldkeyId : string) (password : jsstring)
    (wordCount : option nat) : M CreatedHotkey.t :=
  do initialize in
  let* store := getWalletStore in
  match findWallet coldkeyId store with
  | None => throw (Error "Coldkey wallet not found")
  | Some coldkey =>
      do verifyColdkey coldkey password in
      let* mnemonic := drawM (mnemonicGenerate (default 12%nat wordCount)) in
      addHotkey name mnemonic coldkeyId password false
  end.

Definition importHotkey (name : string) (mnemonic : jsstring) (coldkeyId : string)
    (password : jsstring) : M CreatedHotkey.t :=
  do initialize in
  if negb (mnemonicValidate mnemonic) then throw (Error "Invalid mnemonic phrase")
  else
    let* store := getWalletStore in
    match findWallet coldkeyId store with
    | None => throw (Error "Coldkey wallet not found")
    | Some coldkey =>
        do verifyColdkey coldkey password in
        addHotkey name mnemonic coldkeyId password true
    end.

Definition getHotkeys (coldkeyId : string) : M (list Hotkey.t) :=
  let* hotkeys := getHotkeyStore in
  ret (map publicHotkey
         (List.filter (fun h => String.eqb (EncryptedHotkey.coldkeyId h) coldkeyId) hotkeys)).

(** [hotkey.backedUp = true] *)
Definition backedUpNow (h : EncryptedHotkey.t) : EncryptedHotkey.t :=
  EncryptedHotkey.Make (EncryptedHotkey.id h) (EncryptedHotkey.name h)
    (EncryptedHotkey.address h) (EncryptedHotkey.coldkeyId h) (EncryptedHotkey.encrypted h)
    (EncryptedHotkey.registeredNeuronets h) (EncryptedHotkey.createdAt h) true.

Definition markHotkeyBackedUp (hotkeyId : string) : M unit :=
  let* hotkeys := getHotkeyStore in
  match findHotkey hotkeyId hotkeys with
  | Some _ =>
      saveHotkeyStore
        (updateFirst (fun h => String.eqb (EncryptedHotkey.id h) hotkeyId) backedUpNow hotkeys)
  | None => ret tt
  end.

Definition unlockHotkey (hotkeyId : string) (password : jsstring) : M bool :=
  let* hotkeys := getHotkeyStore in
  match findHotkey hotkeyId hotkeys with
  | None => throw (Error "Hotkey not found")
  | Some hotkey =>
      tryCatchM
        (let* mnemonic := decryptM (EncryptedHotkey.encrypted hotkey) password in
         let* pair := liftC (addFromUri mnemonic) in
         do setUnlockedHotkeys (insert hotkeyId pair) in
         ret true)
        (fun _ => ret false)
  end.

Definition deleteHotkey (hotkeyId : string) : M unit :=
  let* hotkeys := getHotkeyStore in
  let filtered :=
    List.filter (fun h => negb (String.eqb (EncryptedHotkey.id h) hotkeyId)) hotkeys in
  do saveHotkeyStore filtered in
  setUnlockedHotkeys (delete hotkeyId).

Definition exportHotkeyMnemonic (hotkeyId : string) (password : jsstring) : M jsstring :=
  let* hotkeys := getHotkeyStore in
  match findHotkey hotkeyId hotkeys with
  | None => throw (Error "Hotkey not found")
  | Some hotkey => decryptM (EncryptedHotkey.encrypted hotkey) password
  end.

Definition getHotkeyPair (hotkeyId : string) (s : service) : option KeyringPair :=
  unlockedHotkeys s !! hotkeyId.

(** *** Settings *)

Definition getSettings : M WalletStoreSettings.t :=
  let* store := getWalletStore in
  ret (WalletStore.settings store).

(** [{ ...store.settings, ...settings }] *)
Definition merged (current : WalletStoreSettings.t) (settings : PartialSettings.t)
  : WalletStoreSettings.t :=
  WalletStoreSettings.Make
    (default (WalletStoreSettings.autoLockTimeout current)
       (PartialSettings.autoLockTimeout settings))
    (default (WalletStoreSettings.requirePasswordOnSend current)
       (PartialSettings.requirePasswordOnSend settings))
    (default (WalletStoreSettings.showTestNetworks current)
       (PartialSettings.showTestNetworks settings))
    (match PartialSettings.customNodeUrl settings with
     | Some url => Some url
     | None => WalletStoreSettings.customNodeUrl current
     end)
    (default (WalletStoreSettings.language current) (PartialSettings.language settings))
    (match PartialSettings.selectedNetworkId settings with
     | Some networkId => Some networkId
     | None => WalletStoreSettings.selectedNetworkId current
     end).

Definition updateSettings (settings : PartialSettings.t) : M unit :=
  let* store := getWalletStore in
  do saveWalletStore
       (WalletStore.Make (WalletStore.version store) (WalletStore.wallets store)
          (WalletStore.activeWalletId store) (merged (WalletStore.settings store) settings)) in
  (* Update lock timeout if changed *)
  match PartialSettings.autoLockTimeout settings with
  | Some minutes => resetLockTimeout minutes
  | None => ret tt
  end.

(** *** Auto-lock *)

(** The clock reaches [t]: the timer armed by [resetLockTimeout] fires once
    its time has come, and its callback is [this.lock()]. *)
Definition clockReaches (t : Z) : M unit := fun w =>
  let w := atTime t w in
  match lockTimeout (this w) with
  | Some due => if due <=? t then lock w else (Return tt, w)
  | None => (Return tt, w)
  end.

(** [getLockState] of lib/storage.ts *)
Definition getLockState : M LockState.t :=
  let* s := getLocal in
  ret (default (LockState.Make true None) (aetron_lock_state s)).

(** *** Observations used to state the properties *)

(** The timer [resetLockTimeout] arms for the timeout in the settings. *)
Definition armed (w : world) : option Z :=
  let minutes :=
    WalletStoreSettings.autoLockTimeout (WalletStore.settings (walletStoreIn (local w))) in
  if 0 <? minutes then Some (now w + timerDelay (minutes * 60 * 1000)) else None.

(** No two stored wallets have the same address. *)
Definition distinctAddresses (store : WalletStore.t) : Prop :=
  NoDup (map EncryptedWallet.address (WalletStore.wallets store)).

(** The active wallet id is null or the id of a stored wallet. *)
Definition activeIsStored (store : WalletStore.t) : Prop :=
  match WalletStore.activeWalletId store with
  | None => True
  | Some activeWalletId => is_Some (findWallet activeWalletId store)
  end.

(** What [addHotkey] stores and returns once the keyring has accepted the
    mnemonic. *)
Definition hotkeyAdded (w w' : world) (name : string) (mnemonic : jsstring)
    (coldkeyId : string) (password : jsstring) (backedUp : bool) (pair : KeyringPair)
    (created : CreatedHotkey.t) : Prop :=
  exists stored,
    hotkeyStoreIn (local w') = hotkeyStoreIn (local w) ++ [stored] /\
    EncryptedHotkey.id stored = fst (randomUUID (random w)) /\
    EncryptedHotkey.name stored = name /\
    EncryptedHotkey.coldkeyId stored = coldkeyId /\
    EncryptedHotkey.address stored = pairAddress pair /\
    EncryptedHotkey.backedUp stored = backedUp /\
    EncryptedHotkey.createdAt stored = now w /\
    Crypto.decrypt (EncryptedHotkey.encrypted stored) password
      = Return (Encoding.decode (Encoding.encode mnemonic)) /\
    created = CreatedHotkey.Make (publicHotkey stored) mnemonic /\
    getHotkeyPair (EncryptedHotkey.id stored) (this w') = Some pair /\
    unlockedWallets (this w') = unlockedWallets (this w) /\
    walletStoreIn (local w') = walletStoreIn (local w).

(** What [createWallet] and the imports leave behind when they succeed:
    the wallet is appended to the store and made the active one, its pair is
    cached, the auto-lock timer is armed anew, and at most one hotkey, the
    default one of this wallet, is appended to the hotkey store. *)
Definition walletAdded (w w' : world) (stored : EncryptedWallet.t) (pair : KeyringPair)
  : Prop :=
  let store := walletStoreIn (local w) in
  walletStoreIn (local w') =
    WalletStore.Make (WalletStore.version store) (WalletStore.wallets store ++ [stored])
      (Some (EncryptedWallet.id stored)) (WalletStore.settings store) /\
  unlockedWallets (this w') = <[EncryptedWallet.id stored := pair]> (unlockedWallets (this w)) /\
  unlockAttempts (this w') = unlockAttempts (this w) /\
  lockTimeout (this w') = armed w /\
  aetron_lock_state (local w') = aetron_lock_state (local w) /\
  now w' = now w /\
  exists added,
    hotkeyStoreIn (local w') = hotkeyStoreIn (local w) ++ added /\
    (length added <= 1)%nat /\
    Forall (fun h => EncryptedHotkey.coldkeyId h = EncryptedWallet.id stored /\
                     EncryptedHotkey.name h = "default"%string) added.

(** A computation that leaves the wallet store as it finds it. *)
Definition keeps {A} (m : M A) : Prop :=
  forall w, walletStoreIn (local (snd (m w))) = walletStoreIn (local w).

(** The calls the background script makes on the service, and the clock. *)
Inductive call :=
| Initialize
| GetWallets
| GetActiveWallet
| SetActiveWallet (walletId : string)
| CreateWallet (name : string) (password : jsstring) (mnemonic : option jsstring)
| ImportFromMnemonic (name : string) (mnemonic password : jsstring)
| ImportFromPrivateKey (name : string) (privateKeyHex password : jsstring)
| ImportFromKeystore (name : string) (keystoreJson keystorePassword newPassword : jsstring)
| UnlockWallet (walletId : string) (password : jsstring)
| Lock
| SignMessage (walletId : string) (message : jsstring)
| SignTransaction (walletId : string) (payloadHex : jsstring)
| DeleteWallet (walletId : string)
| ClearAllWallets
| RenameWallet (walletId newName : string)
| ExportMnemonic (walletId : string) (password : jsstring)
| ChangePassword (walletId : string) (currentPassword newPassword : jsstring)
| CreateHotkey (name coldkeyId : string) (password : jsstring) (wordCount : option nat)
| ImportHotkey (name : string) (mnemonic : jsstring) (coldkeyId : string) (password : jsstring)
| GetHotkeys (coldkeyId : string)
| MarkHotkeyBackedUp (hotkeyId : string)
| UnlockHotkey (hotkeyId : string) (password : jsstring)
| DeleteHotkey (hotkeyId : string)
| ExportHotkeyMnemonic (hotkeyId : string) (password : jsstring)
| GetSettings
| UpdateSettings (settings : PartialSettings.t)
| ClockReaches (t : Z).

(** The world a call leaves, whatever it returns or throws. *)
Definition perform (c : call) (w : world) : world :=
  match c with
  | Initialize => snd (initialize w)
  | GetWallets => snd (getWallets w)
  | GetActiveWallet => snd (getActiveWallet w)
  | SetActiveWallet walletId => snd (setActiveWallet walletId w)
  | CreateWallet name password mnemonic => snd (createWallet name password mnemonic w)
  | ImportFromMnemonic name mnemonic password =>
      snd (importFromMnemonic name mnemonic password w)
  | ImportFromPrivateKey name privateKeyHex password =>
      snd (importFromPrivateKey name privateKeyHex password w)
  | ImportFromKeystore name keystoreJson keystorePassword newPassword =>
      snd (importFromKeystore name keystoreJson keystorePassword newPassword w)
  | UnlockWallet walletId password => snd (unlockWallet walletId password w)
  | Lock => snd (lock w)
  | SignMessage walletId message => snd (signMessage walletId message w)
  | SignTransaction walletId payloadHex => snd (signTransaction walletId payloadHex w)
  | DeleteWallet walletId => snd (deleteWallet walletId w)
  | ClearAllWallets => snd (clearAllWallets w)
  | RenameWallet walletId newName => snd (renameWallet walletId newName w)
  | ExportMnemonic walletId password => snd (exportMnemonic walletId password w)
  | ChangePassword walletId currentPassword newPassword =>
      snd (changePassword walletId currentPassword newPassword w)
  | CreateHotkey name coldkeyId password wordCount =>
      snd (createHotkey name coldkeyId password wordCount w)
  | ImportHotkey name mnemonic coldkeyId password =>
      snd (importHotkey name mnemonic coldkeyId password w)
  | GetHotkeys coldkeyId => snd (getHotkeys coldkeyId w)
  | MarkHotkeyBackedUp hotkeyId => snd (markHotkeyBackedUp hotkeyId w)
  | UnlockHotkey hotkeyId password => snd (unlockHotkey hotkeyId password w)
  | DeleteHotkey hotkeyId => snd (deleteHotkey hotkeyId w)
  | ExportHotkeyMnemonic hotkeyId password => snd (exportHotkeyMnemonic hotkeyId password w)
  | GetSettings => snd (getSettings w)
  | UpdateSettings settings => snd (updateSettings settings w)
  | ClockReaches t => snd (clockReaches t w)
  end.

Definition performAll (calls : list call) (w : world) : world :=
  fold_left (fun w c => perform c w) calls w.

(** How one call may change the wallet store: not at all, or the list of
    wallets loses elements, or one wallet is rewritten keeping its id and
    address, or a wallet with a new address is appended and made active, or
    another stored id is made active, or the settings change. *)
Inductive storeStep (before : WalletStore.t) : WalletStore.t -> Prop :=
| stepSame : storeStep before before
| stepSettings (settings : WalletStoreSettings.t) :
    storeStep before
      (WalletStore.Make (WalletStore.version before) (WalletStore.wallets before)
         (WalletStore.activeWalletId before) settings)
| stepActive (walletId : string) :
    is_Some (findWallet walletId before) ->
    storeStep before
      (WalletStore.Make (WalletStore.version before) (WalletStore.wallets before)
         (Some walletId) (WalletStore.settings before))
| stepAppend (wallet : EncryptedWallet.t) :
    findAddress (EncryptedWallet.address wallet) before = None ->
    storeStep before
      (WalletStore.Make (WalletStore.version before)
         (WalletStore.wallets before ++ [wallet]) (Some (EncryptedWallet.id wallet))
         (WalletStore.settings before))
| stepRewrite (walletId : string) (f : EncryptedWallet.t -> EncryptedWallet.t) :
    (forall x, EncryptedWallet.id (f x) = EncryptedWallet.id x) ->
    (forall x, EncryptedWallet.address (f x) = EncryptedWallet.address x) ->
    storeStep before
      (WalletStore.Make (WalletStore.version before)
         (updateFirst (fun x => String.eqb (EncryptedWallet.id x) walletId) f
            (WalletStore.wallets before))
         (WalletStore.activeWalletId before) (WalletStore.settings before))
| stepDelete (walletId : string) :
    storeStep before
      (let wallets :=
         List.filter (fun x => negb (String.eqb (EncryptedWallet.id x) walletId))
           (WalletStore.wallets before) in
       WalletStore.Make (WalletStore.version before) wallets
         (if bool_decide (WalletStore.activeWalletId before = Some walletId) then
            match wallets with
            | first :: _ =>
                if String.eqb (EncryptedWallet.id first) "" then None
                else Some (EncryptedWallet.id first)
            | [] => None
            end
          else WalletStore.activeWalletId before)
         (WalletStore.settings before))
| stepClear :
    storeStep before
      (WalletStore.Make (WalletStore.version before) [] None (WalletStore.settings before)).

(** A computation that changes the wallet store by at most one such
    step. *)
Definition steps {A} (m : M A) : Prop :=
  forall w, storeStep (walletStoreIn (local w)) (walletStoreIn (local (snd (m w)))).

End WithVault.

End WalletOps.

(** ** A small executable vault

    An instance of [Vault] over the small keyring, on which the methods
    above evaluate: mnemonics and identifiers are lower-case letters read
    off the entropy tape, and a pair's address is its secret as text. *)

Module ToyOps.

Definition text (s : jsstring) : string :=
  String.string_of_list_ascii (map (fun u => Ascii.ascii_of_N (Z.to_N u)) s).

Definition letters (n : nat) (tape : Crypto.entropy) : jsstring * Crypto.entropy :=
  (map (fun i => 97 + Z_of_byte (tape i) mod 26) (seq 0 n), fun i => tape (n + i)%nat).

#[export] Instance vault : WalletOps.Vault (K := Toy.keyring) := {|
  WalletOps.pairAddress := text : WalletService.KeyringPair (Keyring := Toy.keyring) -> string;
  WalletOps.pairSign := fun _ message =>
    Return (replicate 64 (byte_of_Z (Z.of_nat (length message))));
  WalletOps.mnemonicGenerate := letters;
  WalletOps.mnemonicValidate := fun s =>
    match s with
    | [] => false
    | _ => forallb (fun u => ((97 <=? u) && (u <=? 122)) || (u =? 32)) s
    end;
  WalletOps.randomUUID := fun tape => let '(s, tape) := letters 8 tape in (text s, tape);
  WalletOps.isHex := fun s => match s with 48 :: 120 :: _ => true | _ => false end;
  WalletOps.keystoreFields := fun json : jsstring => Return (negb (bool_decide (json = [])));
  WalletOps.decodeKeystore := fun (json : jsstring) password =>
    if bool_decide (password = []) then Throw (Error "Unable to decode") else Return json;
  WalletOps.addPair := fun pair => Return pair
|}.

End ToyOps.


(** ** shared/wallet/crypto.ts: password hashing *)

Module Hashing.

Import Crypto.

Section WithWebCrypto.
Context {W : WebCrypto}.

(** [crypto.subtle.digest('SHA-256', data)] of the encoded password, in
    base64. *)
Definition hashPassword (password : jsstring) : completion jsstring :=
  let data := Encoding.encode password in
  let hashArray := sha256 data in
  uint8ArrayToBase64 hashArray.

Definition verifyPassword (password storedHash : jsstring) : completion bool :=
  tryCatch
    (bindC (hashPassword password) (fun currentHash =>
     Return (bool_decide (currentHash = storedHash))))
    (fun _ => Return false).

End WithWebCrypto.

End Hashing.

(** ** lib/storage.ts: recent addresses *)

Module RecentAddresses.

Record RecentAddress := Recent {
  address : string;
  lastUsed : Z;
  label : option string
}.

(** [array.slice(0, 10)] *)
Definition MAX_RECENT : nat := 10.

(** [addRecentAddress] on the stored list ([recent || []] when nothing is
    stored), at clock reading [now]: the list it stores. *)
Definition addRecentAddress (address : string) (label : option string) (now : Z)
    (stored : option (list RecentAddress)) : list RecentAddress :=
  let recent := default [] stored in
  (* Remove if already exists *)
  let filtered :=
    List.filter (fun r => negb (String.eqb (RecentAddresses.address r) address)) recent in
  (* Add to beginning *)
  let filtered := Recent address now label :: filtered in
  (* Keep max 10 *)
  take MAX_RECENT filtered.

End RecentAddresses.


(** ** background/dappHandler.ts: what the approval broker keeps true *)

Module Approvals.

Section WithValues.
Context {Value : Type}.

(** Every id in use is below the next id to hand out, a pending approval
    sits under its own id, no approval was settled twice, and none that is
    pending has been settled. *)
Definition consistent (st : DappHandler.handler Value) : Prop :=
  1 <= DappHandler.nextApprovalId st /\
  (forall id pending, DappHandler.pendingApprovals st !! id = Some pending ->
     DappHandler.id pending = id /\ 1 <= id < DappHandler.nextApprovalId st) /\
  Forall (fun s => 1 <= fst s < DappHandler.nextApprovalId st) (DappHandler.settled st) /\
  NoDup (map fst (DappHandler.settled st)) /\
  (forall id, is_Some (DappHandler.pendingApprovals st !! id) ->
     ~ In id (map fst (DappHandler.settled st))).

End WithValues.

End Approvals.


(** ** background/connectionManager.ts: queries *)

Module Queries.

Import ConnectionManager.

(** [data] of [api.query.system.account(address)]; [frozen] may be absent. *)
Record AccountData := Account { dataFree : Z; dataReserved : Z; dataFrozen : option Z }.

Record BalanceInfo := Balance { free : Z; reserved : Z; frozen : Z; total : Z }.

(** [api.query.system.account(address)] on a connected [api]; it may throw. *)
Class Ledger := {
  systemAccount : string -> completion AccountData
}.

Section WithLedger.
Context {L : Ledger}.

Definition getBalance (st : manager) (address : string) : completion BalanceInfo :=
  match api st with
  | None => Throw (Error "Not connected")
  | Some _ =>
      bindC (systemAccount address) (fun data =>
      Return (Balance (dataFree data) (dataReserved data) (default 0 (dataFrozen data))
                (dataFree data + dataReserved data)))
  end.

End WithLedger.

End Queries.

(** ** background/dappHandler.ts: requests, permissions, approved actions *)

Module DappOps.

Import WalletService.

Record SitePermission := Permission {
  connected : bool;
  accounts : list string;
  connectedAt : Z
}.

(** What a request's [params] give when the handler reads them: the
    optional [address] of [getBalance], and the destructured arguments of
    the approved actions (destructuring a missing [params] throws).
    [toRet] is [BigInt(Math.floor(parseFloat(amount) * Number(RAO_PER_TAO)))],
    which throws for a text that is not a number; [aetText] is
    [(Number(free) / Number(RAO_PER_TAO)).toString()]. *)
Class Requests (Value : Type) := {
  addressParam : option Value -> option string;
  messageParam : option Value -> completion jsstring;
  transferParams : option Value -> completion (string * jsstring);
  stakeParams : option Value -> completion (string * Z * jsstring);
  toRet : jsstring -> completion Z;
  aetText : Z -> string
}.

(** What a request is answered with: [Awaiting id] is the promise of the
    approval registered under [id]. *)
Inductive reply :=
| Accounts (addresses : list string)
| Done
| BalanceText (aet : string)
| Awaiting (approvalId : Z).

(** What an approved action returns. *)
Inductive actionResult :=
| Signature (hex : string)
| Submitted (result : ConnectionManager.TxResult).

Section WithPlatform.
Context {W : Crypto.WebCrypto} {K : Keyring} {V : WalletOps.Vault}
        {C : ConnectionManager.Chain} {L : Queries.Ledger}
        {Value : Type} {R : Requests Value}.

(** [chrome.storage.session]'s [pendingDappRequest] *)
Record PendingDappRequest := PendingRequest {
  pendingMethod : string;
  pendingOrigin : string;
  pendingParams : option Value;
  pendingTimestamp : Z
}.

(** The wallet service with its storage, the site permissions as
    [getPermissions] reads them (the empty object when none are stored), the
    session storage, the handler itself and the connection manager.  The
    handler reads [Date.now()] from the clock of its approvals. *)
Record state := State {
  wallet : world;
  permissions : gmap string SitePermission;
  session : option PendingDappRequest;
  approvals : DappHandler.handler Value;
  link : ConnectionManager.manager
}.

(** How the two calls of [openApprovalPopup] end, when it is called:
    [chrome.storage.session.set] and [chrome.action.openPopup]. *)
Record popup := Popup { sessionSet : completion unit; openPopup : completion unit }.

Definition D (A : Type) : Type := state -> completion A * state.

Definition retD {A} (a : A) : D A := fun st => (Return a, st).
Definition throwD {A} (e : exn) : D A := fun st => (Throw e, st).
Definition bindD {A B} (m : D A) (k : A -> D B) : D B := fun st =>
  match m st with
  | (Return a, st') => k a st'
  | (Throw e, st') => (Throw e, st')
  end.

Notation "'let*' x ':=' m 'in' k" := (bindD m (fun x => k))
  (at level 10, x name, m at level 100, k at level 200).
Notation "'do' m 'in' k" := (bindD m (fun _ => k))
  (at level 10, m at level 100, k at level 200).

(** A call on the wallet service. *)
Definition liftW {A} (m : M A) : D A := fun st =>
  let '(r, w) := m (wallet st) in
  (r, State w (permissions st) (session st) (approvals st) (link st)).

Definition getPermissions : D (gmap string SitePermission) := fun st =>
  (Return (permissions st), st).

Definition savePermissions (p : gmap string SitePermission) : D unit := fun st =>
  (Return tt, State (wallet st) p (session st) (approvals st) (link st)).

(** [permissions[origin]?.connected] *)
Definition isConnectedSite (p : gmap string SitePermission) (origin : string) : bool :=
  match p !! origin with
  | Some permission => connected permission
  | None => false
  end.

(** [wallets.filter((w) => allowedAddresses.includes(w.address)).map((w) => w.address)] *)
Definition allowedOf (p : gmap string SitePermission) (origin : string)
    (wallets : list WalletOps.WalletAccount.t) : list string :=
  let allowedAddresses := default [] (accounts <$> p !! origin) in
  map WalletOps.WalletAccount.address
    (List.filter
       (fun w => existsb (String.eqb (WalletOps.WalletAccount.address w)) allowedAddresses)
       wallets).

Definition openApprovalPopup (method origin : string) (params : option Value) (env : popup)
  : D unit := fun st =>
  match sessionSet env with
  | Throw e => (Throw e, st)
  | Return _ =>
      (openPopup env,
       State (wallet st) (permissions st)
         (Some (PendingRequest method origin params (DappHandler.now (approvals st))))
         (approvals st) (link st))
  end.

Definition handleConnect (origin : string) (env : popup) : D (list string) :=
  let* permissions := getPermissions in
  (* Check if already connected *)
  if isConnectedSite permissions origin then
    let* wallets := liftW WalletOps.getWallets in
    retD (allowedOf permissions origin wallets)
  else
    (* Need user approval - open popup *)
    do openApprovalPopup "connect" origin None env in
    (* Return empty for now - will be updated after user approval *)
    retD [].

(** [if (permissions[origin]) { delete permissions[origin]; await
    savePermissions(permissions) }]: what is stored reads as the permissions
    without the origin in either case. *)
Definition handleDisconnect (origin : string) : D unit :=
  let* permissions := getPermissions in
  savePermissions (delete origin permissions).

Definition handleGetAccounts (origin : string) : D (list string) :=
  let* permissions := getPermissions in
  if negb (isConnectedSite permissions origin) then retD []
  else
    let* wallets := liftW WalletOps.getWallets in
    retD (allowedOf permissions origin wallets).

Definition handleGetBalance (origin : string) (params : option Value) : D string :=
  let* permissions := getPermissions in
  if negb (isConnectedSite permissions origin) then throwD (Error "Not connected")
  else
    let* address :=
      match addressParam params with
      | Some (String c rest) => retD (String c rest)
      | _ =>
          let* activeWallet := liftW WalletOps.getActiveWallet in
          match activeWallet with
          | None => throwD (Error "No active wallet")
          | Some activeWallet => retD (WalletOps.WalletAccount.address activeWallet)
          end
      end in
    (* Check if address is allowed *)
    if negb (existsb (String.eqb address)
               (default [] (accounts <$> permissions !! origin)))
    then throwD (Error "Address not allowed")
    else
      fun st =>
        (bindC (Queries.getBalance (link st) address) (fun balance =>
         (* Return balance in AET as string *)
         Return (aetText (Queries.free balance))), st).

(** [requestApproval] of the handler, after its popup. *)
Definition requestApproval (origin method : string) (params : option Value) (env : popup)
  : D Z :=
  fun st =>
    let '(opened, st) := openApprovalPopup method origin params env st in
    let '(r, approvals) := DappHandler.requestApproval origin method params opened (approvals st) in
    (r, State (wallet st) (permissions st) (session st) approvals (link st)).

Definition isApprovalMethod (method : string) : bool :=
  String.eqb method "signMessage" || String.eqb method "signTransaction"
  || String.eqb method "sendTransaction" || String.eqb method "addStake"
  || String.eqb method "removeStake".

Definition handleRequest (origin method : string) (params : option Value) (env : popup)
  : D reply :=
  if String.eqb method "connect" then
    let* addresses := handleConnect origin env in retD (Accounts addresses)
  else if String.eqb method "disconnect" then
    do handleDisconnect origin in retD Done
  else if String.eqb method "getAccounts" then
    let* addresses := handleGetAccounts origin in retD (Accounts addresses)
  else if String.eqb method "getBalance" then
    let* aet := handleGetBalance origin params in retD (BalanceText aet)
  else if isApprovalMethod method then
    let* approvalId := requestApproval origin method params env in retD (Awaiting approvalId)
  else throwD (Error ("Unknown method: " +:+ method)).

(** [permissions[origin] = { ... }]: for the key ["__proto__"] on an
    object without such a property of its own, the assignment sets the
    prototype of the object and adds no property, so what is saved is what
    was read. *)
Definition grantPermission (origin : string) (accounts : list string) : D unit :=
  let* permissions := getPermissions in
  fun st =>
    let permission := Permission true accounts (DappHandler.now (approvals st)) in
    savePermissions
      (if String.eqb origin "__proto__" && negb (bool_decide (is_Some (permissions !! origin)))
       then permissions
       else <[origin := permission]> permissions) st.

Definition revokePermission (origin : string) : D unit :=
  let* permissions := getPermissions in
  savePermissions (delete origin permissions).

Definition getAllPermissions : D (gmap string SitePermission) := getPermissions.

(** The promise an approved action returns: it may stay pending, as the
    pipeline's does. *)
Definition executeApprovedAction (method origin : string) (params : option Value)
    (st : state) : ConnectionManager.outcome actionResult * state :=
  if negb (isConnectedSite (permissions st) origin)
  then (ConnectionManager.Settled (Throw (Error "Not connected")), st)
  else
    match WalletOps.getActiveWallet (wallet st) with
    | (Throw e, w) =>
        (ConnectionManager.Settled (Throw e),
         State w (permissions st) (session st) (approvals st) (link st))
    | (Return None, w) =>
        (ConnectionManager.Settled (Throw (Error "No active wallet")),
         State w (permissions st) (session st) (approvals st) (link st))
    | (Return (Some activeWallet), w) =>
        let st := State w (permissions st) (session st) (approvals st) (link st) in
        let walletId := WalletOps.WalletAccount.id activeWallet in
        if negb (isUnlocked walletId (this w))
        then (ConnectionManager.Settled (Throw (Error "Wallet is locked")), st)
        else
          match getKeypair walletId (this w) with
          | None => (ConnectionManager.Settled (Throw (Error "Failed to get keypair")), st)
          | Some keypair =>
              let signer :=
                ConnectionManager.MakeSigner (WalletOps.WalletAccount.address activeWallet)
                  (WalletOps.pairSign keypair) in
              let submitted (o : ConnectionManager.outcome ConnectionManager.TxResult) :=
                match o with
                | ConnectionManager.Settled (Return r) =>
                    ConnectionManager.Settled (Return (Submitted r))
                | ConnectionManager.Settled (Throw e) => ConnectionManager.Settled (Throw e)
                | ConnectionManager.Pending => ConnectionManager.Pending
                end in
              if String.eqb method "signMessage" then
                match messageParam params with
                | Throw e => (ConnectionManager.Settled (Throw e), st)
                | Return message =>
                    let '(r, w) := WalletOps.signMessage walletId message w in
                    (ConnectionManager.Settled (bindC r (fun hex => Return (Signature hex))),
                     State w (permissions st) (session st) (approvals st) (link st))
                end
              else if String.eqb method "sendTransaction" then
                match bindC (transferParams params) (fun '(to, amount) =>
                      bindC (toRet amount) (fun amountBigInt => Return (to, amountBigInt))) with
                | Throw e => (ConnectionManager.Settled (Throw e), st)
                | Return (to, amountBigInt) =>
                    (submitted (ConnectionManager.transfer (link st) signer to amountBigInt),
                     st)
                end
              else if String.eqb method "addStake" then
                match bindC (stakeParams params) (fun '(hotkey, netuid, amount) =>
                      bindC (toRet amount) (fun amountBigInt =>
                      Return (hotkey, netuid, amountBigInt))) with
                | Throw e => (ConnectionManager.Settled (Throw e), st)
                | Return (hotkey, netuid, amountBigInt) =>
                    (submitted
                       (ConnectionManager.addStake (link st) signer hotkey netuid amountBigInt),
                     st)
                end
              else if String.eqb method "removeStake" then
                match bindC (stakeParams params) (fun '(hotkey, netuid, amount) =>
                      bindC (toRet amount) (fun amountBigInt =>
                      Return (hotkey, netuid, amountBigInt))) with
                | Throw e => (ConnectionManager.Settled (Throw e), st)
                | Return (hotkey, netuid, amountBigInt) =>
                    (submitted
                       (ConnectionManager.removeStake (link st) signer hotkey netuid
                          amountBigInt),
                     st)
                end
              else
                (ConnectionManager.Settled (Throw (Error ("Unknown method: " +:+ method))),
                 st)
          end
    end.

(** What reaches the handler from outside: a request of a page, the user's
    answer to an approval, the passing of time (for the approval timers and
    for the wallet service's auto-lock). *)
Inductive event :=
| Requested (origin method : string) (params : option Value) (env : popup)
| Answered (approvalId : Z) (approved : bool) (result : option Value)
| ClockReached (t : Z).

Definition step (st : state) (e : event) : state :=
  match e with
  | Requested origin method params env => snd (handleRequest origin method params env st)
  | Answered approvalId approved result =>
      State (wallet st) (permissions st) (session st)
        (DappHandler.resolveApproval approvalId approved result (approvals st)) (link st)
  | ClockReached t =>
      State (snd (WalletOps.clockReaches t (wallet st))) (permissions st) (session st)
        (DappHandler.advanceTo t (approvals st)) (link st)
  end.

Definition run (events : list event) (st : state) : state := fold_left step events st.

(** A call that leaves the state as it was. *)
Definition reads {A} (m : D A) : Prop := forall st, snd (m st) = st.

(** The event is the request of [site] to disconnect. *)
Definition disconnects (site : string) (e : event) : bool :=
  match e with
  | Requested origin method _ _ => String.eqb origin site && String.eqb method "disconnect"
  | _ => false
  end.

End WithPlatform.

Arguments state {K} Value.
Arguments event Value : clear implicits.
Arguments D {K} Value A.

End DappOps.

(** A page whose [params] are a text (which has no [address]): the
    message, the recipient, the hot key; amounts read as their length. *)
Module ToyDapp.

#[export] Instance ledger : Queries.Ledger := {|
  Queries.systemAccount := fun address =>
    Return (Queries.Account (Z.of_nat (String.length address)) 0 None)
|}.

#[export] Instance requests : DappOps.Requests jsstring := {|
  DappOps.addressParam := fun params => None;
  DappOps.messageParam := fun params =>
    match params with
    | Some message => Return message
    | None => Throw (Exn "TypeError" "Cannot destructure property")
    end;
  DappOps.transferParams := fun params =>
    match params with
    | Some to => Return (ToyOps.text to, to)
    | None => Throw (Exn "TypeError" "Cannot destructure property")
    end;
  DappOps.stakeParams := fun params =>
    match params with
    | Some hotkey => Return (ToyOps.text hotkey, 1, hotkey)
    | None => Throw (Exn "TypeError" "Cannot destructure property")
    end;
  DappOps.toRet := fun amount => Return (Z.of_nat (length amount));
  DappOps.aetText := fun free => "0"%string
|}.

End ToyDapp.

(** ** background/connectionManager.ts: kinds of events and status updates *)

Module ManagerEvents.

Import ConnectionManager.

(** [networkId === 'custom' || networkId.startsWith('custom_')] *)
Definition isCustomId (networkId : string) : bool :=
  String.eqb networkId "custom" || String.prefix "custom_" networkId.

(** What happens without anybody calling the manager: timers fire and
    links are lost. *)
Definition unattended (e : event) : bool :=
  match e with
  | TimerFired | LinkLost | StaleLinkLost => true
  | _ => false
  end.

Definition lost (e : event) : bool :=
  match e with
  | LinkLost => true
  | _ => false
  end.

Definition isConnectCall (e : event) : bool :=
  match e with
  | ConnectCalled _ _ => true
  | _ => false
  end.

(** A status update that settles the promise of [submitAndWaitForBlock]:
    it is in a block or finalized, and the callback does not throw on it
    (it throws when decoding a module error throws). *)
Definition decides (st : manager) (status : Status) : bool :=
  (isInBlock status || isFinalized status) &&
  match dispatchError status with
  | Some dispatchError =>
      if isModule dispatchError && bool_decide (is_Some (api st)) then
        match asModule dispatchError with
        | Return _ => true
        | Throw _ => false
        end
      else true
  | None => true
  end.

(** A manager that is idle on a network the table does not have. *)
Definition stranded (st : manager) : Prop :=
  (exists network, currentNetwork st = Some network /\ NETWORKS (id network) = None) /\
  isConnecting st = false /\ inflight st = None.

End ManagerEvents.

(** ** shared/utils/validation.ts: passwords *)

Module Validation.

(** [/[A-Z]/], [/[a-z]/], [/[0-9]/] on one code unit *)
Definition isUpper (u : Z) : bool := (65 <=? u) && (u <=? 90).
Definition isLower (u : Z) : bool := (97 <=? u) && (u <=? 122).
Definition isDigit (u : Z) : bool := (48 <=? u) && (u <=? 57).

(** The character class of the last test of [validatePassword], as code
    units in the order the class is written. *)
Definition SPECIAL : list Z :=
  [33; 64; 35; 36; 37; 94; 38; 42; 40; 41; 95; 43; 45; 61; 91; 93; 123; 125; 124; 59; 39;
   58; 34; 44; 46; 47; 60; 62; 63; 92; 96; 126].

Definition isSpecial (u : Z) : bool := existsb (Z.eqb u) SPECIAL.

(** [/[^A-Za-z0-9]/] *)
Definition isOther (u : Z) : bool := negb (isUpper u || isLower u || isDigit u).

Inductive requirement := minLength | uppercase | digit | special.

Record PasswordValidation := MakeValidation { isValid : bool; errors : list requirement }.

Definition validatePassword (password : jsstring) : PasswordValidation :=
  let errors := [] in
  let errors := if Z.of_nat (length password) <? 8 then errors ++ [minLength] else errors in
  let errors := if negb (existsb isUpper password) then errors ++ [uppercase] else errors in
  let errors := if negb (existsb isDigit password) then errors ++ [digit] else errors in
  let errors := if negb (existsb isSpecial password) then errors ++ [special] else errors in
  MakeValidation (Nat.eqb (length errors) 0) errors.

Inductive PasswordStrengthLevel := weak | fair | good | strong.

Record PasswordStrength := MakeStrength {
  level : Z;
  label : PasswordStrengthLevel;
  color : string
}.

Definition labels : list PasswordStrengthLevel := [weak; weak; fair; good; strong].
Definition colors : list string := ["#ef4444"; "#f97316"; "#eab308"; "#84cc16"; "#22c55e"]%string.

(** The score, from 0 to 7. *)
Definition score (password : jsstring) : Z :=
  let n := Z.of_nat (length password) in
  (* Length checks *)
  (if 8 <=? n then 1 else 0) + (if 12 <=? n then 1 else 0) + (if 16 <=? n then 1 else 0)
  (* Character type checks *)
  + (if existsb isUpper password then 1 else 0)
  + (if existsb isLower password then 1 else 0)
  + (if existsb isDigit password then 1 else 0)
  + (if existsb isOther password then 1 else 0).

(** [Math.min(4, Math.floor(score * 4 / 7))]: for the scores 0 to 7 the
    quotient in floating point has the integer part of the exact one. *)
Definition getPasswordStrength (password : jsstring) : PasswordStrength :=
  match password with
  | [] => MakeStrength 0 weak "#ef4444"
  | _ =>
      let level := Z.min 4 (score password * 4 / 7) in
      MakeStrength level (nth (Z.to_nat level) labels weak)
        (nth (Z.to_nat level) colors "#ef4444"%string)
  end.

End Validation.

(** ** shared/utils/validation.ts: addresses *)

Module AddressRules.

(** The code units [String.prototype.trim] removes: white space and line
    terminators. *)
Definition isWhiteSpace (u : Z) : bool :=
  existsb (Z.eqb u) [9; 10; 11; 12; 13; 32; 160; 5760; 8232; 8233; 8239; 8287; 12288; 65279]
  || ((8192 <=? u) && (u <=? 8202)).

Fixpoint trimStart (s : jsstring) : jsstring :=
  match s with
  | [] => []
  | u :: rest => if isWhiteSpace u then trimStart rest else s
  end.

Definition trimEnd (s : jsstring) : jsstring := rev (trimStart (rev s)).

Definition trim (s : jsstring) : jsstring := trimEnd (trimStart s).

(** One code unit of the class [[1-9A-HJ-NP-Za-km-z]] *)
Definition isBase58 (u : Z) : bool :=
  ((49 <=? u) && (u <=? 57)) || ((65 <=? u) && (u <=? 72)) || ((74 <=? u) && (u <=? 78))
  || ((80 <=? u) && (u <=? 90)) || ((97 <=? u) && (u <=? 107)) || ((109 <=? u) && (u <=? 122)).

(** [/^[1-9A-HJ-NP-Za-km-z]+$/.test(s)] *)
Definition base58Text (s : jsstring) : bool :=
  match s with
  | [] => false
  | _ => forallb isBase58 s
  end.

Record AddressValidation := MakeValidation { isValid : bool; error : option string }.

Section WithDecoder.
(** [decodeAddress] of the chain library, which returns the public key or
    throws; the validator drops what it returns. *)
Variable decodeAddress : jsstring -> completion (list byte).

Definition validateSS58Address (address : jsstring) : AddressValidation :=
  if bool_decide (address = []) || bool_decide (trim address = []) then
    MakeValidation false (Some "Address is required"%string)
  else
    let trimmedAddress := trim address in
    (* SS58 addresses use base58 characters (excluding 0, O, I, l) *)
    if negb (base58Text trimmedAddress) then
      MakeValidation false (Some "Invalid address format"%string)
    (* Typical Substrate address length is 47-48 characters *)
    else if (Z.of_nat (length trimmedAddress) <? 45) || (50 <? Z.of_nat (length trimmedAddress))
    then MakeValidation false (Some "Invalid address length"%string)
    else
      match decodeAddress trimmedAddress with
      | Return _ => MakeValidation true None
      | Throw _ => MakeValidation false (Some "Invalid SS58 address"%string)
      end.

End WithDecoder.

End AddressRules.


Import Encoding.

Lemma Z_of_byte_range b : 0 <= Z_of_byte b < 256.
Proof.
  unfold Z_of_byte. pose proof (Byte.to_N_bounded b). lia.
Qed.

Lemma Z_of_byte_of_Z z : 0 <= z < 256 -> Z_of_byte (byte_of_Z z) = z.
Proof.
  intros Hz. unfold Z_of_byte, byte_of_Z.
  rewrite Z.mod_small by lia.
  destruct (Byte.of_N (Z.to_N z)) as [b|] eqn:E.
  - apply Byte.to_of_N in E. rewrite E. lia.
  - apply Byte.of_N_None_iff in E. lia.
Qed.

Lemma byte_of_Z_of_byte b : byte_of_Z (Z_of_byte b) = b.
Proof.
  unfold byte_of_Z. rewrite Z.mod_small by apply Z_of_byte_range.
  unfold Z_of_byte. rewrite N2Z.id, Byte.of_to_N. reflexivity.
Qed.

Lemma lor_shiftl6 x y : 0 <= x -> 0 <= y < 64 -> Z.lor (Z.shiftl x 6) y = x * 64 + y.
Proof.
  intros Hx Hy.
  rewrite Z.shiftl_mul_pow2 by lia. change (2 ^ 6) with 64.
  rewrite <- Z.lxor_lor, <- Z.add_nocarry_lxor; try reflexivity.
  all: apply Z.bits_inj'; intros n Hn; rewrite Z.land_spec, Z.bits_0.
  all: destruct (Z.lt_ge_cases n 6) as [Hlt|Hge].
  all: try (change 64 with (2 ^ 6); rewrite Z.mul_pow2_bits_low by lia; reflexivity).
  all: rewrite (Z.bits_above_log2 y n), andb_false_r; try reflexivity; try lia.
  all: destruct (Z.eq_dec y 0) as [->|Hy0]; [simpl; lia|].
  all: apply Z.log2_lt_pow2; try lia.
  all: apply Z.lt_le_trans with (2 ^ 6); [change (2^6) with 64; lia|].
  all: apply Z.pow_le_mono_r; lia.
Qed.

Ltac zdm := Z.to_euclidean_division_equations; lia.

(** Case analysis on every comparison the goal tests. *)
Ltac split_test :=
  match goal with
  | |- context [?test ?x ?y] =>
      lazymatch test with
      | Z.leb => destruct (Z.leb_spec x y)
      | Z.ltb => destruct (Z.ltb_spec x y)
      | Z.eqb => destruct (Z.eqb_spec x y)
      end
  end.
Ltac split_tests := repeat split_test.

Lemma land_mask5 b : 0 <= b -> Z.land b 0x1F = b mod 32.
Proof. intros. change 0x1F with (Z.ones 5). rewrite Z.land_ones by lia. reflexivity. Qed.
Lemma land_mask4 b : 0 <= b -> Z.land b 0xF = b mod 16.
Proof. intros. change 0xF with (Z.ones 4). rewrite Z.land_ones by lia. reflexivity. Qed.
Lemma land_mask3 b : 0 <= b -> Z.land b 0x7 = b mod 8.
Proof. intros. change 0x7 with (Z.ones 3). rewrite Z.land_ones by lia. reflexivity. Qed.
Lemma land_mask6 b : 0 <= b -> Z.land b 0x3F = b mod 64.
Proof. intros. change 0x3F with (Z.ones 6). rewrite Z.land_ones by lia. reflexivity. Qed.

Lemma leadByte_ascii b : 0 <= b <= 0x7F -> leadByte b = ([b], decoder0).
Proof. intros. unfold leadByte. split_tests; try lia; reflexivity. Qed.

Lemma leadByte_two b : 0xC2 <= b <= 0xDF ->
  leadByte b = ([], Decoder (b mod 32) 0 1 0x80 0xBF).
Proof.
  intros. unfold leadByte. rewrite land_mask5 by lia.
  split_tests; simpl; try lia; reflexivity.
Qed.

Lemma leadByte_three b : 0xE0 <= b <= 0xEF ->
  leadByte b = ([], Decoder (b mod 16) 0 2
                      (if b =? 0xE0 then 0xA0 else 0x80)
                      (if b =? 0xED then 0x9F else 0xBF)).
Proof.
  intros. unfold leadByte. rewrite land_mask4 by lia.
  destruct (Z.leb_spec b 0x7F); [lia|].
  destruct (Z.leb_spec 0xC2 b); [|lia].
  destruct (Z.leb_spec b 0xDF); [lia|].
  destruct (Z.leb_spec 0xE0 b); [|lia].
  destruct (Z.leb_spec b 0xEF); [|lia].
  reflexivity.
Qed.

Lemma leadByte_four b : 0xF0 <= b <= 0xF4 ->
  leadByte b = ([], Decoder (b mod 8) 0 3
                      (if b =? 0xF0 then 0x90 else 0x80)
                      (if b =? 0xF4 then 0x8F else 0xBF)).
Proof.
  intros. unfold leadByte. rewrite land_mask3 by lia.
  destruct (Z.leb_spec b 0x7F); [lia|].
  destruct (Z.leb_spec 0xC2 b); [|lia].
  destruct (Z.leb_spec b 0xDF); [lia|].
  destruct (Z.leb_spec 0xE0 b); [|lia].
  destruct (Z.leb_spec b 0xEF); [lia|].
  destruct (Z.leb_spec 0xF0 b); [|lia].
  destruct (Z.leb_spec b 0xF4); [|lia].
  reflexivity.
Qed.

(** One continuation byte in range. *)
Lemma decode_cont cp seen needed lo hi b rest :
  needed <> 0 -> lo <= b <= hi -> 0 <= cp -> 0 <= b ->
  utf8DecodeFrom (Decoder cp seen needed lo hi) (b :: rest) =
  if seen + 1 =? needed
  then (cp * 64 + b mod 64) :: utf8DecodeFrom decoder0 rest
  else utf8DecodeFrom (Decoder (cp * 64 + b mod 64) (seen + 1) needed 0x80 0xBF) rest.
Proof.
  intros Hn Hb Hcp Hb0. cbn [utf8DecodeFrom bytes_needed lower_boundary upper_boundary code_point bytes_seen].
  destruct (Z.eqb_spec needed 0); [lia|].
  destruct (Z.leb_spec lo b); [|lia].
  destruct (Z.leb_spec b hi); [|lia].
  cbn [andb]. rewrite land_mask6 by lia.
  rewrite lor_shiftl6; [reflexivity|lia|].
  apply Z.mod_pos_bound. lia.
Qed.

Lemma decode_lead b rest :
  utf8DecodeFrom decoder0 (b :: rest) =
  let '(out, st') := leadByte b in out ++ utf8DecodeFrom st' rest.
Proof. reflexivity. Qed.

Lemma decode_utf8Bytes c rest : scalar c ->
  utf8DecodeFrom decoder0 (utf8Bytes c ++ rest) = c :: utf8DecodeFrom decoder0 rest.
Proof.
  intros Hc. unfold utf8Bytes.
  destruct (Z.ltb_spec c 0x80) as [H1|H1].
  { cbn [app]. rewrite decode_lead, leadByte_ascii by (destruct Hc; lia). reflexivity. }
  destruct (Z.ltb_spec c 0x800) as [H2|H2].
  { cbn [app]. rewrite decode_lead, leadByte_two by zdm.
    cbn [app]. rewrite decode_cont by zdm.
    change (0 + 1 =? 1) with true. cbv iota. f_equal. zdm. }
  destruct (Z.ltb_spec c 0x10000) as [H3|H3].
  { cbn [app]. rewrite decode_lead, leadByte_three by zdm.
    cbn [app]. rewrite decode_cont.
    2: lia. 4: zdm. 3: zdm.
    2:{ destruct Hc. all: split_tests; zdm. }
    change (0 + 1 =? 2) with false. cbv iota.
    rewrite decode_cont by zdm.
    change (0 + 1 + 1 =? 2) with true. cbv iota. f_equal. zdm. }
  { cbn [app]. rewrite decode_lead, leadByte_four by (destruct Hc; zdm).
    cbn [app]. rewrite decode_cont.
    2: lia. 4: zdm. 3: zdm.
    2:{ destruct Hc. all: split_tests; zdm. }
    change (0 + 1 =? 3) with false. cbv iota.
    rewrite decode_cont by zdm.
    change (0 + 1 + 1 =? 3) with false. cbv iota.
    rewrite decode_cont by zdm.
    change (0 + 1 + 1 + 1 =? 3) with true. cbv iota. f_equal. destruct Hc; zdm. }
Qed.

Lemma utf8Bytes_range c : scalar c -> Forall isByteZ (utf8Bytes c).
Proof.
  intros Hc. unfold utf8Bytes, isByteZ.
  destruct (Z.ltb_spec c 0x80); [|destruct (Z.ltb_spec c 0x800); [|destruct (Z.ltb_spec c 0x10000)]].
  all: repeat constructor; destruct Hc; zdm.
Qed.

Lemma map_Z_of_byte_of_Z zs : Forall isByteZ zs -> map Z_of_byte (map byte_of_Z zs) = zs.
Proof.
  induction 1 as [|z zs Hz _ IH]; [reflexivity|].
  cbn [map]. rewrite Z_of_byte_of_Z, IH by exact Hz. reflexivity.
Qed.

Lemma decode_scalars cs : Forall scalar cs ->
  utf8DecodeFrom decoder0 (concat (map utf8Bytes cs)) = cs.
Proof.
  induction 1 as [|c cs Hc _ IH]; [reflexivity|].
  cbn [map concat]. rewrite decode_utf8Bytes, IH by exact Hc. reflexivity.
Qed.

Lemma utf16Units_pair u v : isCodeUnit u = true -> isLead u = true -> isTrail v = true ->
  utf16Units (0x10000 + (u - 0xD800) * 0x400 + (v - 0xDC00)) = [u; v] /\
  scalar (0x10000 + (u - 0xD800) * 0x400 + (v - 0xDC00)).
Proof.
  unfold isCodeUnit, isLead, isTrail, utf16Units, scalar.
  rewrite !andb_true_iff, !Z.leb_le, Z.ltb_lt. intros [? ?] [? ?] [? ?].
  destruct (Z.ltb_spec (0x10000 + (u - 0xD800) * 0x400 + (v - 0xDC00)) 0x10000); [lia|].
  split; [|lia]. f_equal; [|f_equal]; zdm.
Qed.

Lemma utf16Units_bmp u : isCodeUnit u = true -> isLead u = false -> isTrail u = false ->
  utf16Units u = [u] /\ scalar u.
Proof.
  unfold isCodeUnit, isLead, isTrail, utf16Units, scalar.
  rewrite !andb_true_iff, !andb_false_iff, !Z.leb_le, !Z.leb_gt, Z.ltb_lt. intros [? ?] ? ?.
  destruct (Z.ltb_spec u 0x10000); [|lia]. split; [reflexivity|lia].
Qed.

(** Induction two code units at a time. *)
Lemma toScalars_wellFormed s : isWellFormed s = true ->
  Forall scalar (toScalars s) /\ concat (map utf16Units (toScalars s)) = s.
Proof.
  remember (length s) as n eqn:Hn. revert s Hn.
  induction n as [n IH] using (well_founded_induction Nat.lt_wf_0). intros s Hn Hwf.
  destruct s as [|u rest]; [split; [constructor|reflexivity]|].
  cbn [isWellFormed toScalars] in *.
  apply andb_true_iff in Hwf as [Hu Hwf].
  destruct (isLead u) eqn:Hl.
  - destruct rest as [|v rest']; [discriminate|].
    apply andb_true_iff in Hwf as [Hv Hwf]. rewrite Hv.
    destruct (utf16Units_pair u v Hu Hl Hv) as [Hp Hs].
    destruct (IH (length rest')) with (s := rest') as [IH1 IH2]; [subst n; simpl; lia|reflexivity|exact Hwf|].
    split; [constructor; assumption|].
    cbn [map concat]. rewrite Hp, IH2. reflexivity.
  - apply andb_true_iff in Hwf as [Ht Hwf]. apply negb_true_iff in Ht. rewrite Ht.
    destruct (utf16Units_bmp u Hu Hl Ht) as [Hp Hs].
    destruct (IH (length rest)) with (s := rest) as [IH1 IH2]; [subst n; simpl; lia|reflexivity|exact Hwf|].
    split; [constructor; assumption|].
    cbn [map concat]. rewrite Hp, IH2. reflexivity.
Qed.

Lemma utf8Bytes_first c : scalar c ->
  exists b bs, utf8Bytes c = b :: bs /\
    (b = 0xEF -> exists b1 b2, bs = [b1; b2] /\ (b1 = 0xBB -> b2 = 0xBF -> c = 0xFEFF)).
Proof.
  intros Hc. unfold utf8Bytes.
  destruct (Z.ltb_spec c 0x80); [|destruct (Z.ltb_spec c 0x800); [|destruct (Z.ltb_spec c 0x10000)]].
  all: eexists _, _; split; [reflexivity|]; intros Hb.
  1,2,4: exfalso; destruct Hc; zdm.
  eexists _, _; split; [reflexivity|]. intros. zdm.
Qed.

Lemma stripBOM_scalars c cs : scalar c -> c <> 0xFEFF ->
  stripBOM (concat (map utf8Bytes (c :: cs))) = concat (map utf8Bytes (c :: cs)).
Proof.
  intros Hc Hne. cbn [map concat].
  destruct (utf8Bytes_first c Hc) as (b & bs & -> & Hb).
  cbn [app]. unfold stripBOM.
  destruct (Z.eq_dec b 0xEF) as [->|Hb'].
  - destruct (Hb eq_refl) as (b1 & b2 & -> & Hc'). cbn [app].
    destruct (Z.eq_dec b1 0xBB) as [->|?]; [destruct (Z.eq_dec b2 0xBF) as [->|?]|].
    + exfalso. apply Hne, Hc'; reflexivity.
    + repeat (match goal with |- context [match ?x with _ => _ end] => destruct x eqn:? end; try reflexivity; try lia).
    + repeat (match goal with |- context [match ?x with _ => _ end] => destruct x eqn:? end; try reflexivity; try lia).
  - repeat (match goal with |- context [match ?x with _ => _ end] => destruct x eqn:? end; try reflexivity; try lia).
Qed.

Lemma toScalars_head s : isWellFormed s = true -> startsWithBOM s = false ->
  toScalars s = [] \/ exists c cs, toScalars s = c :: cs /\ c <> 0xFEFF.
Proof.
  destruct s as [|u rest]; [left; reflexivity|]. intros Hwf Hbom. right.
  cbn [isWellFormed toScalars startsWithBOM] in *.
  apply Z.eqb_neq in Hbom.
  apply andb_true_iff in Hwf as [Hu Hwf].
  destruct (isLead u) eqn:Hl.
  - destruct rest as [|v rest']; [discriminate|].
    apply andb_true_iff in Hwf as [Hv Hwf]. rewrite Hv.
    eexists _, _. split; [reflexivity|].
    unfold isLead, isTrail in *.
    rewrite !andb_true_iff, !Z.leb_le in *. lia.
  - apply andb_true_iff in Hwf as [Ht Hwf]. apply negb_true_iff in Ht. rewrite Ht.
    eexists _, _. split; [reflexivity|exact Hbom].
Qed.

Lemma utf8EncodeZ_bytes s : isWellFormed s = true -> Forall isByteZ (utf8EncodeZ s).
Proof.
  intros Hwf. destruct (toScalars_wellFormed s Hwf) as [Hs _].
  unfold utf8EncodeZ. induction Hs as [|c cs Hc _ IH]; [constructor|].
  cbn [map concat]. apply Forall_app. split; [apply utf8Bytes_range, Hc|exact IH].
Qed.

(** The text codec round-trips every well-formed string that does not begin
    with a byte order mark. *)
Lemma decode_encode s :
  isWellFormed s = true -> startsWithBOM s = false -> decode (encode s) = s.
Proof.
  intros Hwf Hbom. unfold decode, encode.
  rewrite map_Z_of_byte_of_Z by (apply utf8EncodeZ_bytes, Hwf).
  destruct (toScalars_wellFormed s Hwf) as [Hs Hu].
  unfold utf8DecodeZ, utf8EncodeZ.
  destruct (toScalars_head s Hwf Hbom) as [E|(c & cs & E & Hc)]; rewrite E in *.
  - cbn. rewrite <- Hu. reflexivity.
  - rewrite stripBOM_scalars; [|inversion Hs; assumption|exact Hc].
    rewrite decode_scalars by exact Hs. exact Hu.
Qed.

(** A leading byte order mark is lost. *)
Lemma decode_encode_BOM s :
  isWellFormed s = true -> decode (encode (0xFEFF :: s)) = s.
Proof.
  intros Hwf.
  assert (isWellFormed (0xFEFF :: s) = true) as Hwf' by (cbn; exact Hwf).
  unfold decode, encode.
  rewrite map_Z_of_byte_of_Z by (apply utf8EncodeZ_bytes, Hwf').
  destruct (toScalars_wellFormed s Hwf) as [Hs Hu].
  unfold utf8DecodeZ, utf8EncodeZ.
  change (toScalars (0xFEFF :: s)) with (0xFEFF :: toScalars s).
  cbn [map concat].
  change (utf8Bytes 0xFEFF) with [0xEF; 0xBB; 0xBF].
  change (stripBOM ([0xEF; 0xBB; 0xBF] ++ concat (map utf8Bytes (toScalars s))))
    with (concat (map utf8Bytes (toScalars s))).
  rewrite decode_scalars by exact Hs. exact Hu.
Qed.


Import Crypto.

Lemma toy_spec : WebCryptoSpec Toy.platform.
Proof.
  split.
  - intros m. cbn. unfold Toy.sha256. repeat case_decide.
    + reflexivity.
    + rewrite length_take, length_app, length_replicate. lia.
    + apply length_replicate.
  - intros key iv data. cbn. unfold Toy.aesGcmDecrypt, Toy.aesGcmEncrypt.
    rewrite (app_assoc key iv data), take_app_length, drop_app_length.
    rewrite decide_True by reflexivity. reflexivity.
  - intros binary Hb. exists binary. cbn. unfold Toy.btoa, Toy.atob.
    assert (Toy.isBinary binary = true) as ->; [|split; reflexivity].
    unfold Toy.isBinary. apply forallb_forall. intros u Hu.
    rewrite Forall_forall in Hb. specialize (Hb u). 
    apply list_elem_of_In in Hu. specialize (Hb Hu). 
    apply andb_true_iff. split; [apply Z.leb_le|apply Z.ltb_lt]; lia.
Qed.

(** The small cipher rejects a ciphertext under every 256-bit key but the
    one that made it. *)
Lemma toy_rejects_other_key (key key' iv data : list byte) :
  length key = 32%nat -> length key' = 32%nat -> key <> key' ->
  Toy.aesGcmDecrypt key' iv (Toy.aesGcmEncrypt key iv data) = None.
Proof.
  intros Hk Hk' Hne.
  unfold Toy.aesGcmDecrypt, Toy.aesGcmEncrypt.
  rewrite decide_False; [reflexivity|].
  intros H. apply Hne.
  apply (f_equal (take 32)) in H.
  rewrite take_take in H.
  rewrite length_app, Hk' in H. replace (32 `min` (32 + length iv))%nat with 32%nat in H by lia.
  rewrite <- Hk in H at 1. rewrite take_app_length in H.
  rewrite <- Hk' in H. rewrite take_app_length in H. exact H.
Qed.

Section BlockFacts.
Context {W : WebCrypto}.



Lemma pbkdf2Block_length `{!WebCryptoSpec W} (password salt : list byte) (c : N) (i : Z) :
  length (pbkdf2Block password salt c i) = 32%nat.
Proof.
  unfold pbkdf2Block.
  set (f := fun ut : list byte * list byte => _).
  set (u1 := hmac password _).
  assert (length (fst (N.iter (c - 1) f (u1, u1))) = 32%nat /\
          length (snd (N.iter (c - 1) f (u1, u1))) = 32%nat) as [_ H]; [|exact H].
  apply N.iter_invariant.
  - intros [u t] [Hu Ht]. unfold f. cbn [fst snd] in *. split.
    + apply sha256_length.
    + rewrite length_zip_with, Ht. unfold hmac. rewrite sha256_length. reflexivity.
  - unfold u1, hmac. cbn [fst snd]. split; apply sha256_length.
Qed.

End BlockFacts.

Lemma iter_fixpoint {A} (f : A -> A) (x y : A) (n : N) :
  (0 < n)%N -> f x = y -> f y = y -> N.iter n f x = y.
Proof.
  intros Hn Hx Hy.
  replace n with (N.succ (N.pred n)) by lia.
  rewrite N.iter_succ_r, Hx.
  apply (N.iter_invariant (N.pred n) A f (fun z => z = y)); [|reflexivity].
  intros z ->. exact Hy.
Qed.

(** On the small platform the first PBKDF2 iterate is the outer-padded key
    and every later one is zero, so the block is the outer-padded key. *)
Ltac toy_block :=
  unfold pbkdf2Block;
  match goal with
  | |- snd (N.iter ?n ?f (?u, ?u)) = ?k =>
      rewrite (iter_fixpoint f (u, u) (replicate 32 x00, k));
      [ reflexivity
      | reflexivity
      | vm_compute; reflexivity
      | vm_compute; reflexivity ]
  end.

Lemma toy_pbkdf2Block_a :
  pbkdf2Block (W := Toy.platform) [x61] (map Toy.tape (seq 0 32))
    (Z.to_N PBKDF2_ITERATIONS) 1 =
  x3d :: replicate 31 x5c.
Proof. toy_block. Qed.

Lemma toy_pbkdf2Block_b :
  pbkdf2Block (W := Toy.platform) [x62] (map Toy.tape (seq 0 32))
    (Z.to_N PBKDF2_ITERATIONS) 1 =
  x3e :: replicate 31 x5c.
Proof. toy_block. Qed.

(** From here on the PBKDF2 block is used through the lemmas above only. *)
#[global] Opaque Crypto.pbkdf2Block.

Section CryptoFacts.
Context {W : WebCrypto}.

Lemma binary_fold (bytes : list byte) (acc : jsstring) :
  fold_left (fun binary b => binary ++ [Z_of_byte b]) bytes acc = acc ++ map Z_of_byte bytes.
Proof.
  revert acc. induction bytes as [|b bs IH]; intros acc; cbn [fold_left map].
  - now rewrite app_nil_r.
  - rewrite IH, <- app_assoc. reflexivity.
Qed.

Lemma Z_of_byte_binary (bytes : list byte) :
  Forall (fun u => 0 <= u < 256) (map Z_of_byte bytes).
Proof.
  induction bytes; constructor; [apply Z_of_byte_range | assumption].
Qed.

Lemma map_byte_of_Z_of_byte (bytes : list byte) :
  map byte_of_Z (map Z_of_byte bytes) = bytes.
Proof.
  induction bytes as [|b bs IH]; [reflexivity|].
  cbn [map]. now rewrite byte_of_Z_of_byte, IH.
Qed.

Lemma base64_roundtrip `{!WebCryptoSpec W} (bytes : list byte) :
  exists base64, uint8ArrayToBase64 bytes = Return base64 /\
                 base64ToUint8Array base64 = Return bytes.
Proof.
  unfold uint8ArrayToBase64, base64ToUint8Array.
  rewrite binary_fold. cbn [app].
  destruct (atob_btoa (map Z_of_byte bytes) (Z_of_byte_binary bytes)) as (s & Hs & Hs').
  exists s. split; [exact Hs|]. rewrite Hs'. cbn [bindC].
  now rewrite map_byte_of_Z_of_byte.
Qed.

Lemma base64_injective `{!WebCryptoSpec W} (a b : list byte) (s : jsstring) :
  uint8ArrayToBase64 a = Return s -> uint8ArrayToBase64 b = Return s -> a = b.
Proof.
  intros Ha Hb.
  destruct (base64_roundtrip a) as (sa & Ha1 & Ha2).
  destruct (base64_roundtrip b) as (sb & Hb1 & Hb2).
  congruence.
Qed.

Lemma deriveKey_returns (password : jsstring) (salt : list byte) :
  deriveKey password salt PBKDF2_ITERATIONS =
  Return (take 32 (pbkdf2Block (Encoding.encode password) salt
                     (Z.to_N PBKDF2_ITERATIONS) 1)).
Proof. reflexivity. Qed.

(** With the module's iteration count a key is always derived, 32 bytes
    long. *)
Lemma deriveKey_total `{!WebCryptoSpec W} (pw : jsstring) (salt : list byte) :
  exists key, deriveKey pw salt PBKDF2_ITERATIONS = Return key /\ length key = 32%nat.
Proof.
  eexists. split; [apply deriveKey_returns|].
  rewrite length_take, pbkdf2Block_length. reflexivity.
Qed.

(** What [encrypt] returns, field by field. *)
Lemma encrypt_returns `{!WebCryptoSpec W} (data password : jsstring) (tape : entropy)
    (key : list byte) :
  let salt := map tape (seq 0 32) in
  let iv := map tape (seq 32 12) in
  deriveKey password salt PBKDF2_ITERATIONS = Return key ->
  exists pkg,
    encrypt data password tape = (Return pkg, fun i => tape (44 + i)%nat) /\
    uint8ArrayToBase64 (aesGcmEncrypt key iv (Encoding.encode data)) = Return (ciphertext pkg) /\
    uint8ArrayToBase64 iv = Return (Crypto.iv pkg) /\
    uint8ArrayToBase64 salt = Return (Crypto.salt pkg) /\
    iterationsOf pkg = PBKDF2_ITERATIONS.
Proof.
  intros salt iv Hkey.
  destruct (base64_roundtrip (aesGcmEncrypt key iv (Encoding.encode data))) as (c64 & Hc & _).
  destruct (base64_roundtrip iv) as (i64 & Hi & _).
  destruct (base64_roundtrip salt) as (s64 & Hs & _).
  eexists. split; [|split; [|split; [|split]]].
  - unfold encrypt, getRandomValues, SALT_BYTES, IV_BYTES.
    assert (map (fun i => tape (32 + i)%nat) (seq 0 12) = iv) as -> by reflexivity.
    fold salt. rewrite Hkey. cbn [bindC].
    rewrite Hc. cbn [bindC]. rewrite Hi. cbn [bindC]. rewrite Hs. cbn [bindC].
    reflexivity.
  - exact Hc.
  - exact Hi.
  - exact Hs.
  - reflexivity.
Qed.

(** [encrypt] returns, and [decrypt] undoes it up to the text codec. *)
Lemma encrypt_total `{!WebCryptoSpec W} (data password : jsstring) (tape : entropy) :
  exists pkg, encrypt data password tape = (Return pkg, fun i => tape (44 + i)%nat) /\
    decrypt pkg password = Return (Encoding.decode (Encoding.encode data)).
Proof.
  destruct (deriveKey_total password (map tape (seq 0 32))) as (key & Hkey & _).
  destruct (encrypt_returns data password tape key Hkey) as (pkg & He & Hc & Hi & Hs & Hn).
  exists pkg. split; [exact He|].
  unfold decrypt.
  destruct (base64_roundtrip (aesGcmEncrypt key (map tape (seq 32 12)) (Encoding.encode data)))
    as (c64 & Hc1 & Hc2).
  destruct (base64_roundtrip (map tape (seq 32 12))) as (i64 & Hi1 & Hi2).
  destruct (base64_roundtrip (map tape (seq 0 32))) as (s64 & Hs1 & Hs2).
  assert (c64 = ciphertext pkg) as -> by congruence.
  assert (i64 = iv pkg) as -> by congruence.
  assert (s64 = salt pkg) as -> by congruence.
  rewrite Hc2, Hi2, Hs2. cbn [bindC]. rewrite Hn, Hkey. cbn [bindC].
  rewrite aesGcm_decrypt_encrypt. reflexivity.
Qed.

Lemma decrypt_encrypt_codec `{!WebCryptoSpec W} (data password : jsstring) (tape : entropy) :
  exists pkg, fst (encrypt data password tape) = Return pkg /\
    decrypt pkg password = Return (Encoding.decode (Encoding.encode data)).
Proof.
  destruct (encrypt_total data password tape) as (pkg & He & Hd).
  exists pkg. rewrite He. split; [reflexivity | exact Hd].
Qed.

End CryptoFacts.

Section CryptoClaims.
Context {W : WebCrypto}.




End CryptoClaims.

(** C1 (amended): for a well-formed plaintext that does not begin with
    U+FEFF, [decrypt (encrypt p pw) pw] returns [p].  Every call of
    [encrypt] reads 32 bytes of salt and then 12 bytes of nonce from the
    random source and leaves the source advanced by these 44 bytes, so the
    next call with the same inputs reads fresh bytes: its salt (nonce) field
    equals the first call's exactly when the source produced the same 32
    (12) bytes again. *)
Theorem encrypt_decrypt_roundtrip (W : WebCrypto) (HW : WebCryptoSpec W)
    (p pw : jsstring) (tape : entropy) :
  Encoding.isWellFormed p = true ->
  Encoding.startsWithBOM p = false ->
  exists pkg,
    encrypt p pw tape = (Return pkg, fun i => tape (44 + i)%nat) /\
    decrypt pkg pw = Return p /\
    uint8ArrayToBase64 (map tape (seq 0 32)) = Return (salt pkg) /\
    uint8ArrayToBase64 (map tape (seq 32 12)) = Return (iv pkg) /\
    exists pkg2,
      fst (encrypt p pw (snd (encrypt p pw tape))) = Return pkg2 /\
      (salt pkg2 = salt pkg <-> map tape (seq 44 32) = map tape (seq 0 32)) /\
      (iv pkg2 = iv pkg <-> map tape (seq 76 12) = map tape (seq 32 12)).
Proof.
  intros Hwf Hbom.
  destruct (deriveKey_total pw (map tape (seq 0 32))) as (key & Hkey & _).
  destruct (encrypt_returns p pw tape key Hkey) as (pkg & He & Hc & Hi & Hs & Hn).
  destruct (decrypt_encrypt_codec p pw tape) as (pkg' & He' & Hd).
  rewrite He in He'. cbn [fst] in He'. injection He' as <-.
  rewrite decode_encode in Hd by assumption.
  exists pkg. split; [exact He|]. split; [exact Hd|].
  split; [exact Hs|]. split; [exact Hi|].
  rewrite He. cbn [snd].
  destruct (deriveKey_total pw (map (fun i => tape (44 + i)%nat) (seq 0 32)))
    as (key2 & Hkey2 & _).
  destruct (encrypt_returns p pw (fun i => tape (44 + i)%nat) key2 Hkey2)
    as (pkg2 & He2 & _ & Hi2 & Hs2 & _).
  exists pkg2. rewrite He2. split; [reflexivity|].
  change (map (fun i => tape (44 + i)%nat) (seq 0 32)) with (map tape (seq 44 32)) in Hs2.
  change (map (fun i => tape (44 + i)%nat) (seq 32 12)) with (map tape (seq 76 12)) in Hi2.
  split; split; intros H.
  - apply (base64_injective _ _ (salt pkg)); congruence.
  - congruence.
  - apply (base64_injective _ _ (iv pkg)); congruence.
  - congruence.
Qed.

Lemma encrypt_decrypt_roundtrip_witness :
  exists pkg,
    fst (encrypt (W := Toy.platform) [104; 105] [112; 119] Toy.tape) = Return pkg /\
    decrypt (W := Toy.platform) pkg [112; 119] = Return [104; 105].
Proof.
  destruct (encrypt_decrypt_roundtrip Toy.platform toy_spec [104; 105] [112; 119] Toy.tape
              eq_refl eq_refl) as (pkg & He & Hd & _).
  exists pkg. rewrite He. split; [reflexivity | exact Hd].
Defined.

(** C1 as stated fails on a plaintext that begins with a byte order mark:
    decrypting the encryption of the one-character string U+FEFF returns the
    empty string, on the small platform and on every platform. *)
Lemma encrypt_decrypt_BOM_counterexample :
  (exists pkg,
     fst (encrypt (W := Toy.platform) [0xFEFF] [112; 119] Toy.tape) = Return pkg /\
     decrypt (W := Toy.platform) pkg [112; 119] = Return [] /\
     decrypt (W := Toy.platform) pkg [112; 119] <> Return [0xFEFF]) /\
  (forall (W : WebCrypto), WebCryptoSpec W -> forall pw tape,
     exists pkg, fst (encrypt [0xFEFF] pw tape) = Return pkg /\
                 decrypt pkg pw = Return []).
Proof.
  assert (forall (W : WebCrypto), WebCryptoSpec W -> forall pw tape,
     exists pkg, fst (encrypt [0xFEFF] pw tape) = Return pkg /\
                 decrypt pkg pw = Return []) as H.
  { intros W HW pw tape.
    destruct (decrypt_encrypt_codec [0xFEFF] pw tape) as (pkg & He & Hd).
    exists pkg. split; [exact He|]. rewrite Hd. reflexivity. }
  split; [|exact H].
  destruct (H Toy.platform toy_spec [112; 119] Toy.tape) as (pkg & He & Hd).
  exists pkg. split; [exact He|]. split; [exact Hd|]. rewrite Hd. discriminate.
Qed.

(** An unpaired surrogate does not survive either: it comes back as
    U+FFFD. *)
Lemma encrypt_decrypt_lone_surrogate (W : WebCrypto) (HW : WebCryptoSpec W) pw tape :
  exists pkg, fst (encrypt [0xD800] pw tape) = Return pkg /\
              decrypt pkg pw = Return [0xFFFD].
Proof.
  destruct (decrypt_encrypt_codec [0xD800] pw tape) as (pkg & He & Hd).
  exists pkg. split; [exact He|]. rewrite Hd. reflexivity.
Qed.

Section WrongPassword.
Context {W : WebCrypto} `{!WebCryptoSpec W}.

(** [decrypt] on a package made by [encrypt], under any password: the
    cipher alone decides. *)
Lemma decrypt_of_encrypt (p pw : jsstring) (tape : entropy) (key : list byte) :
  let salt := map tape (seq 0 32) in
  let iv := map tape (seq 32 12) in
  deriveKey pw salt PBKDF2_ITERATIONS = Return key ->
  exists pkg, fst (encrypt p pw tape) = Return pkg /\
    (forall pw' key',
      deriveKey pw' salt PBKDF2_ITERATIONS = Return key' ->
      decrypt pkg pw' =
      match aesGcmDecrypt key' iv (aesGcmEncrypt key iv (Encoding.encode p)) with
      | Some buffer => Return (Encoding.decode buffer)
      | None => Throw OperationError
      end) /\
    (forall corrupted c64 pw' key',
      deriveKey pw' salt PBKDF2_ITERATIONS = Return key' ->
      uint8ArrayToBase64 corrupted = Return c64 ->
      decrypt (Package c64 (Crypto.iv pkg) (Crypto.salt pkg) (algorithm pkg) (kdf pkg)
                 (kdfParameters pkg)) pw' =
      match aesGcmDecrypt key' iv corrupted with
      | Some buffer => Return (Encoding.decode buffer)
      | None => Throw OperationError
      end).
Proof.
  intros salt iv Hkey. subst salt iv.
  destruct (encrypt_returns p pw tape key Hkey) as (pkg & He & Hc & Hi & Hs & Hn).
  exists pkg. rewrite He. split; [reflexivity|].
  destruct (base64_roundtrip (aesGcmEncrypt key (map tape (seq 32 12)) (Encoding.encode p)))
    as (c64 & Hc1 & Hc2).
  destruct (base64_roundtrip (map tape (seq 32 12))) as (i64 & Hi1 & Hi2).
  destruct (base64_roundtrip (map tape (seq 0 32))) as (s64 & Hs1 & Hs2).
  assert (c64 = ciphertext pkg) as -> by congruence.
  assert (i64 = Crypto.iv pkg) as -> by congruence.
  assert (s64 = Crypto.salt pkg) as -> by congruence.
  split.
  - intros pw' key' Hkey'. unfold decrypt. rewrite Hc2, Hi2, Hs2. cbn [bindC].
    rewrite Hn, Hkey'. cbn [bindC]. reflexivity.
  - intros corrupted c64 pw' key' Hkey' Hcor.
    destruct (base64_roundtrip corrupted) as (c64' & Hx1 & Hx2).
    assert (c64' = c64) as -> by congruence.
    unfold decrypt. cbn [ciphertext Crypto.iv Crypto.salt].
    rewrite Hx2, Hi2, Hs2. cbn [bindC].
    unfold iterationsOf in *. cbn [kdfParameters]. rewrite Hn, Hkey'.
    cbn [bindC]. reflexivity.
Qed.

End WrongPassword.


Lemma toy_keys_differ :
  take 32 (pbkdf2Block (W := Toy.platform) [x62] (map Toy.tape (seq 0 32))
             (Z.to_N PBKDF2_ITERATIONS) 1) <>
  take 32 (pbkdf2Block (W := Toy.platform) [x61] (map Toy.tape (seq 0 32))
             (Z.to_N PBKDF2_ITERATIONS) 1).
Proof.
  rewrite toy_pbkdf2Block_a, toy_pbkdf2Block_b.
  discriminate.
Qed.



(** The failures are told apart when the corruption leaves the alphabet of
    base64: a package whose ciphertext holds a character outside it fails
    with the InvalidCharacterError of [atob], under the right password and
    under a wrong one, not with the OperationError of the cipher. *)
Lemma decrypt_not_base64_distinguished :
  let pkg := Toy.sealed [104; 105] [97] in
  let corrupted :=
    Package [8364] (iv pkg) (salt pkg) (algorithm pkg) (kdf pkg) (kdfParameters pkg) in
  decrypt (W := Toy.platform) pkg [98] = Throw OperationError /\
  decrypt (W := Toy.platform) corrupted [97] = Throw InvalidCharacterError /\
  decrypt (W := Toy.platform) corrupted [98] = Throw InvalidCharacterError /\
  InvalidCharacterError <> OperationError.
Proof.
  intros pkg corrupted. split; [vm_compute; reflexivity|].
  split; [vm_compute; reflexivity|]. split; [vm_compute; reflexivity | discriminate].
Qed.


Import WalletService.

Opaque findWallet Crypto.decrypt Crypto.encrypt pairOf walletStoreIn hotkeyStoreIn.

Ltac run := unfold bind, ret, throw, tryCatchM, getThis, setThis, getLocal, setLocal,
  Date_now, getWalletStore, getHotkeyStore, saveWalletStore, saveHotkeyStore, saveLockState,
  initialize, setUnlockAttempts, setUnlockedWallets, resetLockTimeout, decryptM; cbn;
  cbn [this local now random decryptions unlockedWallets unlockedHotkeys unlockAttempts
       lockTimeout isInitialized].

Section WalletFacts.
Context {W : Crypto.WebCrypto} {K : Keyring}.

(** Five failures on record inside the window: the call throws before it
    reads the store. *)
Lemma unlockWallet_limited (w : world) (walletId : string) (password : jsstring)
    (a : UnlockAttempt.t) :
  unlockAttempts (this w) !! walletId = Some a ->
  5 <= UnlockAttempt.count a ->
  now w - UnlockAttempt.lastAttempt a <= 15 * 60 * 1000 ->
  unlockWallet walletId password w = (Throw tooMany, initialized w).
Proof.
  intros Ha Hc Ht. unfold unlockWallet. run. rewrite Ha. cbn.
  destruct (Z.ltb_spec (15 * 60 * 1000) (now w - UnlockAttempt.lastAttempt a)); [lia|].
  cbn. destruct (Z.leb_spec 5 (UnlockAttempt.count a)); [|lia].
  reflexivity.
Qed.

(** A wrong password below the limit: the decryption is attempted and
    fails, the failure is recorded, the call returns [false]. *)
Lemma unlockWallet_wrong (w : world) (walletId : string) (password : jsstring)
    (wallet : EncryptedWallet.t) (e : exn) :
  failuresOnRecord w walletId < 5 ->
  findWallet walletId (walletStoreIn (local w)) = Some wallet ->
  holdsSecret wallet = true ->
  Crypto.decrypt (EncryptedWallet.encrypted wallet) password = Throw e ->
  unlockWallet walletId password w =
  (Return false,
   World (Service (unlockedWallets (this w)) (unlockedHotkeys (this w))
            (<[walletId := UnlockAttempt.Make (failuresOnRecord w walletId + 1) (now w)]>
               (unlockAttempts (this w)))
            (lockTimeout (this w)) true)
         (local w) (now w) (random w)
         (decryptions w ++ [(EncryptedWallet.encrypted wallet, password)])).
Proof.
  intros Hc Hf Hs Hd. unfold failuresOnRecord in *. unfold unlockWallet. run.
  unfold holdsSecret in Hs.
  destruct (unlockAttempts (this w) !! walletId) as [a|] eqn:Ha; cbn.
  - destruct (Z.ltb_spec (15 * 60 * 1000) (now w - UnlockAttempt.lastAttempt a)); run.
    + rewrite Hf.
      destruct (EncryptedWallet.type wallet); try discriminate;
        run; rewrite Hd; run; rewrite insert_insert_eq; reflexivity.
    + destruct (Z.leb_spec 5 (UnlockAttempt.count a)); [lia|]. run. rewrite Hf.
      destruct (EncryptedWallet.type wallet); try discriminate;
        run; rewrite Hd; run; reflexivity.
  - destruct (15 * 60 * 1000 <? now w - 0); run; rewrite Hf;
      destruct (EncryptedWallet.type wallet); try discriminate;
        run; rewrite Hd; run; reflexivity.
Qed.

Lemma pairOf_result (wallet : EncryptedWallet.t) (decrypted password : jsstring) (w : world) :
  pairOf wallet decrypted password w =
  (fst (pairResult wallet decrypted password),
   World (this w) (local w) (now w) (random w)
         (decryptions w ++ snd (pairResult wallet decrypted password))).
Proof.
  Transparent pairOf.
  unfold pairOf, pairResult.
  destruct (EncryptedWallet.type wallet); run; rewrite ?app_nil_r;
    try (destruct w; reflexivity).
  destruct (JSON_parse decrypted); run; rewrite ?app_nil_r; try (destruct w; reflexivity).
  destruct (EncryptedWallet.keystorePassword wallet); run; rewrite ?app_nil_r;
    try (destruct w; reflexivity).
  destruct (Crypto.decrypt p password); reflexivity.
  Opaque pairOf.
Qed.

(** The right password below the limit: the pair is cached, the record of
    failures for the id is deleted. *)
Lemma unlockWallet_right (w : world) (walletId : string) (password decrypted : jsstring)
    (wallet : EncryptedWallet.t) (pair : KeyringPair) :
  failuresOnRecord w walletId < 5 ->
  findWallet walletId (walletStoreIn (local w)) = Some wallet ->
  holdsSecret wallet = true ->
  Crypto.decrypt (EncryptedWallet.encrypted wallet) password = Return decrypted ->
  fst (pairResult wallet decrypted password) = Return pair ->
  exists w',
    unlockWallet walletId password w = (Return true, w') /\
    unlockedWallets (this w') = <[walletId := pair]> (unlockedWallets (this w)) /\
    unlockAttempts (this w') = delete walletId (unlockAttempts (this w)) /\
    aetron_wallet_store (local w') = aetron_wallet_store (local w) /\
    aetron_hotkey_store (local w') = aetron_hotkey_store (local w).
Proof.
  intros Hc Hf Hs Hd Hp. unfold failuresOnRecord in *. unfold unlockWallet. run.
  unfold holdsSecret in Hs.
  destruct (unlockAttempts (this w) !! walletId) as [a|] eqn:Ha; cbn.
  - destruct (Z.ltb_spec (15 * 60 * 1000) (now w - UnlockAttempt.lastAttempt a)); run.
    + rewrite Hf.
      destruct (EncryptedWallet.type wallet); try discriminate;
        run; rewrite Hd, pairOf_result, Hp; run;
        (eexists; split; [reflexivity|]); cbn; rewrite delete_insert_eq; auto.
    + destruct (Z.leb_spec 5 (UnlockAttempt.count a)); [lia|]. run. rewrite Hf.
      destruct (EncryptedWallet.type wallet); try discriminate;
        run; rewrite Hd, pairOf_result, Hp; run;
        (eexists; split; [reflexivity|]); cbn; auto.
  - destruct (15 * 60 * 1000 <? now w - 0); run; rewrite Hf;
      destruct (EncryptedWallet.type wallet); try discriminate;
        run; rewrite Hd, pairOf_result, Hp; run;
        (eexists; split; [reflexivity|]); cbn; auto.
Qed.

(** The right password for the secret, but no pair can be made of it: the
    call returns [false] and caches nothing. *)
Lemma unlockWallet_no_pair (w : world) (walletId : string) (password decrypted : jsstring)
    (wallet : EncryptedWallet.t) (e : exn) :
  failuresOnRecord w walletId < 5 ->
  findWallet walletId (walletStoreIn (local w)) = Some wallet ->
  holdsSecret wallet = true ->
  Crypto.decrypt (EncryptedWallet.encrypted wallet) password = Return decrypted ->
  fst (pairResult wallet decrypted password) = Throw e ->
  exists w',
    unlockWallet walletId password w = (Return false, w') /\
    unlockedWallets (this w') = unlockedWallets (this w).
Proof.
  intros Hc Hf Hs Hd Hp. unfold failuresOnRecord in *. unfold unlockWallet. run.
  unfold holdsSecret in Hs.
  destruct (unlockAttempts (this w) !! walletId) as [a|] eqn:Ha; cbn.
  - destruct (Z.ltb_spec (15 * 60 * 1000) (now w - UnlockAttempt.lastAttempt a)); run.
    + rewrite Hf.
      destruct (EncryptedWallet.type wallet); try discriminate;
        run; rewrite Hd, pairOf_result, Hp; run;
        (eexists; split; [reflexivity|]); reflexivity.
    + destruct (Z.leb_spec 5 (UnlockAttempt.count a)); [lia|]. run. rewrite Hf.
      destruct (EncryptedWallet.type wallet); try discriminate;
        run; rewrite Hd, pairOf_result, Hp; run;
        (eexists; split; [reflexivity|]); reflexivity.
  - destruct (15 * 60 * 1000 <? now w - 0); run; rewrite Hf;
      destruct (EncryptedWallet.type wallet); try discriminate;
        run; rewrite Hd, pairOf_result, Hp; run;
        (eexists; split; [reflexivity|]); reflexivity.
Qed.

(** A wallet without a secret below the limit: the call returns [true]
    and touches neither the cache nor the store; no decryption is made. *)
Lemma unlockWallet_no_secret (w : world) (walletId : string) (password : jsstring)
    (wallet : EncryptedWallet.t) :
  failuresOnRecord w walletId < 5 ->
  findWallet walletId (walletStoreIn (local w)) = Some wallet ->
  holdsSecret wallet = false ->
  unlockWallet walletId password w =
  (Return true,
   World (Service (unlockedWallets (this w)) (unlockedHotkeys (this w))
            (attemptsAfterCheck w walletId) (lockTimeout (this w)) true)
         (local w) (now w) (random w) (decryptions w)).
Proof.
  intros Hc Hf Hs. unfold failuresOnRecord, attemptsAfterCheck in *.
  unfold unlockWallet. run. unfold holdsSecret in Hs.
  destruct (unlockAttempts (this w) !! walletId) as [a|] eqn:Ha; cbn.
  - destruct (Z.ltb_spec (15 * 60 * 1000) (now w - UnlockAttempt.lastAttempt a)); run.
    + rewrite Hf. destruct (EncryptedWallet.type wallet); try discriminate; reflexivity.
    + destruct (Z.leb_spec 5 (UnlockAttempt.count a)); [lia|]. run. rewrite Hf.
      destruct (EncryptedWallet.type wallet); try discriminate; reflexivity.
  - destruct (15 * 60 * 1000 <? now w - 0); run; rewrite Hf;
      destruct (EncryptedWallet.type wallet); try discriminate; reflexivity.
Qed.

Lemma unlockAttemptsAt_wrong (walletId : string) (wallet : EncryptedWallet.t)
    (attempts : list (Z * jsstring)) :
  holdsSecret wallet = true ->
  (forall t pw, In (t, pw) attempts ->
     exists e, Crypto.decrypt (EncryptedWallet.encrypted wallet) pw = Throw e) ->
  (forall t pw t' pw', In (t, pw) attempts -> In (t', pw') attempts ->
     t' - t <= 15 * 60 * 1000) ->
  forall (w : world) (k : nat) (tl : Z),
  findWallet walletId (walletStoreIn (local w)) = Some wallet ->
  (k <= 5)%nat ->
  recorded w walletId k tl ->
  (forall t pw, In (t, pw) attempts -> t - tl <= 15 * 60 * 1000) ->
  let n := length attempts in
  fst (unlockAttemptsAt walletId attempts w) =
    replicate (Nat.min (5 - k) n) (Return false) ++ replicate (n - (5 - k)) (Throw tooMany) /\
  local (snd (unlockAttemptsAt walletId attempts w)) = local w /\
  unlockedWallets (this (snd (unlockAttemptsAt walletId attempts w))) =
    unlockedWallets (this w) /\
  length (decryptions (snd (unlockAttemptsAt walletId attempts w))) =
    (length (decryptions w) + Nat.min (5 - k) n)%nat.
Proof.
  intros Hs. induction attempts as [|[t pw] rest IH]; intros Hwrong Hwin w k tl Hf Hk Hrec Htl.
  { cbn. rewrite Nat.min_0_r. cbn. repeat split; lia. }
  cbn [unlockAttemptsAt length].
  destruct (Hwrong t pw (or_introl eq_refl)) as [e He].
  assert (Hwrong' : forall t pw, In (t, pw) rest ->
            exists e, Crypto.decrypt (EncryptedWallet.encrypted wallet) pw = Throw e)
    by (intros; eapply Hwrong; right; eassumption).
  assert (Hwin' : forall t pw t' pw', In (t, pw) rest -> In (t', pw') rest ->
            t' - t <= 15 * 60 * 1000)
    by (intros; eapply Hwin; right; eassumption).
  destruct (decide (k = 5)%nat) as [->|Hk5].
  - (* the limit is reached *)
    cbn in Hrec.
    rewrite (unlockWallet_limited (atTime t w) walletId pw _ Hrec);
      [|cbn; lia|cbn; apply (Htl t pw); left; reflexivity].
    specialize (IH Hwrong' Hwin' (initialized (atTime t w)) 5%nat tl).
    destruct (unlockAttemptsAt walletId rest (initialized (atTime t w))) as [rs w2].
    cbn [fst snd] in *.
    destruct IH as (IH1 & IH2 & IH3 & IH4); [exact Hf|lia|exact Hrec| |].
    { intros t0 pw0 H0. apply (Htl t0 pw0). right. exact H0. }
    rewrite IH1, IH2, IH3, IH4. cbn. rewrite Nat.sub_0_r.
    split; [reflexivity|]. split; [reflexivity|]. split; [reflexivity|]. lia.
  - (* below the limit *)
    assert (failuresOnRecord (atTime t w) walletId = Z.of_nat k) as Hfr.
    { unfold failuresOnRecord. cbn. destruct k; cbn in Hrec; rewrite Hrec; [reflexivity|].
      cbn. destruct (Z.ltb_spec (15 * 60 * 1000) (t - tl)); [|reflexivity].
      specialize (Htl t pw (or_introl eq_refl)). lia. }
    rewrite (unlockWallet_wrong (atTime t w) walletId pw wallet e); [|lia|exact Hf|exact Hs|exact He].
    rewrite Hfr.
    match goal with |- context [unlockAttemptsAt walletId rest ?w1] =>
      specialize (IH Hwrong' Hwin' w1 (S k) t); destruct (unlockAttemptsAt walletId rest w1) as [rs w2]
    end.
    cbn [fst snd] in *.
    destruct IH as (IH1 & IH2 & IH3 & IH4); [exact Hf|lia| | |].
    { cbn. rewrite lookup_insert_eq. do 2 f_equal. lia. }
    { intros t0 pw0 H0. apply (Hwin t pw t0 pw0); [left; reflexivity|right; exact H0]. }
    rewrite IH1, IH2, IH3, IH4. cbn [this local unlockedWallets decryptions atTime].
    rewrite length_app. cbn [length].
    replace (5 - k)%nat with (S (5 - S k)) by lia.
    cbn [Nat.min replicate app Nat.sub].
    split; [reflexivity|]. split; [reflexivity|]. split; [reflexivity|]. lia.
Qed.

End WalletFacts.

Example sealed_opens :
  Crypto.decrypt (W := Toy.platform) (Toy.sealed [115; 101; 101; 100] [97]) [97]
  = Return [115; 101; 101; 100].
Proof. vm_compute. reflexivity. Qed.

Example sealed_rejects :
  Crypto.decrypt (W := Toy.platform) (Toy.sealed [115; 101; 101; 100] [97]) [98]
  = Throw OperationError.
Proof. vm_compute. reflexivity. Qed.

(** C3: from a clean record, wrong passwords tried one after the other
    within a 15-minute window: the first five calls attempt the decryption
    and return [false], every later call throws the rate-limit error, makes
    no decryption and leaves the storage as it was.  A rate-limited call
    changes nothing but the service's initialized flag.  Once more than 15
    minutes have passed since the last recorded failure the count is read as
    zero and the decryption is attempted again; a successful unlock deletes
    the record of the id. *)
Theorem unlock_rate_limit (W : Crypto.WebCrypto) (K : Keyring) :
  (forall (w : world) (walletId : string) (wallet : EncryptedWallet.t)
          (attempts : list (Z * jsstring)),
     findWallet walletId (walletStoreIn (local w)) = Some wallet ->
     holdsSecret wallet = true ->
     unlockAttempts (this w) !! walletId = None ->
     (forall t pw, In (t, pw) attempts ->
        exists e, Crypto.decrypt (EncryptedWallet.encrypted wallet) pw = Throw e) ->
     (forall t pw t' pw', In (t, pw) attempts -> In (t', pw') attempts ->
        t' - t <= 15 * 60 * 1000) ->
     let n := length attempts in
     let run := unlockAttemptsAt walletId attempts w in
     fst run = replicate (Nat.min 5 n) (Return false) ++ replicate (n - 5) (Throw tooMany) /\
     local (snd run) = local w /\
     length (decryptions (snd run)) = (length (decryptions w) + Nat.min 5 n)%nat) /\
  (forall (w : world) (walletId : string) (password : jsstring) (a : UnlockAttempt.t),
     unlockAttempts (this w) !! walletId = Some a ->
     5 <= UnlockAttempt.count a ->
     now w - UnlockAttempt.lastAttempt a <= 15 * 60 * 1000 ->
     unlockWallet walletId password w = (Throw tooMany, initialized w)) /\
  (forall (w : world) (walletId : string) (password : jsstring) (wallet : EncryptedWallet.t)
          (a : UnlockAttempt.t) (e : exn),
     unlockAttempts (this w) !! walletId = Some a ->
     15 * 60 * 1000 < now w - UnlockAttempt.lastAttempt a ->
     findWallet walletId (walletStoreIn (local w)) = Some wallet ->
     holdsSecret wallet = true ->
     Crypto.decrypt (EncryptedWallet.encrypted wallet) password = Throw e ->
     exists w',
       unlockWallet walletId password w = (Return false, w') /\
       unlockAttempts (this w') !! walletId = Some (UnlockAttempt.Make 1 (now w)) /\
       decryptions w' = decryptions w ++ [(EncryptedWallet.encrypted wallet, password)]) /\
  (forall (w : world) (walletId : string) (password decrypted : jsstring)
          (wallet : EncryptedWallet.t) (pair : KeyringPair),
     failuresOnRecord w walletId < 5 ->
     findWallet walletId (walletStoreIn (local w)) = Some wallet ->
     holdsSecret wallet = true ->
     Crypto.decrypt (EncryptedWallet.encrypted wallet) password = Return decrypted ->
     fst (pairResult wallet decrypted password) = Return pair ->
     exists w',
       unlockWallet walletId password w = (Return true, w') /\
       unlockAttempts (this w') !! walletId = None).
Proof.
  split; [|split; [|split]].
  - intros w walletId wallet attempts Hf Hs Hnone Hwrong Hwin n run.
    destruct (unlockAttemptsAt_wrong walletId wallet attempts Hs Hwrong Hwin w 0%nat
                (match attempts with (t, _) :: _ => t | [] => 0 end) Hf)
      as (H1 & H2 & _ & H4); [lia|exact Hnone| |].
    { destruct attempts as [|[t0 pw0] rest]; [intros ? ? []|].
      intros t pw Hin. apply (Hwin t0 pw0 t pw); [left; reflexivity|exact Hin]. }
    subst run n. rewrite H1, H2, H4. auto.
  - intros w walletId password a. apply unlockWallet_limited.
  - intros w walletId password wallet a e Ha Ht Hf Hs Hd.
    assert (failuresOnRecord w walletId = 0) as Hfr.
    { unfold failuresOnRecord. rewrite Ha.
      destruct (Z.ltb_spec (15 * 60 * 1000) (now w - UnlockAttempt.lastAttempt a)); [reflexivity|lia]. }
    eexists. split.
    + apply (unlockWallet_wrong w walletId password wallet e); [lia|exact Hf|exact Hs|exact Hd].
    + cbn. rewrite lookup_insert_eq, Hfr. auto.
  - intros w walletId password decrypted wallet pair Hc Hf Hs Hd Hp.
    destruct (unlockWallet_right w walletId password decrypted wallet pair Hc Hf Hs Hd Hp)
      as (w' & Hrun & _ & Hatt & _).
    exists w'. split; [exact Hrun|]. rewrite Hatt. apply lookup_delete_eq.
Qed.

Lemma unlock_rate_limit_witness :
  let w := Toy.worldWith [Toy.wallet "cold" hd [115; 101; 101; 100] [97]] [] 1000000 in
  let wrong := [98] in
  fst (unlockAttemptsAt (W := Toy.platform) (K := Toy.keyring) "cold"
         [(1000000, wrong); (1000001, wrong); (1000002, wrong); (1000003, wrong);
          (1000004, wrong); (1000005, wrong); (1900000, wrong)] w)
  = [Return false; Return false; Return false; Return false; Return false;
     Throw tooMany; Throw tooMany].
Proof.
  intros w wrong.
  destruct (unlock_rate_limit Toy.platform Toy.keyring) as [H _].
  refine (proj1 (H w "cold"%string (Toy.wallet "cold" hd [115; 101; 101; 100] [97])
            [(1000000, wrong); (1000001, wrong); (1000002, wrong); (1000003, wrong);
             (1000004, wrong); (1000005, wrong); (1900000, wrong)]
            eq_refl eq_refl eq_refl _ _)).
  - intros t pw Hin. exists OperationError.
    assert (pw = wrong) as ->.
    { cbn in Hin. repeat (destruct Hin as [[= <- <-]|Hin]; [reflexivity|]). destruct Hin. }
    vm_compute. reflexivity.
  - intros t pw t' pw' Hin Hin'. cbn in Hin, Hin'.
    repeat (destruct Hin as [[= <- <-]|Hin]); try destruct Hin;
    repeat (destruct Hin' as [[= <- <-]|Hin']); try destruct Hin'; lia.
Defined.

(** C10: for a wallet of type [watch] or [multisig] whose id is not cached
    and not rate limited, [unlockWallet] returns [true] under any password,
    makes no decryption and caches nothing: afterwards [isUnlocked] is still
    [false] and [getKeypair] gives nothing, the storage is untouched and the
    id is still not rate limited. *)
Theorem unlock_without_secret (W : Crypto.WebCrypto) (K : Keyring)
    (w : world) (walletId : string) (password : jsstring) (wallet : EncryptedWallet.t) :
  findWallet walletId (walletStoreIn (local w)) = Some wallet ->
  EncryptedWallet.type wallet = watch \/ EncryptedWallet.type wallet = multisig ->
  failuresOnRecord w walletId < 5 ->
  isUnlocked walletId (this w) = false ->
  exists w',
    unlockWallet walletId password w = (Return true, w') /\
    decryptions w' = decryptions w /\
    unlockedWallets (this w') = unlockedWallets (this w) /\
    isUnlocked walletId (this w') = false /\
    getKeypair walletId (this w') = None /\
    local w' = local w /\
    failuresOnRecord w' walletId < 5.
Proof.
  intros Hf Hty Hc Hu.
  assert (holdsSecret wallet = false) as Hs
    by (unfold holdsSecret; destruct Hty as [-> | ->]; reflexivity).
  eexists. split; [apply (unlockWallet_no_secret w walletId password wallet Hc Hf Hs)|].
  cbn [this local decryptions unlockedWallets].
  assert (unlockedWallets (this w) !! walletId = None) as Hnone.
  { unfold isUnlocked in Hu. apply bool_decide_eq_false in Hu.
    destruct (unlockedWallets (this w) !! walletId); [exfalso; apply Hu; eauto | reflexivity]. }
  repeat (split; [try reflexivity|]).
  - unfold isUnlocked. cbn. rewrite Hnone. apply bool_decide_eq_false. intros [? [=]].
  - unfold getKeypair. cbn. exact Hnone.
  - unfold failuresOnRecord, attemptsAfterCheck in *. cbn.
    destruct (unlockAttempts (this w) !! walletId) as [a|] eqn:Ha.
    + destruct (Z.ltb_spec (15 * 60 * 1000) (now w - UnlockAttempt.lastAttempt a)).
      * rewrite lookup_insert_eq. cbn.
        destruct (_ <? _); lia.
      * rewrite Ha. destruct (Z.ltb_spec (15 * 60 * 1000) (now w - UnlockAttempt.lastAttempt a)); lia.
    + rewrite Ha. lia.
Qed.

Lemma unlock_without_secret_witness :
  let w := Toy.worldWith [Toy.wallet "observed" watch [] [97]] [] 1000000 in
  exists w',
    unlockWallet (W := Toy.platform) (K := Toy.keyring) "observed" [120; 121] w
      = (Return true, w') /\
    isUnlocked "observed" (this w') = false /\
    getKeypair "observed" (this w') = None.
Proof.
  intros w.
  destruct (unlock_without_secret Toy.platform Toy.keyring w "observed" [120; 121]
              (Toy.wallet "observed" watch [] [97]) eq_refl (or_introl eq_refl))
    as (w' & Hrun & _ & _ & Hu & Hk & _).
  - vm_compute. reflexivity.
  - reflexivity.
  - exists w'. split; [exact Hrun|]. split; [exact Hu | exact Hk].
Defined.

Lemma filter_not_In {A} (p : A -> bool) (l : list A) (x : A) :
  In x (List.filter (fun y => negb (p y)) l) -> p x = false.
Proof.
  intros H. apply filter_In in H as [_ H]. apply negb_true_iff in H. exact H.
Qed.

Lemma find_filter_none {A} (p : A -> bool) (l : list A) :
  List.find p (List.filter (fun y => negb (p y)) l) = None.
Proof.
  destruct (List.find p _) as [x|] eqn:E; [|reflexivity].
  apply find_some in E as [Hin Hp]. apply filter_not_In in Hin. congruence.
Qed.

(** C7: [deleteWallet id] returns and leaves a store in which no wallet
    has the id, the id is no longer cached as unlocked, and no hotkey
    refers to the id; the wallets and hotkeys kept are the others, in
    their order. *)
Theorem deleteWallet_cascade (W : Crypto.WebCrypto) (K : Keyring)
    (w : world) (walletId : string) :
  exists w',
    deleteWallet walletId w = (Return tt, w') /\
    WalletStore.wallets (walletStoreIn (local w')) =
      List.filter (fun x => negb (String.eqb (EncryptedWallet.id x) walletId))
        (WalletStore.wallets (walletStoreIn (local w))) /\
    hotkeyStoreIn (local w') =
      List.filter (fun h => negb (String.eqb (EncryptedHotkey.coldkeyId h) walletId))
        (hotkeyStoreIn (local w)) /\
    findWallet walletId (walletStoreIn (local w')) = None /\
    (forall x, In x (WalletStore.wallets (walletStoreIn (local w'))) ->
       EncryptedWallet.id x <> walletId) /\
    isUnlocked walletId (this w') = false /\
    getKeypair walletId (this w') = None /\
    (forall h, In h (hotkeyStoreIn (local w')) -> EncryptedHotkey.coldkeyId h <> walletId).
Proof.
  Transparent walletStoreIn hotkeyStoreIn findWallet.
  eexists. split; [unfold deleteWallet; run; reflexivity|].
  cbn [local this unlockedWallets walletStoreIn hotkeyStoreIn aetron_wallet_store
       aetron_hotkey_store default from_option id WalletStore.wallets].
  split; [reflexivity|]. split; [reflexivity|].
  split; [unfold findWallet; cbn [WalletStore.wallets]; apply find_filter_none|].
  split.
  { intros x Hx. apply filter_not_In in Hx. apply String.eqb_neq. exact Hx. }
  split.
  { unfold isUnlocked. cbn. rewrite lookup_delete_eq. apply bool_decide_eq_false. intros [? [=]]. }
  split.
  { unfold getKeypair. cbn. apply lookup_delete_eq. }
  intros h Hh. apply filter_not_In in Hh. apply String.eqb_neq. exact Hh.
  Opaque walletStoreIn hotkeyStoreIn findWallet.
Qed.

Section ChangePassword.
Context {W : Crypto.WebCrypto} {K : Keyring} `{!Crypto.WebCryptoSpec W}.

Lemma encryptM_total (data password : jsstring) (w : world) :
  exists pkg,
    encryptM data password w =
      (Return pkg, World (this w) (local w) (now w) (fun i => random w (44 + i)%nat)
                     (decryptions w)) /\
    fst (Crypto.encrypt data password (random w)) = Return pkg /\
    Crypto.decrypt pkg password = Return (Encoding.decode (Encoding.encode data)).
Proof.
  destruct (encrypt_total data password (random w)) as (pkg & He & Hd).
  exists pkg. unfold encryptM. rewrite He. auto.
Qed.

Lemma reencryptHotkeys_spec (walletId : string) (currentPassword newPassword : jsstring)
    (hotkeys : list EncryptedHotkey.t) (w : world) :
  exists hotkeys' w',
    reencryptHotkeys walletId currentPassword newPassword hotkeys w = (Return hotkeys', w') /\
    this w' = this w /\ local w' = local w /\ now w' = now w /\
    Forall2 (reencrypted walletId currentPassword newPassword) hotkeys hotkeys'.
Proof.
  revert w. induction hotkeys as [|h rest IH]; intros w.
  { exists [], w. cbn. auto. }
  cbn [reencryptHotkeys]. unfold bind at 1.
  assert (exists h' w1,
    (if String.eqb (EncryptedHotkey.coldkeyId h) walletId
     then tryCatchM
            (bind (decryptM (EncryptedHotkey.encrypted h) currentPassword) (fun m =>
             bind (encryptM m newPassword) (fun e => ret (withEncrypted h e))))
            (fun _ => ret h)
     else ret h) w = (Return h', w1) /\
    this w1 = this w /\ local w1 = local w /\ now w1 = now w /\
    reencrypted walletId currentPassword newPassword h h') as (h' & w1 & Hstep & Ht & Hl & Hn & Hr).
  { unfold reencrypted.
    destruct (String.eqb (EncryptedHotkey.coldkeyId h) walletId).
    - unfold tryCatchM, bind at 1, decryptM.
      destruct (Crypto.decrypt (EncryptedHotkey.encrypted h) currentPassword) as [m|e].
      + unfold bind at 1.
        match goal with |- context [encryptM m newPassword ?w0] =>
          destruct (encryptM_total m newPassword w0) as (pkg & He & Hp & Hd) end.
        rewrite He. unfold ret. eexists _, _. split; [reflexivity|].
        cbn. repeat (split; [reflexivity|]).
        exists (random w), pkg. auto.
      + unfold ret. eexists _, _. split; [reflexivity|]. cbn. auto.
    - unfold ret. eexists _, _. split; [reflexivity|]. auto. }
  rewrite Hstep.
  destruct (IH w1) as (rest' & w2 & Hrest & Ht2 & Hl2 & Hn2 & Hr2).
  unfold bind at 1. rewrite Hrest. unfold ret.
  exists (h' :: rest'), w2. split; [reflexivity|].
  split; [congruence|]. split; [congruence|]. split; [congruence|].
  constructor; assumption.
Qed.

Lemma changePassword_wrong (w : world) (walletId : string)
    (currentPassword newPassword : jsstring) (wallet : EncryptedWallet.t) (e : exn) :
  findWallet walletId (walletStoreIn (local w)) = Some wallet ->
  holdsSecret wallet = true ->
  Crypto.decrypt (EncryptedWallet.encrypted wallet) currentPassword = Throw e ->
  changePassword walletId currentPassword newPassword w =
  (Throw (Error "Current password is incorrect"),
   World (this w) (local w) (now w) (random w)
         (decryptions w ++ [(EncryptedWallet.encrypted wallet, currentPassword)])).
Proof.
  intros Hf Hs Hd. unfold changePassword. run. rewrite Hf. unfold holdsSecret in Hs.
  destruct (EncryptedWallet.type wallet); try discriminate; run; rewrite Hd; reflexivity.
Qed.

Lemma changePassword_right (w : world) (walletId : string)
    (currentPassword newPassword decrypted : jsstring) (wallet : EncryptedWallet.t) :
  findWallet walletId (walletStoreIn (local w)) = Some wallet ->
  holdsSecret wallet = true ->
  Crypto.decrypt (EncryptedWallet.encrypted wallet) currentPassword = Return decrypted ->
  exists w' pkg hotkeys',
    changePassword walletId currentPassword newPassword w = (Return tt, w') /\
    fst (Crypto.encrypt decrypted newPassword (random w)) = Return pkg /\
    Crypto.decrypt pkg newPassword = Return (Encoding.decode (Encoding.encode decrypted)) /\
    aetron_wallet_store (local w') =
      Some (WalletStore.Make (WalletStore.version (walletStoreIn (local w)))
              (updateFirst (fun x => String.eqb (EncryptedWallet.id x) walletId)
                 (fun x => withSecret x pkg (now w))
                 (WalletStore.wallets (walletStoreIn (local w))))
              (WalletStore.activeWalletId (walletStoreIn (local w)))
              (WalletStore.settings (walletStoreIn (local w)))) /\
    aetron_hotkey_store (local w') = Some hotkeys' /\
    Forall2 (reencrypted walletId currentPassword newPassword)
      (hotkeyStoreIn (local w)) hotkeys' /\
    this w' = this w.
Proof.
  intros Hf Hs Hd. unfold changePassword. run. rewrite Hf. unfold holdsSecret in Hs.
  destruct (EncryptedWallet.type wallet) eqn:Hty; try discriminate; run; rewrite Hd.
  all: match goal with |- context [encryptM ?d ?n ?w0] =>
         destruct (encryptM_total d n w0) as (pkg & He & Hp & Hdec);
         rewrite He end.
  all: run.
  all: match goal with |- context [reencryptHotkeys ?i ?c ?n ?hs ?w0] =>
         destruct (reencryptHotkeys_spec i c n hs w0)
           as (hotkeys' & w2 & Hloop & Ht2 & Hl2 & Hn2 & Hr2);
         rewrite Hloop end.
  all: cbn in Ht2, Hl2, Hn2, Hp.
  all: eexists _, pkg, hotkeys'; split; [reflexivity|].
  all: cbn [local this aetron_wallet_store aetron_hotkey_store].
  all: rewrite Hl2, Ht2; cbn [aetron_wallet_store aetron_hotkey_store].
  all: split; [exact Hp|]; split; [exact Hdec|]; split; [reflexivity|];
       split; [reflexivity|]; split; [exact Hr2|]; destruct w as [[] ? ? ? ?]; reflexivity.
Qed.

End ChangePassword.


(** C6 (amended): for a coldkey of type [hd] or [privateKey],
    [changePassword] fails closed when the current password does not open
    the coldkey: it throws, and neither the service nor the storage nor the
    entropy source has changed.  When it does open it, the call returns
    after sealing the coldkey's secret under the new password (the first
    wallet with the id gets the new package and the time of the change, and
    makes the same pair of the same text as before) and sealing again, under
    the new password, every hotkey of the coldkey whose secret opens under
    the current one; every other hotkey is stored back as it was.  The call
    returns no value: which hotkeys were skipped is not reported to the
    caller. *)
Theorem changePassword_reencrypts (W : Crypto.WebCrypto) (K : Keyring)
    (HW : Crypto.WebCryptoSpec W) (w : world) (walletId : string)
    (currentPassword newPassword : jsstring) (wallet : EncryptedWallet.t) :
  findWallet walletId (walletStoreIn (local w)) = Some wallet ->
  EncryptedWallet.type wallet = hd \/ EncryptedWallet.type wallet = privateKey ->
  match Crypto.decrypt (EncryptedWallet.encrypted wallet) currentPassword with
  | Throw _ =>
      exists w',
        changePassword walletId currentPassword newPassword w =
          (Throw (Error "Current password is incorrect"), w') /\
        this w' = this w /\ local w' = local w /\ random w' = random w
  | Return decrypted =>
      exists w' pkg hotkeys',
        changePassword walletId currentPassword newPassword w = (Return tt, w') /\
        fst (Crypto.encrypt decrypted newPassword (random w)) = Return pkg /\
        Crypto.decrypt pkg newPassword =
          Return (Encoding.decode (Encoding.encode decrypted)) /\
        WalletStore.wallets (walletStoreIn (local w')) =
          updateFirst (fun x => String.eqb (EncryptedWallet.id x) walletId)
            (fun x => withSecret x pkg (now w))
            (WalletStore.wallets (walletStoreIn (local w))) /\
        (forall text,
           pairResult (withSecret wallet pkg (now w)) text newPassword
             = pairResult wallet text currentPassword) /\
        hotkeyStoreIn (local w') = hotkeys' /\
        Forall2 (reencrypted walletId currentPassword newPassword)
          (hotkeyStoreIn (local w)) hotkeys' /\
        this w' = this w
  end.
Proof.
  intros Hf Hty.
  assert (Hs : holdsSecret wallet = true).
  { unfold holdsSecret. destruct Hty as [-> | ->]; reflexivity. }
  destruct (Crypto.decrypt (EncryptedWallet.encrypted wallet) currentPassword)
    as [decrypted|e] eqn:Hd.
  - destruct (changePassword_right w walletId currentPassword newPassword decrypted wallet
                Hf Hs Hd) as (w' & pkg & hotkeys' & Hrun & Hp & Hdec & Hws & Hhs & Hr & Ht).
    exists w', pkg, hotkeys'.
    split; [exact Hrun|]. split; [exact Hp|]. split; [exact Hdec|].
    Transparent walletStoreIn hotkeyStoreIn.
    unfold walletStoreIn at 1, hotkeyStoreIn at 1. rewrite Hws, Hhs.
    Opaque walletStoreIn hotkeyStoreIn.
    split; [reflexivity|]. split.
    { intros text. unfold pairResult, withSecret. cbn [EncryptedWallet.type
        EncryptedWallet.derivationPath].
      destruct Hty as [-> | ->]; reflexivity. }
    split; [reflexivity|]. split; [exact Hr | exact Ht].
  - eexists. split; [apply (changePassword_wrong w walletId currentPassword newPassword wallet e Hf Hs Hd)|].
    cbn. auto.
Qed.

Lemma changePassword_reencrypts_witness :
  let cold := Toy.wallet "cold" hd [115; 101; 101; 100] [97] in
  let w := Toy.worldWith [cold] [] 0 in
  (exists w' pkg,
     changePassword (W := Toy.platform) (K := Toy.keyring) "cold" [97] [99] w
       = (Return tt, w') /\
     Crypto.decrypt (W := Toy.platform) pkg [99] = Return [115; 101; 101; 100] /\
     WalletStore.wallets (walletStoreIn (local w')) = [withSecret cold pkg 0]) /\
  (exists w',
     changePassword (W := Toy.platform) (K := Toy.keyring) "cold" [98] [99] w
       = (Throw (Error "Current password is incorrect"), w') /\
     this w' = this w /\ local w' = local w).
Proof.
  intros cold w. split.
  - pose proof (changePassword_reencrypts Toy.platform Toy.keyring toy_spec w "cold" [97]
                  [99] cold eq_refl (or_introl eq_refl)) as H.
    assert (Crypto.decrypt (W := Toy.platform) (EncryptedWallet.encrypted cold) [97]
            = Return [115; 101; 101; 100]) as Hd by (vm_compute; reflexivity).
    rewrite Hd in H. destruct H as (w' & pkg & hotkeys' & Hrun & _ & Hdec & Hws & _).
    exists w', pkg. split; [exact Hrun|]. split; [exact Hdec | exact Hws].
  - pose proof (changePassword_reencrypts Toy.platform Toy.keyring toy_spec w "cold" [98]
                  [99] cold eq_refl (or_introl eq_refl)) as H.
    assert (Crypto.decrypt (W := Toy.platform) (EncryptedWallet.encrypted cold) [98]
            = Throw OperationError) as Hd by (vm_compute; reflexivity).
    rewrite Hd in H. destruct H as (w' & Hrun & Ht & Hl & _).
    exists w'. split; [exact Hrun|]. split; [exact Ht | exact Hl].
Defined.

(** With one hotkey under the coldkey's password and one under another
    password, [changePassword] returns no value at all (the unit), and the
    second hotkey is in the store as before: it was skipped and the caller
    is not told. *)
Lemma changePassword_skips_hotkey :
  let skipped := Toy.hotkey "hot2" "cold" [116; 119; 111] [98] in
  let w := Toy.worldWith [Toy.wallet "cold" hd [115; 101; 101; 100] [97]]
             [Toy.hotkey "hot1" "cold" [111; 110; 101] [97]; skipped] 0 in
  exists w' resealed,
    changePassword (W := Toy.platform) (K := Toy.keyring) "cold" [97] [99] w = (Return tt, w') /\
    hotkeyStoreIn (local w') = [resealed; skipped] /\
    Crypto.decrypt (W := Toy.platform) (EncryptedHotkey.encrypted resealed) [99]
      = Return [111; 110; 101] /\
    Crypto.decrypt (W := Toy.platform) (EncryptedHotkey.encrypted skipped) [99]
      = Throw OperationError.
Proof.
  intros skipped w.
  assert (Crypto.decrypt (W := Toy.platform)
            (EncryptedWallet.encrypted (Toy.wallet "cold" hd [115; 101; 101; 100] [97])) [97]
          = Return [115; 101; 101; 100]) as Hd by (vm_compute; reflexivity).
  destruct (changePassword_right (H := toy_spec) w "cold" [97] [99] [115; 101; 101; 100]
              (Toy.wallet "cold" hd [115; 101; 101; 100] [97]) eq_refl eq_refl Hd)
    as (w' & pkg & hotkeys' & Hrun & _ & _ & _ & Hhs & Hr & _).
  change (hotkeyStoreIn (local w))
    with [Toy.hotkey "hot1" "cold" [111; 110; 101] [97]; skipped] in Hr.
  inversion Hr as [|h1 h1' r1 r1' H1 Hr1]; subst.
  inversion Hr1 as [|h2 h2' r2 r2' H2 Hr2]; subst.
  inversion Hr2; subst.
  unfold reencrypted in H1, H2.
  change (String.eqb (EncryptedHotkey.coldkeyId (Toy.hotkey "hot1" "cold" [111; 110; 101] [97])) "cold")
    with true in H1.
  change (String.eqb (EncryptedHotkey.coldkeyId skipped) "cold") with true in H2.
  assert (Crypto.decrypt (W := Toy.platform)
            (EncryptedHotkey.encrypted (Toy.hotkey "hot1" "cold" [111; 110; 101] [97])) [97]
          = Return [111; 110; 101]) as Hd1 by (vm_compute; reflexivity).
  assert (Crypto.decrypt (W := Toy.platform) (EncryptedHotkey.encrypted skipped) [97]
          = Throw OperationError) as Hd2 by (vm_compute; reflexivity).
  rewrite Hd1 in H1. rewrite Hd2 in H2. cbv iota in H1, H2.
  destruct H1 as (tape & pkg1 & _ & Hdec1 & ->). subst h2'.
  exists w', (withEncrypted (Toy.hotkey "hot1" "cold" [111; 110; 101] [97]) pkg1).
  split; [exact Hrun|]. split.
  { Transparent hotkeyStoreIn. unfold hotkeyStoreIn. rewrite Hhs. reflexivity.
    Opaque hotkeyStoreIn. }
  split.
  { cbn [withEncrypted EncryptedHotkey.encrypted]. rewrite Hdec1. reflexivity. }
  vm_compute. reflexivity.
Qed.

(** A keystore wallet holds two packages, the keystore file and its
    password.  [changePassword] seals the first under the new password and
    leaves the second under the old one: the call returns, and from then on
    [unlockWallet] returns [false] for the new password (the stored keystore
    password does not open) and for the old one (the keystore file does
    not). *)
Lemma changePassword_keystore_locked_out :
  let file := Toy.sealed [123; 125] [97] in
  let filePassword := Toy.sealed [107] [97] in
  let ks := EncryptedWallet.Make "ks" 1 keystore "ks" "ks" file None (Some filePassword) 0 0 in
  let w := Toy.worldWith [ks] [] 0 in
  fst (unlockWallet (W := Toy.platform) (K := Toy.keyring) "ks" [97] w) = Return true /\
  exists w' pkg,
    changePassword (W := Toy.platform) (K := Toy.keyring) "ks" [97] [98] w = (Return tt, w') /\
    WalletStore.wallets (walletStoreIn (local w')) = [withSecret ks pkg 0] /\
    EncryptedWallet.keystorePassword (withSecret ks pkg 0) = Some filePassword /\
    Crypto.decrypt (W := Toy.platform) pkg [98] = Return [123; 125] /\
    Crypto.decrypt (W := Toy.platform) filePassword [98] = Throw OperationError /\
    fst (unlockWallet (W := Toy.platform) (K := Toy.keyring) "ks" [98] w') = Return false /\
    fst (unlockWallet (W := Toy.platform) (K := Toy.keyring) "ks" [97] w') = Return false.
Proof.
  intros file filePassword ks w.
  assert (Hopen : Crypto.decrypt (W := Toy.platform) (EncryptedWallet.encrypted ks) [97]
                  = Return [123; 125]) by (vm_compute; reflexivity).
  assert (Hstale : Crypto.decrypt (W := Toy.platform) filePassword [98]
                   = Throw OperationError) by (vm_compute; reflexivity).
  split.
  { assert (Hc : failuresOnRecord w "ks" < 5) by reflexivity.
    assert (Hp : fst (pairResult (W := Toy.platform) (K := Toy.keyring) ks [123; 125] [97])
                 = Return ([123; 125] : KeyringPair (Keyring := Toy.keyring)))
      by (vm_compute; reflexivity).
    destruct (unlockWallet_right (W := Toy.platform) w "ks" [97] [123; 125] ks [123; 125]
                Hc eq_refl eq_refl Hopen Hp) as (w1 & Hrun & _).
    rewrite Hrun. reflexivity. }
  destruct (changePassword_right (H := toy_spec) w "ks" [97] [98] [123; 125] ks
              eq_refl eq_refl Hopen)
    as (w' & pkg & hotkeys' & Hrun & Hp & Hdec & Hws & _ & _ & Ht).
  assert (Hfind : findWallet "ks" (walletStoreIn (local w')) = Some (withSecret ks pkg 0)).
  { Transparent walletStoreIn findWallet.
    unfold walletStoreIn. rewrite Hws. reflexivity.
    Opaque walletStoreIn findWallet. }
  assert (Hrecord : failuresOnRecord w' "ks" < 5).
  { unfold failuresOnRecord. rewrite Ht. reflexivity. }
  exists w', pkg. split; [exact Hrun|]. split.
  { Transparent walletStoreIn.
    unfold walletStoreIn at 1. rewrite Hws. reflexivity.
    Opaque walletStoreIn. }
  split; [reflexivity|]. split; [exact Hdec|]. split; [exact Hstale|]. split.
  - assert (Hpair : fst (pairResult (W := Toy.platform) (K := Toy.keyring)
                           (withSecret ks pkg 0) [123; 125] [98]) = Throw OperationError)
      by (vm_compute; reflexivity).
    destruct (unlockWallet_no_pair (W := Toy.platform) w' "ks" [98] [123; 125]
                (withSecret ks pkg 0) OperationError Hrecord Hfind eq_refl Hdec Hpair)
      as (w2 & Hun & _).
    rewrite Hun. reflexivity.
  - assert (Hold : Crypto.decrypt (W := Toy.platform) pkg [97] = Throw OperationError).
    { destruct (deriveKey_total (WebCryptoSpec0 := toy_spec) [98] (map Toy.tape (seq 0 32)))
        as (key & Hkey & Hlen).
      destruct (deriveKey_total (WebCryptoSpec0 := toy_spec) [97] (map Toy.tape (seq 0 32)))
        as (key' & Hkey' & Hlen').
      destruct (decrypt_of_encrypt (WebCryptoSpec0 := toy_spec) [123; 125] [98] Toy.tape key
                  Hkey) as (pkg0 & He0 & Hd0 & _).
      change (random w) with Toy.tape in Hp.
      assert (pkg0 = pkg) as -> by congruence.
      rewrite (Hd0 [97] key' Hkey').
      rewrite deriveKey_returns in Hkey, Hkey'.
      assert (Hk : key = take 32 (Crypto.pbkdf2Block (W := Toy.platform)
                                   (Encoding.encode [98]) (map Toy.tape (seq 0 32))
                                   (Z.to_N Crypto.PBKDF2_ITERATIONS) 1)) by congruence.
      assert (Hk' : key' = take 32 (Crypto.pbkdf2Block (W := Toy.platform)
                                     (Encoding.encode [97]) (map Toy.tape (seq 0 32))
                                     (Z.to_N Crypto.PBKDF2_ITERATIONS) 1)) by congruence.
      clear Hkey Hkey'.
      change (Crypto.aesGcmDecrypt (WebCrypto := Toy.platform)) with Toy.aesGcmDecrypt.
      change (Crypto.aesGcmEncrypt (WebCrypto := Toy.platform)) with Toy.aesGcmEncrypt.
      rewrite toy_rejects_other_key; [reflexivity | exact Hlen | exact Hlen' |].
      intros H. apply toy_keys_differ. rewrite Hk, Hk' in H. exact H. }
    rewrite (unlockWallet_wrong (W := Toy.platform) w' "ks" [97] (withSecret ks pkg 0)
               OperationError Hrecord Hfind eq_refl Hold).
    reflexivity.
Qed.

(** C6 as stated fails in two ways.  The skipped hotkeys are not reported:
    the call returns no value.  And for a keystore wallet the secret is not
    sealed under the new password as a whole: the keystore's own password
    stays under the old one, and the wallet does not unlock any more. *)
Lemma changePassword_counterexample :
  (let skipped := Toy.hotkey "hot2" "cold" [116; 119; 111] [98] in
   let w := Toy.worldWith [Toy.wallet "cold" hd [115; 101; 101; 100] [97]]
              [Toy.hotkey "hot1" "cold" [111; 110; 101] [97]; skipped] 0 in
   exists w' resealed,
     changePassword (W := Toy.platform) (K := Toy.keyring) "cold" [97] [99] w
       = (Return tt, w') /\
     hotkeyStoreIn (local w') = [resealed; skipped] /\
     Crypto.decrypt (W := Toy.platform) (EncryptedHotkey.encrypted resealed) [99]
       = Return [111; 110; 101] /\
     Crypto.decrypt (W := Toy.platform) (EncryptedHotkey.encrypted skipped) [99]
       = Throw OperationError) /\
  (let ks :=
     EncryptedWallet.Make "ks" 1 keystore "ks" "ks" (Toy.sealed [123; 125] [97]) None
       (Some (Toy.sealed [107] [97])) 0 0 in
   let w := Toy.worldWith [ks] [] 0 in
   fst (unlockWallet (W := Toy.platform) (K := Toy.keyring) "ks" [97] w) = Return true /\
   exists w',
     changePassword (W := Toy.platform) (K := Toy.keyring) "ks" [97] [98] w
       = (Return tt, w') /\
     fst (unlockWallet (W := Toy.platform) (K := Toy.keyring) "ks" [98] w') = Return false /\
     fst (unlockWallet (W := Toy.platform) (K := Toy.keyring) "ks" [97] w') = Return false).
Proof.
  split; [exact changePassword_skips_hotkey|].
  destruct changePassword_keystore_locked_out
    as (Hbefore & w' & pkg & Hrun & _ & _ & _ & _ & Hnew & Hold).
  intros ks w. split; [exact Hbefore|].
  exists w'. split; [exact Hrun|]. split; [exact Hnew | exact Hold].
Qed.


(** * The connection manager *)

Section Signature.
Import ConnectionManager.

Lemma wrapSignature_fits (rawSignature : list byte) :
  length rawSignature = 64%nat ->
  wrapSignature rawSignature = Return (SR25519_TYPE_PREFIX :: rawSignature).
Proof.
  intros Hlen. unfold wrapSignature, typedArraySet.
  rewrite length_insert, length_replicate, Hlen.
  change (65 <? 64 + 1)%nat with false. cbv iota.
  change (drop (1 + 64) (<[0%nat:=SR25519_TYPE_PREFIX]> (replicate 65 x00))) with (@nil byte).
  rewrite app_nil_r. reflexivity.
Qed.

Lemma wrapSignature_too_long (rawSignature : list byte) :
  (64 < length rawSignature)%nat ->
  wrapSignature rawSignature = Throw (RangeError "offset is out of bounds").
Proof.
  intros Hlen. unfold wrapSignature, typedArraySet.
  rewrite length_insert, length_replicate.
  destruct (Nat.ltb_spec 65 (length rawSignature + 1)); [reflexivity | lia].
Qed.

End Signature.

(** C4: a 64-byte raw signature is wrapped into exactly 65 bytes: byte 0
    is the Sr25519 discriminator 0x01, bytes 1 to 64 are the raw signature
    unchanged; and this wrapped signature is what the pipeline attaches to
    the transaction. *)
Theorem wrapSignature_layout (C : ConnectionManager.Chain)
    (rawSignature : list byte) :
  length rawSignature = 64%nat ->
  exists multiSignature,
    ConnectionManager.wrapSignature rawSignature = Return multiSignature /\
    length multiSignature = 65%nat /\
    multiSignature !! 0%nat = Some x01 /\
    (forall i, (i < 64)%nat -> multiSignature !! S i = rawSignature !! i) /\
    drop 1 multiSignature = rawSignature /\
    forall (signer : ConnectionManager.Signer) (tx : ConnectionManager.Tx)
           (nonce : Z) (signPayload : ConnectionManager.Payload) (data : list byte),
      ConnectionManager.accountNextIndex (ConnectionManager.address signer) = Return nonce ->
      ConnectionManager.createSignerPayload tx nonce = Return signPayload ->
      ConnectionManager.toRaw signPayload = Return data ->
      ConnectionManager.sign signer data = Return rawSignature ->
      ConnectionManager.signed signer tx =
      ConnectionManager.addSignature tx (ConnectionManager.address signer)
        multiSignature signPayload.
Proof.
  intros Hlen. exists (x01 :: rawSignature).
  split; [apply wrapSignature_fits, Hlen|].
  split; [cbn; lia|]. split; [reflexivity|]. split; [intros; reflexivity|].
  split; [reflexivity|].
  intros signer tx nonce signPayload data Hn Hp Hr Hs.
  unfold ConnectionManager.signed. rewrite Hn. cbn [bindC]. rewrite Hp. cbn [bindC].
  rewrite Hr. cbn [bindC]. rewrite Hs. cbn [bindC].
  rewrite (wrapSignature_fits rawSignature Hlen). reflexivity.
Qed.

Lemma wrapSignature_layout_witness :
  exists multiSignature,
    ConnectionManager.wrapSignature (replicate 64 x2a) = Return multiSignature /\
    length multiSignature = 65%nat /\
    multiSignature !! 0%nat = Some x01 /\
    drop 1 multiSignature = replicate 64 x2a.
Proof.
  destruct (wrapSignature_layout Toy.chain (replicate 64 x2a) eq_refl)
    as (ms & Hw & Hl & H0 & _ & Hd & _).
  exists ms. split; [exact Hw|]. split; [exact Hl|]. split; [exact H0 | exact Hd].
Defined.

Section Pipeline.
Import ConnectionManager.
Context {C : Chain}.

Lemma awaitInclusion_structured (st : manager) (tx : Tx) (statuses : list Status) :
  structured (awaitInclusion st tx statuses).
Proof.
  induction statuses as [|status rest IH]; cbn [awaitInclusion].
  - left. reflexivity.
  - destruct (isInBlock status || isFinalized status); [|exact IH].
    destruct (dispatchError status) as [d|]; [|right; eauto].
    destruct (isModule d && bool_decide (is_Some (api st))); [|right; eauto].
    destruct (asModule d); [right; eauto | exact IH].
Qed.

Lemma submitOrReport_structured (st : manager) (prepared : completion Tx) :
  structured (submitOrReport st prepared).
Proof.
  destruct prepared as [tx|e]; cbn [submitOrReport]; [|right; eauto].
  unfold submitAndWaitForBlock. destruct (send tx); [right; eauto|].
  apply awaitInclusion_structured.
Qed.

(** The promise stays pending only for a transaction that was submitted and
    never reported in a block. *)
Lemma submitOrReport_pending (st : manager) (prepared : completion Tx) :
  submitOrReport st prepared = Pending ->
  exists tx statuses,
    prepared = Return tx /\ send tx = Updates statuses /\
    awaitInclusion st tx statuses = Pending.
Proof.
  destruct prepared as [tx|e]; cbn [submitOrReport]; [|discriminate].
  unfold submitAndWaitForBlock. destruct (send tx) as [e|statuses] eqn:Hs; [discriminate|].
  intros H. exists tx, statuses. auto.
Qed.

Lemma addStake_structured (st : manager) (signer : Signer) (hotkey : string)
    (netuid amount : Z) (a : Api) :
  api st = Some a -> structured (addStake st signer hotkey netuid amount).
Proof.
  intros Ha. unfold addStake. rewrite Ha. apply submitOrReport_structured.
Qed.

Lemma addStakeLimit_structured (st : manager) (signer : Signer) (hotkey : string)
    (netuid amount limitPrice : Z) (allowPartial : bool) (a : Api) :
  api st = Some a ->
  structured (addStakeLimit st signer hotkey netuid amount limitPrice allowPartial).
Proof.
  intros Ha. unfold addStakeLimit. rewrite Ha.
  destruct aetensor_addStakeLimit as [f|]; [|destruct subtensor_addStakeLimit as [f|]].
  3: exact (addStake_structured st signer hotkey netuid amount a Ha).
  all: right; unfold tryCatch;
    destruct (bindC (f hotkey netuid amount limitPrice allowPartial) _); eauto.
Qed.

End Pipeline.

(** C5 (amended): on a manager that holds an [api], each of [transfer],
    [addStake], [removeStake], [moveStake] and [addStakeLimit] never rejects:
    its promise holds a structured result, or stays pending (for the four
    that wait for inclusion, only when the submitted transaction is never
    reported in a block).  On a manager without an [api] each of the five
    rejects with the error "Not connected". *)
Theorem pipeline_outcomes (C : ConnectionManager.Chain) (st : ConnectionManager.manager)
    (signer : ConnectionManager.Signer) (to hotkey srcHotkey destHotkey : string)
    (netuid amount limitPrice : Z) (allowPartial : bool) :
  let results :=
    [ ConnectionManager.transfer st signer to amount;
      ConnectionManager.addStake st signer hotkey netuid amount;
      ConnectionManager.removeStake st signer hotkey netuid amount;
      ConnectionManager.moveStake st signer srcHotkey destHotkey netuid amount;
      ConnectionManager.addStakeLimit st signer hotkey netuid amount limitPrice allowPartial ] in
  match ConnectionManager.api st with
  | Some _ =>
      Forall ConnectionManager.structured results /\
      forall prepared,
        ConnectionManager.submitOrReport st prepared = ConnectionManager.Pending ->
        exists tx statuses,
          prepared = Return tx /\
          ConnectionManager.send tx = ConnectionManager.Updates statuses /\
          ConnectionManager.awaitInclusion st tx statuses = ConnectionManager.Pending
  | None => Forall ConnectionManager.notConnected results
  end.
Proof.
  intros results. subst results.
  destruct (ConnectionManager.api st) as [a|] eqn:Ha.
  - split; [|apply submitOrReport_pending].
    rewrite !Forall_cons. repeat apply conj.
    6: first [exact I | constructor].
    + unfold ConnectionManager.transfer. rewrite Ha. apply submitOrReport_structured.
    + exact (addStake_structured st signer hotkey netuid amount a Ha).
    + unfold ConnectionManager.removeStake. rewrite Ha. apply submitOrReport_structured.
    + unfold ConnectionManager.moveStake. rewrite Ha. apply submitOrReport_structured.
    + exact (addStakeLimit_structured st signer hotkey netuid amount limitPrice allowPartial a Ha).
  - rewrite !Forall_cons. repeat apply conj.
    6: first [exact I | constructor].
    all: unfold ConnectionManager.notConnected.
    + unfold ConnectionManager.transfer. rewrite Ha. reflexivity.
    + unfold ConnectionManager.addStake. rewrite Ha. reflexivity.
    + unfold ConnectionManager.removeStake. rewrite Ha. reflexivity.
    + unfold ConnectionManager.moveStake. rewrite Ha. reflexivity.
    + unfold ConnectionManager.addStakeLimit. rewrite Ha. reflexivity.
Qed.

(** C5 as stated fails in the not-connected state: [transfer] and
    [addStake] on a manager that never connected reject with an error
    instead of returning a result. *)
Lemma transfer_not_connected_counterexample :
  ConnectionManager.transfer (C := Toy.chain) ConnectionManager.initial Toy.signer "5Dest" 1
    = ConnectionManager.Settled (Throw (Error "Not connected")) /\
  ConnectionManager.addStake (C := Toy.chain) ConnectionManager.initial Toy.signer "5Hot" 1 1
    = ConnectionManager.Settled (Throw (Error "Not connected")) /\
  ~ ConnectionManager.structured (ConnectionManager.transfer (C := Toy.chain) ConnectionManager.initial
                  Toy.signer "5Dest" 1).
Proof.
  split; [reflexivity|]. split; [reflexivity|].
  intros [H | [r H]]; discriminate H.
Qed.

Example transfer_connected :
  ConnectionManager.transfer (C := Toy.chain) Toy.connected Toy.signer "5Dest" 1
  = ConnectionManager.Settled (Return (ConnectionManager.Result true (Some "0x00"%string) None)).
Proof. reflexivity. Qed.

Section Reconnect.
Import ConnectionManager.

Lemma handleDisconnect_counts (st : manager) :
  let st' := handleDisconnect st in
  maxReconnectAttempts st' = maxReconnectAttempts st /\
  currentNetwork st' = currentNetwork st /\
  if (reconnectAttempts st <? maxReconnectAttempts st)
     && bool_decide (is_Some (currentNetwork st))
  then reconnectAttempts st' = reconnectAttempts st + 1 /\
       scheduled st' = scheduled st ++ [backoff (reconnectAttempts st + 1)]
  else reconnectAttempts st' = reconnectAttempts st /\ scheduled st' = scheduled st.
Proof.
  unfold handleDisconnect.
  destruct ((reconnectAttempts st <? maxReconnectAttempts st)
            && bool_decide (is_Some (currentNetwork st))) eqn:E; cbn; auto.
Qed.

Lemma handleDisconnect_counted (st0 st : manager) :
  maxReconnectAttempts st = maxReconnectAttempts st0 ->
  reconnectAttempts st = reconnectAttempts st0 ->
  scheduled st = scheduled st0 ->
  counted st0 (handleDisconnect st).
Proof.
  intros Hm Hr Hs. destruct (handleDisconnect_counts st) as (Hm' & _ & H).
  cbv zeta in *. split; [congruence|].
  destruct ((reconnectAttempts st <? maxReconnectAttempts st)
            && bool_decide (is_Some (currentNetwork st))) eqn:E.
  - right. apply andb_true_iff in E as [E _]. apply Z.ltb_lt in E.
    destruct H as [H1 H2]. rewrite H1, H2, Hr, Hs. split; [lia|]. auto.
  - left. destruct H as [H1 H2]. rewrite H1, H2, Hr, Hs. auto.
Qed.

Lemma connectBegin_counted (networkId : string) (customUrl : option string) (st : manager) :
  counted st (snd (connectBegin networkId customUrl st)).
Proof.
  unfold connectBegin, counted.
  destruct (isConnecting st); [cbn; auto|].
  destruct (match customUrl with Some _ => _ | None => _ end); [|cbn; auto].
  destruct (apiIsConnected st && _); cbn; auto.
Qed.

Lemma step_counted (st : manager) (e : event) :
  keepsCounting e = true -> counted st (step st e).
Proof.
  destruct e as [networkId customUrl|ready| | | |]; cbn [keepsCounting step]; intros Hk.
  - apply connectBegin_counted.
  - destruct ready; [discriminate|]. unfold connectEnd.
    destruct (inflight st); [|split; auto].
    cbn [snd]. apply handleDisconnect_counted; reflexivity.
  - destruct (currentNetwork st); [apply connectBegin_counted | split; auto].
  - apply handleDisconnect_counted; reflexivity.
  - apply handleDisconnect_counted; reflexivity.
  - discriminate.
Qed.

Lemma run_counted (events : list event) (st : manager) :
  forallb keepsCounting events = true ->
  let st' := run events st in
  maxReconnectAttempts st' = maxReconnectAttempts st /\
  reconnectAttempts st <= reconnectAttempts st' /\
  (reconnectAttempts st' = reconnectAttempts st \/
   reconnectAttempts st' <= maxReconnectAttempts st) /\
  scheduled st' =
    scheduled st ++
    (backoff <$> seqZ (reconnectAttempts st + 1) (reconnectAttempts st' - reconnectAttempts st)).
Proof.
  revert st. induction events as [|e rest IH]; intros st Hk.
  { cbn. rewrite Z.sub_diag. cbn. rewrite app_nil_r. repeat split; auto; lia. }
  cbn [forallb] in Hk. apply andb_true_iff in Hk as [He Hrest].
  cbn [run fold_left]. fold (run rest (step st e)).
  destruct (step_counted st e He) as [Hm Hstep].
  destruct (IH (step st e) Hrest) as (IHm & IHr & IHb & IHs). cbv zeta in *.
  destruct Hstep as [[Hr Hs] | (Hlt & Hr & Hs)].
  - rewrite Hr, Hs, Hm in *. repeat split; auto.
  - rewrite Hr, Hs, Hm in *. split; [exact IHm|]. split; [lia|]. split; [lia|].
    rewrite IHs, <- app_assoc. f_equal.
    replace (reconnectAttempts (run rest (step st e)) - reconnectAttempts st)
      with (Z.succ (reconnectAttempts (run rest (step st e)) - (reconnectAttempts st + 1)))
      by lia.
    rewrite (seqZ_cons (reconnectAttempts st + 1)) by lia. cbn [fmap list_fmap app].
    rewrite Z.pred_succ. reflexivity.
Qed.

Lemma backoff_monotone (a b : Z) : a <= b -> backoff a <= backoff b.
Proof. unfold backoff. lia. Qed.

Lemma backoff_bounded (a : Z) : backoff a <= 30000.
Proof. unfold backoff. lia. Qed.

End Reconnect.

(** C8: each call of [handleDisconnect] below the limit (and with a
    network to reconnect to) adds one to the counter and sets a timer with
    delay min(2000 ms x counter, 30000 ms); at the limit it sets none.  Over
    any events without a successful handshake and without [disconnect()]
    (link losses, failed handshakes, timers firing, [connect()] calls), on a
    manager with the limit 5, the delays recorded are non-decreasing, none
    exceeds 30000 ms, there are at most 5 minus the count of them, and none
    at all once the counter is 5.  A handshake that succeeds sets the
    counter to 0 (as [disconnect()] does). *)
Theorem reconnect_backoff :
  (forall st : ConnectionManager.manager,
     let st' := ConnectionManager.handleDisconnect st in
     if (ConnectionManager.reconnectAttempts st <? ConnectionManager.maxReconnectAttempts st)
        && bool_decide (is_Some (ConnectionManager.currentNetwork st))
     then ConnectionManager.reconnectAttempts st' = ConnectionManager.reconnectAttempts st + 1 /\
          ConnectionManager.scheduled st' =
            ConnectionManager.scheduled st ++
            [Z.min (2000 * (ConnectionManager.reconnectAttempts st + 1)) 30000]
     else ConnectionManager.reconnectAttempts st' = ConnectionManager.reconnectAttempts st /\
          ConnectionManager.scheduled st' = ConnectionManager.scheduled st) /\
  (forall (st : ConnectionManager.manager) (events : list ConnectionManager.event),
     ConnectionManager.maxReconnectAttempts st = 5 ->
     0 <= ConnectionManager.reconnectAttempts st ->
     forallb ConnectionManager.keepsCounting events = true ->
     let st' := ConnectionManager.run events st in
     let new := ConnectionManager.newDelays st st' in
     ConnectionManager.scheduled st' = ConnectionManager.scheduled st ++ new /\
     (forall (i j : nat) (di dj : Z),
        (i <= j)%nat -> new !! i = Some di -> new !! j = Some dj -> di <= dj) /\
     Forall (fun delay => delay <= 30000) new /\
     Z.of_nat (length new) <= Z.max 0 (5 - ConnectionManager.reconnectAttempts st) /\
     (5 <= ConnectionManager.reconnectAttempts st -> new = [])) /\
  (forall (st : ConnectionManager.manager) (network : ConnectionManager.NetworkConfig),
     ConnectionManager.inflight st = Some network ->
     fst (ConnectionManager.connectEnd true st) = Return true /\
     ConnectionManager.reconnectAttempts (snd (ConnectionManager.connectEnd true st)) = 0 /\
     ConnectionManager.scheduled (snd (ConnectionManager.connectEnd true st)) =
       ConnectionManager.scheduled st) /\
  (forall st : ConnectionManager.manager,
     ConnectionManager.reconnectAttempts (ConnectionManager.disconnect st) = 0).
Proof.
  split; [|split; [|split]].
  - intros st. destruct (handleDisconnect_counts st) as (_ & _ & H). exact H.
  - intros st events Hmax Hr Hk st' new.
    destruct (run_counted events st Hk) as (Hm & Hle & Hb & Hs). cbv zeta in Hm, Hle, Hb, Hs.
    fold st' in Hm, Hle, Hb, Hs.
    set (r := ConnectionManager.reconnectAttempts st) in *.
    set (r' := ConnectionManager.reconnectAttempts st') in *.
    assert (new = ConnectionManager.backoff <$> seqZ (r + 1) (r' - r)) as Hnew.
    { subst new. unfold ConnectionManager.newDelays. rewrite Hs, drop_app_length. reflexivity. }
    rewrite Hnew. split; [exact Hs|]. split; [|split; [|split]].
    + intros i j di dj Hij Hi Hj.
      rewrite list_lookup_fmap in Hi, Hj.
      destruct (seqZ (r + 1) (r' - r) !! i) as [xi|] eqn:Ei; [|discriminate].
      destruct (seqZ (r + 1) (r' - r) !! j) as [xj|] eqn:Ej; [|discriminate].
      apply lookup_seqZ in Ei as [-> _]. apply lookup_seqZ in Ej as [-> _].
      cbn in Hi, Hj. injection Hi as <-. injection Hj as <-.
      apply backoff_monotone. lia.
    + apply Forall_fmap, Forall_forall. intros x _. apply backoff_bounded.
    + rewrite length_fmap, length_seqZ. lia.
    + intros H5. replace (r' - r) with 0 by lia. reflexivity.
  - intros st network Hin. unfold ConnectionManager.connectEnd. rewrite Hin. cbn. auto.
  - intros st. reflexivity.
Qed.

Lemma reconnect_backoff_witness :
  let failures :=
    [ ConnectionManager.ConnectCalled "test" None; ConnectionManager.HandshakeDone false;
      ConnectionManager.TimerFired; ConnectionManager.HandshakeDone false;
      ConnectionManager.TimerFired; ConnectionManager.HandshakeDone false;
      ConnectionManager.LinkLost; ConnectionManager.StaleLinkLost;
      ConnectionManager.TimerFired; ConnectionManager.HandshakeDone false;
      ConnectionManager.ConnectCalled "test" None; ConnectionManager.HandshakeDone false ] in
  ConnectionManager.scheduled (ConnectionManager.run failures ConnectionManager.initial)
    = [2000; 4000; 6000; 8000; 10000] /\
  Forall (fun delay => delay <= 30000)
    (ConnectionManager.newDelays ConnectionManager.initial
       (ConnectionManager.run failures ConnectionManager.initial)).
Proof.
  intros failures. split; [reflexivity|].
  destruct reconnect_backoff as (_ & H & _).
  destruct (H ConnectionManager.initial failures eq_refl ltac:(cbn; lia) eq_refl)
    as (_ & _ & Hb & _).
  exact Hb.
Defined.


(** * The approval broker *)

Section Approvals.
Import DappHandler.
Context {Value : Type}.
Implicit Types (st : handler Value) (id t due : Z).

Lemma resolveApproval_gone st id (approved : bool) (result : option Value) :
  pendingApprovals st !! id = None -> resolveApproval id approved result st = st.
Proof. intros H. unfold resolveApproval. rewrite H. reflexivity. Qed.

Lemma approvalTimeout_gone st id :
  pendingApprovals st !! id = None -> approvalTimeout id st = st.
Proof. intros H. unfold approvalTimeout. rewrite H. reflexivity. Qed.

Lemma approvalTimeout_pending st id (p : PendingApproval Value) :
  pendingApprovals st !! id = Some p ->
  approvalTimeout id st =
  Handler (delete id (pendingApprovals st)) (nextApprovalId st) (timers st) (now st)
    (settled st ++ [(id, Throw (Error "Request timeout"))]).
Proof. intros H. unfold approvalTimeout. rewrite H. reflexivity. Qed.

(** A timeout removes at most its own approval, and only adds to the
    settlements. *)
Lemma approvalTimeout_other st id id' :
  (pendingApprovals (approvalTimeout id' st) !! id =
     if decide (id' = id) then None else pendingApprovals st !! id) /\
  (exists more, settled (approvalTimeout id' st) = settled st ++ more) /\
  timers (approvalTimeout id' st) = timers st.
Proof.
  unfold approvalTimeout.
  destruct (pendingApprovals st !! id') as [p|] eqn:E; cbn.
  - split; [|split; [eauto | reflexivity]].
    destruct (decide (id' = id)) as [->|Hne];
      [apply lookup_delete_eq | apply lookup_delete_ne; exact Hne].
  - split; [|split; [exists []; now rewrite app_nil_r | reflexivity]].
    destruct (decide (id' = id)) as [->|Hne]; [exact E | reflexivity].
Qed.

Lemma fireDue_spec t (pending : list (Z * Z)) st :
  let '(kept, st') := fireDue t pending st in
  kept = List.filter (fun timer => negb (fst timer <=? t)) pending /\
  (exists more, settled st' = settled st ++ more) /\
  nextApprovalId st' = nextApprovalId st /\
  (forall id,
     pendingApprovals st' !! id =
       if existsb (fun timer => (fst timer <=? t) && (snd timer =? id)) pending
       then None else pendingApprovals st !! id) /\
  (forall id p due, In (due, id) pending -> due <= t ->
     pendingApprovals st !! id = Some p ->
     In (id, Throw (Error "Request timeout")) (settled st')).
Proof.
  revert st. induction pending as [|[due id'] rest IH]; intros st.
  { cbn. split; [reflexivity|]. split; [exists []; now rewrite app_nil_r|].
    split; [reflexivity|]. split; [reflexivity|]. intros ? ? ? []. }
  cbn [fireDue List.filter existsb fst snd].
  destruct (Z.leb_spec due t) as [Hdue|Hdue]; cbn [negb andb].
  - specialize (IH (approvalTimeout id' st)).
    destruct (fireDue t rest (approvalTimeout id' st)) as [kept st'].
    destruct IH as (Hk & [more Hs] & Hn & Hp & Hrej).
    destruct (approvalTimeout_other st id' id') as (_ & [more0 Hs0] & _).
    split; [exact Hk|]. split; [exists (more0 ++ more); rewrite Hs, Hs0, app_assoc; reflexivity|].
    split.
    { rewrite Hn. unfold approvalTimeout. destruct (pendingApprovals st !! id'); reflexivity. }
    split.
    + intros id. rewrite Hp.
      destruct (approvalTimeout_other st id id') as (Hl & _ & _). rewrite Hl.
      destruct (Z.eqb_spec id' id) as [->|Hne]; cbn [orb].
      * rewrite decide_True by reflexivity. destruct (existsb _ rest); reflexivity.
      * rewrite decide_False by exact Hne. reflexivity.
    + intros id p due0 [[= -> ->]|Hin] Hle Hpend.
      * rewrite Hs. apply in_or_app. left.
        rewrite (approvalTimeout_pending st id p Hpend). cbn.
        apply in_or_app. right. left. reflexivity.
      * destruct (decide (id' = id)) as [->|Hne].
        -- rewrite Hs. apply in_or_app. left.
           rewrite (approvalTimeout_pending st id p Hpend). cbn.
           apply in_or_app. right. left. reflexivity.
        -- apply (Hrej id p due0 Hin Hle).
           destruct (approvalTimeout_other st id id') as (Hl & _ & _). rewrite Hl.
           rewrite decide_False by exact Hne. exact Hpend.
  - specialize (IH st). destruct (fireDue t rest st) as [kept st'].
    destruct IH as (Hk & Hs & Hn & Hp & Hrej).
    split; [rewrite Hk; reflexivity|]. split; [exact Hs|]. split; [exact Hn|].
    split; [exact Hp|].
    intros id p due0 [[= -> ->]|Hin] Hle Hpend; [lia|].
    apply (Hrej id p due0 Hin Hle Hpend).
Qed.

(** When the clock reaches the time of a pending approval's timer, the
    approval is rejected with the timeout error and leaves the map. *)
Lemma advanceTo_rejects st id (p : PendingApproval Value) due t :
  pendingApprovals st !! id = Some p ->
  In (due, id) (timers st) ->
  due <= t ->
  pendingApprovals (advanceTo t st) !! id = None /\
  In (id, Throw (Error "Request timeout")) (settled (advanceTo t st)).
Proof.
  intros Hp Hin Hle. unfold advanceTo.
  pose proof (fireDue_spec t (timers st) st) as H.
  destruct (fireDue t (timers st) st) as [kept st'].
  destruct H as (_ & _ & _ & Hpend & Hrej). cbn. split.
  - rewrite Hpend.
    assert (existsb (fun timer => (fst timer <=? t) && (snd timer =? id)) (timers st) = true) as ->;
      [|reflexivity].
    apply existsb_exists. exists (due, id). split; [exact Hin|]. cbn.
    apply andb_true_iff. split; [apply Z.leb_le; exact Hle | apply Z.eqb_refl].
  - exact (Hrej id p due Hin Hle Hp).
Qed.

Lemma advanceTo_timed st t : timed st -> timed (advanceTo t st).
Proof.
  intros Ht id p. unfold advanceTo.
  pose proof (fireDue_spec t (timers st) st) as H.
  destruct (fireDue t (timers st) st) as [kept st'].
  destruct H as (Hk & _ & _ & Hpend & _). cbn. rewrite Hpend.
  destruct (existsb _ (timers st)) eqn:E; [discriminate|].
  intros Hp. destruct (Ht id p Hp) as [due Hin].
  exists due. rewrite Hk. apply filter_In. split; [exact Hin|]. cbn.
  apply negb_true_iff. apply Z.leb_gt.
  destruct (Z.leb_spec due t) as [Hle|Hgt]; [|exact Hgt].
  exfalso.
  assert (existsb (fun timer => (fst timer <=? t) && (snd timer =? id)) (timers st) = true) as E'.
  { apply existsb_exists. exists (due, id). split; [exact Hin|]. cbn.
    apply andb_true_iff. split; [apply Z.leb_le; exact Hle | apply Z.eqb_refl]. }
  congruence.
Qed.

Lemma step_timed st (e : event Value) : timed st -> timed (step st e).
Proof.
  intros Ht. destruct e as [origin method params popup | id approved result | t]; cbn [step].
  - unfold requestApproval. destruct popup; [|exact Ht]. cbn [snd].
    intros id p. cbn. destruct (decide (nextApprovalId st = id)) as [<-|Hne].
    + intros _. eexists. apply in_or_app. right. left. reflexivity.
    + rewrite lookup_insert_ne by exact Hne. intros Hp.
      destruct (Ht id p Hp) as [due Hin]. exists due. apply in_or_app. left. exact Hin.
  - unfold resolveApproval. destruct (pendingApprovals st !! id) eqn:E; [|exact Ht].
    intros id' p'. cbn. destruct (decide (id = id')) as [->|Hne].
    + rewrite lookup_delete_eq. discriminate.
    + rewrite lookup_delete_ne by exact Hne. apply Ht.
  - apply advanceTo_timed, Ht.
Qed.

Lemma run_timed (events : list (event Value)) st : timed st -> timed (run events st).
Proof.
  revert st. induction events as [|e rest IH]; intros st Ht; [exact Ht|].
  cbn [run fold_left]. apply IH, step_timed, Ht.
Qed.

End Approvals.

(** C9: [requestApproval] registers the approval under a fresh id with a
    timer 5 minutes ahead; in every state the handler can reach, each
    pending approval has its timer set; when the clock reaches the time of
    the timer of an approval that is still pending, the approval is rejected
    with the error "Request timeout" and removed from the map; and
    [resolveApproval] (approving or rejecting) and the timer's callback
    leave the handler exactly as it was for an id that is not in the map. *)
Theorem approval_timeout (Value : Type) :
  (forall (st : DappHandler.handler Value) (origin method : string) (params : option Value),
     let id := DappHandler.nextApprovalId st in
     let st' := snd (DappHandler.requestApproval origin method params (Return tt) st) in
     fst (DappHandler.requestApproval origin method params (Return tt) st) = Return id /\
     DappHandler.pendingApprovals st' !! id
       = Some (DappHandler.Approval id origin method params) /\
     DappHandler.timers st' = DappHandler.timers st ++ [(DappHandler.now st + 5 * 60 * 1000, id)]) /\
  (forall events : list (DappHandler.event Value),
     DappHandler.timed (DappHandler.run events DappHandler.initial)) /\
  (forall (st : DappHandler.handler Value) (id due t : Z)
          (pending : DappHandler.PendingApproval Value),
     DappHandler.pendingApprovals st !! id = Some pending ->
     In (due, id) (DappHandler.timers st) ->
     due <= t ->
     let st' := DappHandler.advanceTo t st in
     DappHandler.pendingApprovals st' !! id = None /\
     In (id, Throw (Error "Request timeout")) (DappHandler.settled st') /\
     forall approved result, DappHandler.resolveApproval id approved result st' = st') /\
  (forall (st : DappHandler.handler Value) (id : Z) (approved : bool) (result : option Value),
     DappHandler.pendingApprovals st !! id = None ->
     DappHandler.resolveApproval id approved result st = st /\
     DappHandler.approvalTimeout id st = st).
Proof.
  split; [|split; [|split]].
  - intros st origin method params id st'. subst id st'. cbn.
    split; [reflexivity|]. split; [apply lookup_insert_eq | reflexivity].
  - intros events. apply run_timed. intros id p. cbn. rewrite lookup_empty. discriminate.
  - intros st id due t pending Hp Hin Hle st'.
    destruct (advanceTo_rejects st id pending due t Hp Hin Hle) as [Hnone Hrej].
    split; [exact Hnone|]. split; [exact Hrej|].
    intros approved result. apply resolveApproval_gone. exact Hnone.
  - intros st id approved result Hnone.
    split; [apply resolveApproval_gone | apply approvalTimeout_gone]; exact Hnone.
Qed.

Lemma approval_timeout_witness :
  let st := DappHandler.run
              [ DappHandler.Requested "https://dapp.example" "signMessage" (Some 7) (Return tt);
                DappHandler.ClockReached 299999;
                DappHandler.ClockReached 300000 ]
              DappHandler.initial in
  DappHandler.pendingApprovals st !! 1 = None /\
  DappHandler.settled st = [(1, Throw (Error "Request timeout"))] /\
  DappHandler.resolveApproval 1 true (Some 9) st = st.
Proof.
  intros st.
  destruct (approval_timeout Z) as (_ & _ & _ & H).
  assert (DappHandler.pendingApprovals st !! 1 = None) as Hnone by reflexivity.
  split; [exact Hnone|]. split; [reflexivity|].
  exact (proj1 (H st 1 true (Some 9) Hnone)).
Defined.


(** * The other methods of the wallet service *)

Opaque WalletService.findWallet Crypto.decrypt Crypto.encrypt WalletService.pairOf
  WalletService.walletStoreIn WalletService.hotkeyStoreIn.

Ltac runx := unfold WalletOps.liftC, WalletOps.drawM, WalletOps.setUnlockedHotkeys,
  WalletOps.getLockState, WalletService.lock; run.

Section WalletOpsFacts.
Import WalletService WalletOps.
Context {W : Crypto.WebCrypto} {K : Keyring} {V : Vault}.

Lemma lock_world (w : world) :
  lock w =
  (Return tt,
   World (Service ∅ ∅ (unlockAttempts (this w)) None (isInitialized (this w)))
     (Storage (aetron_wallet_store (local w)) (aetron_hotkey_store (local w))
        (Some (LockState.Make true None)))
     (now w) (random w) (decryptions w)).
Proof. runx. reflexivity. Qed.

Lemma signMessage_locked (w : world) (walletId : string) (message : jsstring) :
  getKeypair walletId (this w) = None ->
  signMessage walletId message w = (Throw (Error "Wallet is locked"), w).
Proof. intros H. unfold signMessage. runx. rewrite H. reflexivity. Qed.

Lemma signTransaction_locked (w : world) (walletId : string) (payloadHex : jsstring) :
  getKeypair walletId (this w) = None ->
  signTransaction walletId payloadHex w = (Throw (Error "Wallet is locked"), w).
Proof. intros H. unfold signTransaction. runx. rewrite H. reflexivity. Qed.

End WalletOpsFacts.

(** X1: [lock] empties both caches of unlocked pairs, cancels the auto-lock
    timer and stores the locked state; it keeps the stored wallets and
    hotkeys and the record of failed unlock attempts.  Afterwards no wallet
    is unlocked, no pair can be fetched and both signing methods throw
    "Wallet is locked" for every id. *)
Theorem lock_forgets_pairs (W : Crypto.WebCrypto) (K : WalletService.Keyring)
    (V : WalletOps.Vault) (w : WalletService.world) :
  exists w',
    WalletService.lock w = (Return tt, w') /\
    (forall walletId,
       WalletService.isUnlocked walletId (WalletService.this w') = false /\
       WalletService.getKeypair walletId (WalletService.this w') = None /\
       WalletOps.getHotkeyPair walletId (WalletService.this w') = None /\
       (forall message,
          WalletOps.signMessage walletId message w' = (Throw (Error "Wallet is locked"), w')) /\
       (forall payloadHex,
          WalletOps.signTransaction walletId payloadHex w'
            = (Throw (Error "Wallet is locked"), w'))) /\
    WalletOps.hasUnlockedWallets (WalletService.this w') = false /\
    WalletService.lockTimeout (WalletService.this w') = None /\
    fst (WalletOps.getLockState w') = Return (WalletService.LockState.Make true None) /\
    WalletService.unlockAttempts (WalletService.this w')
      = WalletService.unlockAttempts (WalletService.this w) /\
    WalletService.walletStoreIn (WalletService.local w')
      = WalletService.walletStoreIn (WalletService.local w) /\
    WalletService.hotkeyStoreIn (WalletService.local w')
      = WalletService.hotkeyStoreIn (WalletService.local w).
Proof.
  eexists. split; [apply lock_world|].
  split.
  { intros walletId.
    assert (WalletService.getKeypair walletId
              (WalletService.Service (K := K) ∅ ∅
                 (WalletService.unlockAttempts (WalletService.this w)) None
                 (WalletService.isInitialized (WalletService.this w))) = None) as Hk
      by apply lookup_empty.
    split; [unfold WalletService.isUnlocked; cbn; rewrite lookup_empty; reflexivity|].
    split; [exact Hk|]. split; [apply lookup_empty|].
    split; intros; [apply signMessage_locked | apply signTransaction_locked]; exact Hk. }
  split; [reflexivity|]. split; [reflexivity|]. split; [reflexivity|].
  split; [reflexivity|]. split; reflexivity.
Qed.

Section AutoLock.
Import WalletService WalletOps.
Context {W : Crypto.WebCrypto} {K : Keyring} {V : Vault}.

(** The world a successful [unlockWallet] leaves. *)
Lemma unlockWallet_right_world (w : world) (walletId : string)
    (password decrypted : jsstring) (wallet : EncryptedWallet.t) (pair : KeyringPair) :
  failuresOnRecord w walletId < 5 ->
  findWallet walletId (walletStoreIn (local w)) = Some wallet ->
  holdsSecret wallet = true ->
  Crypto.decrypt (EncryptedWallet.encrypted wallet) password = Return decrypted ->
  fst (pairResult wallet decrypted password) = Return pair ->
  unlockWallet walletId password w =
  (Return true,
   World (Service (<[walletId := pair]> (unlockedWallets (this w))) (unlockedHotkeys (this w))
            (delete walletId (unlockAttempts (this w))) (armed w) true)
         (Storage (aetron_wallet_store (local w)) (aetron_hotkey_store (local w))
            (Some (LockState.Make false (Some (now w)))))
         (now w) (random w)
         ((decryptions w ++ [(EncryptedWallet.encrypted wallet, password)])
            ++ snd (pairResult wallet decrypted password))).
Proof.
  intros Hc Hf Hs Hd Hp. unfold failuresOnRecord, armed in *. unfold unlockWallet. run.
  unfold holdsSecret in Hs.
  destruct (unlockAttempts (this w) !! walletId) as [a|] eqn:Ha; cbn.
  - destruct (Z.ltb_spec (15 * 60 * 1000) (now w - UnlockAttempt.lastAttempt a)); run.
    + rewrite Hf.
      destruct (EncryptedWallet.type wallet); try discriminate;
        run; rewrite Hd, pairOf_result, Hp; run; rewrite delete_insert_eq; reflexivity.
    + destruct (Z.leb_spec 5 (UnlockAttempt.count a)); [lia|]. run. rewrite Hf.
      destruct (EncryptedWallet.type wallet); try discriminate;
        run; rewrite Hd, pairOf_result, Hp; run; reflexivity.
  - destruct (15 * 60 * 1000 <? now w - 0); run; rewrite Hf;
      destruct (EncryptedWallet.type wallet); try discriminate;
        run; rewrite Hd, pairOf_result, Hp; run; reflexivity.
Qed.

Lemma clockReaches_world (t : Z) (w : world) :
  clockReaches t w =
  match lockTimeout (this w) with
  | Some due =>
      if due <=? t then
        (Return tt,
         World (Service ∅ ∅ (unlockAttempts (this w)) None (isInitialized (this w)))
           (Storage (aetron_wallet_store (local w)) (aetron_hotkey_store (local w))
              (Some (LockState.Make true None)))
           t (random w) (decryptions w))
      else (Return tt, atTime t w)
  | None => (Return tt, atTime t w)
  end.
Proof.
  unfold clockReaches, atTime. cbn [this lockTimeout].
  destruct (lockTimeout (this w)) as [due|]; [|reflexivity].
  destruct (due <=? t); [|reflexivity]. rewrite lock_world. reflexivity.
Qed.

(** What [setTimeout] makes of a delay: kept below 2^31 ms, and 0 from
    there to below 2^32 ms. *)
Lemma timerDelay_small (delay : Z) : 0 <= delay < 2147483648 -> timerDelay delay = delay.
Proof.
  intros Hd. unfold timerDelay.
  rewrite Z.mod_small by lia. lia.
Qed.

Lemma timerDelay_overflow (delay : Z) :
  2147483648 <= delay < 4294967296 -> timerDelay delay = 0.
Proof.
  intros Hd. unfold timerDelay.
  replace (delay + 2147483648) with (delay - 2147483648 + 1 * 4294967296) by lia.
  rewrite Z.mod_add by lia. rewrite Z.mod_small by lia. lia.
Qed.

End AutoLock.

(** X2: after a successful [unlockWallet] the wallet is unlocked, the
    unlocked state is stored with the time of the call, and for a positive
    [autoLockTimeout] the auto-lock timer is armed with the delay of that
    many minutes in milliseconds, as [setTimeout] takes it.  A delay below
    2^31 ms (up to 35791 minutes) is kept: the wallet is still unlocked at
    every earlier clock reading and locked (with the locked state stored)
    once the clock reaches that time.  A delay from 2^31 ms to below 2^32 ms
    does not fit the timer and is due at once: the wallet is locked at every
    clock reading from the call on.  For a longer delay the wallet is,
    at any clock reading, either still unlocked or locked in that way.  With
    a timeout of zero or less no timer is armed and the wallet stays
    unlocked at every clock reading. *)
Theorem unlock_then_autolock (W : Crypto.WebCrypto) (K : WalletService.Keyring)
    (w : WalletService.world) (walletId : string)
    (password decrypted : jsstring) (wallet : WalletService.EncryptedWallet.t)
    (pair : WalletService.KeyringPair) :
  WalletService.failuresOnRecord w walletId < 5 ->
  WalletService.findWallet walletId (WalletService.walletStoreIn (WalletService.local w))
    = Some wallet ->
  WalletService.holdsSecret wallet = true ->
  Crypto.decrypt (WalletService.EncryptedWallet.encrypted wallet) password = Return decrypted ->
  fst (WalletService.pairResult wallet decrypted password) = Return pair ->
  let minutes :=
    WalletService.WalletStoreSettings.autoLockTimeout
      (WalletService.WalletStore.settings
         (WalletService.walletStoreIn (WalletService.local w))) in
  let delay := minutes * 60 * 1000 in
  exists w',
    WalletService.unlockWallet walletId password w = (Return true, w') /\
    WalletService.getKeypair walletId (WalletService.this w') = Some pair /\
    fst (WalletOps.getLockState w')
      = Return (WalletService.LockState.Make false (Some (WalletService.now w))) /\
    forall t,
      let after := snd (WalletOps.clockReaches t w') in
      let locked :=
        WalletService.isUnlocked walletId (WalletService.this after) = false /\
        WalletOps.hasUnlockedWallets (WalletService.this after) = false /\
        fst (WalletOps.getLockState after)
          = Return (WalletService.LockState.Make true None) in
      let unlocked :=
        WalletService.getKeypair walletId (WalletService.this after) = Some pair /\
        WalletService.isUnlocked walletId (WalletService.this after) = true in
      if minutes <=? 0 then unlocked
      else if delay <? 2147483648 then
        if WalletService.now w + delay <=? t then locked else unlocked
      else if delay <? 4294967296 then
        if WalletService.now w <=? t then locked else unlocked
      else locked \/ unlocked.
Proof.
  intros Hc Hf Hs Hd Hp minutes delay.
  eexists. split; [apply (unlockWallet_right_world w walletId password decrypted wallet pair);
                   assumption|].
  split; [apply lookup_insert_eq|]. split; [reflexivity|].
  intros t after locked unlocked. subst after locked unlocked. rewrite clockReaches_world.
  cbn [WalletService.this WalletService.lockTimeout]. unfold WalletOps.armed.
  fold minutes. fold delay.
  assert (Hin : forall m : gmap string WalletService.KeyringPair,
            bool_decide (is_Some (<[walletId := pair]> m !! walletId)) = true).
  { intros m. rewrite lookup_insert_eq. apply bool_decide_eq_true. eauto. }
  destruct (Z.leb_spec minutes 0) as [Hle|Hpos]; destruct (Z.ltb_spec 0 minutes); try lia.
  { cbn [snd]. split; [apply lookup_insert_eq | apply Hin]. }
  destruct (Z.ltb_spec delay 2147483648) as [Hsmall|Hbig].
  { rewrite timerDelay_small by (unfold delay in *; lia).
    destruct (WalletService.now w + delay <=? t); cbn [snd].
    - split; [unfold WalletService.isUnlocked; cbn; rewrite lookup_empty; reflexivity|].
      split; reflexivity.
    - split; [apply lookup_insert_eq | apply Hin]. }
  destruct (Z.ltb_spec delay 4294967296) as [Hfit|Hlong].
  { rewrite timerDelay_overflow by lia. rewrite Z.add_0_r.
    destruct (WalletService.now w <=? t); cbn [snd].
    - split; [unfold WalletService.isUnlocked; cbn; rewrite lookup_empty; reflexivity|].
      split; reflexivity.
    - split; [apply lookup_insert_eq | apply Hin]. }
  destruct (WalletService.now w + WalletService.timerDelay delay <=? t); cbn [snd].
  - left. split; [unfold WalletService.isUnlocked; cbn; rewrite lookup_empty; reflexivity|].
    split; reflexivity.
  - right. split; [apply lookup_insert_eq | apply Hin].
Qed.

Lemma unlock_then_autolock_witness :
  let cold := Toy.wallet "cold" WalletService.hd [115; 101; 101; 100] [97] in
  let w := Toy.worldWith [cold] [] 1000000 in
  let long :=
    WalletService.World (WalletService.Service ∅ ∅ ∅ None false)
      (WalletService.Storage
         (Some (WalletService.WalletStore.Make 1 [cold] None
                  (WalletService.WalletStoreSettings.Make 40000 true true None "en" None)))
         None None)
      1000000 Toy.tape [] in
  (exists w',
     WalletService.unlockWallet (W := Toy.platform) (K := Toy.keyring) "cold" [97] w
       = (Return true, w') /\
     WalletService.isUnlocked "cold"
       (WalletService.this (snd (WalletOps.clockReaches 1899999 w'))) = true /\
     WalletService.isUnlocked "cold"
       (WalletService.this (snd (WalletOps.clockReaches 1900000 w'))) = false) /\
  (exists w',
     WalletService.unlockWallet (W := Toy.platform) (K := Toy.keyring) "cold" [97] long
       = (Return true, w') /\
     WalletService.isUnlocked "cold"
       (WalletService.this (snd (WalletOps.clockReaches 1000000 w'))) = false).
Proof.
  intros cold w long. split.
  - destruct (unlock_then_autolock Toy.platform Toy.keyring w "cold" [97]
                [115; 101; 101; 100] cold [115; 101; 101; 100])
      as (w' & Hrun & _ & _ & Hclock).
    + vm_compute. reflexivity.
    + reflexivity.
    + reflexivity.
    + exact sealed_opens.
    + reflexivity.
    + exists w'. split; [exact Hrun|].
      split; [exact (proj2 (Hclock 1899999)) | exact (proj1 (Hclock 1900000))].
  - destruct (unlock_then_autolock Toy.platform Toy.keyring long "cold" [97]
                [115; 101; 101; 100] cold [115; 101; 101; 100])
      as (w' & Hrun & _ & _ & Hclock).
    + vm_compute. reflexivity.
    + reflexivity.
    + reflexivity.
    + exact sealed_opens.
    + reflexivity.
    + exists w'. split; [exact Hrun|]. exact (proj1 (Hclock 1000000)).
Defined.

Section StoreFacts.
Import WalletService WalletOps.
Context {W : Crypto.WebCrypto} {K : Keyring} {V : Vault}.

Lemma findWallet_eq (walletId : string) (store : WalletStore.t) :
  findWallet walletId store =
  List.find (fun w => String.eqb (EncryptedWallet.id w) walletId) (WalletStore.wallets store).
Proof. Transparent findWallet. reflexivity. Opaque findWallet. Qed.

Lemma walletStoreIn_saved (store : WalletStore.t) hotkeys lockState :
  walletStoreIn (Storage (Some store) hotkeys lockState) = store.
Proof. Transparent walletStoreIn. reflexivity. Opaque walletStoreIn. Qed.

Lemma walletStoreIn_eq (s : storage) :
  walletStoreIn s = default DEFAULT_WALLET_STORE (aetron_wallet_store s).
Proof. Transparent walletStoreIn. reflexivity. Opaque walletStoreIn. Qed.

Lemma hotkeyStoreIn_saved wallets (hotkeys : list EncryptedHotkey.t) lockState :
  hotkeyStoreIn (Storage wallets (Some hotkeys) lockState) = hotkeys.
Proof. Transparent hotkeyStoreIn. reflexivity. Opaque hotkeyStoreIn. Qed.

Lemma hotkeyStoreIn_eq (s : storage) :
  hotkeyStoreIn s = default [] (aetron_hotkey_store s).
Proof. Transparent hotkeyStoreIn. reflexivity. Opaque hotkeyStoreIn. Qed.

Lemma walletStoreIn_keep (s : storage) hotkeys lockState :
  walletStoreIn (Storage (aetron_wallet_store s) hotkeys lockState) = walletStoreIn s.
Proof. rewrite !walletStoreIn_eq. reflexivity. Qed.

Lemma hotkeyStoreIn_keep (s : storage) wallets lockState :
  hotkeyStoreIn (Storage wallets (aetron_hotkey_store s) lockState) = hotkeyStoreIn s.
Proof. rewrite !hotkeyStoreIn_eq. reflexivity. Qed.

Lemma find_some_first {A} (p : A -> bool) (l : list A) (x : A) :
  List.find p l = Some x -> p x = true /\ In x l.
Proof. intros H. apply find_some in H. tauto. Qed.

(** The first element satisfying [p] is replaced, the others stay. *)
Lemma updateFirst_map {A B} (p : A -> bool) (f : A -> A) (g : A -> B) (l : list A) :
  (forall x, g (f x) = g x) -> map g (updateFirst p f l) = map g l.
Proof.
  intros Hg. induction l as [|x rest IH]; [reflexivity|]. cbn.
  destruct (p x); cbn; [rewrite Hg; reflexivity | rewrite IH; reflexivity].
Qed.

Lemma updateFirst_none {A} (p : A -> bool) (f : A -> A) (l : list A) :
  List.find p l = None -> updateFirst p f l = l.
Proof.
  induction l as [|x rest IH]; [reflexivity|]. cbn.
  destruct (p x); [discriminate|]. intros H. rewrite IH by exact H. reflexivity.
Qed.

Lemma updateFirst_length {A} (p : A -> bool) (f : A -> A) (l : list A) :
  length (updateFirst p f l) = length l.
Proof.
  induction l as [|x rest IH]; [reflexivity|]. cbn.
  destruct (p x); cbn; [reflexivity | rewrite IH; reflexivity].
Qed.

(** Where the first element satisfying [p] sits, and what it becomes. *)
Lemma updateFirst_split {A} (p : A -> bool) (f : A -> A) (l : list A) (x : A) :
  List.find p l = Some x ->
  exists before after,
    l = before ++ x :: after /\
    Forall (fun y => p y = false) before /\
    updateFirst p f l = before ++ f x :: after.
Proof.
  induction l as [|y rest IH]; [discriminate|]. cbn.
  destruct (p y) eqn:Hy.
  - intros [= ->]. exists [], rest. auto.
  - intros H. destruct (IH H) as (before & after & -> & Hb & Hu).
    exists (y :: before), after. split; [reflexivity|].
    split; [constructor; assumption|]. rewrite Hu. reflexivity.
Qed.

End StoreFacts.

Ltac stores :=
  rewrite ?walletStoreIn_saved, ?hotkeyStoreIn_saved, ?walletStoreIn_keep, ?hotkeyStoreIn_keep.

(** X3: [setActiveWallet] changes nothing at all for an id that is not
    stored.  For a stored id it writes the id as the active one and leaves
    the wallets, the settings, the hotkeys and the service as they were, and
    [getActiveWallet] then returns the public fields of the first stored
    wallet with that id (nothing for the empty id, which reads as no active
    wallet). *)
Theorem setActiveWallet_selects (W : Crypto.WebCrypto) (K : WalletService.Keyring)
    (w : WalletService.world) (walletId : string) :
  let store := WalletService.walletStoreIn (WalletService.local w) in
  match WalletService.findWallet walletId store with
  | None => WalletOps.setActiveWallet walletId w = (Return tt, w)
  | Some wallet =>
      exists w',
        WalletOps.setActiveWallet walletId w = (Return tt, w') /\
        WalletService.this w' = WalletService.this w /\
        WalletService.walletStoreIn (WalletService.local w') =
          WalletService.WalletStore.Make (WalletService.WalletStore.version store)
            (WalletService.WalletStore.wallets store) (Some walletId)
            (WalletService.WalletStore.settings store) /\
        WalletService.hotkeyStoreIn (WalletService.local w')
          = WalletService.hotkeyStoreIn (WalletService.local w) /\
        fst (WalletOps.getActiveWallet w') =
          Return (if String.eqb walletId "" then None else Some (WalletOps.account wallet))
  end.
Proof.
  intros store. subst store.
  destruct (WalletService.findWallet walletId _) as [wallet|] eqn:Hf.
  - eexists. split.
    { unfold WalletOps.setActiveWallet. run. rewrite Hf. run. reflexivity. }
    cbn [WalletService.this WalletService.local].
    split; [destruct w as [[] ? ? ? ?]; reflexivity|].
    split; [apply walletStoreIn_saved|]. split; [rewrite !hotkeyStoreIn_eq; reflexivity|].
    unfold WalletOps.getActiveWallet. run. stores.
    cbn [WalletService.WalletStore.activeWalletId].
    destruct (String.eqb walletId ""); [reflexivity|].
    rewrite findWallet_eq in Hf |- *. cbn [WalletService.WalletStore.wallets].
    rewrite Hf. reflexivity.
  - unfold WalletOps.setActiveWallet. run. rewrite Hf. run. destruct w; reflexivity.
Qed.

(** X4: [renameWallet] changes nothing at all for an id that is not
    stored.  For a stored id it rewrites the first wallet with that id and
    no other: that wallet gets the new name and the time of the call as
    [updatedAt] and keeps its id, address, type, secret and creation time;
    the active id, the settings, the hotkeys and the service stay as they
    were. *)
Theorem renameWallet_first (W : Crypto.WebCrypto) (K : WalletService.Keyring)
    (w : WalletService.world) (walletId newName : string) :
  let store := WalletService.walletStoreIn (WalletService.local w) in
  match WalletService.findWallet walletId store with
  | None => WalletOps.renameWallet walletId newName w = (Return tt, w)
  | Some wallet =>
      exists w' before after wallet',
        WalletOps.renameWallet walletId newName w = (Return tt, w') /\
        WalletService.WalletStore.wallets store = before ++ wallet :: after /\
        Forall (fun x => WalletService.EncryptedWallet.id x <> walletId) before /\
        WalletService.walletStoreIn (WalletService.local w') =
          WalletService.WalletStore.Make (WalletService.WalletStore.version store)
            (before ++ wallet' :: after)
            (WalletService.WalletStore.activeWalletId store)
            (WalletService.WalletStore.settings store) /\
        WalletService.EncryptedWallet.name wallet' = newName /\
        WalletService.EncryptedWallet.updatedAt wallet' = WalletService.now w /\
        WalletService.EncryptedWallet.id wallet' = walletId /\
        WalletService.EncryptedWallet.address wallet'
          = WalletService.EncryptedWallet.address wallet /\
        WalletService.EncryptedWallet.type wallet' = WalletService.EncryptedWallet.type wallet /\
        WalletService.EncryptedWallet.encrypted wallet'
          = WalletService.EncryptedWallet.encrypted wallet /\
        WalletService.EncryptedWallet.createdAt wallet'
          = WalletService.EncryptedWallet.createdAt wallet /\
        WalletService.hotkeyStoreIn (WalletService.local w')
          = WalletService.hotkeyStoreIn (WalletService.local w) /\
        WalletService.this w' = WalletService.this w
  end.
Proof.
  intros store. subst store.
  destruct (WalletService.findWallet walletId _) as [wallet|] eqn:Hf.
  - pose proof Hf as Hfind. rewrite findWallet_eq in Hfind.
    destruct (updateFirst_split _ (fun x => WalletOps.renamed x newName (WalletService.now w))
                _ _ Hfind) as (before & after & Hl & Hb & Hu).
    apply find_some_first in Hfind. destruct Hfind as [Hid _].
    apply String.eqb_eq in Hid.
    eexists _, before, after, (WalletOps.renamed wallet newName (WalletService.now w)).
    split.
    { unfold WalletOps.renameWallet. run. rewrite Hf. run. reflexivity. }
    cbn [WalletService.this WalletService.local].
    split; [exact Hl|]. split.
    { eapply Forall_impl; [exact Hb|]. cbn. intros x Hx Heq.
      apply String.eqb_eq in Heq. congruence. }
    split; [rewrite walletStoreIn_saved, Hu; reflexivity|].
    split; [reflexivity|]. split; [reflexivity|]. split; [exact Hid|].
    split; [reflexivity|]. split; [reflexivity|]. split; [reflexivity|].
    split; [reflexivity|]. split; [rewrite !hotkeyStoreIn_eq; reflexivity|].
    destruct w as [[] ? ? ? ?]; reflexivity.
  - unfold WalletOps.renameWallet. run. rewrite Hf. run. destruct w; reflexivity.
Qed.

Section ExportFacts.
Import WalletService WalletOps.
Context {W : Crypto.WebCrypto} {K : Keyring} {V : Vault}.

Lemma exportMnemonic_world (w : world) (walletId : string) (password : jsstring) :
  exportMnemonic walletId password w =
  match findWallet walletId (walletStoreIn (local w)) with
  | None => (Throw (Error "Wallet not found"), w)
  | Some wallet =>
      if bool_decide (EncryptedWallet.type wallet = hd)
      then (Crypto.decrypt (EncryptedWallet.encrypted wallet) password,
            World (this w) (local w) (now w) (random w)
              (decryptions w ++ [(EncryptedWallet.encrypted wallet, password)]))
      else (Throw (Error "Only HD wallets have mnemonic"), w)
  end.
Proof.
  unfold exportMnemonic. run.
  destruct (findWallet walletId (walletStoreIn (local w))) as [wallet|];
    [|destruct w; reflexivity].
  destruct (bool_decide (EncryptedWallet.type wallet = hd)); [reflexivity|].
  destruct w; reflexivity.
Qed.

End ExportFacts.

(** X5: [exportMnemonic] changes neither the service nor the storage,
    whatever it returns: it records no failed attempt and is not held back
    by the failures on record.  With five failed unlock attempts on record
    inside the window, [unlockWallet] throws the rate-limit error even for
    the right password, while [exportMnemonic] with a wrong password throws
    the decryption error and leaves the record as it is, and with the right
    password returns the mnemonic. *)
Theorem exportMnemonic_not_rate_limited (W : Crypto.WebCrypto) (K : WalletService.Keyring)
    (w : WalletService.world) (walletId : string)
    (wallet : WalletService.EncryptedWallet.t) (a : WalletService.UnlockAttempt.t) :
  WalletService.findWallet walletId (WalletService.walletStoreIn (WalletService.local w))
    = Some wallet ->
  WalletService.EncryptedWallet.type wallet = WalletService.hd ->
  WalletService.unlockAttempts (WalletService.this w) !! walletId = Some a ->
  5 <= WalletService.UnlockAttempt.count a ->
  WalletService.now w - WalletService.UnlockAttempt.lastAttempt a <= 15 * 60 * 1000 ->
  forall password,
    fst (WalletService.unlockWallet walletId password w) = Throw WalletService.tooMany /\
    fst (WalletOps.exportMnemonic walletId password w)
      = Crypto.decrypt (WalletService.EncryptedWallet.encrypted wallet) password /\
    WalletService.this (snd (WalletOps.exportMnemonic walletId password w))
      = WalletService.this w /\
    WalletService.local (snd (WalletOps.exportMnemonic walletId password w))
      = WalletService.local w.
Proof.
  intros Hf Hty Ha Hc Ht password.
  rewrite (unlockWallet_limited w walletId password a Ha Hc Ht).
  rewrite exportMnemonic_world, Hf, Hty. rewrite bool_decide_true by reflexivity.
  cbn. auto.
Qed.

Lemma exportMnemonic_not_rate_limited_witness :
  let w :=
    WalletService.World
      (WalletService.Service (K := Toy.keyring) ∅ ∅
         {[ "cold"%string := WalletService.UnlockAttempt.Make 5 1000000 ]} None true)
      (WalletService.local
         (Toy.worldWith [Toy.wallet "cold" WalletService.hd [115; 101; 101; 100] [97]] [] 0))
      1000001 Toy.tape [] in
  fst (WalletService.unlockWallet (W := Toy.platform) "cold" [97] w)
    = Throw WalletService.tooMany /\
  fst (WalletOps.exportMnemonic (W := Toy.platform) "cold" [97] w)
    = Return [115; 101; 101; 100].
Proof.
  intros w.
  destruct (exportMnemonic_not_rate_limited Toy.platform Toy.keyring w "cold"
              (Toy.wallet "cold" WalletService.hd [115; 101; 101; 100] [97])
              (WalletService.UnlockAttempt.Make 5 1000000)
              eq_refl eq_refl eq_refl ltac:(cbn; lia) ltac:(cbn; lia) [97])
    as (Hu & He & _).
  split; [exact Hu|]. rewrite He. exact sealed_opens.
Defined.

(** X6: [clearAllWallets] leaves no wallet, no active id and no hotkey in
    storage, keeps the settings and the store version, stores the locked
    state, and empties the service: nothing is unlocked, no failed attempt
    is on record, no timer is armed.  Afterwards [getWallets] returns the
    empty list and [unlockWallet] throws "Wallet not found" for every id. *)
Theorem clearAllWallets_empties (W : Crypto.WebCrypto) (K : WalletService.Keyring)
    (w : WalletService.world) :
  let store := WalletService.walletStoreIn (WalletService.local w) in
  exists w',
    WalletOps.clearAllWallets w = (Return tt, w') /\
    WalletService.walletStoreIn (WalletService.local w') =
      WalletService.WalletStore.Make (WalletService.WalletStore.version store) [] None
        (WalletService.WalletStore.settings store) /\
    WalletService.hotkeyStoreIn (WalletService.local w') = [] /\
    fst (WalletOps.getLockState w') = Return (WalletService.LockState.Make true None) /\
    WalletService.this w' =
      WalletService.Service ∅ ∅ ∅ None (WalletService.isInitialized (WalletService.this w)) /\
    fst (WalletOps.getWallets w') = Return [] /\
    (forall coldkeyId, fst (WalletOps.getHotkeys coldkeyId w') = Return []) /\
    (forall walletId password,
       fst (WalletService.unlockWallet walletId password w')
         = Throw (Error "Wallet not found")).
Proof.
  intros store. subst store. eexists. split.
  { unfold WalletOps.clearAllWallets. run. reflexivity. }
  cbn [WalletService.this WalletService.local].
  split; [apply walletStoreIn_saved|]. split; [apply hotkeyStoreIn_saved|].
  split; [reflexivity|]. split; [reflexivity|].
  split.
  { unfold WalletOps.getWallets. run. rewrite ?walletStoreIn_saved. reflexivity. }
  split.
  { intros coldkeyId. unfold WalletOps.getHotkeys. run. rewrite ?hotkeyStoreIn_saved.
    reflexivity. }
  intros walletId password. unfold WalletService.unlockWallet. run.
  rewrite lookup_empty. cbn.
  destruct (15 * 60 * 1000 <? WalletService.now w - 0); run;
    rewrite ?walletStoreIn_saved, ?findWallet_eq; reflexivity.
Qed.

(** * Hotkeys *)

Section HotkeyFacts.
Import WalletService WalletOps.
Context {W : Crypto.WebCrypto} {K : Keyring} {V : Vault}.

Lemma deleteWallet_hotkeys (w : world) (walletId : string) :
  exists w',
    deleteWallet walletId w = (Return tt, w') /\
    hotkeyStoreIn (local w') =
      List.filter (fun h => negb (String.eqb (EncryptedHotkey.coldkeyId h) walletId))
        (hotkeyStoreIn (local w)).
Proof.
  eexists. split; [unfold deleteWallet; run; reflexivity|].
  cbn [local]. rewrite !hotkeyStoreIn_eq. reflexivity.
Qed.

Lemma getHotkeys_result (w : world) (coldkeyId : string) :
  getHotkeys coldkeyId w =
  (Return (map publicHotkey
             (List.filter (fun h => String.eqb (EncryptedHotkey.coldkeyId h) coldkeyId)
                (hotkeyStoreIn (local w)))), w).
Proof.
  unfold getHotkeys. run. rewrite ?hotkeyStoreIn_eq. destruct w; reflexivity.
Qed.

Lemma filter_filter_other (walletId other : string) (hotkeys : list EncryptedHotkey.t) :
  other <> walletId ->
  List.filter (fun h => String.eqb (EncryptedHotkey.coldkeyId h) other)
    (List.filter (fun h => negb (String.eqb (EncryptedHotkey.coldkeyId h) walletId)) hotkeys)
  = List.filter (fun h => String.eqb (EncryptedHotkey.coldkeyId h) other) hotkeys.
Proof.
  intros Hne. induction hotkeys as [|h rest IH]; [reflexivity|]. cbn.
  destruct (String.eqb_spec (EncryptedHotkey.coldkeyId h) walletId) as [Heq|Hneq]; cbn.
  - destruct (String.eqb_spec (EncryptedHotkey.coldkeyId h) other) as [Heq'|_];
      [congruence | exact IH].
  - destruct (String.eqb (EncryptedHotkey.coldkeyId h) other); rewrite IH; reflexivity.
Qed.

Lemma filter_filter_same (walletId : string) (hotkeys : list EncryptedHotkey.t) :
  List.filter (fun h => String.eqb (EncryptedHotkey.coldkeyId h) walletId)
    (List.filter (fun h => negb (String.eqb (EncryptedHotkey.coldkeyId h) walletId)) hotkeys)
  = [].
Proof.
  induction hotkeys as [|h rest IH]; [reflexivity|]. cbn.
  destruct (String.eqb (EncryptedHotkey.coldkeyId h) walletId) eqn:E; cbn;
    [exact IH | rewrite E; exact IH].
Qed.

End HotkeyFacts.

(** X7: [getHotkeys] lists the public fields of exactly the stored hotkeys
    of the coldkey, in their stored order, and changes nothing.  After
    [deleteWallet] of a coldkey the list of its hotkeys is empty, and the
    list of every other coldkey is what it was before. *)
Theorem getHotkeys_after_deleteWallet (W : Crypto.WebCrypto) (K : WalletService.Keyring)
    (w : WalletService.world) (walletId : string) :
  (forall coldkeyId,
     WalletOps.getHotkeys coldkeyId w =
     (Return (map WalletOps.publicHotkey
                (List.filter
                   (fun h => String.eqb (WalletService.EncryptedHotkey.coldkeyId h) coldkeyId)
                   (WalletService.hotkeyStoreIn (WalletService.local w)))), w)) /\
  (forall coldkeyId listed,
     fst (WalletOps.getHotkeys coldkeyId w) = Return listed ->
     Forall (fun h => WalletOps.Hotkey.coldkeyId h = coldkeyId) listed) /\
  let after := snd (WalletService.deleteWallet walletId w) in
  fst (WalletOps.getHotkeys walletId after) = Return [] /\
  forall other, other <> walletId ->
    fst (WalletOps.getHotkeys other after) = fst (WalletOps.getHotkeys other w).
Proof.
  split; [intros; apply getHotkeys_result|].
  split.
  { intros coldkeyId listed. rewrite getHotkeys_result. cbn. intros [= <-].
    apply List.Forall_forall. intros h Hin. apply in_map_iff in Hin.
    destruct Hin as (eh & <- & Hin). apply filter_In in Hin. destruct Hin as [_ Heq].
    apply String.eqb_eq in Heq. exact Heq. }
  intros after. subst after.
  destruct (deleteWallet_hotkeys w walletId) as (w' & Hrun & Hh). rewrite Hrun. cbn [snd].
  split.
  - rewrite getHotkeys_result. cbn [fst]. rewrite Hh, filter_filter_same. reflexivity.
  - intros other Hne. rewrite !getHotkeys_result. cbn [fst].
    rewrite Hh, filter_filter_other by exact Hne. reflexivity.
Qed.

Section HotkeyOps.
Import WalletService WalletOps.
Context {W : Crypto.WebCrypto} {K : Keyring} {V : Vault}.

Lemma findHotkey_filter_none (hotkeyId : string) (hotkeys : list EncryptedHotkey.t) :
  findHotkey hotkeyId
    (List.filter (fun h => negb (String.eqb (EncryptedHotkey.id h) hotkeyId)) hotkeys) = None.
Proof.
  unfold findHotkey. induction hotkeys as [|h rest IH]; [reflexivity|]. cbn.
  destruct (String.eqb (EncryptedHotkey.id h) hotkeyId) eqn:E; cbn;
    [exact IH | rewrite E; exact IH].
Qed.

Lemma deleteHotkey_world (w : world) (hotkeyId : string) :
  deleteHotkey hotkeyId w =
  (Return tt,
   World (Service (unlockedWallets (this w)) (delete hotkeyId (unlockedHotkeys (this w)))
            (unlockAttempts (this w)) (lockTimeout (this w)) (isInitialized (this w)))
     (Storage (aetron_wallet_store (local w))
        (Some (List.filter (fun h => negb (String.eqb (EncryptedHotkey.id h) hotkeyId))
                 (hotkeyStoreIn (local w))))
        (aetron_lock_state (local w)))
     (now w) (random w) (decryptions w)).
Proof. unfold deleteHotkey. runx. rewrite ?hotkeyStoreIn_eq. reflexivity. Qed.

Lemma unlockHotkey_missing (w : world) (hotkeyId : string) (password : jsstring) :
  findHotkey hotkeyId (hotkeyStoreIn (local w)) = None ->
  unlockHotkey hotkeyId password w = (Throw (Error "Hotkey not found"), w).
Proof.
  intros Hf. unfold unlockHotkey. runx. rewrite ?hotkeyStoreIn_eq in *. rewrite Hf.
  destruct w; reflexivity.
Qed.

Lemma exportHotkeyMnemonic_missing (w : world) (hotkeyId : string) (password : jsstring) :
  findHotkey hotkeyId (hotkeyStoreIn (local w)) = None ->
  exportHotkeyMnemonic hotkeyId password w = (Throw (Error "Hotkey not found"), w).
Proof.
  intros Hf. unfold exportHotkeyMnemonic. runx. rewrite ?hotkeyStoreIn_eq in *. rewrite Hf.
  destruct w; reflexivity.
Qed.

Lemma unlockHotkey_world (w : world) (hotkeyId : string) (password : jsstring)
    (hotkey : EncryptedHotkey.t) :
  findHotkey hotkeyId (hotkeyStoreIn (local w)) = Some hotkey ->
  unlockHotkey hotkeyId password w =
  let attempted := decryptions w ++ [(EncryptedHotkey.encrypted hotkey, password)] in
  match bindC (Crypto.decrypt (EncryptedHotkey.encrypted hotkey) password) addFromUri with
  | Return keypair =>
      (Return true,
       World (Service (unlockedWallets (this w)) (<[hotkeyId := keypair]> (unlockedHotkeys (this w)))
                (unlockAttempts (this w)) (lockTimeout (this w)) (isInitialized (this w)))
         (local w) (now w) (random w) attempted)
  | Throw _ => (Return false, World (this w) (local w) (now w) (random w) attempted)
  end.
Proof.
  intros Hf. unfold unlockHotkey. runx. rewrite ?hotkeyStoreIn_eq in *. rewrite Hf.
  runx. destruct (Crypto.decrypt (EncryptedHotkey.encrypted hotkey) password) as [m|e];
    cbn; [|reflexivity].
  destruct (addFromUri m); reflexivity.
Qed.

End HotkeyOps.

(** X8: [deleteHotkey] removes every stored hotkey with the id and the
    cached pair of the id; the other hotkeys stay, in their order, and the
    wallets, the unlocked wallets and the other cached hotkey pairs are not
    touched.  Afterwards [unlockHotkey] and [exportHotkeyMnemonic] throw
    "Hotkey not found" for that id. *)
Theorem deleteHotkey_removes (W : Crypto.WebCrypto) (K : WalletService.Keyring)
    (w : WalletService.world) (hotkeyId : string) :
  exists w',
    WalletOps.deleteHotkey hotkeyId w = (Return tt, w') /\
    WalletService.hotkeyStoreIn (WalletService.local w') =
      List.filter (fun h => negb (String.eqb (WalletService.EncryptedHotkey.id h) hotkeyId))
        (WalletService.hotkeyStoreIn (WalletService.local w)) /\
    (forall h, In h (WalletService.hotkeyStoreIn (WalletService.local w')) ->
       WalletService.EncryptedHotkey.id h <> hotkeyId) /\
    WalletOps.getHotkeyPair hotkeyId (WalletService.this w') = None /\
    (forall other, other <> hotkeyId ->
       WalletOps.getHotkeyPair other (WalletService.this w')
         = WalletOps.getHotkeyPair other (WalletService.this w)) /\
    WalletService.unlockedWallets (WalletService.this w')
      = WalletService.unlockedWallets (WalletService.this w) /\
    WalletService.walletStoreIn (WalletService.local w')
      = WalletService.walletStoreIn (WalletService.local w) /\
    (forall password,
       fst (WalletOps.unlockHotkey hotkeyId password w') = Throw (Error "Hotkey not found") /\
       fst (WalletOps.exportHotkeyMnemonic hotkeyId password w')
         = Throw (Error "Hotkey not found")).
Proof.
  eexists. split; [apply deleteHotkey_world|].
  cbn [WalletService.local WalletService.this].
  assert (WalletService.hotkeyStoreIn
            (WalletService.Storage (WalletService.aetron_wallet_store (WalletService.local w))
               (Some (List.filter
                        (fun h => negb (String.eqb (WalletService.EncryptedHotkey.id h) hotkeyId))
                        (WalletService.hotkeyStoreIn (WalletService.local w))))
               (WalletService.aetron_lock_state (WalletService.local w)))
          = List.filter
              (fun h => negb (String.eqb (WalletService.EncryptedHotkey.id h) hotkeyId))
              (WalletService.hotkeyStoreIn (WalletService.local w))) as Hstore
    by apply hotkeyStoreIn_saved.
  split; [exact Hstore|].
  split.
  { intros h. rewrite Hstore. intros Hin. apply filter_In in Hin. destruct Hin as [_ Hne].
    intros Heq. apply String.eqb_eq in Heq. rewrite Heq in Hne. discriminate. }
  split; [apply lookup_delete_eq|].
  split; [intros other Hne; apply lookup_delete_ne; congruence|].
  split; [reflexivity|]. split; [rewrite !walletStoreIn_eq; reflexivity|].
  intros password. split.
  - rewrite unlockHotkey_missing; [reflexivity|].
    cbn [WalletService.local]. rewrite Hstore. apply findHotkey_filter_none.
  - rewrite exportHotkeyMnemonic_missing; [reflexivity|].
    cbn [WalletService.local]. rewrite Hstore. apply findHotkey_filter_none.
Qed.

(** X9: [unlockHotkey] on a stored hotkey returns [true] and caches the
    pair when the password opens the secret and the keyring accepts the
    mnemonic; in every other case it returns [false] and changes neither the
    service nor the storage.  No failure is counted: the record of unlock
    attempts is never changed and any number of wrong passwords leaves the
    next right one working. *)
Theorem unlockHotkey_outcomes (W : Crypto.WebCrypto) (K : WalletService.Keyring)
    (w : WalletService.world) (hotkeyId : string) (password : jsstring)
    (hotkey : WalletService.EncryptedHotkey.t) :
  WalletOps.findHotkey hotkeyId (WalletService.hotkeyStoreIn (WalletService.local w))
    = Some hotkey ->
  let secret := WalletService.EncryptedHotkey.encrypted hotkey in
  (forall wrong,
     Forall (fun pw => exists e, Crypto.decrypt secret pw = Throw e) wrong ->
     let w1 := fold_left (fun w pw => snd (WalletOps.unlockHotkey hotkeyId pw w)) wrong w in
     WalletService.this w1 = WalletService.this w /\
     WalletService.local w1 = WalletService.local w /\
     forall mnemonic pair,
       Crypto.decrypt secret password = Return mnemonic ->
       WalletService.addFromUri mnemonic = Return pair ->
       exists w2,
         WalletOps.unlockHotkey hotkeyId password w1 = (Return true, w2) /\
         WalletOps.getHotkeyPair hotkeyId (WalletService.this w2) = Some pair /\
         WalletService.unlockedWallets (WalletService.this w2)
           = WalletService.unlockedWallets (WalletService.this w) /\
         WalletService.unlockAttempts (WalletService.this w2)
           = WalletService.unlockAttempts (WalletService.this w) /\
         WalletService.local w2 = WalletService.local w) /\
  (forall e, bindC (Crypto.decrypt secret password) WalletService.addFromUri = Throw e ->
     exists w',
       WalletOps.unlockHotkey hotkeyId password w = (Return false, w') /\
       WalletService.this w' = WalletService.this w /\
       WalletService.local w' = WalletService.local w).
Proof.
  intros Hf secret. split.
  - intros wrong. revert w Hf.
    induction wrong as [|pw rest IH]; intros w Hf Hall w1; subst w1.
    + cbn [fold_left]. split; [reflexivity|]. split; [reflexivity|].
      intros mnemonic pair Hd Hp.
      eexists. split.
      { rewrite (unlockHotkey_world w hotkeyId password hotkey Hf).
        fold secret. rewrite Hd. cbn [bindC]. rewrite Hp. reflexivity. }
      cbn. split; [apply lookup_insert_eq|]. auto.
    + apply Forall_cons in Hall. destruct Hall as [[e He] Hall].
      cbn [fold_left].
      assert (WalletOps.unlockHotkey hotkeyId pw w =
              (Return false,
               WalletService.World (WalletService.this w) (WalletService.local w)
                 (WalletService.now w) (WalletService.random w)
                 (WalletService.decryptions w ++ [(secret, pw)]))) as Hstep.
      { rewrite (unlockHotkey_world w hotkeyId pw hotkey Hf). fold secret. rewrite He.
        reflexivity. }
      rewrite Hstep. cbn [snd].
      match goal with |- context [fold_left _ rest ?w0] =>
        destruct (IH w0 Hf Hall) as (Ht & Hl & Hnext) end.
      split; [exact Ht|]. split; [exact Hl|]. exact Hnext.
  - intros e He. eexists. split.
    { rewrite (unlockHotkey_world w hotkeyId password hotkey Hf). fold secret. rewrite He.
      reflexivity. }
    split; reflexivity.
Qed.

Lemma unlockHotkey_outcomes_witness :
  let hotkey := Toy.hotkey "hot" "cold" [111; 110; 101] [97] in
  let w := Toy.worldWith [] [hotkey] 0 in
  let w1 := fold_left (fun w pw => snd (WalletOps.unlockHotkey (W := Toy.platform) "hot" pw w))
              [[98]; [99]; [100]; [101]; [102]; [103]] w in
  exists w2,
    WalletOps.unlockHotkey (W := Toy.platform) "hot" [97] w1 = (Return true, w2) /\
    WalletOps.getHotkeyPair "hot" (WalletService.this w2) = Some [111; 110; 101].
Proof.
  intros hotkey w w1.
  destruct (unlockHotkey_outcomes Toy.platform Toy.keyring w "hot" [97] hotkey eq_refl)
    as [H _].
  destruct (H [[98]; [99]; [100]; [101]; [102]; [103]]) as (_ & _ & Hnext).
  - repeat (constructor; [exists OperationError; vm_compute; reflexivity|]). constructor.
  - destruct (Hnext [111; 110; 101] [111; 110; 101]) as (w2 & Hrun & Hp & _).
    + vm_compute. reflexivity.
    + reflexivity.
    + exists w2. split; [exact Hrun | exact Hp].
Defined.

Section BackupFacts.
Import WalletService WalletOps.
Context {W : Crypto.WebCrypto} {K : Keyring} {V : Vault}.

Lemma markHotkeyBackedUp_world (w : world) (hotkeyId : string) :
  markHotkeyBackedUp hotkeyId w =
  match findHotkey hotkeyId (hotkeyStoreIn (local w)) with
  | Some _ =>
      (Return tt,
       World (this w)
         (Storage (aetron_wallet_store (local w))
            (Some (updateFirst (fun h => String.eqb (EncryptedHotkey.id h) hotkeyId)
                     backedUpNow (hotkeyStoreIn (local w))))
            (aetron_lock_state (local w)))
         (now w) (random w) (decryptions w))
  | None => (Return tt, w)
  end.
Proof.
  unfold markHotkeyBackedUp. runx. rewrite ?hotkeyStoreIn_eq.
  destruct (findHotkey hotkeyId (default [] (aetron_hotkey_store (local w))));
    [reflexivity | destruct w; reflexivity].
Qed.

Lemma updateFirst_twice {A} (p : A -> bool) (f : A -> A) (l : list A) :
  (forall x, p (f x) = p x) -> (forall x, f (f x) = f x) ->
  updateFirst p f (updateFirst p f l) = updateFirst p f l.
Proof.
  intros Hp Hf. induction l as [|x rest IH]; [reflexivity|]. cbn.
  destruct (p x) eqn:E; cbn.
  - rewrite Hp, E, Hf. reflexivity.
  - rewrite E, IH. reflexivity.
Qed.

Lemma find_updateFirst {A} (p : A -> bool) (f : A -> A) (l : list A) :
  (forall x, p (f x) = p x) ->
  List.find p (updateFirst p f l) = f <$> List.find p l.
Proof.
  intros Hp. induction l as [|x rest IH]; [reflexivity|]. cbn.
  destruct (p x) eqn:E; cbn.
  - rewrite Hp, E. reflexivity.
  - rewrite E, IH. reflexivity.
Qed.

End BackupFacts.

(** X10: [markHotkeyBackedUp] changes nothing at all for an id that is not
    stored.  For a stored id it sets [backedUp] on the first hotkey with
    that id and changes no other field and no other hotkey; marking again
    changes nothing more. *)
Theorem markHotkeyBackedUp_once (W : Crypto.WebCrypto) (K : WalletService.Keyring)
    (w : WalletService.world) (hotkeyId : string) :
  let hotkeys := WalletService.hotkeyStoreIn (WalletService.local w) in
  match WalletOps.findHotkey hotkeyId hotkeys with
  | None => WalletOps.markHotkeyBackedUp hotkeyId w = (Return tt, w)
  | Some hotkey =>
      exists w' before after,
        WalletOps.markHotkeyBackedUp hotkeyId w = (Return tt, w') /\
        hotkeys = before ++ hotkey :: after /\
        Forall (fun h => WalletService.EncryptedHotkey.id h <> hotkeyId) before /\
        WalletService.hotkeyStoreIn (WalletService.local w')
          = before ++ WalletOps.backedUpNow hotkey :: after /\
        WalletService.EncryptedHotkey.backedUp (WalletOps.backedUpNow hotkey) = true /\
        WalletService.EncryptedHotkey.encrypted (WalletOps.backedUpNow hotkey)
          = WalletService.EncryptedHotkey.encrypted hotkey /\
        WalletOps.publicHotkey (WalletOps.backedUpNow hotkey) =
          WalletOps.Hotkey.Make (WalletService.EncryptedHotkey.id hotkey)
            (WalletService.EncryptedHotkey.name hotkey)
            (WalletService.EncryptedHotkey.address hotkey)
            (WalletService.EncryptedHotkey.coldkeyId hotkey)
            (WalletService.EncryptedHotkey.registeredNeuronets hotkey)
            (WalletService.EncryptedHotkey.createdAt hotkey) true /\
        WalletService.this w' = WalletService.this w /\
        WalletService.walletStoreIn (WalletService.local w')
          = WalletService.walletStoreIn (WalletService.local w) /\
        WalletOps.markHotkeyBackedUp hotkeyId w' = (Return tt, w')
  end.
Proof.
  intros hotkeys. subst hotkeys. rewrite markHotkeyBackedUp_world.
  destruct (WalletOps.findHotkey hotkeyId _) as [hotkey|] eqn:Hf; [|reflexivity].
  destruct (updateFirst_split _ WalletOps.backedUpNow _ _ Hf)
    as (before & after & Hl & Hb & Hu).
  eexists _, before, after. split; [reflexivity|].
  cbn [WalletService.local WalletService.this].
  split; [exact Hl|]. split.
  { eapply Forall_impl; [exact Hb|]. cbn. intros x Hx Heq.
    apply String.eqb_eq in Heq. congruence. }
  split; [rewrite hotkeyStoreIn_saved; exact Hu|].
  split; [reflexivity|]. split; [reflexivity|]. split; [reflexivity|].
  split; [reflexivity|]. split; [rewrite !walletStoreIn_eq; reflexivity|].
  rewrite markHotkeyBackedUp_world. cbn [WalletService.local].
  rewrite hotkeyStoreIn_saved. unfold WalletOps.findHotkey in *.
  rewrite find_updateFirst by reflexivity. rewrite Hf. cbn [fmap option_fmap option_map].
  rewrite updateFirst_twice by reflexivity. reflexivity.
Qed.

Section HotkeyCreation.
Import WalletService WalletOps.
Context {W : Crypto.WebCrypto} {K : Keyring} {V : Vault} `{!Crypto.WebCryptoSpec W}.

Lemma addHotkey_spec (w : world) (name : string) (mnemonic : jsstring) (coldkeyId : string)
    (password : jsstring) (backedUp : bool) (pair : KeyringPair) :
  addFromUri mnemonic = Return pair ->
  exists w' created,
    addHotkey name mnemonic coldkeyId password backedUp w = (Return created, w') /\
    hotkeyAdded w w' name mnemonic coldkeyId password backedUp pair created.
Proof.
  intros Hp. unfold addHotkey. runx. rewrite Hp. runx.
  destruct (randomUUID (random w)) as [id tape1] eqn:Hid. runx.
  match goal with |- context [encryptM ?d ?n ?w0] =>
    destruct (encryptM_total d n w0) as (pkg & He & _ & Hdec); rewrite He end.
  runx. eexists _, _. split; [reflexivity|].
  eexists. cbn [local this].
  split; [stores; reflexivity|].
  cbn. split; [rewrite Hid; reflexivity|]. split; [reflexivity|]. split; [reflexivity|].
  split; [reflexivity|]. split; [reflexivity|]. split; [reflexivity|].
  split; [exact Hdec|]. split; [reflexivity|].
  split; [apply lookup_insert_eq|]. split; [reflexivity|].
  stores. reflexivity.
Qed.

Lemma verifyColdkey_world (coldkey : EncryptedWallet.t) (password : jsstring) (w : world) :
  verifyColdkey coldkey password w =
  (match Crypto.decrypt (EncryptedWallet.encrypted coldkey) password with
   | Return _ => Return tt
   | Throw _ => Throw (Error "Invalid password")
   end,
   World (this w) (local w) (now w) (random w)
     (decryptions w ++ [(EncryptedWallet.encrypted coldkey, password)])).
Proof.
  unfold verifyColdkey. runx.
  destruct (Crypto.decrypt (EncryptedWallet.encrypted coldkey) password); reflexivity.
Qed.

End HotkeyCreation.

Opaque WalletOps.addHotkey WalletOps.verifyColdkey.

(** X11: [createHotkey] and [importHotkey] are guarded by the coldkey's
    password, and [importHotkey] checks the phrase before anything else:
    for a phrase the validator rejects it throws "Invalid mnemonic phrase"
    whatever the password, attempts no decryption and stores nothing.
    Otherwise, when the password does not open the coldkey's secret, they
    throw "Invalid password" and store nothing, cache nothing and draw
    nothing from the entropy source.  When it does, and the keyring accepts
    the mnemonic, one hotkey is appended to the hotkey store: it carries the
    given name and coldkey id, its secret opens under the same password to
    the mnemonic as the text decoder reads it back, its pair is cached, and
    the mnemonic is returned to the caller; a created hotkey is marked not
    backed up, an imported one backed up. *)
Theorem hotkey_creation_guarded (W : Crypto.WebCrypto) (K : WalletService.Keyring)
    (V : WalletOps.Vault) (HW : Crypto.WebCryptoSpec W) (w : WalletService.world)
    (name coldkeyId : string) (password imported : jsstring) (wordCount : option nat)
    (coldkey : WalletService.EncryptedWallet.t) :
  WalletService.findWallet coldkeyId (WalletService.walletStoreIn (WalletService.local w))
    = Some coldkey ->
  let w0 := snd (WalletOps.verifyColdkey coldkey password (WalletService.initialized w)) in
  let rejected :=
    WalletOps.importHotkey name imported coldkeyId password w
      = (Throw (Error "Invalid mnemonic phrase"), WalletService.initialized w) in
  match Crypto.decrypt (WalletService.EncryptedWallet.encrypted coldkey) password with
  | Throw _ =>
      WalletOps.createHotkey name coldkeyId password wordCount w
        = (Throw (Error "Invalid password"), w0) /\
      (if WalletOps.mnemonicValidate imported then
         WalletOps.importHotkey name imported coldkeyId password w
           = (Throw (Error "Invalid password"), w0)
       else rejected) /\
      WalletService.local w0 = WalletService.local w /\
      WalletService.random w0 = WalletService.random w /\
      WalletService.unlockedHotkeys (WalletService.this w0)
        = WalletService.unlockedHotkeys (WalletService.this w)
  | Return _ =>
      (let generated :=
         WalletOps.mnemonicGenerate (default 12%nat wordCount) (WalletService.random w) in
       forall pair, WalletService.addFromUri (fst generated) = Return pair ->
         exists w' created,
           WalletOps.createHotkey name coldkeyId password wordCount w = (Return created, w') /\
           WalletOps.hotkeyAdded
             (WalletService.World (WalletService.this w0) (WalletService.local w0)
                (WalletService.now w0) (snd generated) (WalletService.decryptions w0))
             w' name (fst generated) coldkeyId password false pair created) /\
      (if WalletOps.mnemonicValidate imported then
         forall pair, WalletService.addFromUri imported = Return pair ->
           exists w' created,
             WalletOps.importHotkey name imported coldkeyId password w
               = (Return created, w') /\
             WalletOps.hotkeyAdded w0 w' name imported coldkeyId password true pair created
       else rejected)
  end.
Proof.
  intros Hf w0 rejected. subst w0 rejected. rewrite verifyColdkey_world. cbn [snd].
  rewrite findWallet_eq in Hf.
  assert (Hrejected : WalletOps.mnemonicValidate imported = false ->
            WalletOps.importHotkey name imported coldkeyId password w
              = (Throw (Error "Invalid mnemonic phrase"), WalletService.initialized w)).
  { intros Hv. unfold WalletOps.importHotkey. run. rewrite Hv. reflexivity. }
  destruct (Crypto.decrypt (WalletService.EncryptedWallet.encrypted coldkey) password)
    as [secret|e] eqn:Hd.
  - split.
    + cbv zeta. intros pair Hp.
      destruct (WalletOps.mnemonicGenerate (default 12%nat wordCount) (WalletService.random w))
        as [mnemonic tape1] eqn:Hgen. cbn [fst snd] in *.
      unfold WalletOps.createHotkey. run. rewrite ?findWallet_eq, Hf.
      rewrite verifyColdkey_world, Hd. runx. rewrite Hgen.
      match goal with |- context [WalletOps.addHotkey _ _ _ _ _ ?w1] =>
        destruct (addHotkey_spec w1 name mnemonic coldkeyId password false pair Hp)
          as (w' & created & Hrun & Hadded) end.
      exists w', created. split; [exact Hrun | exact Hadded].
    + destruct (WalletOps.mnemonicValidate imported) eqn:Hvalid; [|exact (Hrejected eq_refl)].
      intros pair Hp.
      unfold WalletOps.importHotkey. run. rewrite Hvalid. cbn [negb]. run.
      rewrite ?findWallet_eq, Hf.
      rewrite verifyColdkey_world, Hd. runx.
      match goal with |- context [WalletOps.addHotkey _ _ _ _ _ ?w1] =>
        destruct (addHotkey_spec w1 name imported coldkeyId password true pair Hp)
          as (w' & created & Hrun & Hadded) end.
      exists w', created. split; [exact Hrun | exact Hadded].
  - split.
    { unfold WalletOps.createHotkey. run. rewrite ?findWallet_eq, Hf.
      rewrite verifyColdkey_world, Hd. reflexivity. }
    split.
    { destruct (WalletOps.mnemonicValidate imported) eqn:Hvalid; [|exact (Hrejected eq_refl)].
      unfold WalletOps.importHotkey. run. rewrite Hvalid. cbn [negb]. run.
      rewrite ?findWallet_eq, Hf.
      rewrite verifyColdkey_world, Hd. reflexivity. }
    auto.
Qed.

Lemma hotkey_creation_guarded_witness :
  let cold := Toy.wallet "cold" WalletService.hd [115; 101; 101; 100] [97] in
  let w := Toy.worldWith [cold] [] 0 in
  fst (WalletOps.createHotkey (W := Toy.platform) (V := ToyOps.vault) "miner" "cold" [98] None w)
    = Throw (Error "Invalid password") /\
  fst (WalletOps.importHotkey (W := Toy.platform) (V := ToyOps.vault) "miner" [104; 111; 116]
         "cold" [98] w)
    = Throw (Error "Invalid password") /\
  fst (WalletOps.importHotkey (W := Toy.platform) (V := ToyOps.vault) "miner" [72; 79; 84]
         "cold" [97] w)
    = Throw (Error "Invalid mnemonic phrase").
Proof.
  intros cold w.
  pose proof (hotkey_creation_guarded Toy.platform Toy.keyring ToyOps.vault toy_spec w
                "miner" "cold" [98] [104; 111; 116] None cold eq_refl) as H.
  pose proof (hotkey_creation_guarded Toy.platform Toy.keyring ToyOps.vault toy_spec w
                "miner" "cold" [97] [72; 79; 84] None cold eq_refl) as H'.
  assert (Crypto.decrypt (W := Toy.platform) (WalletService.EncryptedWallet.encrypted cold)
            [98] = Throw OperationError) as Hd by (vm_compute; reflexivity).
  assert (Crypto.decrypt (W := Toy.platform) (WalletService.EncryptedWallet.encrypted cold)
            [97] = Return [115; 101; 101; 100]) as Hd' by (vm_compute; reflexivity).
  cbv zeta in H, H'. rewrite Hd in H. rewrite Hd' in H'.
  destruct H as (Hc & Hi & _). destruct H' as (_ & Hi').
  change (WalletOps.mnemonicValidate (Vault := ToyOps.vault) [104; 111; 116]) with true in Hi.
  change (WalletOps.mnemonicValidate (Vault := ToyOps.vault) [72; 79; 84]) with false in Hi'.
  rewrite Hc, Hi, Hi'. repeat split; reflexivity.
Defined.

Transparent WalletOps.addHotkey WalletOps.verifyColdkey.




(** * What the service keeps true of the wallet store *)

Opaque WalletService.findWallet Crypto.decrypt Crypto.encrypt WalletService.pairOf
  WalletService.walletStoreIn WalletService.hotkeyStoreIn.

Section StoreSteps.
Import WalletService WalletOps.
Context {W : Crypto.WebCrypto} {K : Keyring} {V : Vault}.

Lemma keeps_ret {A} (a : A) : keeps (ret a).
Proof. intros w. reflexivity. Qed.

Lemma keeps_throw {A} (e : exn) : keeps (throw (A := A) e).
Proof. intros w. reflexivity. Qed.

Lemma keeps_liftC {A} (c : completion A) : keeps (liftC c).
Proof. intros w. reflexivity. Qed.

Lemma keeps_drawM {A} (f : Crypto.entropy -> A * Crypto.entropy) : keeps (drawM f).
Proof. intros w. unfold drawM. destruct (f (random w)). reflexivity. Qed.

Lemma keeps_getThis : keeps getThis.
Proof. intros w. reflexivity. Qed.

Lemma keeps_setThis (f : service -> service) : keeps (setThis f).
Proof. intros w. reflexivity. Qed.

Lemma keeps_getLocal : keeps getLocal.
Proof. intros w. reflexivity. Qed.

Lemma keeps_Date_now : keeps Date_now.
Proof. intros w. reflexivity. Qed.

Lemma keeps_decryptM (p : Crypto.package) (password : jsstring) : keeps (decryptM p password).
Proof. intros w. reflexivity. Qed.

Lemma keeps_encryptM (data password : jsstring) : keeps (encryptM data password).
Proof.
  intros w. unfold encryptM. destruct (Crypto.encrypt data password (random w)). reflexivity.
Qed.

Lemma keeps_bind {A B} (m : M A) (k : A -> M B) :
  keeps m -> (forall a, keeps (k a)) -> keeps (bind m k).
Proof.
  intros Hm Hk w. unfold bind. specialize (Hm w).
  destruct (m w) as [[a|e] w1]; cbn [snd] in *; [rewrite Hk; exact Hm | exact Hm].
Qed.

Lemma keeps_tryCatchM {A} (body : M A) (handler : exn -> M A) :
  keeps body -> (forall e, keeps (handler e)) -> keeps (tryCatchM body handler).
Proof.
  intros Hm Hk w. unfold tryCatchM. specialize (Hm w).
  destruct (body w) as [[a|e] w1]; cbn [snd] in *; [exact Hm | rewrite Hk; exact Hm].
Qed.

Lemma keeps_getWalletStore : keeps getWalletStore.
Proof. intros w. reflexivity. Qed.

Lemma keeps_getHotkeyStore : keeps getHotkeyStore.
Proof. intros w. reflexivity. Qed.

Lemma keeps_saveHotkeyStore (hotkeys : list EncryptedHotkey.t) : keeps (saveHotkeyStore hotkeys).
Proof. intros w. unfold saveHotkeyStore, setLocal. cbn [snd local]. apply walletStoreIn_keep. Qed.

Lemma keeps_saveLockState (state : LockState.t) : keeps (saveLockState state).
Proof. intros w. unfold saveLockState, setLocal. cbn [snd local]. apply walletStoreIn_keep. Qed.

Lemma keeps_initialize : keeps initialize.
Proof. apply keeps_setThis. Qed.

Lemma keeps_resetLockTimeout (minutes : Z) : keeps (resetLockTimeout minutes).
Proof. apply keeps_bind; [apply keeps_Date_now | intros; apply keeps_setThis]. Qed.

Lemma keeps_setUnlockAttempts f : keeps (setUnlockAttempts f).
Proof. apply keeps_setThis. Qed.

Lemma keeps_setUnlockedWallets f : keeps (setUnlockedWallets f).
Proof. apply keeps_setThis. Qed.

Lemma keeps_setUnlockedHotkeys f : keeps (setUnlockedHotkeys f).
Proof. apply keeps_setThis. Qed.

Lemma keeps_pairOf (wallet : EncryptedWallet.t) (decrypted password : jsstring) :
  keeps (pairOf wallet decrypted password).
Proof. intros w. rewrite pairOf_result. reflexivity. Qed.

End StoreSteps.

Create HintDb keeps.
#[export] Hint Resolve keeps_ret keeps_throw keeps_liftC keeps_drawM keeps_getThis
  keeps_setThis keeps_getLocal keeps_Date_now keeps_decryptM keeps_encryptM
  keeps_getWalletStore keeps_getHotkeyStore keeps_saveHotkeyStore keeps_saveLockState
  keeps_initialize keeps_resetLockTimeout keeps_setUnlockAttempts keeps_setUnlockedWallets
  keeps_setUnlockedHotkeys keeps_pairOf : keeps.

(** Goes through binds, handlers and case distinctions down to the
    primitive steps. *)
Ltac keeping :=
  repeat first
    [ apply keeps_bind; [|intros ?]
    | apply keeps_tryCatchM; [|intros ?]
    | solve [auto with keeps]
    | match goal with
      | |- WalletOps.keeps (match ?x with _ => _ end) => destruct x
      | |- WalletOps.keeps (if ?b then _ else _) => destruct b
      end ].

Section KeepingOps.
Import WalletService WalletOps.
Context {W : Crypto.WebCrypto} {K : Keyring} {V : Vault}.

Lemma keeps_unlockWallet (walletId : string) (password : jsstring) :
  keeps (unlockWallet walletId password).
Proof. unfold unlockWallet. keeping. Qed.

Lemma keeps_lock : keeps lock.
Proof. unfold lock. keeping. Qed.

Lemma keeps_createDefaultHotkey (coldkeyId : string) (password : jsstring) :
  keeps (createDefaultHotkey coldkeyId password).
Proof. unfold createDefaultHotkey. keeping. Qed.

Lemma keeps_addHotkey name mnemonic coldkeyId password backedUp :
  keeps (addHotkey name mnemonic coldkeyId password backedUp).
Proof. unfold addHotkey. keeping. Qed.

Lemma keeps_verifyColdkey coldkey password : keeps (verifyColdkey coldkey password).
Proof. unfold verifyColdkey. keeping. Qed.

Lemma keeps_reencryptHotkeys walletId currentPassword newPassword hotkeys :
  keeps (reencryptHotkeys walletId currentPassword newPassword hotkeys).
Proof.
  induction hotkeys as [|h rest IH]; cbn [reencryptHotkeys]; [apply keeps_ret|].
  apply keeps_bind; [keeping|]. intros h'.
  apply keeps_bind; [exact IH|]. intros; apply keeps_ret.
Qed.

Lemma keeps_clockReaches (t : Z) : keeps (clockReaches t).
Proof.
  intros w. unfold clockReaches, atTime. cbn [this lockTimeout].
  destruct (lockTimeout (this w)) as [due|]; [|reflexivity].
  destruct (due <=? t); [|reflexivity]. rewrite lock_world. cbn [snd local].
  apply walletStoreIn_keep.
Qed.

End KeepingOps.

Section SteppingOps.
Import WalletService WalletOps.
Context {W : Crypto.WebCrypto} {K : Keyring} {V : Vault}.

Lemma keeps_steps {A} (m : M A) : keeps m -> steps m.
Proof. intros H w. rewrite H. constructor. Qed.

(** A step made by [m], kept by what follows. *)
Lemma step_after {A B} (m : M A) (k : A -> M B) (s : WalletStore.t) (w : world) :
  storeStep s (walletStoreIn (local (snd (m w)))) ->
  (forall a, keeps (k a)) ->
  storeStep s (walletStoreIn (local (snd (bind m k w)))).
Proof.
  intros Hm Hk. unfold bind. destruct (m w) as [[a|e] w1]; cbn [snd] in *;
    [rewrite Hk; exact Hm | exact Hm].
Qed.

(** The store kept by [m], a step made by what follows. *)
Lemma step_before {A B} (m : M A) (k : A -> M B) (s : WalletStore.t) (w : world) :
  walletStoreIn (local w) = s ->
  keeps m ->
  (forall a w', walletStoreIn (local w') = s ->
     storeStep s (walletStoreIn (local (snd (k a w'))))) ->
  storeStep s (walletStoreIn (local (snd (bind m k w)))).
Proof.
  intros Hs Hm Hk. unfold bind. specialize (Hm w).
  destruct (m w) as [[a|e] w1]; cbn [snd] in *.
  - apply Hk. congruence.
  - rewrite Hm, Hs. constructor.
Qed.

Lemma step_none {A} (m : M A) (s : WalletStore.t) (w : world) :
  walletStoreIn (local w) = s -> keeps m ->
  storeStep s (walletStoreIn (local (snd (m w)))).
Proof. intros Hs Hm. rewrite Hm, Hs. constructor. Qed.

Lemma saved (store : WalletStore.t) (w : world) :
  walletStoreIn (local (snd (saveWalletStore store w))) = store.
Proof. unfold saveWalletStore, setLocal. cbn [snd local]. apply walletStoreIn_saved. Qed.

Lemma read {B} (k : WalletStore.t -> M B) (w : world) :
  bind getWalletStore k w = k (walletStoreIn (local w)) w.
Proof. reflexivity. Qed.

Lemma steps_keepWallet (store : WalletStore.t) (wallet : EncryptedWallet.t)
    (pair : KeyringPair) (password : jsstring) (w : world) :
  findAddress (EncryptedWallet.address wallet) store = None ->
  storeStep store (walletStoreIn (local (snd (keepWallet store wallet pair password w)))).
Proof.
  intros Hfa. unfold keepWallet. apply step_after.
  - rewrite saved. apply stepAppend. exact Hfa.
  - intros _. pose proof keeps_createDefaultHotkey. keeping.
Qed.

Lemma steps_addWallet id type name pair encrypted derivationPath password :
  steps (addWallet id type name pair encrypted derivationPath password).
Proof.
  intros w. unfold addWallet. rewrite read.
  destruct (findAddress (pairAddress pair) (walletStoreIn (local w))) eqn:Hfa;
    [apply step_none; [reflexivity | apply keeps_throw]|].
  apply step_before; [reflexivity | apply keeps_Date_now |]. intros createdAt w1 H1.
  apply step_before; [exact H1 | apply keeps_Date_now |]. intros updatedAt w2 H2.
  apply step_after; [|intros; apply keeps_ret].
  apply steps_keepWallet. exact Hfa.
Qed.

Lemma steps_bind_keeps {A B} (m : M A) (k : A -> M B) :
  keeps m -> (forall a, steps (k a)) -> steps (bind m k).
Proof.
  intros Hm Hk w. apply step_before; [reflexivity | exact Hm |].
  intros a w' Hw'. rewrite <- Hw'. apply Hk.
Qed.

Lemma steps_then_keeps {A B} (m : M A) (k : A -> M B) :
  steps m -> (forall a, keeps (k a)) -> steps (bind m k).
Proof. intros Hm Hk w. apply step_after; [apply Hm | exact Hk]. Qed.

Lemma steps_createWallet name password mnemonic : steps (createWallet name password mnemonic).
Proof.
  unfold createWallet.
  apply steps_bind_keeps; [apply keeps_initialize|]. intros _.
  apply steps_bind_keeps; [keeping|]. intros seedPhrase.
  destruct (negb (mnemonicValidate seedPhrase)); [apply keeps_steps, keeps_throw|].
  apply steps_bind_keeps; [keeping|]. intros pair.
  apply steps_bind_keeps; [keeping|]. intros id.
  apply steps_bind_keeps; [keeping|]. intros encrypted.
  apply steps_then_keeps; [apply steps_addWallet | intros; apply keeps_ret].
Qed.

Lemma steps_importFromMnemonic name mnemonic password :
  steps (importFromMnemonic name mnemonic password).
Proof.
  unfold importFromMnemonic.
  apply steps_bind_keeps; [apply keeps_initialize|]. intros _.
  destruct (negb (mnemonicValidate mnemonic)); [apply keeps_steps, keeps_throw|].
  apply steps_bind_keeps; [keeping|]. intros pair.
  apply steps_bind_keeps; [keeping|]. intros id.
  apply steps_bind_keeps; [keeping|]. intros encrypted.
  apply steps_addWallet.
Qed.

Lemma steps_importFromPrivateKey name secretKey password :
  steps (importFromPrivateKey name secretKey password).
Proof.
  unfold importFromPrivateKey.
  apply steps_bind_keeps; [apply keeps_initialize|]. intros _.
  apply steps_bind_keeps; [keeping|]. intros keyBytes.
  destruct (negb (length keyBytes =? 32)%nat && negb (length keyBytes =? 64)%nat);
    [apply keeps_steps, keeps_throw|].
  apply steps_bind_keeps; [keeping|]. intros pair.
  apply steps_bind_keeps; [keeping|]. intros id.
  apply steps_bind_keeps; [keeping|]. intros encrypted.
  apply steps_addWallet.
Qed.

Lemma steps_importFromKeystore name keystoreJson keystorePassword newPassword :
  steps (importFromKeystore name keystoreJson keystorePassword newPassword).
Proof.
  unfold importFromKeystore.
  apply steps_bind_keeps; [apply keeps_initialize|]. intros _.
  apply steps_bind_keeps; [keeping|]. intros jsonData.
  apply steps_bind_keeps; [keeping|]. intros complete.
  destruct (negb complete); [apply keeps_steps, keeps_throw|].
  apply steps_bind_keeps; [keeping|]. intros pair.
  apply steps_bind_keeps; [keeping|]. intros addedPair.
  apply steps_bind_keeps; [keeping|]. intros id.
  intros w. rewrite read.
  destruct (findAddress (pairAddress addedPair) (walletStoreIn (local w))) eqn:Hfa;
    [apply step_none; [reflexivity | apply keeps_throw]|].
  apply step_before; [reflexivity | apply keeps_encryptM |]. intros sealedJson w1 H1.
  apply step_before; [exact H1 | apply keeps_encryptM |]. intros sealedPassword w2 H2.
  apply step_before; [exact H2 | apply keeps_Date_now |]. intros createdAt w3 H3.
  apply step_before; [exact H3 | apply keeps_Date_now |]. intros updatedAt w4 H4.
  apply step_after; [|intros; apply keeps_ret].
  apply steps_keepWallet. exact Hfa.
Qed.

Lemma steps_setActiveWallet walletId : steps (setActiveWallet walletId).
Proof.
  intros w. unfold setActiveWallet. rewrite read.
  destruct (findWallet walletId (walletStoreIn (local w))) as [wallet|] eqn:Hf;
    [|apply step_none; [reflexivity | apply keeps_ret]].
  rewrite saved. apply stepActive. eauto.
Qed.

Lemma steps_deleteWallet walletId : steps (deleteWallet walletId).
Proof.
  intros w. unfold deleteWallet. rewrite read.
  apply step_before; [reflexivity | apply keeps_setUnlockedWallets |]. intros _ w1 H1.
  apply step_after; [|intros; keeping].
  rewrite saved. apply stepDelete.
Qed.

Lemma steps_clearAllWallets : steps clearAllWallets.
Proof.
  intros w. unfold clearAllWallets.
  apply step_before; [reflexivity | apply keeps_setThis |]. intros _ w1 H1.
  rewrite read, H1. apply step_after; [|intros; keeping].
  rewrite saved. apply stepClear.
Qed.

Lemma steps_renameWallet walletId newName : steps (renameWallet walletId newName).
Proof.
  intros w. unfold renameWallet. rewrite read.
  destruct (findWallet walletId (walletStoreIn (local w))) as [wallet|] eqn:Hf;
    [|apply step_none; [reflexivity | apply keeps_ret]].
  apply step_before; [reflexivity | apply keeps_Date_now |]. intros t w1 H1.
  rewrite saved.
  apply (stepRewrite _ walletId (fun x => renamed x newName t)); reflexivity.
Qed.

Lemma steps_changePassword walletId currentPassword newPassword :
  steps (changePassword walletId currentPassword newPassword).
Proof.
  intros w. unfold changePassword. rewrite read.
  destruct (findWallet walletId (walletStoreIn (local w))) as [wallet|];
    [|apply step_none; [reflexivity | apply keeps_throw]].
  pose proof keeps_reencryptHotkeys as Hre.
  destruct (EncryptedWallet.type wallet);
    try (apply step_none; [reflexivity | apply keeps_throw]).
  all: apply step_before; [reflexivity | keeping |]; intros decrypted w1 H1.
  all: apply step_before; [exact H1 | keeping |]; intros encrypted w2 H2.
  all: apply step_before; [exact H2 | keeping |]; intros t w3 H3.
  all: apply step_after; [|intros; keeping].
  all: rewrite saved.
  all: apply (stepRewrite _ walletId (fun x => withSecret x encrypted t)); reflexivity.
Qed.

Lemma steps_updateSettings settings : steps (updateSettings settings).
Proof.
  intros w. unfold updateSettings. rewrite read.
  apply step_after; [rewrite saved; apply stepSettings|].
  intros _. keeping.
Qed.

End SteppingOps.

Section Invariants.
Import WalletService WalletOps.
Context {W : Crypto.WebCrypto} {K : Keyring} {V : Vault}.

Lemma perform_steps (c : call) (w : world) :
  storeStep (walletStoreIn (local w)) (walletStoreIn (local (perform c w))).
Proof.
  pose proof keeps_createDefaultHotkey. pose proof keeps_addHotkey.
  pose proof keeps_verifyColdkey. pose proof keeps_unlockWallet. pose proof keeps_lock.
  destruct c; cbn [perform];
    first
      [ apply steps_createWallet | apply steps_importFromMnemonic
      | apply steps_importFromPrivateKey | apply steps_importFromKeystore
      | apply steps_setActiveWallet | apply steps_deleteWallet | apply steps_clearAllWallets
      | apply steps_renameWallet | apply steps_changePassword | apply steps_updateSettings
      | apply keeps_steps;
        first [ apply keeps_initialize | apply keeps_unlockWallet | apply keeps_lock
              | apply keeps_clockReaches
              | unfold getWallets, getActiveWallet, signMessage, signTransaction,
                  exportMnemonic, createHotkey, importHotkey, getHotkeys,
                  markHotkeyBackedUp, unlockHotkey, deleteHotkey, exportHotkeyMnemonic,
                  getSettings; keeping ] ].
Qed.

Lemma is_Some_find_id (walletId : string) (wallets : list EncryptedWallet.t) :
  is_Some (List.find (fun x => String.eqb (EncryptedWallet.id x) walletId) wallets) <->
  In walletId (map EncryptedWallet.id wallets).
Proof.
  induction wallets as [|x rest IH]; cbn.
  - split; [intros [? [=]] | intros []].
  - destruct (String.eqb_spec (EncryptedWallet.id x) walletId) as [Heq|Hne].
    + split; [intros _; left; exact Heq | intros _; eauto].
    + rewrite IH. split; [auto | intros [Heq|Hin]; [congruence | exact Hin]].
Qed.

Lemma find_address_none (address : string) (wallets : list EncryptedWallet.t) :
  List.find (fun x => String.eqb (EncryptedWallet.address x) address) wallets = None ->
  ~ In address (map EncryptedWallet.address wallets).
Proof.
  intros Hnone Hin. apply in_map_iff in Hin. destruct Hin as (x & Hx & Hin).
  pose proof (find_none _ _ Hnone x Hin) as Hf. cbn in Hf.
  rewrite Hx, String.eqb_refl in Hf. discriminate.
Qed.

Lemma NoDup_map_filter {A B} (f : A -> B) (p : A -> bool) (l : list A) :
  NoDup (map f l) -> NoDup (map f (List.filter p l)).
Proof.
  induction l as [|x rest IH]; cbn; [auto|].
  intros Hnd. inversion Hnd as [|? ? Hnotin Hrest]; subst.
  destruct (p x); cbn; [|auto]. constructor; [|auto].
  intros Hin. apply Hnotin. apply list_elem_of_In in Hin. apply list_elem_of_In.
  apply in_map_iff in Hin. destruct Hin as (y & Hy & Hin).
  apply filter_In in Hin. apply in_map_iff. exists y. tauto.
Qed.

(** Both properties of the store survive one step. *)
Lemma storeStep_invariants (before after : WalletStore.t) :
  storeStep before after ->
  distinctAddresses before -> activeIsStored before ->
  distinctAddresses after /\ activeIsStored after /\
  WalletStore.version after = WalletStore.version before.
Proof.
  unfold distinctAddresses, activeIsStored.
  intros Hstep Hd Ha. destruct Hstep; cbn [WalletStore.wallets WalletStore.activeWalletId
                                            WalletStore.version].
  - auto.
  - split; [exact Hd|]. split; [|reflexivity].
    destruct (WalletStore.activeWalletId before); [|exact I].
    rewrite findWallet_eq in Ha |- *. exact Ha.
  - split; [exact Hd|]. split; [|reflexivity].
    rewrite findWallet_eq in H |- *. exact H.
  - split; [|split; [|reflexivity]].
    + rewrite map_app. cbn. apply NoDup_app. split; [exact Hd|].
      split; [|apply NoDup_singleton].
      intros a Hin Hin'. apply list_elem_of_singleton in Hin'. subst a.
      apply (find_address_none _ _ H). apply list_elem_of_In. exact Hin.
    + rewrite findWallet_eq. cbn [WalletStore.wallets]. apply is_Some_find_id.
      rewrite map_app. apply in_or_app. right. left. reflexivity.
  - split; [|split; [|reflexivity]].
    + rewrite updateFirst_map by assumption. exact Hd.
    + destruct (WalletStore.activeWalletId before) as [active|]; [|exact I].
      rewrite findWallet_eq in Ha |- *. cbn [WalletStore.wallets].
      apply is_Some_find_id. rewrite updateFirst_map by assumption.
      apply is_Some_find_id. exact Ha.
  - cbv zeta. cbn [WalletStore.wallets WalletStore.activeWalletId WalletStore.version].
    split; [apply NoDup_map_filter; exact Hd|]. split; [|reflexivity].
    destruct (bool_decide (WalletStore.activeWalletId before = Some walletId)) eqn:Hact.
    + destruct (List.filter _ (WalletStore.wallets before)) as [|first rest] eqn:Hfil;
        [exact I|].
      destruct (String.eqb (EncryptedWallet.id first) ""); [exact I|].
      rewrite findWallet_eq. cbn [WalletStore.wallets]. cbn.
      rewrite String.eqb_refl. eauto.
    + apply bool_decide_eq_false in Hact.
      destruct (WalletStore.activeWalletId before) as [active|]; [|exact I].
      rewrite findWallet_eq in Ha |- *. cbn [WalletStore.wallets].
      destruct Ha as [x Hx]. pose proof (find_some _ _ Hx) as [Hin Hid].
      apply String.eqb_eq in Hid.
      apply is_Some_find_id. apply in_map_iff. exists x. split; [exact Hid|].
      apply filter_In. split; [exact Hin|].
      apply negb_true_iff. apply String.eqb_neq. congruence.
  - split; [apply NoDup_nil_2|]. split; [exact I | reflexivity].
Qed.

End Invariants.

(** X12: calls on the service, made one after the other, keep two
    properties of the wallet store: no two stored wallets have the same
    address, and the active wallet id is null or the id of a stored wallet.
    The calls are the methods of the service that touch the service or the
    storage, with any arguments and whatever they return or throw, and the
    passing of time (the auto-lock timer); the store version never
    changes. *)
Theorem store_invariants_kept (W : Crypto.WebCrypto) (K : WalletService.Keyring)
    (V : WalletOps.Vault) (calls : list WalletOps.call) (w : WalletService.world) :
  WalletOps.distinctAddresses (WalletService.walletStoreIn (WalletService.local w)) ->
  WalletOps.activeIsStored (WalletService.walletStoreIn (WalletService.local w)) ->
  let after := WalletOps.performAll calls w in
  WalletOps.distinctAddresses (WalletService.walletStoreIn (WalletService.local after)) /\
  WalletOps.activeIsStored (WalletService.walletStoreIn (WalletService.local after)) /\
  WalletService.WalletStore.version (WalletService.walletStoreIn (WalletService.local after))
    = WalletService.WalletStore.version
        (WalletService.walletStoreIn (WalletService.local w)).
Proof.
  revert w. induction calls as [|c rest IH]; intros w Hd Ha after; subst after.
  { cbn. auto. }
  cbn [WalletOps.performAll fold_left].
  destruct (storeStep_invariants _ _ (perform_steps c w) Hd Ha) as (Hd' & Ha' & Hv).
  destruct (IH (WalletOps.perform c w) Hd' Ha') as (Hd2 & Ha2 & Hv2).
  split; [exact Hd2|]. split; [exact Ha2|].
  unfold WalletOps.performAll in Hv2. rewrite Hv2. exact Hv.
Qed.

Lemma store_invariants_kept_witness :
  let after :=
    WalletOps.performAll (W := Toy.platform) (V := ToyOps.vault)
      [ WalletOps.CreateWallet "first" [97] None;
        WalletOps.ImportFromMnemonic "second" [115; 101; 101; 100] [98];
        WalletOps.ImportFromMnemonic "again" [115; 101; 101; 100] [99];
        WalletOps.SetActiveWallet "nowhere";
        WalletOps.DeleteWallet "first" ]
      (WalletService.World (WalletService.Service ∅ ∅ ∅ None false)
         (WalletService.Storage None None None) 0 Toy.tape []) in
  WalletOps.distinctAddresses (WalletService.walletStoreIn (WalletService.local after)) /\
  WalletOps.activeIsStored (WalletService.walletStoreIn (WalletService.local after)).
Proof.
  intros after.
  destruct (store_invariants_kept Toy.platform Toy.keyring ToyOps.vault
              [ WalletOps.CreateWallet "first" [97] None;
                WalletOps.ImportFromMnemonic "second" [115; 101; 101; 100] [98];
                WalletOps.ImportFromMnemonic "again" [115; 101; 101; 100] [99];
                WalletOps.SetActiveWallet "nowhere";
                WalletOps.DeleteWallet "first" ]
              (WalletService.World (WalletService.Service ∅ ∅ ∅ None false)
                 (WalletService.Storage None None None) 0 Toy.tape []))
    as (Hd & Ha & _).
  - apply NoDup_nil_2.
  - exact I.
  - split; [exact Hd | exact Ha].
Defined.


(** * Creating and importing wallets *)

Opaque WalletService.findWallet Crypto.decrypt Crypto.encrypt WalletService.pairOf
  WalletService.walletStoreIn WalletService.hotkeyStoreIn.

Section Creation.
Import WalletService WalletOps.
Context {W : Crypto.WebCrypto} {K : Keyring} {V : Vault} `{!Crypto.WebCryptoSpec W}.

Lemma bind_returns {A B} (m : M A) (k : A -> M B) (w w' : world) (a : A) :
  m w = (Return a, w') -> bind m k w = k a w'.
Proof. intros Hm. unfold bind. rewrite Hm. reflexivity. Qed.

Lemma bind_throws {A B} (m : M A) (k : A -> M B) (w w' : world) (e : exn) :
  m w = (Throw e, w') -> bind m k w = (Throw e, w').
Proof. intros Hm. unfold bind. rewrite Hm. reflexivity. Qed.

(** The default hotkey: created when the keyring accepts the generated
    mnemonic, silently left out otherwise; nothing else changes. *)
Lemma createDefaultHotkey_spec (coldkeyId : string) (password : jsstring) (w : world) :
  exists w',
    createDefaultHotkey coldkeyId password w = (Return tt, w') /\
    unlockedWallets (this w') = unlockedWallets (this w) /\
    unlockAttempts (this w') = unlockAttempts (this w) /\
    lockTimeout (this w') = lockTimeout (this w) /\
    isInitialized (this w') = isInitialized (this w) /\
    aetron_wallet_store (local w') = aetron_wallet_store (local w) /\
    aetron_lock_state (local w') = aetron_lock_state (local w) /\
    now w' = now w /\
    match addFromUri (fst (mnemonicGenerate 12 (random w))) with
    | Throw _ =>
        hotkeyStoreIn (local w') = hotkeyStoreIn (local w) /\
        unlockedHotkeys (this w') = unlockedHotkeys (this w)
    | Return hotkeyPair =>
        exists h,
          hotkeyStoreIn (local w') = hotkeyStoreIn (local w) ++ [h] /\
          EncryptedHotkey.coldkeyId h = coldkeyId /\
          EncryptedHotkey.name h = "default"%string /\
          EncryptedHotkey.backedUp h = false /\
          Crypto.decrypt (EncryptedHotkey.encrypted h) password
            = Return (Encoding.decode
                        (Encoding.encode (fst (mnemonicGenerate 12 (random w))))) /\
          unlockedHotkeys (this w')
            = <[EncryptedHotkey.id h := hotkeyPair]> (unlockedHotkeys (this w))
    end.
Proof.
  unfold createDefaultHotkey. runx.
  destruct (mnemonicGenerate 12 (random w)) as [mnemonic tape1]. cbn [fst]. runx.
  destruct (addFromUri mnemonic) as [hotkeyPair|e]; runx.
  - destruct (randomUUID tape1) as [id tape2]. runx.
    match goal with |- context [encryptM ?d ?n ?w0] =>
      destruct (encryptM_total d n w0) as (pkg & He & _ & Hdec); rewrite He end.
    runx. eexists. split; [reflexivity|]. cbn.
    repeat (split; [reflexivity|]).
    eexists. split; [stores; reflexivity|]. cbn. auto.
  - eexists. split; [reflexivity|]. cbn. auto 10.
Qed.

End Creation.

Section Adding.
Import WalletService WalletOps.
Context {W : Crypto.WebCrypto} {K : Keyring} {V : Vault} `{!Crypto.WebCryptoSpec W}.

Lemma keepWallet_spec (store : WalletStore.t) (wallet : EncryptedWallet.t)
    (pair : KeyringPair) (password : jsstring) (w : world) :
  walletStoreIn (local w) = store ->
  exists w',
    keepWallet store wallet pair password w = (Return tt, w') /\
    walletAdded w w' wallet pair.
Proof.
  intros <-. unfold keepWallet. runx.
  match goal with |- context [createDefaultHotkey ?i ?p ?w0] =>
    destruct (createDefaultHotkey_spec i p w0)
      as (w' & Hrun & Huw & Hua & Hlt & _ & Hws & Hls & Hnow & Hhot);
    rewrite Hrun end.
  exists w'. split; [reflexivity|].
  cbn [this local now random unlockedWallets unlockAttempts lockTimeout
       aetron_wallet_store aetron_lock_state] in *.
  unfold walletAdded. cbv zeta.
  split; [rewrite walletStoreIn_eq, Hws; reflexivity|].
  split; [exact Huw|]. split; [exact Hua|]. split; [rewrite Hlt; reflexivity|].
  split; [exact Hls|]. split; [exact Hnow|].
  destruct (addFromUri _) as [hotkeyPair|e].
  - destruct Hhot as (h & Hh & Hc & Hn & _). exists [h].
    split; [rewrite Hh; stores; reflexivity|]. split; [cbn; lia|].
    constructor; [auto | constructor].
  - destruct Hhot as [Hh _]. exists [].
    split; [rewrite Hh, app_nil_r; stores; reflexivity|]. split; [cbn; lia | constructor].
Qed.

Lemma addWallet_duplicate id type name pair encrypted derivationPath password
    (w : world) (existing : EncryptedWallet.t) :
  findAddress (pairAddress pair) (walletStoreIn (local w)) = Some existing ->
  addWallet id type name pair encrypted derivationPath password w
    = (Throw (alreadyExists existing), w).
Proof.
  intros Hfa. unfold addWallet. rewrite read, Hfa. reflexivity.
Qed.

Lemma addWallet_new id type name pair encrypted derivationPath password (w : world) :
  findAddress (pairAddress pair) (walletStoreIn (local w)) = None ->
  let stored :=
    EncryptedWallet.Make id WALLET_STORE_VERSION type name (pairAddress pair) encrypted
      derivationPath None (now w) (now w) in
  exists w',
    addWallet id type name pair encrypted derivationPath password w
      = (Return (account stored), w') /\
    walletAdded w w' stored pair.
Proof.
  intros Hfa stored. unfold addWallet. rewrite read, Hfa.
  unfold bind at 1. unfold Date_now at 1. unfold bind at 1. unfold Date_now at 1.
  unfold bind at 1.
  destruct (keepWallet_spec (walletStoreIn (local w)) stored pair password w eq_refl)
    as (w' & Hrun & Hadded).
  fold stored. rewrite Hrun. exists w'. split; [reflexivity | exact Hadded].
Qed.

End Adding.

Opaque WalletOps.addWallet.

Lemma createWallet_cases (W : Crypto.WebCrypto) (K : WalletService.Keyring)
    (V : WalletOps.Vault) (HW : Crypto.WebCryptoSpec W) (w : WalletService.world)
    (name : string) (password : jsstring) (mnemonic : option jsstring) :
  let generated :=
    match mnemonic with
    | Some (u :: rest) => (u :: rest, WalletService.random w)
    | _ => WalletOps.mnemonicGenerate 24 (WalletService.random w)
    end in
  let seedPhrase := fst generated in
  let store := WalletService.walletStoreIn (WalletService.local w) in
  if negb (WalletOps.mnemonicValidate seedPhrase) then
    exists w',
      WalletOps.createWallet name password mnemonic w
        = (Throw (Error "Invalid mnemonic phrase"), w') /\
      WalletService.local w' = WalletService.local w /\
      WalletService.unlockedWallets (WalletService.this w')
        = WalletService.unlockedWallets (WalletService.this w)
  else
    forall pair, WalletService.addFromUri seedPhrase = Return pair ->
      match WalletOps.findAddress (WalletOps.pairAddress pair) store with
      | Some existing =>
          exists w',
            WalletOps.createWallet name password mnemonic w
              = (Throw (WalletOps.alreadyExists existing), w') /\
            WalletService.local w' = WalletService.local w /\
            WalletService.unlockedWallets (WalletService.this w')
              = WalletService.unlockedWallets (WalletService.this w)
      | None =>
          exists w' stored,
            WalletOps.createWallet name password mnemonic w
              = (Return (WalletOps.account stored, seedPhrase), w') /\
            WalletOps.walletAdded w w' stored pair /\
            WalletService.EncryptedWallet.id stored
              = fst (WalletOps.randomUUID (snd generated)) /\
            WalletService.EncryptedWallet.type stored = WalletService.hd /\
            WalletService.EncryptedWallet.name stored = name /\
            WalletService.EncryptedWallet.address stored = WalletOps.pairAddress pair /\
            WalletService.EncryptedWallet.derivationPath stored = Some [] /\
            WalletService.EncryptedWallet.createdAt stored = WalletService.now w /\
            Crypto.decrypt (WalletService.EncryptedWallet.encrypted stored) password
              = Return (Encoding.decode (Encoding.encode seedPhrase))
      end.
Proof.
  intros generated seedPhrase store.
  assert (forall w1,
            (match mnemonic with
             | Some (u :: rest) => WalletService.ret (u :: rest)
             | _ => WalletOps.drawM (WalletOps.mnemonicGenerate 24)
             end) w1
            = (Return (fst (match mnemonic with
                            | Some (u :: rest) => (u :: rest, WalletService.random w1)
                            | _ => WalletOps.mnemonicGenerate 24 (WalletService.random w1)
                            end)),
               WalletService.World (WalletService.this w1) (WalletService.local w1)
                 (WalletService.now w1)
                 (snd (match mnemonic with
                       | Some (u :: rest) => (u :: rest, WalletService.random w1)
                       | _ => WalletOps.mnemonicGenerate 24 (WalletService.random w1)
                       end))
                 (WalletService.decryptions w1))) as Hseed.
  { intros w1. destruct mnemonic as [[|u rest]|]; unfold WalletOps.drawM, WalletService.ret;
      try (destruct (WalletOps.mnemonicGenerate 24 (WalletService.random w1)); reflexivity).
    destruct w1; reflexivity. }
  unfold WalletOps.createWallet.
  erewrite bind_returns by reflexivity.
  erewrite bind_returns by apply Hseed.
  cbn [WalletService.this WalletService.local WalletService.now WalletService.random
       WalletService.decryptions].
  fold generated. fold seedPhrase.
  destruct (negb (WalletOps.mnemonicValidate seedPhrase)).
  { eexists. split; [reflexivity|]. split; reflexivity. }
  intros pair Hpair. cbv zeta.
  erewrite bind_returns
    by (unfold WalletOps.liftC, WalletOps.DEFAULT_DERIVATION_PATH;
        rewrite app_nil_r, Hpair; reflexivity).
  destruct (WalletOps.randomUUID (snd generated)) as [id tape2] eqn:Hid.
  erewrite bind_returns by (unfold WalletOps.drawM; cbn [WalletService.random];
                            rewrite Hid; reflexivity).
  cbn [WalletService.this WalletService.local WalletService.now WalletService.random
       WalletService.decryptions].
  match goal with |- context [WalletService.bind (WalletService.encryptM ?d ?n) _ ?w0] =>
    destruct (encryptM_total d n w0) as (pkg & He & _ & Hdec) end.
  erewrite bind_returns by exact He.
  cbn [WalletService.this WalletService.local WalletService.now WalletService.random
       WalletService.decryptions].
  destruct (WalletOps.findAddress (WalletOps.pairAddress pair) store) as [existing|] eqn:Hfa.
  - erewrite bind_throws by (apply addWallet_duplicate; exact Hfa).
    eexists. split; [reflexivity|]. split; reflexivity.
  - match goal with
      |- context [WalletService.bind (WalletOps.addWallet ?i ?t ?n ?p ?e ?d ?pw) _ ?w0] =>
        destruct (addWallet_new i t n p e d pw w0 Hfa) as (w' & Hrun & Hadded) end.
    erewrite bind_returns by exact Hrun.
    eexists w', _. split; [reflexivity|].
    split; [exact Hadded|]. cbn. auto 10.
Qed.

(** X13: [createWallet] stores nothing and unlocks nothing when it throws:
    for a phrase the validator rejects ("Invalid mnemonic phrase") and for a
    phrase whose address is already stored (the error names the stored
    wallet).  Otherwise (the keyring accepting the phrase) it returns the
    public fields of the new wallet and the phrase, given or generated with
    24 words: the wallet is appended to the store with the generated id,
    type [hd], the given name and the pair's address, and made the active
    one; its secret opens under the password to the phrase as the text
    decoder reads it back; the pair is cached and the auto-lock timer armed;
    at most the wallet's default hotkey is appended to the hotkey store. *)
Theorem createWallet_outcomes (W : Crypto.WebCrypto) (K : WalletService.Keyring)
    (V : WalletOps.Vault) (HW : Crypto.WebCryptoSpec W) (w : WalletService.world)
    (name : string) (password : jsstring) (mnemonic : option jsstring) :
  let generated :=
    match mnemonic with
    | Some (u :: rest) => (u :: rest, WalletService.random w)
    | _ => WalletOps.mnemonicGenerate 24 (WalletService.random w)
    end in
  let seedPhrase := fst generated in
  let store := WalletService.walletStoreIn (WalletService.local w) in
  if negb (WalletOps.mnemonicValidate seedPhrase) then
    exists w',
      WalletOps.createWallet name password mnemonic w
        = (Throw (Error "Invalid mnemonic phrase"), w') /\
      WalletService.local w' = WalletService.local w /\
      WalletService.unlockedWallets (WalletService.this w')
        = WalletService.unlockedWallets (WalletService.this w)
  else
    forall pair, WalletService.addFromUri seedPhrase = Return pair ->
      match WalletOps.findAddress (WalletOps.pairAddress pair) store with
      | Some existing =>
          exists w',
            WalletOps.createWallet name password mnemonic w
              = (Throw (WalletOps.alreadyExists existing), w') /\
            WalletService.local w' = WalletService.local w /\
            WalletService.unlockedWallets (WalletService.this w')
              = WalletService.unlockedWallets (WalletService.this w)
      | None =>
          exists w' stored,
            WalletOps.createWallet name password mnemonic w
              = (Return (WalletOps.account stored, seedPhrase), w') /\
            WalletOps.walletAdded w w' stored pair /\
            WalletService.EncryptedWallet.id stored
              = fst (WalletOps.randomUUID (snd generated)) /\
            WalletService.EncryptedWallet.type stored = WalletService.hd /\
            WalletService.EncryptedWallet.name stored = name /\
            WalletService.EncryptedWallet.address stored = WalletOps.pairAddress pair /\
            WalletService.EncryptedWallet.derivationPath stored = Some [] /\
            WalletService.EncryptedWallet.createdAt stored = WalletService.now w /\
            Crypto.decrypt (WalletService.EncryptedWallet.encrypted stored) password
              = Return (Encoding.decode (Encoding.encode seedPhrase))
      end.
Proof. exact (createWallet_cases W K V HW w name password mnemonic). Qed.

Lemma createWallet_outcomes_witness :
  let w := WalletService.World (WalletService.Service (K := Toy.keyring) ∅ ∅ ∅ None false)
             (WalletService.Storage None None None) 0 Toy.tape [] in
  exists w' stored,
    WalletOps.createWallet (W := Toy.platform) (V := ToyOps.vault) "main" [97]
      (Some [115; 101; 101; 100]) w
      = (Return (WalletOps.account stored, [115; 101; 101; 100]), w') /\
    WalletService.EncryptedWallet.name stored = "main" /\
    WalletService.EncryptedWallet.type stored = WalletService.hd.
Proof.
  intros w.
  pose proof (createWallet_outcomes Toy.platform Toy.keyring ToyOps.vault toy_spec w "main"
                [97] (Some [115; 101; 101; 100])) as Hc.
  cbv zeta in Hc.
  change (negb (WalletOps.mnemonicValidate (fst ([115; 101; 101; 100], WalletService.random w))))
    with false in Hc.
  specialize (Hc [115; 101; 101; 100] eq_refl).
  assert (Hf : WalletOps.findAddress
                 (WalletOps.pairAddress (Vault := ToyOps.vault) [115; 101; 101; 100])
                 (WalletService.walletStoreIn (WalletService.local w)) = None)
    by reflexivity.
  rewrite Hf in Hc.
  destruct Hc as (w' & stored & Hrun & _ & _ & Htype & Hname & _).
  exists w', stored. split; [exact Hrun|]. split; [exact Hname | exact Htype].
Defined.

Transparent WalletOps.addWallet.

Section RoundTrip.
Import WalletService WalletOps.
Context {W : Crypto.WebCrypto} {K : Keyring} {V : Vault}.

Lemma find_app_last {A} (p : A -> bool) (l : list A) (x : A) :
  List.find p l = None -> p x = true -> List.find p (l ++ [x]) = Some x.
Proof.
  intros Hnone Hx. induction l as [|y rest IH]; cbn in *; [rewrite Hx; reflexivity|].
  destruct (p y); [discriminate | apply IH; exact Hnone].
Qed.

End RoundTrip.

(** X14: a wallet made by [createWallet] can be locked and unlocked again
    with its password.  For a well-formed phrase that does not start with
    U+FEFF, a generated id that no stored wallet has and no failed attempt on
    record for it: the wallet is unlocked right after [createWallet], locked
    after [lock], and [unlockWallet] with the same password then returns
    [true] and caches the same pair again. *)
Theorem create_lock_unlock (W : Crypto.WebCrypto) (K : WalletService.Keyring)
    (V : WalletOps.Vault) (HW : Crypto.WebCryptoSpec W) (w : WalletService.world)
    (name : string) (password : jsstring) (mnemonic : option jsstring)
    (pair : WalletService.KeyringPair) :
  let generated :=
    match mnemonic with
    | Some (u :: rest) => (u :: rest, WalletService.random w)
    | _ => WalletOps.mnemonicGenerate 24 (WalletService.random w)
    end in
  let seedPhrase := fst generated in
  let id := fst (WalletOps.randomUUID (snd generated)) in
  let store := WalletService.walletStoreIn (WalletService.local w) in
  WalletOps.mnemonicValidate seedPhrase = true ->
  WalletService.addFromUri seedPhrase = Return pair ->
  Encoding.isWellFormed seedPhrase = true ->
  Encoding.startsWithBOM seedPhrase = false ->
  WalletOps.findAddress (WalletOps.pairAddress pair) store = None ->
  WalletService.findWallet id store = None ->
  WalletService.unlockAttempts (WalletService.this w) !! id = None ->
  exists w1 created,
    WalletOps.createWallet name password mnemonic w = (Return (created, seedPhrase), w1) /\
    WalletOps.WalletAccount.id created = id /\
    WalletService.getKeypair id (WalletService.this w1) = Some pair /\
    let w2 := snd (WalletService.lock w1) in
    WalletService.isUnlocked id (WalletService.this w2) = false /\
    exists w3,
      WalletService.unlockWallet id password w2 = (Return true, w3) /\
      WalletService.getKeypair id (WalletService.this w3) = Some pair.
Proof.
  intros generated seedPhrase id store Hvalid Hpair Hwf Hbom Hfa Hfresh Hclean.
  pose proof (createWallet_cases W K V HW w name password mnemonic) as Hc.
  cbv zeta in Hc. fold generated in Hc. fold seedPhrase in Hc. fold store in Hc.
  rewrite Hvalid in Hc. cbn [negb] in Hc. specialize (Hc pair Hpair). rewrite Hfa in Hc.
  destruct Hc as (w1 & stored & Hrun & Hadded & Hid & Hty & _ & _ & Hpath & _ & Hdec).
  fold id in Hid.
  destruct Hadded as (Hstore & Huw & Hua & _ & _ & _ & _).
  exists w1, (WalletOps.account stored). split; [exact Hrun|].
  split; [exact Hid|].
  split; [unfold WalletService.getKeypair; rewrite Huw, Hid; apply lookup_insert_eq|].
  intros w2. subst w2. rewrite lock_world. cbn [snd].
  split; [unfold WalletService.isUnlocked; cbn; rewrite lookup_empty; reflexivity|].
  rewrite (decode_encode seedPhrase Hwf Hbom) in Hdec.
  match goal with |- context [WalletService.unlockWallet id password ?w2] =>
    destruct (unlockWallet_right w2 id password seedPhrase stored pair)
      as (w3 & Hunlock & Hcached & _) end.
  - unfold WalletService.failuresOnRecord. cbn [WalletService.this WalletService.unlockAttempts].
    rewrite Hua. fold id. rewrite Hclean. lia.
  - cbn [WalletService.local]. rewrite walletStoreIn_keep, Hstore.
    rewrite findWallet_eq in Hfresh |- *. cbn [WalletService.WalletStore.wallets].
    apply find_app_last; [exact Hfresh|]. rewrite Hid. apply String.eqb_refl.
  - unfold WalletService.holdsSecret. rewrite Hty. reflexivity.
  - exact Hdec.
  - unfold WalletService.pairResult. rewrite Hty, Hpath. cbn [fst default].
    rewrite app_nil_r. exact Hpair.
  - exists w3. split; [exact Hunlock|].
    unfold WalletService.getKeypair. rewrite Hcached. apply lookup_insert_eq.
Qed.

Lemma create_lock_unlock_witness :
  let w := WalletService.World (WalletService.Service (K := Toy.keyring) ∅ ∅ ∅ None false)
             (WalletService.Storage None None None) 0 Toy.tape [] in
  exists w1 created,
    WalletOps.createWallet (W := Toy.platform) (V := ToyOps.vault) "main" [97]
      (Some [115; 101; 101; 100]) w = (Return (created, [115; 101; 101; 100]), w1) /\
    exists w3,
      WalletService.unlockWallet (W := Toy.platform) (WalletOps.WalletAccount.id created) [97]
        (snd (WalletService.lock w1)) = (Return true, w3) /\
      WalletService.getKeypair (WalletOps.WalletAccount.id created) (WalletService.this w3)
        = Some [115; 101; 101; 100].
Proof.
  intros w.
  destruct (create_lock_unlock Toy.platform Toy.keyring ToyOps.vault toy_spec w "main" [97]
              (Some [115; 101; 101; 100]) [115; 101; 101; 100]
              eq_refl eq_refl eq_refl eq_refl eq_refl eq_refl eq_refl)
    as (w1 & created & Hrun & Hid & _ & _ & w3 & Hunlock & Hpair).
  exists w1, created. split; [exact Hrun|].
  exists w3. rewrite Hid. split; [exact Hunlock | exact Hpair].
Defined.

Opaque WalletOps.addWallet.

Section PrivateKey.
Import WalletService WalletOps.
Context {W : Crypto.WebCrypto} {K : Keyring} {V : Vault} `{!Crypto.WebCryptoSpec W}.

(** The bytes [importFromPrivateKey] decodes the key to. *)
Lemma importFromPrivateKey_cases (w : world) (name : string)
    (secretKey password : jsstring) (keyBytes : list byte) :
  (if isHex secretKey then hexToU8a secretKey else hexToU8a ([48; 120] ++ secretKey))
    = Return keyBytes ->
  if negb (length keyBytes =? 32)%nat && negb (length keyBytes =? 64)%nat then
    importFromPrivateKey name secretKey password w =
      (Throw (Error "Invalid private key length. Expected 32 or 64 bytes."), initialized w)
  else
    forall pair, addFromSeed (take 32 keyBytes) = Return pair ->
      match findAddress (pairAddress pair) (walletStoreIn (local w)) with
      | Some existing =>
          exists w',
            importFromPrivateKey name secretKey password w
              = (Throw (alreadyExists existing), w') /\
            local w' = local w /\
            unlockedWallets (this w') = unlockedWallets (this w)
      | None =>
          exists w' stored,
            importFromPrivateKey name secretKey password w
              = (Return (account stored), w') /\
            walletAdded w w' stored pair /\
            EncryptedWallet.id stored = fst (randomUUID (random w)) /\
            EncryptedWallet.type stored = WalletService.privateKey /\
            EncryptedWallet.name stored = name /\
            EncryptedWallet.address stored = pairAddress pair /\
            EncryptedWallet.derivationPath stored = None /\
            Crypto.decrypt (EncryptedWallet.encrypted stored) password
              = Return (Encoding.decode (Encoding.encode secretKey))
      end.
Proof.
  intros Hbytes. unfold importFromPrivateKey.
  erewrite bind_returns by reflexivity.
  erewrite bind_returns by (unfold liftC; rewrite Hbytes; reflexivity).
  destruct (negb (length keyBytes =? 32)%nat && negb (length keyBytes =? 64)%nat);
    [reflexivity|].
  intros pair Hpair.
  erewrite bind_returns by (unfold liftC; rewrite Hpair; reflexivity).
  destruct (randomUUID (random w)) as [id tape2] eqn:Hid.
  erewrite bind_returns by (unfold drawM; cbn [random]; rewrite Hid; reflexivity).
  cbn [this local now random decryptions].
  match goal with |- context [bind (encryptM ?d ?n) _ ?w0] =>
    destruct (encryptM_total d n w0) as (pkg & He & _ & Hdec) end.
  erewrite bind_returns by exact He.
  cbn [this local now random decryptions].
  destruct (findAddress (pairAddress pair) (walletStoreIn (local w))) as [existing|] eqn:Hfa.
  - rewrite (addWallet_duplicate _ _ _ _ _ _ _ _ existing) by exact Hfa.
    eexists. split; [reflexivity|]. split; reflexivity.
  - match goal with |- context [addWallet ?i ?t ?n ?p ?e ?d ?pw ?w0] =>
      destruct (addWallet_new i t n p e d pw w0 Hfa) as (w' & Hrun & Hadded) end.
    rewrite Hrun. eexists w', _. split; [reflexivity|].
    split; [exact Hadded|]. cbn. auto 10.
Qed.

End PrivateKey.

Transparent WalletOps.addWallet.

(** X15: [importFromPrivateKey] decodes the key as hexadecimal (putting
    "0x" in front when [isHex] rejects it) and throws the length error,
    storing nothing, unless it gets 32 or 64 bytes.  The pair is made from
    the first 32 bytes only, while the key as given is what is sealed under
    the password.  For a key that [isHex] accepts, well formed and not
    starting with U+FEFF, with a new address and a new id and no failed
    attempt on record: the wallet is stored with type [privateKey] and
    unlocked, and after [lock] it is unlocked again by [unlockWallet] with
    the same password, which caches the same pair. *)
Theorem importFromPrivateKey_roundtrip (W : Crypto.WebCrypto) (K : WalletService.Keyring)
    (V : WalletOps.Vault) (HW : Crypto.WebCryptoSpec W) (w : WalletService.world)
    (name : string) (secretKey password : jsstring) (keyBytes : list byte) :
  (if WalletOps.isHex secretKey then WalletService.hexToU8a secretKey
   else WalletService.hexToU8a ([48; 120] ++ secretKey)) = Return keyBytes ->
  (length keyBytes <> 32%nat -> length keyBytes <> 64%nat ->
   WalletOps.importFromPrivateKey name secretKey password w =
     (Throw (Error "Invalid private key length. Expected 32 or 64 bytes."),
      WalletService.initialized w)) /\
  (length keyBytes = 32%nat \/ length keyBytes = 64%nat ->
   forall pair, WalletService.addFromSeed (take 32 keyBytes) = Return pair ->
   let id := fst (WalletOps.randomUUID (WalletService.random w)) in
   let store := WalletService.walletStoreIn (WalletService.local w) in
   WalletOps.isHex secretKey = true ->
   Encoding.isWellFormed secretKey = true ->
   Encoding.startsWithBOM secretKey = false ->
   WalletOps.findAddress (WalletOps.pairAddress pair) store = None ->
   WalletService.findWallet id store = None ->
   WalletService.unlockAttempts (WalletService.this w) !! id = None ->
   exists w1 imported stored,
     WalletOps.importFromPrivateKey name secretKey password w = (Return imported, w1) /\
     WalletOps.walletAdded w w1 stored pair /\
     imported = WalletOps.account stored /\
     WalletService.EncryptedWallet.id stored = id /\
     WalletService.EncryptedWallet.type stored = WalletService.privateKey /\
     Crypto.decrypt (WalletService.EncryptedWallet.encrypted stored) password
       = Return secretKey /\
     WalletService.getKeypair id (WalletService.this w1) = Some pair /\
     let w2 := snd (WalletService.lock w1) in
     WalletService.isUnlocked id (WalletService.this w2) = false /\
     exists w3,
       WalletService.unlockWallet id password w2 = (Return true, w3) /\
       WalletService.getKeypair id (WalletService.this w3) = Some pair).
Proof.
  intros Hbytes.
  pose proof (importFromPrivateKey_cases w name secretKey password keyBytes Hbytes) as Hc.
  split.
  - intros H32 H64.
    apply Nat.eqb_neq in H32, H64. rewrite H32, H64 in Hc. exact Hc.
  - intros Hlen pair Hpair id store Hhex Hwf Hbom Hfa Hfresh Hclean.
    assert (negb (length keyBytes =? 32)%nat && negb (length keyBytes =? 64)%nat = false)
      as Hok.
    { destruct Hlen as [-> | ->]; reflexivity. }
    rewrite Hok in Hc. specialize (Hc pair Hpair). fold store in Hc. rewrite Hfa in Hc.
    destruct Hc as (w1 & stored & Hrun & Hadded & Hid & Hty & _ & _ & Hpath & Hdec).
    fold id in Hid. rewrite (decode_encode secretKey Hwf Hbom) in Hdec.
    pose proof Hadded as (Hstore & Huw & Hua & _ & _ & _ & _).
    exists w1, (WalletOps.account stored), stored.
    split; [exact Hrun|]. split; [exact Hadded|]. split; [reflexivity|].
    split; [exact Hid|]. split; [exact Hty|]. split; [exact Hdec|].
    split; [unfold WalletService.getKeypair; rewrite Huw, Hid; apply lookup_insert_eq|].
    intros w2. subst w2. rewrite lock_world. cbn [snd].
    split; [unfold WalletService.isUnlocked; cbn; rewrite lookup_empty; reflexivity|].
    match goal with |- context [WalletService.unlockWallet id password ?w2] =>
      destruct (unlockWallet_right w2 id password secretKey stored pair)
        as (w3 & Hunlock & Hcached & _) end.
    + unfold WalletService.failuresOnRecord.
      cbn [WalletService.this WalletService.unlockAttempts].
      rewrite Hua. fold id. rewrite Hclean. lia.
    + cbn [WalletService.local]. rewrite walletStoreIn_keep, Hstore.
      rewrite findWallet_eq in Hfresh |- *. cbn [WalletService.WalletStore.wallets].
      apply find_app_last; [exact Hfresh|]. rewrite Hid. apply String.eqb_refl.
    + unfold WalletService.holdsSecret. rewrite Hty. reflexivity.
    + exact Hdec.
    + unfold WalletService.pairResult. rewrite Hty. cbn [fst].
      rewrite Hhex in Hbytes. rewrite Hbytes. cbn [bindC]. exact Hpair.
    + exists w3. split; [exact Hunlock|].
      unfold WalletService.getKeypair. rewrite Hcached. apply lookup_insert_eq.
Qed.

Lemma importFromPrivateKey_roundtrip_witness :
  let w := WalletService.World (WalletService.Service (K := Toy.keyring) ∅ ∅ ∅ None false)
             (WalletService.Storage None None None) 0 Toy.tape [] in
  let secretKey := 48 :: 120 :: replicate 30 97 in
  exists w1 imported,
    WalletOps.importFromPrivateKey (W := Toy.platform) (V := ToyOps.vault) "key" secretKey [97] w
      = (Return imported, w1) /\
    exists w3,
      WalletService.unlockWallet (W := Toy.platform)
        (fst (WalletOps.randomUUID (Vault := ToyOps.vault) Toy.tape)) [97]
        (snd (WalletService.lock w1)) = (Return true, w3).
Proof.
  intros w secretKey.
  destruct (importFromPrivateKey_roundtrip Toy.platform Toy.keyring ToyOps.vault toy_spec w
              "key" secretKey [97] (map byte_of_Z secretKey) eq_refl) as [_ H].
  destruct (H (or_introl eq_refl) (map Z_of_byte (take 32 (map byte_of_Z secretKey))) eq_refl
              eq_refl eq_refl eq_refl eq_refl eq_refl eq_refl)
    as (w1 & imported & stored & Hrun & _ & _ & _ & _ & _ & _ & _ & w3 & Hunlock & _).
  exists w1, imported. split; [exact Hrun|]. exists w3. exact Hunlock.
Defined.

(** X16: [updateSettings] overwrites exactly the settings that are given
    and keeps the others, the wallets and the active id; [getSettings] then
    returns the merged settings.  When [autoLockTimeout] is among them the
    auto-lock timer is replaced.  A value of zero or less cancels it, so
    that the unlocked wallets then stay unlocked at every later clock
    reading.  A positive value arms it with the delay of that many minutes
    in milliseconds, as [setTimeout] takes it: below 2^31 ms (up to 35791
    minutes) the timer is due that long after the call; from 2^31 ms to
    below 2^32 ms the delay does not fit the timer and it is due at once, so
    that the wallets are locked at the next clock reading; for a longer
    delay a timer is armed.  When the timeout is not given, the timer is
    left as it is. *)
Theorem updateSettings_merges (W : Crypto.WebCrypto) (K : WalletService.Keyring)
    (w : WalletService.world) (settings : WalletOps.PartialSettings.t) :
  let store := WalletService.walletStoreIn (WalletService.local w) in
  let current := WalletService.WalletStore.settings store in
  exists w' updated,
    WalletOps.updateSettings settings w = (Return tt, w') /\
    WalletService.walletStoreIn (WalletService.local w') =
      WalletService.WalletStore.Make (WalletService.WalletStore.version store)
        (WalletService.WalletStore.wallets store)
        (WalletService.WalletStore.activeWalletId store) updated /\
    fst (WalletOps.getSettings w') = Return updated /\
    WalletService.WalletStoreSettings.autoLockTimeout updated =
      default (WalletService.WalletStoreSettings.autoLockTimeout current)
        (WalletOps.PartialSettings.autoLockTimeout settings) /\
    WalletService.WalletStoreSettings.requirePasswordOnSend updated =
      default (WalletService.WalletStoreSettings.requirePasswordOnSend current)
        (WalletOps.PartialSettings.requirePasswordOnSend settings) /\
    WalletService.WalletStoreSettings.showTestNetworks updated =
      default (WalletService.WalletStoreSettings.showTestNetworks current)
        (WalletOps.PartialSettings.showTestNetworks settings) /\
    WalletService.WalletStoreSettings.language updated =
      default (WalletService.WalletStoreSettings.language current)
        (WalletOps.PartialSettings.language settings) /\
    (forall url, WalletOps.PartialSettings.customNodeUrl settings = Some url ->
       WalletService.WalletStoreSettings.customNodeUrl updated = Some url) /\
    (WalletOps.PartialSettings.customNodeUrl settings = None ->
     WalletService.WalletStoreSettings.customNodeUrl updated
       = WalletService.WalletStoreSettings.customNodeUrl current) /\
    (forall networkId, WalletOps.PartialSettings.selectedNetworkId settings = Some networkId ->
       WalletService.WalletStoreSettings.selectedNetworkId updated = Some networkId) /\
    (WalletOps.PartialSettings.selectedNetworkId settings = None ->
     WalletService.WalletStoreSettings.selectedNetworkId updated
       = WalletService.WalletStoreSettings.selectedNetworkId current) /\
    WalletService.unlockedWallets (WalletService.this w')
      = WalletService.unlockedWallets (WalletService.this w) /\
    match WalletOps.PartialSettings.autoLockTimeout settings with
    | Some minutes =>
        let delay := minutes * 60 * 1000 in
        let timer := WalletService.lockTimeout (WalletService.this w') in
        if minutes <=? 0 then timer = None
        else if delay <? 2147483648 then timer = Some (WalletService.now w + delay)
        else if delay <? 4294967296 then timer = Some (WalletService.now w)
        else is_Some timer
    | None =>
        WalletService.lockTimeout (WalletService.this w')
          = WalletService.lockTimeout (WalletService.this w)
    end /\
    (forall minutes t,
       WalletOps.PartialSettings.autoLockTimeout settings = Some minutes ->
       minutes <= 0 ->
       WalletService.unlockedWallets (WalletService.this (snd (WalletOps.clockReaches t w')))
         = WalletService.unlockedWallets (WalletService.this w)) /\
    (forall minutes t,
       WalletOps.PartialSettings.autoLockTimeout settings = Some minutes ->
       2147483648 <= minutes * 60 * 1000 < 4294967296 ->
       WalletService.now w <= t ->
       WalletService.unlockedWallets (WalletService.this (snd (WalletOps.clockReaches t w')))
         = ∅).
Proof.
  intros store current. subst store current.
  unfold WalletOps.updateSettings. rewrite read.
  destruct settings as [auto rp st url lang net].
  cbn [WalletOps.PartialSettings.autoLockTimeout WalletOps.PartialSettings.requirePasswordOnSend
       WalletOps.PartialSettings.showTestNetworks WalletOps.PartialSettings.customNodeUrl
       WalletOps.PartialSettings.language WalletOps.PartialSettings.selectedNetworkId].
  destruct auto as [minutes|]; run.
  - eexists _, _. split; [reflexivity|].
    cbn [WalletService.this WalletService.local WalletService.now].
    split; [apply walletStoreIn_saved|].
    split; [unfold WalletOps.getSettings; run; stores; reflexivity|].
    cbn. repeat (split; [reflexivity|]).
    split; [intros ? [= ->]; reflexivity|]. split; [intros ->; reflexivity|].
    split; [intros ? [= ->]; reflexivity|]. split; [intros ->; reflexivity|].
    split; [reflexivity|]. split; [|split].
    + destruct (Z.leb_spec minutes 0); destruct (Z.ltb_spec 0 minutes); try lia;
        [reflexivity|].
      destruct (Z.ltb_spec (minutes * 60 * 1000) 2147483648).
      { rewrite timerDelay_small by lia. reflexivity. }
      destruct (Z.ltb_spec (minutes * 60 * 1000) 4294967296); [|eauto].
      rewrite timerDelay_overflow by lia. rewrite Z.add_0_r. reflexivity.
    + intros minutes' t [= <-] Hle. rewrite clockReaches_world. cbn.
      destruct (Z.ltb_spec 0 minutes); [lia|]. reflexivity.
    + intros minutes' t [= <-] Hrange Ht. rewrite clockReaches_world. cbn.
      destruct (Z.ltb_spec 0 minutes); [|lia].
      rewrite timerDelay_overflow by lia. rewrite Z.add_0_r.
      destruct (Z.leb_spec (WalletService.now w) t); [|lia]. reflexivity.
  - eexists _, _. split; [reflexivity|].
    cbn [WalletService.this WalletService.local WalletService.now].
    split; [apply walletStoreIn_saved|].
    split; [unfold WalletOps.getSettings; run; stores; reflexivity|].
    cbn. repeat (split; [reflexivity|]).
    split; [intros ? [= ->]; reflexivity|]. split; [intros ->; reflexivity|].
    split; [intros ? [= ->]; reflexivity|]. split; [intros ->; reflexivity|].
    split; [destruct w as [[] ? ? ? ?]; reflexivity|].
    split; [destruct w as [[] ? ? ? ?]; reflexivity|].
    split; intros ? ? [=].
Qed.


(** * Password hashing, decryption failures, recent addresses *)

Transparent Crypto.decrypt.

Section HashingFacts.
Import Crypto Hashing.
Context {W : WebCrypto} `{!WebCryptoSpec W}.

Lemma hashPassword_returns (password : jsstring) :
  exists h, hashPassword password = Return h /\
            base64ToUint8Array h = Return (sha256 (Encoding.encode password)).
Proof. unfold hashPassword. apply base64_roundtrip. Qed.

Lemma verifyPassword_decides (password other : jsstring) (h : jsstring) :
  hashPassword password = Return h ->
  verifyPassword other h =
  Return (bool_decide (sha256 (Encoding.encode other) = sha256 (Encoding.encode password))).
Proof.
  intros Hh. unfold verifyPassword.
  destruct (hashPassword_returns other) as (h' & Hh' & _). rewrite Hh'. cbn.
  f_equal. apply bool_decide_ext. split.
  - intros ->. unfold hashPassword in *. apply (base64_injective _ _ h); assumption.
  - intros Heq. unfold hashPassword in *. rewrite Heq in Hh'. congruence.
Qed.

Lemma verifyPassword_returns (password storedHash : jsstring) :
  exists b, verifyPassword password storedHash = Return b.
Proof.
  unfold verifyPassword. destruct (hashPassword password); cbn; eauto.
Qed.

End HashingFacts.

(** X17: [hashPassword] returns the base64 text of the digest of the
    password's UTF-8 bytes, and [verifyPassword] never throws.  Against the
    hash of a password, [verifyPassword] answers [true] for exactly the
    strings whose UTF-8 bytes have the same digest: for the password itself,
    and also for a different string with the same UTF-8 bytes, as two
    different unpaired surrogates are. *)
Theorem verifyPassword_digest (W : Crypto.WebCrypto) (HW : Crypto.WebCryptoSpec W)
    (password : jsstring) :
  exists h,
    Hashing.hashPassword password = Return h /\
    Crypto.base64ToUint8Array h = Return (Crypto.sha256 (Encoding.encode password)) /\
    Hashing.verifyPassword password h = Return true /\
    (forall other,
       Hashing.verifyPassword other h =
       Return (bool_decide (Crypto.sha256 (Encoding.encode other)
                            = Crypto.sha256 (Encoding.encode password)))) /\
    (forall other storedHash, exists b, Hashing.verifyPassword other storedHash = Return b) /\
    (forall other, Encoding.encode other = Encoding.encode password ->
       Hashing.verifyPassword other h = Return true) /\
    Encoding.encode [0xDFFF] = Encoding.encode [0xD800].
Proof.
  destruct (hashPassword_returns password) as (h & Hh & Hb).
  exists h. split; [exact Hh|]. split; [exact Hb|].
  split; [rewrite (verifyPassword_decides password password h Hh);
          rewrite bool_decide_true by reflexivity; reflexivity|].
  split; [intros other; apply (verifyPassword_decides password other h Hh)|].
  split; [intros; apply verifyPassword_returns|].
  split; [|reflexivity].
  intros other Heq. rewrite (verifyPassword_decides password other h Hh), Heq.
  rewrite bool_decide_true by reflexivity. reflexivity.
Qed.

Lemma verifyPassword_digest_witness :
  exists h,
    Hashing.hashPassword (W := Toy.platform) [112; 119] = Return h /\
    Hashing.verifyPassword (W := Toy.platform) [112; 119] h = Return true.
Proof.
  destruct (verifyPassword_digest Toy.platform toy_spec [112; 119])
    as (h & Hh & _ & Hv & _).
  exists h. split; [exact Hh | exact Hv].
Defined.

Section DecryptFacts.
Import Crypto.
Context {W : WebCrypto}.

Lemma base64ToUint8Array_throws (base64 : jsstring) (e : exn) :
  base64ToUint8Array base64 = Throw e -> atob base64 = Throw e.
Proof.
  unfold base64ToUint8Array. destruct (atob base64); cbn [bindC];
    [discriminate | intros [= ->]; reflexivity].
Qed.

Lemma iterationsOf_nonzero (pkg : package) : iterationsOf pkg <> 0.
Proof.
  unfold iterationsOf. destruct (kdfParameters pkg) as [[[n|] ?]|]; try discriminate.
  destruct (Z.eqb_spec n 0); [discriminate | assumption].
Qed.

End DecryptFacts.

(** X18: what [decrypt] reads and how it fails.  It throws only the error
    [atob] throws for the ciphertext, the nonce or the salt (a field that is
    not base64), a TypeError for an iteration count below 0 or above
    2^32 - 1, or the OperationError of the cipher; with three fields in
    base64, a count outside that range always gives the TypeError.  It never
    reads the fields [algorithm], [kdf] and [kdfParams.hash]: changing them
    changes nothing.  A package without [kdfParams], without an iteration
    count, or with a count of zero is opened with the default count of
    900000. *)
Theorem decrypt_reads_and_fails (W : Crypto.WebCrypto) (password : jsstring)
    (c i s : jsstring) :
  (forall pkg e,
     Crypto.decrypt pkg password = Throw e ->
     e = OperationError \/
     (e = TypeError /\
      (Crypto.iterationsOf pkg < 0 \/ 4294967295 < Crypto.iterationsOf pkg)) \/
     Crypto.atob (Crypto.ciphertext pkg) = Throw e \/
     Crypto.atob (Crypto.iv pkg) = Throw e \/
     Crypto.atob (Crypto.salt pkg) = Throw e) /\
  (forall algorithm kdf hash count cb ib sb,
     Crypto.base64ToUint8Array c = Return cb ->
     Crypto.base64ToUint8Array i = Return ib ->
     Crypto.base64ToUint8Array s = Return sb ->
     count < 0 \/ 4294967295 < count ->
     Crypto.decrypt
       (Crypto.Package c i s algorithm kdf (Some (Crypto.KdfParams (Some count) hash)))
       password = Throw TypeError) /\
  (forall algorithm kdf algorithm' kdf' iterations hash hash',
     Crypto.decrypt
       (Crypto.Package c i s algorithm kdf (Some (Crypto.KdfParams iterations hash))) password
     = Crypto.decrypt
         (Crypto.Package c i s algorithm' kdf' (Some (Crypto.KdfParams iterations hash')))
         password) /\
  (forall algorithm kdf hash,
     let standard :=
       Crypto.decrypt
         (Crypto.Package c i s algorithm kdf
            (Some (Crypto.KdfParams (Some 900000) hash))) password in
     Crypto.decrypt (Crypto.Package c i s algorithm kdf None) password = standard /\
     Crypto.decrypt
       (Crypto.Package c i s algorithm kdf (Some (Crypto.KdfParams None hash))) password
       = standard /\
     Crypto.decrypt
       (Crypto.Package c i s algorithm kdf (Some (Crypto.KdfParams (Some 0) hash))) password
       = standard).
Proof.
  split; [|split; [|split]].
  - intros pkg e. unfold Crypto.decrypt.
    destruct (Crypto.base64ToUint8Array (Crypto.ciphertext pkg)) as [cb|e1] eqn:H1;
      cbn [bindC];
      [|intros [= <-]; right; right; left; apply base64ToUint8Array_throws, H1].
    destruct (Crypto.base64ToUint8Array (Crypto.iv pkg)) as [ib|e2] eqn:H2;
      cbn [bindC];
      [|intros [= <-]; right; right; right; left; apply base64ToUint8Array_throws, H2].
    destruct (Crypto.base64ToUint8Array (Crypto.salt pkg)) as [sb|e3] eqn:H3;
      cbn [bindC];
      [|intros [= <-]; right; right; right; right; apply base64ToUint8Array_throws, H3].
    unfold Crypto.deriveKey.
    destruct ((Crypto.iterationsOf pkg <? 0) || (4294967295 <? Crypto.iterationsOf pkg))
      eqn:Hrange.
    { cbn [bindC]. intros [= <-]. right. left. split; [reflexivity|].
      apply orb_true_iff in Hrange. destruct Hrange as [Hr|Hr]; apply Z.ltb_lt in Hr; auto. }
    destruct (Z.eqb_spec (Crypto.iterationsOf pkg) 0) as [Hz|_];
      [destruct (iterationsOf_nonzero pkg Hz)|].
    cbn [bindC]. destruct (Crypto.aesGcmDecrypt _ _ _); [discriminate|].
    intros [= <-]. left. reflexivity.
  - intros algorithm kdf hash count cb ib sb Hc Hi Hs Hrange. unfold Crypto.decrypt.
    cbn [Crypto.ciphertext Crypto.iv Crypto.salt]. rewrite Hc, Hi, Hs. cbn [bindC].
    unfold Crypto.iterationsOf. cbn [Crypto.kdfParameters].
    destruct (Z.eqb_spec count 0) as [->|_]; [lia|].
    unfold Crypto.deriveKey.
    assert ((count <? 0) || (4294967295 <? count) = true) as ->; [|reflexivity].
    apply orb_true_iff. destruct Hrange; [left | right]; apply Z.ltb_lt; assumption.
  - intros. reflexivity.
  - intros algorithm kdf hash standard. subst standard.
    split; [reflexivity|]. split; reflexivity.
Qed.

Opaque Crypto.decrypt.

Section RecentFacts.
Import RecentAddresses.

Lemma filter_other_In (a : string) (recent : list RecentAddress) (r : RecentAddress) :
  In r (List.filter (fun r => negb (String.eqb (address r) a)) recent) <->
  In r recent /\ address r <> a.
Proof.
  rewrite filter_In. rewrite negb_true_iff, String.eqb_neq. reflexivity.
Qed.

Lemma filter_sublist {A} (p : A -> bool) (l : list A) : sublist (List.filter p l) l.
Proof.
  induction l as [|x rest IH]; cbn; [constructor|].
  destruct (p x); [apply sublist_skip | apply sublist_cons]; exact IH.
Qed.

Lemma In_take {A} (n : nat) (l : list A) (x : A) : In x (take n l) -> In x l.
Proof.
  revert n. induction l as [|y rest IH]; intros [|n]; cbn; try tauto.
  intros [->|Hin]; [left; reflexivity | right; eapply IH; exact Hin].
Qed.

Lemma filter_take_comm_prefix {A} (p : A -> bool) (n : nat) (l : list A) :
  (forall x, In x (take n l) -> p x = true) -> List.filter p (take n l) = take n l.
Proof.
  revert n. induction l as [|x rest IH]; intros [|n] H; cbn in *; try reflexivity.
  rewrite (H x) by auto. f_equal. apply IH. auto.
Qed.

Lemma filter_idem {A} (p : A -> bool) (l : list A) :
  List.filter p (List.filter p l) = List.filter p l.
Proof.
  induction l as [|x rest IH]; cbn; [reflexivity|].
  destruct (p x) eqn:E; cbn; [rewrite E, IH; reflexivity | exact IH].
Qed.

Lemma filter_take_filter {A} (p : A -> bool) (n : nat) (l : list A) :
  List.filter p (take n (List.filter p l)) = take n (List.filter p l).
Proof.
  apply filter_take_comm_prefix. intros x Hin.
  apply In_take in Hin. apply filter_In in Hin. tauto.
Qed.

End RecentFacts.

(** X19: [addRecentAddress] stores a list of at most 10 entries whose
    first entry is the address just used, with its label and the time of
    the call.  The address occurs once in the stored list; the entries
    behind it are entries of the previous list with other addresses, in
    their previous order; a list without repeated addresses stays without
    them.  Using the same address again only refreshes its entry: the result
    is the one of a single use. *)
Theorem addRecentAddress_bounded (address : string) (label : option string) (now : Z)
    (stored : option (list RecentAddresses.RecentAddress)) :
  let recent := default [] stored in
  let result := RecentAddresses.addRecentAddress address label now stored in
  (length result <= 10)%nat /\
  length result = Nat.min 10 (S (length (List.filter
    (fun r => negb (String.eqb (RecentAddresses.address r) address)) recent))) /\
  (exists others,
     result = RecentAddresses.Recent address now label :: others /\
     sublist others recent /\
     Forall (fun r => RecentAddresses.address r <> address) others) /\
  (NoDup (map RecentAddresses.address recent) ->
   NoDup (map RecentAddresses.address result)) /\
  (forall label' now',
     RecentAddresses.addRecentAddress address label' now' (Some result)
     = RecentAddresses.addRecentAddress address label' now' stored).
Proof.
  intros recent result. subst result. unfold RecentAddresses.addRecentAddress.
  fold recent. cbv zeta. unfold RecentAddresses.MAX_RECENT.
  set (filtered := List.filter
         (fun r => negb (String.eqb (RecentAddresses.address r) address)) recent).
  cbn [take].
  assert (Forall (fun r => RecentAddresses.address r <> address) (take 9 filtered)) as Hothers.
  { apply List.Forall_forall. intros r Hin.
    apply In_take in Hin. apply filter_other_In in Hin. tauto. }
  assert (sublist (take 9 filtered) recent) as Hsub.
  { etransitivity; [apply sublist_take | apply filter_sublist]. }
  split; [cbn [length]; rewrite length_take; lia|].
  split; [cbn [length]; rewrite length_take; lia|].
  split; [exists (take 9 filtered); auto|].
  split.
  - intros Hnd. cbn [map]. constructor.
    + intros Hin. apply list_elem_of_In, in_map_iff in Hin.
      destruct Hin as (r & Hr & Hin).
      apply (proj1 (List.Forall_forall _ _) Hothers r Hin Hr).
    + eapply sublist_NoDup; [exact Hnd | apply (fmap_sublist _ _ _ Hsub)].
  - intros label' now'. cbn [default from_option]. unfold id.
    cbn [List.filter RecentAddresses.address].
    rewrite String.eqb_refl. cbn [negb].
    subst filtered. rewrite filter_take_filter. rewrite take_take. reflexivity.
Qed.


(** * The approval broker: ids and settlements *)

Section ApprovalIds.
Import DappHandler Approvals.
Context {Value : Type}.
Implicit Types (st : handler Value).

Lemma consistent_initial : consistent (initial (Value := Value)).
Proof.
  unfold consistent, initial. cbn. split; [lia|]. split.
  - intros id p. rewrite lookup_empty. discriminate.
  - split; [constructor|]. split; [apply NoDup_nil_2|]. intros id [p Hp].
    rewrite lookup_empty in Hp. discriminate.
Qed.

Lemma NoDup_snoc {A} (l : list A) (x : A) : NoDup l -> ~ In x l -> NoDup (l ++ [x]).
Proof.
  intros Hl Hx. apply NoDup_app. split; [exact Hl|]. split; [|apply NoDup_singleton].
  intros y Hy Hy'. apply list_elem_of_singleton in Hy'. subst y.
  apply Hx. apply list_elem_of_In. exact Hy.
Qed.

(** Settling a pending approval, as the timer and [resolveApproval] do. *)
Lemma consistent_settle st (id : Z) (pending : PendingApproval Value)
    (c : completion (option Value)) :
  consistent st ->
  pendingApprovals st !! id = Some pending ->
  consistent (Handler (delete id (pendingApprovals st)) (nextApprovalId st) (timers st)
                (now st) (settled st ++ [(id, c)])).
Proof.
  intros (H1 & Hp & Hs & Hn & Hd) Hid. unfold consistent. cbn.
  split; [exact H1|]. split; [|split; [|split]].
  - intros id' p'. destruct (decide (id = id')) as [->|Hne].
    + rewrite lookup_delete_eq. discriminate.
    + rewrite lookup_delete_ne by exact Hne. apply Hp.
  - apply Forall_app. split; [exact Hs|]. constructor; [|constructor]. cbn.
    apply (Hp id pending Hid).
  - rewrite map_app. cbn. apply NoDup_snoc; [exact Hn|]. apply Hd. eauto.
  - intros id' Hsome. rewrite map_app. cbn. intros Hin. apply in_app_or in Hin.
    destruct (decide (id = id')) as [->|Hne].
    + rewrite lookup_delete_eq in Hsome. destruct Hsome as [? [=]].
    + rewrite lookup_delete_ne in Hsome by exact Hne.
      destruct Hin as [Hin|[Heq|[]]]; [exact (Hd id' Hsome Hin) | congruence].
Qed.

Lemma consistent_approvalTimeout st (id : Z) :
  consistent st -> consistent (approvalTimeout id st).
Proof.
  intros H. unfold approvalTimeout.
  destruct (pendingApprovals st !! id) as [p|] eqn:E; [|exact H].
  apply (consistent_settle st id p); assumption.
Qed.

Lemma consistent_resolveApproval st (id : Z) (approved : bool) (result : option Value) :
  consistent st -> consistent (resolveApproval id approved result st).
Proof.
  intros H. unfold resolveApproval.
  destruct (pendingApprovals st !! id) as [p|] eqn:E; [|exact H].
  apply (consistent_settle st id p); assumption.
Qed.

Lemma consistent_timers st (kept : list (Z * Z)) (t : Z) :
  consistent st ->
  consistent (Handler (pendingApprovals st) (nextApprovalId st) kept t (settled st)).
Proof. intros H. exact H. Qed.

Lemma consistent_fireDue (t : Z) (pending : list (Z * Z)) st :
  consistent st -> consistent (snd (fireDue t pending st)).
Proof.
  revert st. induction pending as [|[due id] rest IH]; intros st H; [exact H|].
  cbn [fireDue]. destruct (due <=? t).
  - apply IH, consistent_approvalTimeout, H.
  - specialize (IH st H). destruct (fireDue t rest st) as [kept st']. exact IH.
Qed.

Lemma consistent_advanceTo (t : Z) st : consistent st -> consistent (advanceTo t st).
Proof.
  intros H. unfold advanceTo. pose proof (consistent_fireDue t (timers st) st H) as H'.
  destruct (fireDue t (timers st) st) as [kept st']. exact H'.
Qed.

Lemma consistent_requestApproval st (origin method : string) (params : option Value)
    (popup : completion unit) :
  consistent st ->
  consistent (snd (requestApproval origin method params popup st)).
Proof.
  intros H. unfold requestApproval.
  destruct popup as [[]|e]; [|exact H]. destruct H as (H1 & Hp & Hs & Hn & Hd). cbn [snd].
  unfold consistent. cbn. split; [lia|]. split; [|split; [|split]].
  - intros id p. destruct (decide (nextApprovalId st = id)) as [<-|Hne].
    + rewrite lookup_insert_eq. intros [= <-]. cbn. split; [reflexivity | lia].
    + rewrite lookup_insert_ne by exact Hne. intros Hl.
      destruct (Hp id p Hl). split; [assumption | lia].
  - eapply Forall_impl; [exact Hs|]. cbn. intros; lia.
  - exact Hn.
  - intros id Hsome Hin.
    destruct (decide (nextApprovalId st = id)) as [<-|Hne].
    + apply in_map_iff in Hin. destruct Hin as ([id' c] & Heq & Hin). cbn in Heq. subst id'.
      pose proof (proj1 (List.Forall_forall _ _) Hs _ Hin) as Hlt. cbn in Hlt. lia.
    + rewrite lookup_insert_ne in Hsome by exact Hne. exact (Hd id Hsome Hin).
Qed.

Lemma consistent_step st (e : event Value) : consistent st -> consistent (step st e).
Proof.
  intros H. destruct e; cbn [step];
    [apply consistent_requestApproval | apply consistent_resolveApproval
    | apply consistent_advanceTo]; exact H.
Qed.

Lemma consistent_run (events : list (event Value)) st :
  consistent st -> consistent (run events st).
Proof.
  revert st. induction events as [|e rest IH]; intros st H; [exact H|].
  cbn [run fold_left]. apply IH, consistent_step, H.
Qed.

End ApprovalIds.

(** X20: in every state the approval broker reaches from its initial
    state, by requests, resolutions and the passing of time in any order:
    ids are handed out in increasing order from 1, so a new request gets an
    id that no pending and no settled approval has, and it overwrites
    nothing; each pending approval is stored under its own id; and the
    promise of an approval is settled at most once, whether by the user's
    answer or by the timeout, and not while it is still pending. *)
Theorem approval_ids_fresh (Value : Type) (events : list (DappHandler.event Value)) :
  let st := DappHandler.run events DappHandler.initial in
  Approvals.consistent st /\
  NoDup (map fst (DappHandler.settled st)) /\
  (forall origin method params,
     let id := DappHandler.nextApprovalId st in
     let st' := snd (DappHandler.requestApproval origin method params (Return tt) st) in
     DappHandler.pendingApprovals st !! id = None /\
     ~ In id (map fst (DappHandler.settled st)) /\
     DappHandler.nextApprovalId st' = id + 1 /\
     (forall other, other <> id ->
        DappHandler.pendingApprovals st' !! other = DappHandler.pendingApprovals st !! other)).
Proof.
  intros st. pose proof (consistent_run events _ (consistent_initial (Value := Value))) as H.
  fold st in H. split; [exact H|].
  destruct H as (H1 & Hp & Hs & Hn & Hd). split; [exact Hn|].
  intros origin method params id st'. subst id st'. cbn.
  split.
  { destruct (DappHandler.pendingApprovals st !! DappHandler.nextApprovalId st) as [p|] eqn:E;
      [|reflexivity].
    destruct (Hp _ p E). lia. }
  split.
  { intros Hin. apply in_map_iff in Hin. destruct Hin as ([id' c] & Heq & Hin).
    cbn in Heq. subst id'.
    pose proof (proj1 (List.Forall_forall _ _) Hs _ Hin) as Hlt. cbn in Hlt. lia. }
  split; [reflexivity|].
  intros other Hne. apply lookup_insert_ne. congruence.
Qed.


(** ** Extras: the dApp handler's requests and permissions *)

Opaque WalletService.findWallet Crypto.decrypt Crypto.encrypt WalletService.pairOf WalletService.walletStoreIn WalletService.hotkeyStoreIn.

Section DappFacts.
Context {W : Crypto.WebCrypto} {K : WalletService.Keyring} {V : WalletOps.Vault}
        {C : ConnectionManager.Chain} {L : Queries.Ledger}
        {Value : Type} {R : DappOps.Requests Value}.

Import DappOps.

Lemma liftW_getWallets (st : state Value) :
  liftW WalletOps.getWallets st
    = (Return (map WalletOps.account
                 (WalletService.WalletStore.wallets
                    (WalletService.walletStoreIn (WalletService.local (wallet st))))), st).
Proof. destruct st as [[] ? ? ? ?]. reflexivity. Qed.

Lemma liftW_getActiveWallet (st : state Value) :
  liftW WalletOps.getActiveWallet st = (fst (WalletOps.getActiveWallet (wallet st)), st).
Proof.
  destruct st as [w p s a l]. unfold liftW. cbn [wallet permissions session approvals link].
  unfold WalletOps.getActiveWallet, WalletService.getWalletStore, WalletService.getLocal,
    WalletService.bind, WalletService.ret.
  destruct (WalletService.WalletStore.activeWalletId _) as [i|]; [|reflexivity].
  destruct (String.eqb i ""); [reflexivity|].
  destruct (WalletService.findWallet _ _); reflexivity.
Qed.

Lemma getActiveWallet_reads (w : WalletService.world) :
  exists r, WalletOps.getActiveWallet w = (Return r, w).
Proof.
  unfold WalletOps.getActiveWallet, WalletService.getWalletStore, WalletService.getLocal,
    WalletService.bind, WalletService.ret.
  destruct (WalletService.WalletStore.activeWalletId _) as [i|]; [|eauto].
  destruct (String.eqb i ""); [eauto|].
  destruct (WalletService.findWallet _ _); eauto.
Qed.

Lemma reads_bind {A B} (m : D Value A) (k : A -> D Value B) :
  reads m -> (forall a, reads (k a)) -> reads (bindD m k).
Proof.
  intros Hm Hk st. unfold bindD. specialize (Hm st).
  destruct (m st) as [[a|e] st1]; cbn in *; [|exact Hm].
  rewrite Hk. exact Hm.
Qed.

Lemma reads_ret {A} (a : A) : reads (retD (K := K) (Value := Value) a).
Proof. intros st. reflexivity. Qed.

Lemma reads_throw {A} (e : exn) : reads (throwD (K := K) (Value := Value) (A := A) e).
Proof. intros st. reflexivity. Qed.

Lemma reads_getPermissions : reads (getPermissions (Value := Value)).
Proof. intros st. reflexivity. Qed.

Lemma reads_getWallets : reads (liftW (Value := Value) WalletOps.getWallets).
Proof. intros st. rewrite liftW_getWallets. reflexivity. Qed.

Lemma reads_getActiveWallet : reads (liftW (Value := Value) WalletOps.getActiveWallet).
Proof. intros st. rewrite liftW_getActiveWallet. reflexivity. Qed.

Lemma reads_handleGetAccounts origin : reads (handleGetAccounts (Value := Value) origin).
Proof.
  unfold handleGetAccounts. apply reads_bind; [apply reads_getPermissions|]. intros p.
  destruct (negb _); [apply reads_ret|].
  apply reads_bind; [apply reads_getWallets|]. intros ws. apply reads_ret.
Qed.

Lemma reads_handleGetBalance origin params : reads (handleGetBalance origin params).
Proof.
  unfold handleGetBalance. apply reads_bind; [apply reads_getPermissions|]. intros p.
  destruct (negb _); [apply reads_throw|].
  apply reads_bind.
  - assert (Hactive : reads (bindD (liftW (Value := Value) WalletOps.getActiveWallet)
              (fun activeWallet => match activeWallet with
               | None => throwD (Error "No active wallet")
               | Some activeWallet => retD (WalletOps.WalletAccount.address activeWallet)
               end))).
    { apply reads_bind; [apply reads_getActiveWallet|].
      intros [a|]; [apply reads_ret | apply reads_throw]. }
    destruct (addressParam params) as [[|c rest]|]; [exact Hactive | apply reads_ret | exact Hactive].
  - intros address. destruct (negb _); [apply reads_throw|]. intros st. reflexivity.
Qed.

Lemma openApprovalPopup_state method origin params env (st : state Value) :
  let st' := snd (openApprovalPopup method origin params env st) in
  wallet st' = wallet st /\ permissions st' = permissions st /\
  approvals st' = approvals st /\ link st' = link st.
Proof.
  unfold openApprovalPopup. destruct (sessionSet env); cbn; auto.
Qed.

Lemma handleConnect_state origin env (st : state Value) :
  let st' := snd (handleConnect origin env st) in
  wallet st' = wallet st /\ permissions st' = permissions st /\
  approvals st' = approvals st /\ link st' = link st.
Proof.
  unfold handleConnect, bindD, getPermissions.
  destruct (isConnectedSite _ _).
  - rewrite liftW_getWallets. cbn. auto.
  - pose proof (openApprovalPopup_state "connect" origin None env st) as Ho.
    destruct (openApprovalPopup _ _ _ _ st) as [[?|?] st1]; cbn in *; exact Ho.
Qed.

Lemma requestApproval_state origin method params env (st : state Value) :
  let st' := snd (requestApproval origin method params env st) in
  wallet st' = wallet st /\ permissions st' = permissions st /\ link st' = link st.
Proof.
  unfold requestApproval.
  pose proof (openApprovalPopup_state method origin params env st) as Ho.
  destruct (openApprovalPopup _ _ _ _ st) as [opened st1]. cbn in Ho.
  destruct (DappHandler.requestApproval _ _ _ _ _) as [r a]. cbn.
  tauto.
Qed.

(** What one request does to the wallet service, the permissions and the
    connection manager. *)
Lemma handleRequest_state origin method params env (st : state Value) :
  let st' := snd (handleRequest origin method params env st) in
  wallet st' = wallet st /\ link st' = link st /\
  permissions st'
    = if String.eqb method "disconnect" then delete origin (permissions st)
      else permissions st.
Proof.
  unfold handleRequest.
  destruct (String.eqb method "connect") eqn:Hc.
  { apply String.eqb_eq in Hc. subst method. cbn [String.eqb Ascii.eqb Bool.eqb].
    pose proof (handleConnect_state origin env st) as Hs. unfold bindD.
    destruct (handleConnect origin env st) as [[?|?] st1]; cbn in *; tauto. }
  destruct (String.eqb method "disconnect") eqn:Hd.
  { unfold bindD, handleDisconnect, getPermissions, savePermissions. cbn. auto. }
  destruct (String.eqb method "getAccounts").
  { unfold bindD. pose proof (reads_handleGetAccounts origin st) as Hs.
    destruct (handleGetAccounts origin st) as [[?|?] st1]; cbn in *; subst; auto. }
  destruct (String.eqb method "getBalance").
  { unfold bindD. pose proof (reads_handleGetBalance origin params st) as Hs.
    destruct (handleGetBalance origin params st) as [[?|?] st1]; cbn in *; subst; auto. }
  destruct (isApprovalMethod method).
  { unfold bindD. pose proof (requestApproval_state origin method params env st) as Hs.
    destruct (requestApproval origin method params env st) as [[?|?] st1]; cbn in *; tauto. }
  cbn. auto.
Qed.

End DappFacts.

Section DappSteps.
Context {W : Crypto.WebCrypto} {K : WalletService.Keyring} {V : WalletOps.Vault}
        {C : ConnectionManager.Chain} {L : Queries.Ledger}
        {Value : Type} {R : DappOps.Requests Value}.

Import DappOps.

Lemma step_permissions (st : state Value) (e : event Value) (site : string) :
  permissions (step st e) !! site
    = if disconnects site e then None else permissions st !! site.
Proof.
  destruct e as [origin method params env|approvalId approved result|t]; cbn; [|reflexivity..].
  destruct (handleRequest_state origin method params env st) as (_ & _ & ->).
  destruct (String.eqb method "disconnect"); [|rewrite andb_false_r; reflexivity].
  rewrite andb_true_r. destruct (String.eqb origin site) eqn:Ho.
  - apply String.eqb_eq in Ho. subst. apply lookup_delete_eq.
  - apply String.eqb_neq in Ho. apply lookup_delete_ne. exact Ho.
Qed.

Lemma run_permissions (events : list (event Value)) (st : state Value) (site : string) :
  permissions (run events st) !! site
    = if existsb (disconnects site) events then None else permissions st !! site.
Proof.
  revert st. induction events as [|e events IH]; intros st; [reflexivity|].
  cbn [run fold_left existsb]. fold (run events (step st e)). rewrite IH, step_permissions.
  destruct (disconnects site e), (existsb (disconnects site) events); reflexivity.
Qed.

Lemma isConnectedSite_lookup (p : gmap string SitePermission) (site : string) :
  p !! site = None -> isConnectedSite p site = false.
Proof. unfold isConnectedSite. intros ->. reflexivity. Qed.

Lemma allowedOf_spec (p : gmap string SitePermission) (site : string)
    (permission : SitePermission) (stored : list WalletService.EncryptedWallet.t) :
  p !! site = Some permission ->
  allowedOf p site (map WalletOps.account stored)
    = List.filter (fun a => existsb (String.eqb a) (accounts permission))
        (map WalletService.EncryptedWallet.address stored).
Proof.
  intros Hp. unfold allowedOf. rewrite Hp. cbn [fmap option_fmap option_map default from_option].
  unfold id. induction stored as [|w stored IH]; [reflexivity|].
  cbn [map List.filter]. cbn [WalletOps.account WalletOps.WalletAccount.address].
  destruct (existsb _ _); cbn [map]; rewrite IH; reflexivity.
Qed.

Lemma existsb_eqb_In (a : string) (l : list string) :
  existsb (String.eqb a) l = true <-> In a l.
Proof.
  rewrite existsb_exists. split.
  - intros (x & Hx & He). apply String.eqb_eq in He. subst. exact Hx.
  - intros Ha. exists a. split; [exact Ha | apply String.eqb_refl].
Qed.

Lemma step_walletStore (st : state Value) (e : event Value) :
  WalletService.walletStoreIn (WalletService.local (wallet (step st e)))
    = WalletService.walletStoreIn (WalletService.local (wallet st)).
Proof.
  destruct e as [origin method params env|approvalId approved result|t]; cbn.
  - destruct (handleRequest_state origin method params env st) as (-> & _). reflexivity.
  - reflexivity.
  - apply keeps_clockReaches.
Qed.

Lemma run_walletStore (events : list (event Value)) (st : state Value) :
  WalletService.walletStoreIn (WalletService.local (wallet (run events st)))
    = WalletService.walletStoreIn (WalletService.local (wallet st)).
Proof.
  revert st. induction events as [|e events IH]; intros st; [reflexivity|].
  cbn [run fold_left]. fold (run events (step st e)). rewrite IH. apply step_walletStore.
Qed.

(** The addresses a site is shown: those of the stored wallets, in their
    order, that its permission lists. *)
Lemma handleGetAccounts_result (origin : string) (st : state Value) :
  handleGetAccounts origin st
    = (Return
         match permissions st !! origin with
         | Some permission =>
             if connected permission then
               List.filter (fun a => existsb (String.eqb a) (accounts permission))
                 (map WalletService.EncryptedWallet.address
                    (WalletService.WalletStore.wallets
                       (WalletService.walletStoreIn (WalletService.local (wallet st)))))
             else []
         | None => []
         end, st).
Proof.
  unfold handleGetAccounts, bindD, getPermissions, isConnectedSite.
  destruct (permissions st !! origin) as [permission|] eqn:Hp; [|reflexivity].
  destruct (connected permission); [|reflexivity]. cbn [negb].
  rewrite liftW_getWallets. unfold retD. rewrite (allowedOf_spec _ _ _ _ Hp). reflexivity.
Qed.

End DappSteps.

(** X21: nothing that reaches the handler from outside grants or changes a
    site permission.  After any sequence of page requests, answers to
    approvals and timer ticks, a site's permission is gone if the site
    itself asked to disconnect, and is what it was otherwise ([connect]
    stores nothing, and no page removes another site's permission); and
    [getAccounts] answers the site with the empty list in the first case and
    with what it answered before in the second. *)
Theorem requests_never_grant (W : Crypto.WebCrypto) (K : WalletService.Keyring)
    (V : WalletOps.Vault) (C : ConnectionManager.Chain) (L : Queries.Ledger)
    (Value : Type) (R : DappOps.Requests Value)
    (events : list (DappOps.event Value)) (st : DappOps.state Value) (site : string) :
  DappOps.permissions (DappOps.run events st) !! site
    = (if existsb (DappOps.disconnects site) events then None
       else DappOps.permissions st !! site) /\
  fst (DappOps.handleGetAccounts site (DappOps.run events st))
    = (if existsb (DappOps.disconnects site) events then Return []
       else fst (DappOps.handleGetAccounts site st)).
Proof.
  split; [apply run_permissions|].
  rewrite !handleGetAccounts_result. cbn [fst].
  rewrite run_permissions, run_walletStore.
  destruct (existsb _ _); reflexivity.
Qed.

(** X22: the life of a site permission.  After [grantPermission] for a
    site (other than the key ["__proto__"]), [getAccounts] answers the site
    with the addresses of the stored wallets that were granted, in the
    order of the wallet store, and with no other; the permissions of other
    sites are as before.  After [revokePermission] the site is answered with
    the empty list, an approved action for it fails with "Not connected",
    and the permissions are those before the grant without the site's. *)
Theorem permission_lifecycle (W : Crypto.WebCrypto) (K : WalletService.Keyring)
    (V : WalletOps.Vault) (C : ConnectionManager.Chain) (L : Queries.Ledger)
    (Value : Type) (R : DappOps.Requests Value) (st : DappOps.state Value)
    (origin : string) (accounts : list string) (method : string) (params : option Value) :
  origin <> "__proto__"%string ->
  let st1 := snd (DappOps.grantPermission origin accounts st) in
  let st2 := snd (DappOps.revokePermission origin st1) in
  let stored :=
    map WalletService.EncryptedWallet.address
      (WalletService.WalletStore.wallets
         (WalletService.walletStoreIn (WalletService.local (DappOps.wallet st)))) in
  exists listed,
    DappOps.handleGetAccounts origin st1 = (Return listed, st1) /\
    (forall a, In a listed <-> In a stored /\ In a accounts) /\
    listed `sublist_of` stored /\
    (forall site, site <> origin ->
       DappOps.permissions st1 !! site = DappOps.permissions st !! site) /\
    DappOps.handleGetAccounts origin st2 = (Return [], st2) /\
    DappOps.executeApprovedAction method origin params st2
      = (ConnectionManager.Settled (Throw (Error "Not connected")), st2) /\
    DappOps.permissions st2 = delete origin (DappOps.permissions st).
Proof.
  intros Hproto st1 st2 stored.
  assert (H1 : st1 = DappOps.State (DappOps.wallet st)
                 (<[origin := DappOps.Permission true accounts
                                (DappHandler.now (DappOps.approvals st))]>
                    (DappOps.permissions st))
                 (DappOps.session st) (DappOps.approvals st) (DappOps.link st)).
  { subst st1. unfold DappOps.grantPermission, DappOps.bindD, DappOps.getPermissions,
      DappOps.savePermissions. cbn [snd fst].
    apply String.eqb_neq in Hproto. rewrite Hproto. reflexivity. }
  assert (H2 : st2 = DappOps.State (DappOps.wallet st) (delete origin (DappOps.permissions st))
                 (DappOps.session st) (DappOps.approvals st) (DappOps.link st)).
  { subst st2. rewrite H1. unfold DappOps.revokePermission, DappOps.bindD,
      DappOps.getPermissions, DappOps.savePermissions. cbn.
    rewrite delete_insert_eq. reflexivity. }
  clearbody st1 st2. subst st1 st2.
  eexists. split.
  { rewrite handleGetAccounts_result. cbn [DappOps.permissions DappOps.wallet].
    rewrite lookup_insert_eq. cbn [DappOps.connected DappOps.accounts]. reflexivity. }
  fold stored. split.
  { intros a. rewrite filter_In, existsb_eqb_In. tauto. }
  split.
  { clear. induction stored as [|a l IH]; cbn [List.filter]; [constructor|].
    destruct (existsb _ _); [apply sublist_skip | apply sublist_cons]; exact IH. }
  split.
  { intros site Hs. cbn [DappOps.permissions]. apply lookup_insert_ne. congruence. }
  split.
  { rewrite handleGetAccounts_result. cbn [DappOps.permissions].
    rewrite lookup_delete_eq. reflexivity. }
  split; [|reflexivity].
  unfold DappOps.executeApprovedAction. cbn [DappOps.permissions].
  unfold DappOps.isConnectedSite. rewrite lookup_delete_eq. reflexivity.
Qed.

Lemma permission_lifecycle_witness :
  let st :=
    DappOps.State (Value := jsstring)
      (Toy.worldWith [Toy.wallet "a" WalletService.hd [115] [97];
                      Toy.wallet "b" WalletService.hd [116] [97]] [] 0)
      ∅ None DappHandler.initial Toy.connected in
  let st1 := snd (DappOps.grantPermission "https://app" ["b"; "c"]%string st) in
  let st2 := snd (DappOps.revokePermission "https://app" st1) in
  "https://app"%string <> "__proto__"%string /\
  exists listed,
    DappOps.handleGetAccounts "https://app" st1 = (Return listed, st1) /\
    (forall a, In a listed <-> In a ["a"; "b"]%string /\ In a ["b"; "c"]%string) /\
    DappOps.handleGetAccounts "https://app" st2 = (Return [], st2).
Proof.
  intros st st1 st2.
  assert (Hne : "https://app"%string <> "__proto__"%string) by discriminate.
  split; [exact Hne|].
  destruct (permission_lifecycle Toy.platform Toy.keyring ToyOps.vault Toy.chain
              ToyDapp.ledger jsstring ToyDapp.requests st "https://app"
              ["b"; "c"]%string "signMessage" None Hne)
    as (listed & Hrun & Hin & _ & _ & Hgone & _).
  exists listed. split; [exact Hrun|]. split; [exact Hin | exact Hgone].
Defined.

Section ApprovedActions.
Context {W : Crypto.WebCrypto} {K : WalletService.Keyring} {V : WalletOps.Vault}
        {C : ConnectionManager.Chain} {L : Queries.Ledger}
        {Value : Type} {R : DappOps.Requests Value}.

Import DappOps.

Lemma state_eta (st : state Value) :
  State (wallet st) (permissions st) (session st) (approvals st) (link st) = st.
Proof. destruct st. reflexivity. Qed.

Lemma isUnlocked_getKeypair (walletId : string) (s : WalletService.service) :
  WalletService.isUnlocked walletId s = true ->
  exists keypair, WalletService.getKeypair walletId s = Some keypair.
Proof.
  unfold WalletService.isUnlocked, WalletService.getKeypair. intros Hu.
  apply bool_decide_eq_true in Hu. destruct Hu as [keypair Hk]. eauto.
Qed.

(** An approved action up to its [switch]: the four guards. *)
Lemma executeApprovedAction_guards (method origin : string) (params : option Value)
    (st : state Value) :
  (exists e, executeApprovedAction method origin params st
               = (ConnectionManager.Settled (Throw e), st) /\
             In e [Error "Not connected"; Error "No active wallet"; Error "Wallet is locked"])
  \/
  (exists activeWallet keypair,
     isConnectedSite (permissions st) origin = true /\
     WalletOps.getActiveWallet (wallet st) = (Return (Some activeWallet), wallet st) /\
     WalletService.getKeypair (WalletOps.WalletAccount.id activeWallet)
       (WalletService.this (wallet st)) = Some keypair).
Proof.
  unfold executeApprovedAction.
  destruct (isConnectedSite (permissions st) origin) eqn:Hc; cbn [negb].
  2:{ left. eexists. split; [reflexivity|]. cbn. auto. }
  destruct (getActiveWallet_reads (wallet st)) as [[activeWallet|] Ha]; rewrite Ha.
  2:{ left. eexists. rewrite state_eta. split; [reflexivity|]. cbn. auto. }
  destruct (WalletService.isUnlocked _ _) eqn:Hu; cbn [negb].
  2:{ left. eexists. rewrite state_eta. split; [reflexivity|]. cbn. auto. }
  destruct (isUnlocked_getKeypair _ _ Hu) as [keypair Hk].
  right. exists activeWallet, keypair. auto.
Qed.

Lemma signMessage_unlocked (walletId : string) (message : jsstring)
    (keypair : WalletService.KeyringPair) (w : WalletService.world) :
  WalletService.getKeypair walletId (WalletService.this w) = Some keypair ->
  WalletOps.signMessage walletId message w
    = (bindC (WalletOps.pairSign keypair (Encoding.encode message))
         (fun signature => Return (WalletOps.u8aToHex signature)), w).
Proof.
  intros Hk. unfold WalletOps.signMessage, WalletService.bind, WalletService.getThis.
  rewrite Hk. unfold WalletOps.liftC, WalletService.ret.
  destruct (WalletOps.pairSign keypair _); reflexivity.
Qed.

End ApprovedActions.

(** X23: [handleRequest] sends a [signTransaction] request to approval like
    the other signing requests, but [executeApprovedAction] has no case for
    it: a call with this method changes nothing and throws, one of "Not
    connected", "No active wallet", "Wallet is locked" and "Unknown method:
    signTransaction".  The error "Failed to get keypair" is never among
    them. *)
Theorem signTransaction_never_executes (W : Crypto.WebCrypto) (K : WalletService.Keyring)
    (V : WalletOps.Vault) (C : ConnectionManager.Chain) (L : Queries.Ledger)
    (Value : Type) (R : DappOps.Requests Value) (st : DappOps.state Value)
    (origin : string) (params : option Value) :
  fst (DappOps.handleRequest origin "signTransaction" params
         (DappOps.Popup (Return tt) (Return tt)) st)
    = Return (DappOps.Awaiting (DappHandler.nextApprovalId (DappOps.approvals st))) /\
  exists e,
    DappOps.executeApprovedAction "signTransaction" origin params st
      = (ConnectionManager.Settled (Throw e), st) /\
    In e [Error "Not connected"; Error "No active wallet"; Error "Wallet is locked";
          Error "Unknown method: signTransaction"].
Proof.
  split; [reflexivity|].
  destruct (executeApprovedAction_guards "signTransaction" origin params st)
    as [(e & Hrun & Hin)|(activeWallet & keypair & Hc & Ha & Hk)].
  - exists e. split; [exact Hrun|]. cbn in Hin |- *. tauto.
  - eexists. split; [|cbn; eauto 6].
    unfold DappOps.executeApprovedAction. rewrite Hc, Ha. cbn [negb].
    unfold WalletService.isUnlocked. rewrite Hk.
    rewrite bool_decide_eq_true_2 by eauto. cbn [negb].
    rewrite state_eta. reflexivity.
Qed.

(** X24: an approved action signs with the active wallet whether or not the
    site was granted that wallet.  For a connected site whose permission
    does not list the address of the active, unlocked wallet: [getAccounts]
    does not show the address and [getBalance] without an address refuses
    with "Address not allowed", yet the approved [signMessage] returns the
    signature of the message made with the key pair of that wallet. *)
Theorem approved_action_unchecked (W : Crypto.WebCrypto) (K : WalletService.Keyring)
    (V : WalletOps.Vault) (C : ConnectionManager.Chain) (L : Queries.Ledger)
    (Value : Type) (R : DappOps.Requests Value) (st : DappOps.state Value)
    (origin : string) (params : option Value) (permission : DappOps.SitePermission)
    (activeWallet : WalletOps.WalletAccount.t) (keypair : WalletService.KeyringPair)
    (message : jsstring) :
  DappOps.permissions st !! origin = Some permission ->
  DappOps.connected permission = true ->
  fst (WalletOps.getActiveWallet (DappOps.wallet st)) = Return (Some activeWallet) ->
  WalletService.getKeypair (WalletOps.WalletAccount.id activeWallet)
    (WalletService.this (DappOps.wallet st)) = Some keypair ->
  ~ In (WalletOps.WalletAccount.address activeWallet) (DappOps.accounts permission) ->
  DappOps.addressParam params = None ->
  DappOps.messageParam params = Return message ->
  (exists listed,
     DappOps.handleGetAccounts origin st = (Return listed, st) /\
     ~ In (WalletOps.WalletAccount.address activeWallet) listed) /\
  DappOps.handleGetBalance origin params st = (Throw (Error "Address not allowed"), st) /\
  DappOps.executeApprovedAction "signMessage" origin params st
    = (ConnectionManager.Settled
         (bindC (WalletOps.pairSign keypair (Encoding.encode message))
            (fun signature => Return (DappOps.Signature (WalletOps.u8aToHex signature)))),
       st).
Proof.
  intros Hp Hc Ha Hk Hnot Haddr Hmsg.
  assert (Hsite : DappOps.isConnectedSite (DappOps.permissions st) origin = true).
  { unfold DappOps.isConnectedSite. rewrite Hp. exact Hc. }
  assert (Hnone : existsb (String.eqb (WalletOps.WalletAccount.address activeWallet))
                    (DappOps.accounts permission) = false).
  { destruct (existsb _ _) eqn:He; [|reflexivity]. apply existsb_eqb_In in He. tauto. }
  assert (Ha' : WalletOps.getActiveWallet (DappOps.wallet st)
                = (Return (Some activeWallet), DappOps.wallet st)).
  { destruct (getActiveWallet_reads (DappOps.wallet st)) as [r Hr]. rewrite Hr in Ha |- *.
    cbn in Ha. congruence. }
  split; [|split].
  - eexists. split; [apply handleGetAccounts_result|]. rewrite Hp, Hc.
    rewrite filter_In, existsb_eqb_In. tauto.
  - unfold DappOps.handleGetBalance, DappOps.bindD, DappOps.getPermissions.
    rewrite Hsite, Haddr. cbn [negb]. rewrite liftW_getActiveWallet, Ha'. cbn [fst].
    unfold DappOps.retD. rewrite Hp.
    cbn [fmap option_fmap option_map default from_option]. unfold id.
    rewrite Hnone. reflexivity.
  - unfold DappOps.executeApprovedAction. rewrite Hsite, Ha'. cbn [negb].
    unfold WalletService.isUnlocked. rewrite Hk.
    rewrite bool_decide_eq_true_2 by eauto. cbn [negb String.eqb Ascii.eqb Bool.eqb].
    rewrite Hmsg, (signMessage_unlocked _ _ _ _ Hk). cbn [DappOps.wallet DappOps.permissions
      DappOps.session DappOps.approvals DappOps.link]. rewrite !state_eta.
    destruct (WalletOps.pairSign keypair _); reflexivity.
Qed.

Lemma approved_action_unchecked_witness :
  let stored := Toy.wallet "a" WalletService.hd [115] [97] in
  let st :=
    DappOps.State (Value := jsstring)
      (WalletService.World
         (WalletService.Service (K := Toy.keyring)
            (<["a"%string := [115]]> (∅ : gmap string jsstring)) ∅ ∅ None true)
         (WalletService.Storage
            (Some (WalletService.WalletStore.Make 1 [stored] (Some "a"%string)
                     WalletService.DEFAULT_SETTINGS))
            None None)
         0 Toy.tape [])
      (<["https://app"%string := DappOps.Permission true ["b"%string] 0]> ∅)
      None DappHandler.initial Toy.connected in
  DappOps.handleGetBalance (L := ToyDapp.ledger) (R := ToyDapp.requests) "https://app"
    (Some [104; 105]) st
    = (Throw (Error "Address not allowed"), st) /\
  DappOps.executeApprovedAction (V := ToyOps.vault) (C := Toy.chain) (R := ToyDapp.requests)
    "signMessage" "https://app" (Some [104; 105]) st
    = (ConnectionManager.Settled
         (Return (DappOps.Signature (WalletOps.u8aToHex (replicate 64 x02)))), st).
Proof.
  intros stored st.
  assert (Hnot : ~ In "a"%string ["b"%string]) by (intros [H|[]]; discriminate).
  destruct (approved_action_unchecked Toy.platform Toy.keyring ToyOps.vault Toy.chain
              ToyDapp.ledger jsstring ToyDapp.requests st "https://app" (Some [104; 105])
              (DappOps.Permission true ["b"%string] 0) (WalletOps.account stored) [115]
              [104; 105] eq_refl eq_refl eq_refl eq_refl Hnot eq_refl eq_refl)
    as (_ & Hbalance & Hsign).
  split; [exact Hbalance | exact Hsign].
Defined.

(** X25: which requests register an approval.  A request with one of the
    five signing methods stores the request for the popup and opens it; if
    both succeed the request waits under the next approval id, registered
    with its origin, method and parameters.  If the popup cannot be opened
    the request fails with that error and no approval is registered, but
    the request stays stored for the popup; if it cannot be stored, nothing
    changes.  No other request touches the approvals, and a method that is
    none of the nine fails with "Unknown method: " and the method, changing
    nothing. *)
Theorem handleRequest_approvals (W : Crypto.WebCrypto) (K : WalletService.Keyring)
    (V : WalletOps.Vault) (C : ConnectionManager.Chain) (L : Queries.Ledger)
    (Value : Type) (R : DappOps.Requests Value) (st : DappOps.state Value)
    (origin method : string) (params : option Value) (env : DappOps.popup) :
  let r := fst (DappOps.handleRequest origin method params env st) in
  let st' := snd (DappOps.handleRequest origin method params env st) in
  let id := DappHandler.nextApprovalId (DappOps.approvals st) in
  let request :=
    DappOps.PendingRequest method origin params (DappHandler.now (DappOps.approvals st)) in
  if DappOps.isApprovalMethod method then
    match DappOps.sessionSet env, DappOps.openPopup env with
    | Return _, Return _ =>
        r = Return (DappOps.Awaiting id) /\
        DappHandler.pendingApprovals (DappOps.approvals st')
          = <[id := DappHandler.Approval id origin method params]>
              (DappHandler.pendingApprovals (DappOps.approvals st)) /\
        DappHandler.nextApprovalId (DappOps.approvals st') = id + 1 /\
        DappOps.session st' = Some request
    | Return _, Throw e =>
        r = Throw e /\ DappOps.approvals st' = DappOps.approvals st /\
        DappOps.session st' = Some request
    | Throw e, _ => r = Throw e /\ st' = st
    end
  else
    DappOps.approvals st' = DappOps.approvals st /\
    if String.eqb method "connect" || String.eqb method "disconnect"
       || String.eqb method "getAccounts" || String.eqb method "getBalance"
    then True
    else r = Throw (Error ("Unknown method: " +:+ method)) /\ st' = st.
Proof.
  intros r st' id request. subst r st'. unfold DappOps.handleRequest.
  destruct (String.eqb method "connect") eqn:Hc.
  { apply String.eqb_eq in Hc. subst method. cbn [DappOps.isApprovalMethod String.eqb
      Ascii.eqb Bool.eqb orb]. split; [|exact I].
    pose proof (handleConnect_state origin env st) as Hs. unfold DappOps.bindD.
    destruct (DappOps.handleConnect origin env st) as [[?|?] st1]; cbn in *; tauto. }
  destruct (String.eqb method "disconnect") eqn:Hd.
  { apply String.eqb_eq in Hd. subst method. cbn [DappOps.isApprovalMethod String.eqb
      Ascii.eqb Bool.eqb orb]. split; [reflexivity | exact I]. }
  destruct (String.eqb method "getAccounts") eqn:Hg.
  { apply String.eqb_eq in Hg. subst method. cbn [DappOps.isApprovalMethod String.eqb
      Ascii.eqb Bool.eqb orb]. split; [|exact I].
    unfold DappOps.bindD. pose proof (reads_handleGetAccounts origin st) as Hs.
    destruct (DappOps.handleGetAccounts origin st) as [[?|?] st1]; cbn in *; subst; auto. }
  destruct (String.eqb method "getBalance") eqn:Hb.
  { apply String.eqb_eq in Hb. subst method. cbn [DappOps.isApprovalMethod String.eqb
      Ascii.eqb Bool.eqb orb]. split; [|exact I].
    unfold DappOps.bindD. pose proof (reads_handleGetBalance origin params st) as Hs.
    destruct (DappOps.handleGetBalance origin params st) as [[?|?] st1]; cbn in *; subst; auto. }
  destruct (DappOps.isApprovalMethod method); [|cbn; auto].
  unfold DappOps.bindD, DappOps.requestApproval, DappOps.openApprovalPopup.
  destruct (DappOps.sessionSet env) as [[]|e].
  - destruct (DappOps.openPopup env) as [[]|e]; cbn; auto.
  - cbn. rewrite state_eta. auto.
Qed.


(** ** Extras: what the connection manager reconnects to *)

Section ReconnectFacts.
Import ConnectionManager ManagerEvents.

Lemma custom_unknown (networkId : string) :
  isCustomId networkId = true -> NETWORKS networkId = None.
Proof.
  unfold isCustomId. intros Hc. apply orb_true_iff in Hc. destruct Hc as [Hc|Hc].
  - apply String.eqb_eq in Hc. subst. reflexivity.
  - destruct networkId as [|a rest]; [discriminate|].
    change (String.prefix "custom_" (String a rest))
      with (if Ascii.ascii_dec (Ascii.ascii_of_nat 99) a then String.prefix "ustom_" rest else false) in Hc.
    destruct (Ascii.ascii_dec (Ascii.ascii_of_nat 99) a) as [<-|]; [|discriminate]. reflexivity.
Qed.

Lemma stranded_timer (st : manager) : stranded st -> step st TimerFired = st.
Proof.
  intros ((network & Hn & Hu) & Hc & _). cbn. rewrite Hn. unfold connectBegin.
  rewrite Hc, Hu. reflexivity.
Qed.

Lemma handleDisconnect_fields (st : manager) :
  let st' := handleDisconnect st in
  api st' = api st /\ provider st' = provider st /\ currentNetwork st' = currentNetwork st /\
  isConnecting st' = isConnecting st /\ inflight st' = inflight st /\
  maxReconnectAttempts st' = maxReconnectAttempts st /\
  notified st' = notified st ++ [false].
Proof.
  unfold handleDisconnect. destruct (_ && _); cbn; auto 10.
Qed.

Lemma stranded_step (st : manager) (e : event) :
  unattended e = true -> stranded st ->
  stranded (step st e) /\ currentNetwork (step st e) = currentNetwork st /\
  (if lost e then apiIsConnected (step st e) = false else api (step st e) = api st).
Proof.
  intros He Hs. destruct e; try discriminate He.
  - rewrite (stranded_timer st Hs). cbn [lost]. auto.
  - cbn [step lost].
    match goal with |- context [handleDisconnect ?s] =>
      destruct (handleDisconnect_fields s) as (Ha & _ & Hn & Hc & Hi & _) end.
    cbn [api currentNetwork isConnecting inflight] in *.
    unfold stranded, apiIsConnected. rewrite Ha, Hn, Hc, Hi.
    split; [exact Hs|]. split; [reflexivity|]. destruct (api st); reflexivity.
  - cbn [step lost]. destruct (handleDisconnect_fields st) as (Ha & _ & Hn & Hc & Hi & _).
    unfold stranded. rewrite Hn, Hc, Hi. auto.
Qed.

Lemma stranded_run (events : list event) (st : manager) :
  forallb unattended events = true -> stranded st ->
  stranded (run events st) /\ currentNetwork (run events st) = currentNetwork st /\
  (if existsb lost events then apiIsConnected (run events st) = false
   else api (run events st) = api st).
Proof.
  revert st. induction events as [|e events IH]; intros st He Hs; [cbn; auto|].
  cbn [forallb] in He. apply andb_true_iff in He. destruct He as [He Hes].
  destruct (stranded_step st e He Hs) as (Hs1 & Hn1 & Ha1).
  destruct (IH (step st e) Hes Hs1) as (Hs2 & Hn2 & Ha2).
  cbn [run fold_left existsb]. fold (run events (step st e)).
  split; [exact Hs2|]. split; [congruence|].
  destruct (existsb lost events); [rewrite orb_true_r; exact Ha2|].
  rewrite orb_false_r. destruct (lost e).
  - unfold apiIsConnected in *. rewrite Ha2. exact Ha1.
  - congruence.
Qed.

End ReconnectFacts.

(** X26: the manager never reconnects to a custom node on its own.  After
    [connect] with a custom network id and a URL, whether the handshake
    succeeds or fails, the custom network is the current one; from then on
    every reconnect timer that fires calls [connect] with the id alone,
    which throws "Unknown network" inside the timer's [try] and changes
    nothing.  So over any sequence of lost links and fired timers no
    connection attempt is started, and once the link is lost the manager is
    never connected again. *)
Theorem custom_network_not_reconnected (st : ConnectionManager.manager)
    (networkId url : string) (ready : bool) (events : list ConnectionManager.event) :
  ManagerEvents.isCustomId networkId = true ->
  url <> ""%string ->
  ConnectionManager.isConnecting st = false ->
  ConnectionManager.inflight st = None ->
  forallb ManagerEvents.unattended events = true ->
  let st1 :=
    ConnectionManager.step
      (ConnectionManager.step st (ConnectionManager.ConnectCalled networkId (Some url)))
      (ConnectionManager.HandshakeDone ready) in
  let st2 := ConnectionManager.run events st1 in
  (exists network,
     ConnectionManager.currentNetwork st1 = Some network /\
     ConnectionManager.id network = networkId) /\
  ConnectionManager.currentNetwork st2 = ConnectionManager.currentNetwork st1 /\
  ConnectionManager.isConnecting st2 = false /\
  ConnectionManager.inflight st2 = None /\
  ConnectionManager.step st2 ConnectionManager.TimerFired = st2 /\
  fst (ConnectionManager.connectBegin networkId None st2)
    = Some (Throw (Error ("Unknown network: " +:+ networkId))) /\
  (if existsb ManagerEvents.lost events then ConnectionManager.apiIsConnected st2 = false
   else ConnectionManager.api st2 = ConnectionManager.api st1).
Proof.
  intros Hcustom Hurl Hidle Hflight Hevents st1 st2.
  pose proof (custom_unknown networkId Hcustom) as Hunknown.
  assert (H1 : (exists network,
                  ConnectionManager.currentNetwork st1 = Some network /\
                  ConnectionManager.id network = networkId) /\
               ConnectionManager.isConnecting st1 = false /\
               ConnectionManager.inflight st1 = None).
  { subst st1. cbn [ConnectionManager.step]. unfold ConnectionManager.connectBegin.
    rewrite Hidle. unfold ManagerEvents.isCustomId in Hcustom. rewrite Hcustom.
    apply String.eqb_neq in Hurl. rewrite Hurl. cbn [negb andb].
    destruct (ConnectionManager.apiIsConnected st
              && bool_decide (ConnectionManager.id <$> ConnectionManager.currentNetwork st
                              = Some networkId)) eqn:Hsame.
    - cbn [snd]. unfold ConnectionManager.connectEnd. rewrite Hflight. cbn [snd].
      apply andb_true_iff in Hsame. destruct Hsame as [_ Hsame].
      apply bool_decide_eq_true in Hsame.
      destruct (ConnectionManager.currentNetwork st) as [network|]; [|discriminate].
      cbn in Hsame. split; [exists network; split; congruence|]. auto.
    - cbn [snd]. unfold ConnectionManager.connectEnd.
      cbn [ConnectionManager.inflight]. destruct ready.
      + cbn. split; [eexists; split; reflexivity|]. auto.
      + cbn [snd].
        match goal with |- context [ConnectionManager.handleDisconnect ?s] =>
          destruct (handleDisconnect_fields s) as (_ & _ & Hn & Hc & Hi & _) end.
        rewrite Hn, Hc, Hi. cbn. split; [eexists; split; reflexivity|]. auto. }
  destruct H1 as ((network & Hn1 & Hid) & Hc1 & Hi1).
  assert (Hs : ManagerEvents.stranded st1).
  { split; [|auto]. exists network. split; [exact Hn1|]. rewrite Hid. exact Hunknown. }
  destruct (stranded_run events st1 Hevents Hs) as (Hs2 & Hn2 & Ha2).
  fold st2 in Hs2, Hn2, Ha2.
  split; [exists network; auto|]. split; [exact Hn2|].
  pose proof Hs2 as (_ & Hc2 & Hi2).
  split; [exact Hc2|]. split; [exact Hi2|]. split; [apply stranded_timer; exact Hs2|].
  split; [|exact Ha2].
  unfold ConnectionManager.connectBegin. rewrite Hc2, Hunknown. reflexivity.
Qed.

Lemma custom_network_not_reconnected_witness :
  let st1 :=
    ConnectionManager.step
      (ConnectionManager.step ConnectionManager.initial
         (ConnectionManager.ConnectCalled "custom_1" (Some "ws://node:9944"%string)))
      (ConnectionManager.HandshakeDone true) in
  let st2 :=
    ConnectionManager.run
      [ConnectionManager.LinkLost; ConnectionManager.TimerFired; ConnectionManager.TimerFired]
      st1 in
  ConnectionManager.apiIsConnected st1 = true /\
  ConnectionManager.scheduled st2 = [2000] /\
  ConnectionManager.apiIsConnected st2 = false /\
  ConnectionManager.isConnecting st2 = false.
Proof.
  intros st1 st2.
  assert (Hurl : "ws://node:9944"%string <> ""%string) by discriminate.
  destruct (custom_network_not_reconnected ConnectionManager.initial "custom_1"
              "ws://node:9944" true
              [ConnectionManager.LinkLost; ConnectionManager.TimerFired;
               ConnectionManager.TimerFired]
              eq_refl Hurl eq_refl eq_refl eq_refl)
    as (_ & _ & Hidle & _ & _ & _ & Hlost).
  split; [reflexivity|]. split; [reflexivity|]. split; [exact Hlost | exact Hidle].
Defined.

Section DisconnectFacts.
Import ConnectionManager ManagerEvents.

(** A manager that was told to disconnect and has no [connect] under way. *)
Lemma parked_step (st : manager) (e : event) :
  isConnectCall e = false ->
  api st = None -> currentNetwork st = None -> inflight st = None ->
  let st' := step st e in
  api st' = None /\ currentNetwork st' = None /\ inflight st' = None /\
  scheduled st' = scheduled st /\ isConnecting st' = isConnecting st /\
  (reconnectAttempts st = 0 -> reconnectAttempts st' = 0).
Proof.
  intros He Ha Hn Hi. destruct e; try discriminate He; cbn [step].
  - unfold connectEnd. rewrite Hi. cbn. auto 10.
  - rewrite Hn. auto 10.
  - rewrite Ha. unfold handleDisconnect. cbn. rewrite Hn.
    rewrite bool_decide_eq_false_2 by (intros [x Hx]; discriminate).
    rewrite andb_false_r. cbn. auto 10.
  - unfold handleDisconnect. rewrite Hn.
    rewrite bool_decide_eq_false_2 by (intros [x Hx]; discriminate).
    rewrite andb_false_r. cbn. auto 10.
  - unfold disconnect, disconnectInternal. cbn. auto 10.
Qed.

Lemma parked_run (events : list event) (st : manager) :
  forallb (fun e => negb (isConnectCall e)) events = true ->
  api st = None -> currentNetwork st = None -> inflight st = None ->
  reconnectAttempts st = 0 ->
  let st' := run events st in
  api st' = None /\ currentNetwork st' = None /\ inflight st' = None /\
  scheduled st' = scheduled st /\ isConnecting st' = isConnecting st /\
  reconnectAttempts st' = 0.
Proof.
  revert st. induction events as [|e events IH]; intros st He Ha Hn Hi Hr; [cbn; auto 10|].
  cbn [forallb] in He. apply andb_true_iff in He. destruct He as [He Hes].
  apply negb_true_iff in He.
  destruct (parked_step st e He Ha Hn Hi) as (Ha1 & Hn1 & Hi1 & Hs1 & Hc1 & Hr1).
  destruct (IH (step st e) Hes Ha1 Hn1 Hi1 (Hr1 Hr)) as (Ha2 & Hn2 & Hi2 & Hs2 & Hc2 & Hr2).
  cbn [run fold_left]. fold (run events (step st e)).
  repeat split; congruence.
Qed.

End DisconnectFacts.

(** X27: [disconnect()] ends the automatic reconnection.  On a manager
    with no [connect] under way, after [disconnect()] and until [connect] is
    called again, whatever else happens (links reported lost, timers set
    earlier firing, further [disconnect()] calls): the manager holds no
    [api] and no network, the attempt counter stays 0, no reconnect timer is
    set and no connection attempt is started, and each of the signing
    calls rejects with "Not connected". *)
Theorem disconnect_stops_reconnect (C : ConnectionManager.Chain)
    (st : ConnectionManager.manager) (events : list ConnectionManager.event)
    (signer : ConnectionManager.Signer) (to : string) (amount : Z) :
  ConnectionManager.inflight st = None ->
  forallb (fun e => negb (ManagerEvents.isConnectCall e)) events = true ->
  let st' := ConnectionManager.run events (ConnectionManager.disconnect st) in
  ConnectionManager.api st' = None /\
  ConnectionManager.currentNetwork st' = None /\
  ConnectionManager.reconnectAttempts st' = 0 /\
  ConnectionManager.scheduled st' = ConnectionManager.scheduled st /\
  ConnectionManager.inflight st' = None /\
  ConnectionManager.isConnecting st' = ConnectionManager.isConnecting st /\
  ConnectionManager.apiIsConnected st' = false /\
  ConnectionManager.transfer st' signer to amount
    = ConnectionManager.Settled (Throw (Error "Not connected")).
Proof.
  intros Hi He st'.
  destruct (parked_run events (ConnectionManager.disconnect st) He eq_refl eq_refl Hi eq_refl)
    as (Ha & Hn & Hi' & Hs & Hc & Hr).
  fold st' in Ha, Hn, Hi', Hs, Hc, Hr.
  repeat split; try assumption.
  - unfold ConnectionManager.apiIsConnected. rewrite Ha. reflexivity.
  - unfold ConnectionManager.transfer. rewrite Ha. reflexivity.
Qed.

Lemma disconnect_stops_reconnect_witness :
  let st' :=
    ConnectionManager.run
      [ConnectionManager.StaleLinkLost; ConnectionManager.TimerFired;
       ConnectionManager.LinkLost]
      (ConnectionManager.disconnect Toy.connected) in
  ConnectionManager.scheduled st' = [] /\
  ConnectionManager.transfer (C := Toy.chain) st' Toy.signer "5Dest" 1
    = ConnectionManager.Settled (Throw (Error "Not connected")).
Proof.
  intros st'.
  destruct (disconnect_stops_reconnect Toy.chain Toy.connected
              [ConnectionManager.StaleLinkLost; ConnectionManager.TimerFired;
               ConnectionManager.LinkLost]
              Toy.signer "5Dest" 1 eq_refl eq_refl)
    as (_ & _ & _ & Hs & _ & _ & _ & Ht).
  split; [exact Hs | exact Ht].
Defined.

(** ** Extras: password rules and the strength meter *)

Section PasswordFacts.
Import Validation.

Lemma special_is_other (u : Z) : isSpecial u = true -> isOther u = true.
Proof.
  unfold isSpecial, SPECIAL. cbn [existsb]. rewrite !orb_true_iff.
  intros H. repeat (destruct H as [H|H]; [apply Z.eqb_eq in H; subst u; reflexivity|]).
  discriminate H.
Qed.

Lemma existsb_special_other (password : jsstring) :
  existsb isSpecial password = true -> existsb isOther password = true.
Proof.
  rewrite !existsb_exists. intros (u & Hu & Hs). exists u. split; [exact Hu|].
  apply special_is_other. exact Hs.
Qed.

Lemma score_bounds (password : jsstring) : 0 <= score password <= 7.
Proof.
  unfold score.
  repeat match goal with |- context [if ?b then 1 else 0] => destruct b end; lia.
Qed.

Lemma score_app (password extra : jsstring) : score password <= score (password ++ extra).
Proof.
  unfold score. rewrite !existsb_app, length_app, Nat2Z.inj_add.
  pose proof (Nat2Z.is_nonneg (length extra)) as He.
  set (n := Z.of_nat (length password)) in *. set (k := Z.of_nat (length extra)) in *.
  assert (Hlen : forall c, (if c <=? n then 1 else 0) <= (if c <=? n + k then 1 else 0)).
  { intros c. destruct (c <=? n) eqn:H1; destruct (c <=? n + k) eqn:H2; lia. }
  assert (Hor : forall a b : bool, (if a then 1 else 0) <= (if a || b then 1 else 0)).
  { intros [] []; cbn; lia. }
  pose proof (Hlen 8). pose proof (Hlen 12). pose proof (Hlen 16).
  pose proof (Hor (existsb isUpper password) (existsb isUpper extra)).
  pose proof (Hor (existsb isLower password) (existsb isLower extra)).
  pose proof (Hor (existsb isDigit password) (existsb isDigit extra)).
  pose proof (Hor (existsb isOther password) (existsb isOther extra)).
  lia.
Qed.

Lemma level_of_score (password : jsstring) :
  password <> [] -> level (getPasswordStrength password) = Z.min 4 (score password * 4 / 7).
Proof. destruct password; [congruence | reflexivity]. Qed.

Lemma valid_checks (password : jsstring) :
  isValid (validatePassword password) = true ->
  8 <= Z.of_nat (length password) /\ existsb isUpper password = true /\
  existsb isDigit password = true /\ existsb isSpecial password = true.
Proof.
  unfold validatePassword. cbv zeta.
  destruct (Z.of_nat (length password) <? 8) eqn:Hl;
    destruct (existsb isUpper password);
    destruct (existsb isDigit password);
    destruct (existsb isSpecial password); cbn; try discriminate.
  intros _. repeat split. lia.
Qed.

End PasswordFacts.

(** X28: the password rules and the strength meter agree in one direction.
    The level of [getPasswordStrength] is between 0 and 4, and at least 2
    (never the label [weak]) for a password that [validatePassword]
    accepts.  Typing more never lowers the level and never adds an error:
    the errors of a longer password are among those of its beginning, in
    the same order.  The converse fails: a password at the highest level
    can be rejected, since the meter counts any character that is not a
    letter or a digit, and the rules only the listed ones. *)
Theorem password_strength_bounds (password extra : jsstring) :
  let strength := Validation.getPasswordStrength password in
  let longer := password ++ extra in
  (if Validation.isValid (Validation.validatePassword password) then 2 else 0)
    <= Validation.level strength <= 4 /\
  (if Validation.isValid (Validation.validatePassword password)
   then Validation.label strength <> Validation.weak else True) /\
  Validation.level strength <= Validation.level (Validation.getPasswordStrength longer) /\
  Validation.errors (Validation.validatePassword longer)
    `sublist_of` Validation.errors (Validation.validatePassword password) /\
  (let spaced := replicate 14 97 ++ [65; 49; 32] in
   Validation.level (Validation.getPasswordStrength spaced) = 4 /\
   Validation.validatePassword spaced
     = Validation.MakeValidation false [Validation.special]).
Proof.
  intros strength longer.
  pose proof (score_bounds password) as Hb.
  assert (Hlevel : forall p, 0 <= Validation.level (Validation.getPasswordStrength p) <= 4).
  { intros p. destruct p as [|u p]; [cbn; lia|].
    rewrite level_of_score by discriminate.
    pose proof (score_bounds (u :: p)) as Hp.
    assert (0 <= Validation.score (u :: p) * 4 / 7) by (apply Z.div_pos; lia). lia. }
  assert (Hvalid : Validation.isValid (Validation.validatePassword password) = true ->
                   2 <= Validation.level strength /\
                   Validation.label strength <> Validation.weak).
  { intros Hv. destruct (valid_checks password Hv) as (Hl & Hu & Hd & Hs).
    apply existsb_special_other in Hs.
    assert (Hne : password <> []) by (intros ->; discriminate Hu).
    assert (H4 : 4 <= Validation.score password).
    { unfold Validation.score. rewrite Hu, Hd, Hs.
      destruct (8 <=? Z.of_nat (length password)) eqn:H8; [|lia].
      repeat match goal with |- context [if ?b then 1 else 0] => destruct b end; lia. }
    subst strength. destruct password as [|u p]; [congruence|].
    unfold Validation.getPasswordStrength. cbn [Validation.level Validation.label].
    assert (Hs4 : Validation.score (u :: p) = 4 \/ Validation.score (u :: p) = 5 \/
                  Validation.score (u :: p) = 6 \/ Validation.score (u :: p) = 7) by lia.
    destruct Hs4 as [ -> | [ -> | [ -> | -> ] ] ]; cbn; split; (lia || discriminate). }
  split.
  { destruct (Validation.isValid _) eqn:Hv; [|apply Hlevel].
    split; [apply Hvalid; reflexivity | apply Hlevel]. }
  split.
  { destruct (Validation.isValid _) eqn:Hv; [|exact I]. apply Hvalid; reflexivity. }
  split.
  { subst strength longer. destruct password as [|u p]; [apply Hlevel|].
    rewrite !level_of_score by discriminate.
    pose proof (score_app (u :: p) extra) as Happ.
    apply Z.min_le_compat_l, Z.div_le_mono; lia. }
  split; [|split; reflexivity].
  subst longer. unfold Validation.validatePassword. cbv zeta.
  cbn [Validation.errors]. rewrite !existsb_app, length_app, Nat2Z.inj_add.
  pose proof (Nat2Z.is_nonneg (length extra)) as He.
  destruct (Z.of_nat (length password) + Z.of_nat (length extra) <? 8) eqn:H1;
    destruct (Z.of_nat (length password) <? 8) eqn:H2; try lia;
    destruct (existsb Validation.isUpper password);
    destruct (existsb Validation.isDigit password);
    destruct (existsb Validation.isSpecial password);
    destruct (existsb Validation.isUpper extra);
    destruct (existsb Validation.isDigit extra);
    destruct (existsb Validation.isSpecial extra);
    cbn [orb negb app];
    repeat first [apply sublist_nil | apply sublist_skip | apply sublist_cons].
Qed.

(** ** Extras: waiting for inclusion *)

Section InclusionFacts.
Import ConnectionManager ManagerEvents.
Context {C : Chain}.

Lemma awaitInclusion_skip (st : manager) (tx : Tx) (status : Status) (rest : list Status) :
  decides st status = false ->
  awaitInclusion st tx (status :: rest) = awaitInclusion st tx rest.
Proof.
  unfold decides. cbn [awaitInclusion].
  destruct (isInBlock status || isFinalized status); [|reflexivity]. cbn [andb].
  destruct (dispatchError status) as [d|]; [|discriminate].
  destruct (isModule d && bool_decide (is_Some (api st))); [|discriminate].
  destruct (asModule d); [discriminate | reflexivity].
Qed.

Lemma awaitInclusion_decided (st : manager) (tx : Tx) (status : Status) (rest : list Status) :
  decides st status = true ->
  awaitInclusion st tx (status :: rest) = awaitInclusion st tx [status] /\
  exists r,
    awaitInclusion st tx [status] = Settled (Return r) /\
    success r = negb (bool_decide (is_Some (dispatchError status))) /\
    hash r = (if success r then Some (txHash tx) else None) /\
    (if success r then error r = None else is_Some (error r)).
Proof.
  unfold decides. cbn [awaitInclusion].
  destruct (isInBlock status || isFinalized status); [|discriminate]. cbn [andb].
  destruct (dispatchError status) as [d|].
  - rewrite (bool_decide_eq_true_2 (is_Some (Some d))) by (eexists; reflexivity).
    destruct (isModule d && bool_decide (is_Some (api st))).
    + destruct (asModule d); [|discriminate]. intros _. split; [reflexivity|].
      eexists. split; [reflexivity|]. cbn. repeat split; eauto.
    + intros _. split; [reflexivity|]. eexists. split; [reflexivity|]. cbn. repeat split; eauto.
  - intros _. split; [reflexivity|]. eexists. split; [reflexivity|].
    rewrite (bool_decide_eq_false_2 (is_Some (@None DispatchError)))
      by (intros [x Hx]; discriminate).
    cbn. repeat split; eauto.
Qed.

End InclusionFacts.

(** X29: how [submitAndWaitForBlock] settles.  If sending rejects, the
    result is a failure with the error's message.  Otherwise the first
    status update that is in a block or finalized and that the callback
    handles without throwing decides, whatever is reported before or after
    it: success with the transaction's hash when the update carries no
    dispatch error, a failure with an error text and no hash when it does.
    If there is no such update the promise stays pending: there is no
    timeout. *)
Theorem inclusion_first_decides (C : ConnectionManager.Chain)
    (st : ConnectionManager.manager) (tx : ConnectionManager.Tx) :
  match ConnectionManager.send tx with
  | ConnectionManager.Rejects e =>
      ConnectionManager.submitAndWaitForBlock st tx
        = ConnectionManager.Settled
            (Return (ConnectionManager.Result false None (Some (exn_message e))))
  | ConnectionManager.Updates statuses =>
      match List.find (ManagerEvents.decides st) statuses with
      | Some status =>
          exists r,
            ConnectionManager.submitAndWaitForBlock st tx
              = ConnectionManager.Settled (Return r) /\
            ConnectionManager.awaitInclusion st tx [status]
              = ConnectionManager.Settled (Return r) /\
            ConnectionManager.success r
              = negb (bool_decide (is_Some (ConnectionManager.dispatchError status))) /\
            ConnectionManager.hash r
              = (if ConnectionManager.success r then Some (ConnectionManager.txHash tx)
                 else None) /\
            (if ConnectionManager.success r then ConnectionManager.error r = None
             else is_Some (ConnectionManager.error r))
      | None => ConnectionManager.submitAndWaitForBlock st tx = ConnectionManager.Pending
      end
  end.
Proof.
  unfold ConnectionManager.submitAndWaitForBlock.
  destruct (ConnectionManager.send tx) as [e|statuses]; [reflexivity|].
  induction statuses as [|status rest IH]; [reflexivity|].
  cbn [List.find]. destruct (ManagerEvents.decides st status) eqn:Hd.
  - destruct (awaitInclusion_decided st tx status rest Hd) as (Hfirst & r & Hr & Hrest).
    exists r. rewrite Hfirst. auto.
  - rewrite (awaitInclusion_skip st tx status rest Hd). exact IH.
Qed.

(** ** Extras: address validation *)

Section AddressFacts.
Import AddressRules.

Lemma trimStart_app (s e : jsstring) :
  trimStart (s ++ e) = if forallb isWhiteSpace s then trimStart e else trimStart s ++ e.
Proof.
  induction s as [|u s IH]; [reflexivity|]. cbn [app trimStart forallb].
  destruct (isWhiteSpace u); [exact IH | reflexivity].
Qed.

Lemma trimStart_blank (s : jsstring) : forallb isWhiteSpace s = true -> trimStart s = [].
Proof.
  induction s as [|u s IH]; [reflexivity|]. cbn [forallb trimStart].
  destruct (isWhiteSpace u); [exact IH | discriminate].
Qed.

Lemma forallb_rev {A} (f : A -> bool) (l : list A) : forallb f (rev l) = forallb f l.
Proof.
  induction l as [|a l IH]; [reflexivity|]. cbn [rev forallb].
  rewrite forallb_app, IH. cbn. rewrite andb_true_r. apply andb_comm.
Qed.

Lemma trimEnd_app (s e : jsstring) :
  forallb isWhiteSpace e = true -> trimEnd (s ++ e) = trimEnd s.
Proof.
  intros He. unfold trimEnd. rewrite rev_app_distr, trimStart_app, forallb_rev, He.
  reflexivity.
Qed.

Lemma trim_padded (before s after : jsstring) :
  forallb isWhiteSpace before = true -> forallb isWhiteSpace after = true ->
  trim (before ++ s ++ after) = trim s.
Proof.
  intros Hb Ha. unfold trim. rewrite trimStart_app, Hb, trimStart_app.
  destruct (forallb isWhiteSpace s) eqn:Hs.
  - rewrite (trimStart_blank after Ha), (trimStart_blank s Hs). reflexivity.
  - apply trimEnd_app. exact Ha.
Qed.

(** What is left after [trim] has no white space at either end. *)
Lemma trimStart_head (s : jsstring) (u : Z) (rest : jsstring) :
  trimStart s = u :: rest -> isWhiteSpace u = false.
Proof.
  induction s as [|v s IH]; [discriminate|]. cbn [trimStart].
  destruct (isWhiteSpace v) eqn:Hv; [exact IH|]. intros [= <- _]. exact Hv.
Qed.

End AddressFacts.

(** X30: [validateSS58Address] judges the address without the white space
    around it: padding the address with white space or line breaks changes
    nothing in the result.  An address is valid only if what is left after
    trimming consists of 45 to 50 base58 characters and [decodeAddress]
    accepts it, and then no error is given; otherwise the error is one of
    four texts (an empty or blank address is "Address is required"). *)
Theorem address_validation (decodeAddress : jsstring -> completion (list byte))
    (address before after : jsstring) :
  forallb AddressRules.isWhiteSpace before = true ->
  forallb AddressRules.isWhiteSpace after = true ->
  let result := AddressRules.validateSS58Address decodeAddress address in
  let trimmed := AddressRules.trim address in
  AddressRules.validateSS58Address decodeAddress (before ++ address ++ after) = result /\
  (AddressRules.trim (before ++ after) = [] /\
   AddressRules.validateSS58Address decodeAddress (before ++ after)
     = AddressRules.MakeValidation false (Some "Address is required"%string)) /\
  if AddressRules.isValid result then
    AddressRules.error result = None /\
    45 <= Z.of_nat (length trimmed) <= 50 /\
    forallb AddressRules.isBase58 trimmed = true /\
    exists publicKey, decodeAddress trimmed = Return publicKey
  else
    exists message,
      AddressRules.error result = Some message /\
      In message ["Address is required"; "Invalid address format"; "Invalid address length";
                  "Invalid SS58 address"]%string.
Proof.
  intros Hb Ha result trimmed.
  assert (Hempty : forall x : jsstring,
            bool_decide (x = []) || bool_decide (AddressRules.trim x = [])
            = bool_decide (AddressRules.trim x = [])).
  { intros [|u x]; [reflexivity|].
    rewrite (bool_decide_eq_false_2 (u :: x = [])) by discriminate. reflexivity. }
  assert (Hblank : AddressRules.trim (before ++ after) = []).
  { pose proof (trim_padded before [] after Hb Ha) as Hp. cbn [app] in Hp. exact Hp. }
  split; [|split; [split; [exact Hblank|]|]].
  - subst result. unfold AddressRules.validateSS58Address. rewrite !Hempty.
    rewrite (trim_padded before address after Hb Ha). reflexivity.
  - unfold AddressRules.validateSS58Address. rewrite Hempty, Hblank. reflexivity.
  - subst result trimmed. unfold AddressRules.validateSS58Address. rewrite Hempty.
    destruct (bool_decide (AddressRules.trim address = [])).
    { cbn. eexists. split; [reflexivity|]. auto. }
    cbv zeta. destruct (AddressRules.base58Text (AddressRules.trim address)) eqn:H58; cbn [negb].
    2:{ cbn. eexists. split; [reflexivity|]. auto. }
    destruct (Z.of_nat (length (AddressRules.trim address)) <? 45) eqn:Hlo; cbn [orb].
    { cbn. eexists. split; [reflexivity|]. auto. }
    destruct (50 <? Z.of_nat (length (AddressRules.trim address))) eqn:Hhi.
    { cbn. eexists. split; [reflexivity|]. auto. }
    destruct (decodeAddress (AddressRules.trim address)) as [publicKey|e] eqn:Hd.
    2:{ cbn. eexists. split; [reflexivity|]. auto 6. }
    cbn. split; [reflexivity|]. split; [lia|]. split; [|eauto].
    unfold AddressRules.base58Text in H58.
    destruct (AddressRules.trim address); [discriminate | exact H58].
Qed.

Lemma address_validation_witness :
  let decodeAddress := fun _ : jsstring => Return (replicate 32 x00) in
  AddressRules.validateSS58Address decodeAddress ([32; 9] ++ replicate 47 53 ++ [10])
    = AddressRules.validateSS58Address decodeAddress (replicate 47 53) /\
  AddressRules.isValid (AddressRules.validateSS58Address decodeAddress (replicate 47 53)) = true.
Proof.
  intros decodeAddress.
  destruct (address_validation decodeAddress (replicate 47 53) [32; 9] [10] eq_refl eq_refl)
    as (Hpad & _ & _).
  split; [exact Hpad | reflexivity].
Defined.
